(* ===== verification/_CoqProject ===== *)
-Q . S2P
Prelude.v
XhciData.v
State.v
Sim.v
Fmt.v
BootInfo.v
Serial.v
Vga.v
Pmm.v
Task.v
Debug.v
Keyboard.v
Pic.v
Idt.v
Gdt.v
Journal.v
ApplyAction.v
AiModel.v
Initrd.v
AiAgent.v
Pci.v
XhciRegs.v
XhciRings.v
XhciCtl.v
CmdRing.v
Reports.v
Shell.v
Session.v
Main.v
Boot.v
Keystrokes.v
Typed.v
