(* ===== verification/Prelude.v ===== *)
(** * mon-os: a verification development of the kernel

    mon-os is a small x86_64 kernel in Rust (src/kernel/src).  This library models its
    modules as executable Rocq definitions and proves what makes them correct.

    ** The program and its model

    The kernel is one address space of modules with statics.  [kernel_main] (main.rs)
    brings up serial, console, interrupt table, interrupt controllers and allocator,
    scans PCI for a USB controller, and then loops: it drains the events of the xHCI
    controller, runs one cooperative task (the AI agent) and one step of the shell, and
    halts until the next interrupt.  Interrupt handlers count ticks and feed the keyboard
    ring.  The agent reads telemetry, runs a small int8 network over a model found in the
    ramdisk and proposes actions, which [apply_action] validates, journals, applies and
    rolls back when its self test fails.

    State: [State.World] gathers all the statics, physical memory, the interrupt flag and
    the devices.  The statics are fields of their own and the code is not data: the memory
    of the model is what lies outside the kernel's image, see the assumptions below.  A function with effects is a computation of the monad [K] (section 3
    below), whose outcomes are a value, a panic, a deadlock (a spin lock taken twice on
    the only core), a halt for ever, and exhausted fuel; fallible code returns [option] or
    a sum.  Machine integers are [Z] with the wrap-around of a release build written out.
    Devices and third-party crates are the classes [State.Hardware] and [State.Crates],
    the latter with the laws [State.CratesLaws] the code relies on; what a load of the
    keyboard's buffer yields is the class [State.Build]; PCI has the stronger
    interface [Pci.PciBus], and the x86_64 crate's descriptors are [Gdt.Segmentation].  Sim.v,
    Pci.v and Gdt.v give instances on which everything runs.

    ** Files

    - Prelude.v: integers, bytes and memory, the monad, its weakest preconditions,
      bounded loops, tactics and hints.  State.v: the world, ports, locks.  Sim.v: a
      concrete platform.  Fmt.v: the decimal, hexadecimal and binary formats of [core::fmt].
    - BootInfo.v (bootinfo.rs), Serial.v (serial.rs), Vga.v (vga.rs), Pmm.v (pmm.rs),
      Task.v (task.rs), Keyboard.v (keyboard.rs), Pic.v (pic.rs), Pci.v (pci.rs): one
      module of the kernel each, every function under its own name.
    - Idt.v: idt.rs and syscall.rs; the descriptor table as data, the handlers, and
      [preempt], the delivery of pending interrupts at a point of the running code.
    - Journal.v (journal.rs, ai_action.rs), ApplyAction.v (apply_action.rs), AiModel.v
      (ai_model.rs), Initrd.v (ai_initrd.rs, ramfs.rs), AiAgent.v (ai_agent.rs).
    - Gdt.v: gdt.rs, what is built and in which order it is loaded.
    - XhciData.v, XhciRegs.v, XhciRings.v, XhciCtl.v: xhci.rs in four parts, its data,
      its registers, its rings and events, and the bring-up of controller and keyboard.
      CmdRing.v: the ring types of xhci.rs that nothing uses yet.
    - Shell.v (shell.rs): parsing, the commands, the line editor, and what each command
      answers.  Session.v: whole sessions of keystrokes against a specification
      that covers every line: a session goes to the end of its input or to the first
      line whose command acts instead of answering.
    - Debug.v, Reports.v, Main.v: main.rs in three parts, its ports, its two reports with
      the bring-up of a USB keyboard, and the boot sequence with its cargo features, the
      main loop and the panic handler.  Boot.v: what a boot, any number of rounds
      of the loop and a panic do.
      Keystrokes.v: handlers, ring, console, shell and main loop together, from a key press
      to the answer, over any controller with the interface [Keystrokes.KeyboardPort].
    - Typed.v: the types and ranges of all the statics, kept by every function.

    ** What the theorems show

    - Actions: an action is applied, rolled back or refused as its kind, parameters and
      the self test say, with the journal entries of its branch, and the quantum is within
      bounds in every reachable state (ApplyAction.v).  The agent computes the network it
      means to, within the model's bytes, and only proposes what is accepted (AiAgent.v,
      AiModel.v).
    - Memory: blocks of the allocator are aligned, disjoint and inside the largest usable
      region, also when any number of allocating contexts interleave at their atomic
      steps (Pmm.v); the memory map is read entry by entry (BootInfo.v).
    - Ramdisk: the readers terminate on every image, stay inside it, and read back every
      archive that was packed (Initrd.v).
    - Console and keyboard: the console refines a scrolling terminal (Vga.v); the ring
      between handler and reader is a bounded queue under interleaving, and every scancode
      acts as its table entry (Keyboard.v).  Text reaches COM1 whatever the UART
      answers (Serial.v).
    - Interrupts: every line is dispatched to its handler and acknowledged once, and
      exceptions report and stop (Idt.v).  Tasks are scheduled fairly (Task.v).
    - PCI and USB: the scan visits every function once (Pci.v); rings, descriptors and the
      controller's structures are as the driver means them (XhciRings.v, XhciCtl.v).
    - Segments: every segment register and stack table entry is what gdt.rs means it to be,
      and the double-fault stack is one of its own (Gdt.v).
    - Shell: a line is split and numbers are read as specified, every command gives its
      answer, a sleep ends, and the shell follows the session of whatever is typed, a line
      editor with the answers of its commands (Shell.v, Session.v).
    - The whole: without a model or an xHCI controller the kernel boots to its prompt with
      an exact transcript and screen, and [kernel_main] then does what its features say; the
      main loop neither panics nor deadlocks, for any number of rounds and whatever is typed between
      its calls; a panic reports itself where the locks are free (Boot.v); what is typed while
      the kernel halts is echoed, queued and answered, or powers the machine off
      (Keystrokes.v); on any machine and on every outcome the kernel's own code keeps the types of
      its statics (Typed.v).
    - What does not hold is stated too: the overflow of a huge allocation and of a memory-map
      entry at the top of the address space, the image handed out as free memory (Pmm.v), the
      keys that type nothing, and the deadlocks of the console in a handler, of the
      doorbell under the controller's lock and of a panic under the console's.

    ** Bounds and fuel

    Loops of the source with a fixed bound keep it ([ktry], [kfor]).  The archive readers
    have one round per 110 bytes, the descriptor parser one per byte: both are proved
    enough.  The allocator's retry loop ends in its first round when nothing interleaves.
    [XhciRings.poll_events], [AiAgent.ai_agent_main], [Shell.sleep_loop], [Shell.step] and
    [Main.main_loop], which the outside world can keep busy for ever, take their fuel as an
    argument; Shell.v and Session.v say how much is enough, and Typed.v speaks of every fuel.

    ** Assumptions of the model

    - No store through a pointer and no DMA reaches the kernel's image.  The program does not
      ensure it: linker.ld loads the image at 1 MiB, and [pmm::init] may hand out that very
      address as the first free block, which [Pmm.pmm_hands_out_the_image] shows on the memory map of a
      PC.  Only the xHCI driver allocates, so it is the theorems of XhciRings.v and XhciCtl.v, and
      Typed.v on machines with such a controller, that rest on it.
    - keyboard.rs stores characters into [KBUF], an immutable static, through a cast pointer.
      Rust leaves that undefined, and a build may load the initial zero instead.  What the
      load yields is the parameter [State.Build]; theorems that need the stored character (Session.v,
      Boot.v, Keystrokes.v) assume [State.BuildKeeps], and [Keyboard.keyboard_ring_linearizable] says
      what is true without it.
    - Interrupts are on from the end of the boot.  The model takes them where the code waits for them
      (the [hlt] of the main loop and of a sleep, the yield command, the rounds of the self test) and
      between the calls of a round, not inside a call: there the keyboard's handler may find a
      lock held and hang, [Idt.keyboard_irq_deadlocks_on_console], and the theorems on the main
      loop do not cover it.  Pmm.v and Keyboard.v treat interrupts between the atomic
      accesses of the allocator and of the ring.

    ** Not modelled

    The loader in assembly and the build scripts; paging, caches and the timing of devices;
    the busy bit of a task segment. *)

From stdpp Require Import gmap strings list.
From Stdlib Require Import ZArith Lia.

Set Default Proof Using "Type".

Open Scope Z_scope.

(** ** 1. Machine integers

    A Rust integer of width [w] is a [Z] in its range.  The kernel is built with
    [--release] and no overflow checks (Makefile, kernel/Cargo.toml), so [+], [-],
    [*] wrap around: every such operation is written with the truncation below. *)

Definition wrap (w z : Z) : Z := z mod 2 ^ w.
Abbreviation u8 := (wrap 8).
Abbreviation u16 := (wrap 16).
Abbreviation u32 := (wrap 32).
Abbreviation u64 := (wrap 64).

(** Two's complement reading of the low [w] bits, the [as i8] / [as i32] casts. *)
Definition swrap (w z : Z) : Z := (z + 2 ^ (w - 1)) mod 2 ^ w - 2 ^ (w - 1).
Abbreviation i8 := (swrap 8).
Abbreviation i32 := (swrap 32).

Definition fits (w z : Z) : Prop := 0 <= z < 2 ^ w.

(** The [saturating_*] methods of [u64] and [usize], and of [i32]. *)
Definition sat_add64 (x y : Z) : Z := Z.min (x + y) (2 ^ 64 - 1).
Definition sat_mul64 (x y : Z) : Z := Z.min (x * y) (2 ^ 64 - 1).
Definition sat_sub (x y : Z) : Z := Z.max (x - y) 0.
Definition sat_add_i32 (x y : Z) : Z :=
  Z.max (- 2 ^ 31) (Z.min (x + y) (2 ^ 31 - 1)).

(** [!x] on a [w]-bit unsigned integer. *)
Definition bnot (w x : Z) : Z := wrap w (Z.lnot x).

(** A set bit: [x & m != 0] for a one-bit mask. *)
Definition has (x m : Z) : bool := negb (Z.land x m =? 0).

Create HintDb ints.

Lemma wrap_range w z : 0 <= w -> 0 <= wrap w z < 2 ^ w.
Proof. intros. apply Z.mod_pos_bound. lia. Qed.

Lemma wrap_small w z : 0 <= z < 2 ^ w -> wrap w z = z.
Proof. apply Z.mod_small. Qed.

Lemma wrap_fits w z : 0 <= w -> fits w (wrap w z).
Proof. apply wrap_range. Qed.

Lemma swrap_small w z : 0 < w -> - 2 ^ (w - 1) <= z < 2 ^ (w - 1) -> swrap w z = z.
Proof.
  intros Hw Hz. unfold swrap. rewrite Z.mod_small; [lia | ].
  replace (2 ^ w) with (2 * 2 ^ (w - 1)); [lia | ].
  rewrite <- Z.pow_succ_r by lia. f_equal. lia.
Qed.

Lemma swrap_range w z : 0 < w -> - 2 ^ (w - 1) <= swrap w z < 2 ^ (w - 1).
Proof.
  intros Hw. unfold swrap.
  assert (E : 2 ^ w = 2 * 2 ^ (w - 1)).
  { rewrite <- Z.pow_succ_r by lia. f_equal. lia. }
  pose proof (Z.mod_pos_bound (z + 2 ^ (w - 1)) (2 ^ w)) as B.
  assert (0 < 2 ^ w) by (apply Z.pow_pos_nonneg; lia). lia.
Qed.

#[export] Hint Resolve wrap_fits wrap_range : ints.

(** Evaluates the powers of two that occur as literals, then [lia]. *)
Ltac pow2 :=
  repeat match goal with
  | H : context [2 ^ ?k] |- _ =>
      let v := eval vm_compute in (2 ^ k) in
      lazymatch v with Z.pos _ => change (2 ^ k) with v in * end
  | |- context [2 ^ ?k] =>
      let v := eval vm_compute in (2 ^ k) in
      lazymatch v with Z.pos _ => change (2 ^ k) with v in * end
  end.
Ltac zlia := unfold fits in *; pow2; lia.

(** Masks: [x & (2^n - 1)] is a remainder, [x & !(2^n - 1)] rounds down. *)
Lemma land_ones_mod x n m : 0 <= n -> m = 2 ^ n - 1 -> Z.land x m = x mod 2 ^ n.
Proof.
  intros Hn ->. rewrite <- Z.land_ones by done. f_equal. rewrite Z.ones_equiv. lia.
Qed.

Lemma land_not_low x n w :
  0 <= n <= w -> 0 <= x < 2 ^ w ->
  Z.land x (bnot w (2 ^ n - 1)) = x - x mod 2 ^ n.
Proof.
  intros Hn Hx. unfold bnot, wrap.
  rewrite <- Z.land_ones by lia.
  rewrite (Z.land_comm (Z.lnot _)), Z.land_assoc, Z.land_ones, (Z.mod_small x) by lia.
  replace (2 ^ n - 1) with (Z.ones n) by (rewrite Z.ones_equiv; lia).
  rewrite <- Z.ldiff_land. rewrite Z.ldiff_ones_r by lia.
  rewrite Z.shiftl_mul_pow2, Z.shiftr_div_pow2 by lia.
  pose proof (Z.div_mod x (2 ^ n)). assert (0 < 2 ^ n) by (apply Z.pow_pos_nonneg; lia).
  lia.
Qed.

Lemma has_testbit x n : 0 <= n -> has x (2 ^ n) = Z.testbit x n.
Proof.
  intros Hn. unfold has. destruct (Z.testbit x n) eqn:E.
  - apply negb_true_iff, Z.eqb_neq. intros H0.
    apply (f_equal (fun y => Z.testbit y n)) in H0.
    rewrite Z.land_spec, Z.bits_0, E, Z.pow2_bits_true in H0 by done. discriminate.
  - apply negb_false_iff, Z.eqb_eq, Z.bits_inj'. intros i Hi.
    rewrite Z.land_spec, Z.bits_0, Z.pow2_bits_eqb by done.
    destruct (n =? i) eqn:F; [ | by rewrite andb_false_r].
    apply Z.eqb_eq in F as <-. by rewrite E.
Qed.

Lemma fits_testbit n x i : fits n x -> n <= i -> Z.testbit x i = false.
Proof.
  intros Hx Hi. destruct (Z.neg_nonneg_cases n) as [Hn | Hn].
  { destruct Hx. rewrite Z.pow_neg_r in * by done. lia. }
  rewrite <- (Z.mod_small x (2 ^ n)) by done. by apply Z.mod_pow2_bits_high.
Qed.

Lemma testbit_fits n x :
  0 <= n -> 0 <= x -> (forall i, n <= i -> Z.testbit x i = false) -> fits n x.
Proof.
  intros Hn Hx H. assert (x = x mod 2 ^ n) as ->.
  { apply Z.bits_inj'. intros i Hi. destruct (Z.lt_ge_cases i n).
    - by rewrite Z.mod_pow2_bits_low.
    - by rewrite Z.mod_pow2_bits_high, H. }
  by apply wrap_fits.
Qed.

Lemma lor_fits n a b : 0 <= n -> fits n a -> fits n b -> fits n (Z.lor a b).
Proof.
  intros Hn Ha Hb. apply testbit_fits; [done | apply Z.lor_nonneg; split; [apply Ha | apply Hb] | ].
  intros i Hi. by rewrite Z.lor_spec, (fits_testbit n a), (fits_testbit n b).
Qed.

(** Fields that do not overlap are added up by [|]. *)
Lemma lor_add n a b : 0 <= n -> 0 <= b < 2 ^ n -> Z.lor (a * 2 ^ n) b = a * 2 ^ n + b.
Proof.
  intros Hn Hb. rewrite <- (Z.add_lor_land (a * 2 ^ n) b).
  assert (Z.land (a * 2 ^ n) b = 0) as ->; [ | lia].
  apply Z.bits_inj'. intros i Hi. rewrite Z.land_spec, Z.bits_0.
  destruct (Z.lt_ge_cases i n).
  - by rewrite Z.mul_pow2_bits_low.
  - by rewrite (fits_testbit n b), andb_false_r.
Qed.

#[export] Hint Resolve lor_fits : ints.

(** ** 2. Byte strings and physical memory

    Rust strings and byte slices are lists of bytes.  Physical memory is identity
    mapped; an address that was never written reads as zero.  Loads and stores of
    more than one byte are little endian. *)

Definition bytes_of (s : string) : list Z :=
  (fun c => Z.of_N (Ascii.N_of_ascii c)) <$> String.list_ascii_of_string s.

Abbreviation memory := (gmap Z Z).

Definition ld8 (m : memory) (a : Z) : Z := u8 (default 0 (m !! a)).

Fixpoint ld (n : nat) (m : memory) (a : Z) : Z :=
  match n with
  | O => 0
  | S n' => ld8 m a + 256 * ld n' m (a + 1)
  end.

Fixpoint st (n : nat) (a v : Z) (m : memory) : memory :=
  match n with
  | O => m
  | S n' => <[a := v mod 256]> (st n' (a + 1) (v / 256) m)
  end.

(** [slice::from_raw_parts(a, n)] read as a list of bytes. *)
Definition ld_bytes (m : memory) (a n : Z) : list Z :=
  (fun i => ld8 m (a + i)) <$> seqZ 0 n.

(** A byte string stored at [a]. *)
Fixpoint st_bytes (a : Z) (bs : list Z) (m : memory) : memory :=
  match bs with
  | [] => m
  | b :: bs' => <[a := b]> (st_bytes (a + 1) bs' m)
  end.

Lemma st_frame n a v m b : b < a \/ a + Z.of_nat n <= b -> st n a v m !! b = m !! b.
Proof.
  revert a v. induction n as [ | n IH]; intros a v Hb; cbn; [done | ].
  rewrite lookup_insert_ne by lia. apply IH. lia.
Qed.

Lemma ld_ext n m m' a :
  (forall i, a <= i < a + Z.of_nat n -> m !! i = m' !! i) -> ld n m a = ld n m' a.
Proof.
  revert a. induction n as [ | n IH]; intros a H; cbn; [done | ].
  unfold ld8. rewrite (H a) by lia. rewrite (IH (a + 1)); [done | ].
  intros i Hi. apply H. lia.
Qed.

Lemma ld_st_same n a v m : ld n (st n a v m) a = v mod 2 ^ (8 * Z.of_nat n).
Proof.
  revert a v. induction n as [ | n IH]; intros a v.
  - cbn. by rewrite Z.mod_1_r.
  - cbn [ld st]. unfold ld8 at 1. rewrite lookup_insert_eq. cbn [default from_option].
    rewrite wrap_small by (apply Z.mod_pos_bound; lia). unfold id.
    rewrite (ld_ext _ _ (st n (a + 1) (v / 256) m)), IH.
    + replace (8 * Z.of_nat (S n)) with (8 + 8 * Z.of_nat n) by lia.
      rewrite Z.pow_add_r by lia. change (2 ^ 8) with 256.
      rewrite Z.rem_mul_r by (first [lia | apply Z.pow_pos_nonneg; lia]). reflexivity.
    + intros i Hi. apply lookup_insert_ne. lia.
Qed.

Lemma ld_st_disjoint n k a b v m :
  b + Z.of_nat k <= a \/ a + Z.of_nat n <= b -> ld k (st n a v m) b = ld k m b.
Proof. intros H. apply ld_ext. intros i Hi. apply st_frame. lia. Qed.

Lemma ld8_range m a : 0 <= ld8 m a < 256.
Proof. apply (wrap_range 8). lia. Qed.

Lemma ld_range n m a : 0 <= ld n m a < 2 ^ (8 * Z.of_nat n).
Proof.
  revert a. induction n as [ | n IH]; intros a; [done | ]. cbn [ld].
  pose proof (ld8_range m a). specialize (IH (a + 1)).
  replace (8 * Z.of_nat (S n)) with (8 + 8 * Z.of_nat n) by lia.
  rewrite Z.pow_add_r by lia. change (2 ^ 8) with 256. lia.
Qed.

Lemma length_ld_bytes m a n : length (ld_bytes m a n) = Z.to_nat n.
Proof. unfold ld_bytes. by rewrite length_fmap, length_seqZ. Qed.

Lemma lookup_ld_bytes m a n i :
  0 <= i < n -> ld_bytes m a n !! Z.to_nat i = Some (ld8 m (a + i)).
Proof.
  intros Hi. unfold ld_bytes. rewrite list_lookup_fmap, lookup_seqZ_lt by lia.
  cbn. do 3 f_equal. lia.
Qed.

Lemma st_bytes_frame bs a m b :
  b < a \/ a + Z.of_nat (length bs) <= b -> st_bytes a bs m !! b = m !! b.
Proof.
  revert a. induction bs as [ | x bs IH]; intros a Hb; cbn in *; [done | ].
  rewrite lookup_insert_ne by lia. apply IH. lia.
Qed.

Lemma st_bytes_lookup bs a m i x :
  bs !! i = Some x -> st_bytes a bs m !! (a + Z.of_nat i) = Some x.
Proof.
  revert a i. induction bs as [ | y bs IH]; intros a i H; [done | ].
  destruct i as [ | i]; cbn in *.
  - injection H as ->. replace (a + Z.of_nat 0) with a by lia. apply lookup_insert_eq.
  - rewrite lookup_insert_ne by lia.
    replace (a + Z.of_nat (S i)) with (a + 1 + Z.of_nat i) by lia. by apply IH.
Qed.

(** Memories that hold the same bytes in a region. *)
Definition agree (base len : Z) (m m' : memory) : Prop :=
  forall a, base <= a < base + len -> ld8 m a = ld8 m' a.

Lemma ld_bytes_agree base len m m' a n :
  agree base len m m' -> base <= a -> a + n <= base + len -> ld_bytes m a n = ld_bytes m' a n.
Proof.
  intros H Ha Hn. unfold ld_bytes. apply list_fmap_ext. intros i x Hx.
  apply lookup_seqZ in Hx as [-> Hx]. apply H. lia.
Qed.

Lemma ld_agree base len m m' n a :
  agree base len m m' -> base <= a -> a + Z.of_nat n <= base + len -> ld n m a = ld n m' a.
Proof.
  intros H. revert a. induction n as [ | n IH]; intros a Ha Hn; [done | ]. cbn.
  rewrite (H a), (IH (a + 1)) by lia. done.
Qed.

Lemma seqZ_one a : seqZ a 1 = [a].
Proof. unfold seqZ. cbn. f_equal. Qed.

Lemma seqZ_snoc n : 0 <= n -> seqZ 0 (n + 1) = seqZ 0 n ++ [n].
Proof. intros H. rewrite seqZ_app, seqZ_one by lia. done. Qed.

Definition zlen (l : list Z) : Z := Z.of_nat (length l).

(** [bs] is what memory holds from address [a]. *)
Definition holds (m : memory) (a : Z) (bs : list Z) : Prop := ld_bytes m a (zlen bs) = bs.

Lemma zlen_app l1 l2 : zlen (l1 ++ l2) = zlen l1 + zlen l2.
Proof. unfold zlen. rewrite length_app. lia. Qed.

Lemma zlen_nonneg l : 0 <= zlen l.
Proof. unfold zlen. lia. Qed.

Lemma ld_bytes_split m a n k :
  0 <= n -> 0 <= k -> ld_bytes m a (n + k) = ld_bytes m a n ++ ld_bytes m (a + n) k.
Proof.
  intros Hn Hk. unfold ld_bytes. rewrite seqZ_app, fmap_app by done. f_equal.
  apply list_eq. intros i. rewrite !list_lookup_fmap.
  destruct (decide (Z.of_nat i < k)) as [Hi | Hi].
  - rewrite !lookup_seqZ_lt by lia. cbn. do 2 f_equal. lia.
  - rewrite !lookup_seqZ_ge by lia. done.
Qed.

Lemma holds_app m a l1 l2 : holds m a (l1 ++ l2) <-> holds m a l1 /\ holds m (a + zlen l1) l2.
Proof.
  unfold holds. rewrite zlen_app, ld_bytes_split by apply zlen_nonneg. split.
  - intros H. apply app_inj_1 in H; [done | ]. rewrite length_ld_bytes. unfold zlen. lia.
  - by intros [-> ->].
Qed.

Lemma holds_eq m a b l : a = b -> holds m a l -> holds m b l.
Proof. by intros ->. Qed.

Lemma holds_ld m a n l : n = zlen l -> holds m a l -> ld_bytes m a n = l.
Proof. by intros ->. Qed.

Lemma holds_byte m a l k x :
  holds m a l -> 0 <= k -> l !! Z.to_nat k = Some x -> ld8 m (a + k) = x.
Proof.
  intros H Hk Hx. unfold holds in H. apply lookup_lt_Some in Hx as Hl.
  rewrite <- H, lookup_ld_bytes in Hx by (unfold zlen; lia). by injection Hx.
Qed.

(** A property of all bytes, by evaluation. *)
Lemma byte_cases (P : Z -> bool) : forallb P (seqZ 0 256) = true -> forall b, fits 8 b -> P b = true.
Proof.
  intros H b Hb. apply Is_true_eq_left in H. rewrite forallb_True, Forall_forall in H.
  apply Is_true_eq_true, H, elem_of_seqZ. zlia.
Qed.

Lemma shiftr_byte b y : 0 <= b < 256 -> Z.shiftr (b + 256 * y) 8 = y.
Proof.
  intros H. rewrite Z.shiftr_div_pow2 by lia. change (2 ^ 8) with 256.
  symmetry. apply (Z.div_unique _ _ _ b); lia.
Qed.

(** *** Counting loops

    [for i in a..a+n] over a state [s] is [fold_left f (seqZ a n) s]. *)

Lemma fold_seqZ_ind {S} (P : Z -> S -> Prop) (f : S -> Z -> S) a n s :
  0 <= n -> P a s ->
  (forall i s', a <= i < a + n -> P i s' -> P (i + 1) (f s' i)) ->
  P (a + n) (fold_left f (seqZ a n) s).
Proof.
  intros Hn. revert a s. pattern n. apply natlike_ind; [ | | done].
  - intros a s H0 _. rewrite seqZ_nil by lia. cbn. by rewrite Z.add_0_r.
  - intros k Hk IH a s H0 Hs. rewrite seqZ_cons by lia. cbn.
    replace (a + Z.succ k) with (Z.succ a + k) by lia.
    replace (Z.pred (Z.succ k)) with k by lia.
    apply IH; [ | intros i s' Hi; apply Hs; lia].
    apply (Hs a); [lia | done].
Qed.

Lemma fold_seqZ_ext {S} (f g : S -> Z -> S) a n s :
  (forall s i, a <= i < a + n -> f s i = g s i) ->
  fold_left f (seqZ a n) s = fold_left g (seqZ a n) s.
Proof.
  intros H. assert (forall i, i ∈ seqZ a n -> a <= i < a + n) as Hr
    by (intros i Hi; by apply elem_of_seqZ in Hi).
  revert s. induction (seqZ a n) as [ | i l IH]; intros s; [done | ]. cbn.
  rewrite H by (apply Hr; left). apply IH. intros j Hj. apply Hr. by right.
Qed.

(** ** 3. The kernel's effects

    A kernel function that touches statics, ports or memory is a function from the
    state to an outcome.  Besides returning, it can panic, spin for ever on a mutex
    whose guard is alive ([Deadlock]), stop in a [hlt] loop ([Halt]), or use up the
    iteration budget given to a loop the code leaves unbounded ([OutOfFuel]). *)

Inductive outcome (S A : Type) : Type :=
| Ret (a : A) (s : S)
| Panic (s : S)
| Deadlock (s : S)
| Halt (s : S)
| OutOfFuel (s : S).
Arguments Ret {S A} a s.
Arguments Panic {S A} s.
Arguments Deadlock {S A} s.
Arguments Halt {S A} s.
Arguments OutOfFuel {S A} s.

Definition K (S A : Type) : Type := S -> outcome S A.

Definition kret {S A} (a : A) : K S A := fun s => Ret a s.

Definition kbind {S A B} (f : A -> K S B) (m : K S A) : K S B := fun s =>
  match m s with
  | Ret a s' => f a s'
  | Panic s' => Panic s'
  | Deadlock s' => Deadlock s'
  | Halt s' => Halt s'
  | OutOfFuel s' => OutOfFuel s'
  end.

#[export] Instance K_ret S : MRet (K S) := fun A => @kret S A.
#[export] Instance K_bind S : MBind (K S) := fun A B => @kbind S A B.

Definition gets {S A} (f : S -> A) : K S A := fun s => Ret (f s) s.
Definition modify {S} (f : S -> S) : K S unit := fun s => Ret tt (f s).
Definition kpanic {S A} : K S A := fun s => Panic s.
Definition khalt {S A} : K S A := fun s => Halt s.
Definition kfuel {S A} : K S A := fun s => OutOfFuel s.

(** [for x in l { f(x) }]. *)
Fixpoint kfor {S A} (l : list A) (f : A -> K S unit) : K S unit :=
  match l with
  | [] => mret tt
  | x :: l' => f x ;; kfor l' f
  end.

(** The same with a closure that captures a state [b]. *)
Fixpoint kfold {S A B} (l : list A) (f : A -> B -> K S B) (b : B) : K S B :=
  match l with
  | [] => mret b
  | x :: l' => b' ← f x b; kfold l' f b'
  end.

(** [for _ in 0..n { a = body(a)?, or return r }] with loop state [a]; [n] is binary
    so that the large constants of the code stay executable. *)
Fixpoint kiter {S A R} (n : positive) (body : A -> K S (A + R)) (a : A) : K S (A + R) :=
  match n with
  | xH => body a
  | xO n' =>
      r ← kiter n' body a;
      match r with inl a' => kiter n' body a' | inr x => mret (inr x) end
  | xI n' =>
      r ← body a;
      match r with
      | inl a' =>
          r' ← kiter n' body a';
          match r' with inl a'' => kiter n' body a'' | inr x => mret (inr x) end
      | inr x => mret (inr x)
      end
  end.

(** The same without loop state: [None] goes on, [Some r] leaves the loop with [r]. *)
Definition ktry {S R} (n : positive) (body : K S (option R)) : K S (option R) :=
  r ← kiter n (fun _ : unit =>
                 o ← body; mret (match o with Some x => inr x | None => inl tt end)) tt;
  mret (match r with inr x => Some x | inl _ => None end).

(** [while let Some(..) / loop { .. break .. }] with a budget of [fuel] iterations. *)
Fixpoint kloop {S R} (fuel : nat) (body : K S (option R)) : K S R :=
  match fuel with
  | O => kfuel
  | S f => r ← body; match r with Some x => mret x | None => kloop f body end
  end.

(** *** Total correctness: [m] started in [s] returns, and [Q] holds of the result. *)

Definition wp {S A} (m : K S A) (s : S) (Q : A -> S -> Prop) : Prop :=
  match m s with Ret a s' => Q a s' | _ => False end.

Section Wp.
Context {S : Type}.

Lemma wp_iff {A} (m : K S A) s Q : wp m s Q <-> exists a s', m s = Ret a s' /\ Q a s'.
Proof.
  unfold wp. split.
  - destruct (m s); naive_solver.
  - intros (a & s' & -> & H). done.
Qed.

Lemma wp_ret {A} (a : A) (s : S) (Q : A -> S -> Prop) : Q a s -> wp (mret a) s Q.
Proof. done. Qed.

Lemma wp_bind {A B} (m : K S A) (f : A -> K S B) s Q :
  wp m s (fun a s' => wp (f a) s' Q) -> wp (m ≫= f) s Q.
Proof. unfold wp, mbind, K_bind, kbind. by destruct (m s). Qed.

Lemma wp_gets {A} (f : S -> A) s (Q : A -> S -> Prop) : Q (f s) s -> wp (gets f) s Q.
Proof. done. Qed.

Lemma wp_modify (f : S -> S) s (Q : unit -> S -> Prop) : Q tt (f s) -> wp (modify f) s Q.
Proof. done. Qed.

Lemma wp_mono {A} (m : K S A) s (Q Q' : A -> S -> Prop) :
  wp m s Q -> (forall a s', Q a s' -> Q' a s') -> wp m s Q'.
Proof. unfold wp. destruct (m s); naive_solver. Qed.

Lemma wp_and {A} (m : K S A) s (Q Q' : A -> S -> Prop) :
  wp m s Q -> wp m s Q' -> wp m s (fun a s' => Q a s' /\ Q' a s').
Proof. unfold wp. by destruct (m s). Qed.

Lemma wp_eq {A} (m : K S A) s a s' (Q : A -> S -> Prop) :
  m s = Ret a s' -> Q a s' -> wp m s Q.
Proof. unfold wp. by intros ->. Qed.

Lemma wp_kfor {A} (l : list A) (f : A -> K S unit) (I : nat -> S -> Prop) s :
  I 0%nat s ->
  (forall i x s', l !! i = Some x -> I i s' -> wp (f x) s' (fun _ => I (i + 1)%nat)) ->
  wp (kfor l f) s (fun _ => I (length l)).
Proof.
  revert I s. induction l as [ | x l IH]; intros I s H0 Hstep; [done | ]. cbn [kfor].
  apply wp_bind. eapply wp_mono; [by apply (Hstep 0%nat) | ]. intros [] s' Hs'. cbn.
  eapply wp_mono; [apply (IH (fun i => I (Datatypes.S i))); [done | ] | done].
  intros i y s'' Hi Hs''. by apply (Hstep (Datatypes.S i)).
Qed.

Lemma wp_kfold {A B} (l : list A) (f : A -> B -> K S B) (I : list A -> B -> S -> Prop) b s :
  I [] b s ->
  (forall l1 x b' s', l1 ++ [x] `prefix_of` l -> I l1 b' s' ->
     wp (f x b') s' (fun b'' => I (l1 ++ [x]) b'')) ->
  wp (kfold l f b) s (fun b' => I l b').
Proof.
  intros H0 Hf. assert (forall l2 l1, l = l1 ++ l2 -> forall b s, I l1 b s ->
    wp (kfold l2 f b) s (fun b' => I l b')) as H; [ | by apply (H l [])].
  induction l2 as [ | x l2 IH]; intros l1 E b1 s1 H1.
  - rewrite app_nil_r in E. by subst.
  - apply wp_bind. eapply wp_mono; [apply Hf; [ | done] | ].
    + exists l2. by rewrite <- app_assoc.
    + intros b2 s2 H2. apply (IH (l1 ++ [x])); [by rewrite <- app_assoc | done].
Qed.

(** *** Halting: [m] returns with [Q], or stops the machine for good with [H]. *)

Definition wph {A} (m : K S A) (s : S) (Q : A -> S -> Prop) (H : S -> Prop) : Prop :=
  match m s with Ret a s' => Q a s' | Halt s' => H s' | _ => False end.

Lemma wp_wph {A} (m : K S A) s Q : wp m s Q <-> wph m s Q (fun _ => False).
Proof. unfold wp, wph. by destruct (m s). Qed.

Lemma wph_wp {A} (m : K S A) s Q H : wp m s Q -> wph m s Q H.
Proof. unfold wp, wph. by destruct (m s). Qed.

Lemma wph_bind {A B} (m : K S A) (f : A -> K S B) s Q H :
  wph m s (fun a s' => wph (f a) s' Q H) H -> wph (m ≫= f) s Q H.
Proof. unfold wph, mbind, K_bind, kbind. by destruct (m s). Qed.

Lemma wph_mono {A} (m : K S A) s (Q Q' : A -> S -> Prop) (H H' : S -> Prop) :
  wph m s Q H -> (forall a s', Q a s' -> Q' a s') -> (forall s', H s' -> H' s') ->
  wph m s Q' H'.
Proof. unfold wph. destruct (m s); naive_solver. Qed.

(** Running the first part of a sequence. *)
Lemma wph_cases {A} (m : K S A) s Q H :
  wph m s Q H -> (exists s', m s = Halt s' /\ H s') \/ (exists a s', m s = Ret a s' /\ Q a s').
Proof. unfold wph. destruct (m s) as [a s' | | | s' | ]; try done; [right; by exists a, s' | left; by exists s']. Qed.

Lemma bind_run {A B} (m : K S A) (k : A -> K S B) s a s' : m s = Ret a s' -> (m ≫= k) s = k a s'.
Proof. unfold mbind, K_bind, kbind. by intros ->. Qed.

Lemma bind_stop {A B} (m : K S A) (k : A -> K S B) s s' : m s = Halt s' -> (m ≫= k) s = Halt s'.
Proof. unfold mbind, K_bind, kbind. by intros ->. Qed.

Lemma bind_deadlock {A B} (m : K S A) (k : A -> K S B) s s' : m s = Deadlock s' -> (m ≫= k) s = Deadlock s'.
Proof. unfold mbind, K_bind, kbind. by intros ->. Qed.

Lemma wph_and {A} (m : K S A) s (Q Q' : A -> S -> Prop) (H H' : S -> Prop) :
  wph m s Q H -> wph m s Q' H' -> wph m s (fun a s' => Q a s' /\ Q' a s') H.
Proof. unfold wph. by destruct (m s). Qed.

(** With the run itself. *)
Lemma wph_self {A} (m : K S A) s (Q : A -> S -> Prop) (H : S -> Prop) :
  wph m s Q H -> wph m s (fun a s' => Q a s' /\ m s = Ret a s') H.
Proof. unfold wph. by destruct (m s). Qed.

Lemma wph_kfor {A} (l : list A) (f : A -> K S unit) (I : S -> Prop) (H : S -> Prop) s :
  I s -> (forall x s', x ∈ l -> I s' -> wph (f x) s' (fun _ => I) H) ->
  wph (kfor l f) s (fun _ => I) H.
Proof.
  revert s. induction l as [ | x l IH]; intros s H0 Hf; [done | ].
  apply wph_bind. eapply wph_mono; [apply Hf; [left | done] | | done].
  intros [] s' H'. apply IH; [done | ]. intros y s'' Hy. apply Hf. by right.
Qed.

(** The loop rule: [I k a] holds before round [k]; a round that ends the loop
    establishes [Q]. *)
Lemma wph_kiter {A R} (n : positive) (body : A -> K S (A + R)) (I : Z -> A -> S -> Prop)
    (Q : R -> S -> Prop) (H : S -> Prop) k a s :
  I k a s ->
  (forall k' a' s', I k' a' s' ->
     wph (body a') s' (fun r s'' =>
       match r with inl b => I (k' + 1) b s'' | inr x => Q x s'' end) H) ->
  wph (kiter n body a) s (fun r s'' =>
    match r with inl b => I (k + Z.pos n) b s'' | inr x => Q x s'' end) H.
Proof.
  intros H0 Hb. revert k a s H0.
  assert (Hdouble : forall n',
    (forall k a s, I k a s -> wph (kiter n' body a) s (fun r s'' =>
       match r with inl b => I (k + Z.pos n') b s'' | inr x => Q x s'' end) H) ->
    forall k a s, I k a s ->
      wph (r ← kiter n' body a;
          match r with inl a' => kiter n' body a' | inr x => mret (inr x) end) s
        (fun r s'' => match r with
                      | inl b => I (k + Z.pos n'~0) b s'' | inr x => Q x s'' end) H).
  { intros n' IH k a s H0. apply wph_bind. eapply wph_mono; [by apply IH | | done].
    intros [b | x] s1 H1; [ | done]. eapply wph_mono; [by apply IH | | done].
    intros [c | y] s2 H2; [ | done]. by replace (k + Z.pos n'~0)
      with (k + Z.pos n' + Z.pos n') by lia. }
  induction n as [n IH | n IH | ]; intros k a s H0; cbn [kiter].
  - apply wph_bind. eapply wph_mono; [by apply Hb | | done]. intros [b | x] s1 H1; [ | done].
    eapply wph_mono; [by apply (Hdouble n IH) | | done].
    intros [c | y] s2 H2; [ | done]. by replace (k + Z.pos n~1)
      with (k + 1 + Z.pos n~0) by lia.
  - by apply (Hdouble n IH).
  - by apply Hb.
Qed.

Lemma wp_kiter {A R} (n : positive) (body : A -> K S (A + R)) (I : Z -> A -> S -> Prop)
    (Q : R -> S -> Prop) k a s :
  I k a s ->
  (forall k' a' s', I k' a' s' ->
     wp (body a') s' (fun r s'' =>
       match r with inl b => I (k' + 1) b s'' | inr x => Q x s'' end)) ->
  wp (kiter n body a) s (fun r s'' =>
    match r with inl b => I (k + Z.pos n) b s'' | inr x => Q x s'' end).
Proof.
  intros H0 Hb. apply wp_wph, wph_kiter; [done | ].
  intros k' a' s' H'. by apply wp_wph, Hb.
Qed.

Lemma wph_ktry {R} (n : positive) (body : K S (option R)) (I : S -> Prop)
    (Q : R -> S -> Prop) (H : S -> Prop) s :
  I s ->
  (forall s', I s' ->
     wph body s' (fun r s'' => match r with Some x => Q x s'' | None => I s'' end) H) ->
  wph (ktry n body) s (fun r s'' => match r with Some x => Q x s'' | None => I s'' end) H.
Proof.
  intros H0 Hb. unfold ktry. apply wph_bind.
  eapply wph_mono; [apply (wph_kiter _ _ (fun _ _ => I) Q H 0); [done | ] | | done].
  - intros _ _ s' H'. apply wph_bind. eapply wph_mono; [by apply Hb | | done].
    by intros [x | ] s'' H''.
  - by intros [ | ] s'' H''.
Qed.

Lemma wp_ktry {R} (n : positive) (body : K S (option R)) (I : S -> Prop)
    (Q : R -> S -> Prop) s :
  I s ->
  (forall s', I s' ->
     wp body s' (fun r s'' => match r with Some x => Q x s'' | None => I s'' end)) ->
  wp (ktry n body) s (fun r s'' => match r with Some x => Q x s'' | None => I s'' end).
Proof.
  intros H0 Hb. apply wp_wph, wph_ktry; [done | ]. intros s' H'. by apply wp_wph, Hb.
Qed.

Lemma kbind_eq {A B} (m : K S A) (f : A -> K S B) s a s' :
  m s = Ret a s' -> (m ≫= f) s = f a s'.
Proof. unfold mbind, K_bind, kbind. by intros ->. Qed.

End Wp.

#[global] Arguments wp : simpl never.
#[global] Arguments wph : simpl never.
#[global] Arguments bytes_of : simpl never.
#[global] Arguments kfor : simpl never.
#[global] Arguments kfold : simpl never.
#[global] Arguments kiter : simpl never.
#[global] Arguments ktry : simpl never.
#[global] Arguments ld : simpl never.
#[global] Arguments st : simpl never.
#[global] Arguments wrap : simpl never.
#[global] Arguments swrap : simpl never.

(** Symbolic execution of straight-line kernel code under [wp]. *)
Ltac wp_step :=
  lazymatch goal with
  | |- wp (mbind _ _) _ _ => apply wp_bind
  | |- wp (mret _) _ _ => apply wp_ret
  | |- wp (gets _) _ _ => apply wp_gets
  | |- wp (modify _) _ _ => apply wp_modify
  end; cbv beta.
Ltac wp_steps := repeat wp_step.

(** ** 4. Invariants of programs, on every outcome *)

Definition after {S A} (o : outcome S A) (P : S -> Prop) : Prop :=
  match o with Ret _ s | Panic s | Deadlock s | Halt s | OutOfFuel s => P s end.

Definition keeps {S A} (P : S -> Prop) (m : K S A) : Prop := forall s, P s -> after (m s) P.

Create HintDb keeps discriminated.
#[export] Hint Constants Opaque : keeps.

Section Keeps.
Context {S : Type} (P : S -> Prop).

Lemma keeps_ret {A} (a : A) : keeps P (mret a : K S A).
Proof. by intros s H. Qed.

Lemma keeps_gets {A} (f : S -> A) : keeps P (gets f).
Proof. by intros s H. Qed.

Lemma keeps_panic {A} : keeps P (kpanic : K S A).
Proof. by intros s H. Qed.
Lemma keeps_halt {A} : keeps P (khalt : K S A).
Proof. by intros s H. Qed.
Lemma keeps_fuel {A} : keeps P (kfuel : K S A).
Proof. by intros s H. Qed.

Lemma keeps_modify (f : S -> S) : (forall s, P s -> P (f s)) -> keeps P (modify f).
Proof. intros Hf s H. by apply Hf. Qed.

Lemma keeps_bind {A B} (m : K S A) (k : A -> K S B) :
  keeps P m -> (forall a, keeps P (k a)) -> keeps P (m ≫= k).
Proof.
  intros Hm Hk s H. unfold mbind, K_bind, kbind. specialize (Hm s H). destruct (m s); cbn in *; auto.
  by apply Hk.
Qed.

(** A value read from the state has what the invariant says about it. *)
Lemma keeps_read {A B} (f : S -> A) (k : A -> K S B) :
  (forall s, P s -> after (k (f s) s) P) -> keeps P (gets f ≫= k).
Proof. intros H s Hs. by apply H. Qed.

Lemma keeps_read_as {A B} (Q : A -> Prop) (f : S -> A) (k : A -> K S B) :
  (forall s, P s -> Q (f s)) -> (forall a, Q a -> keeps P (k a)) -> keeps P (gets f ≫= k).
Proof. intros Hf Hk. apply keeps_read. intros s Hs. by apply Hk; [apply Hf | ]. Qed.

(** Besides what a run is known to end in. *)
Lemma wph_keeps {A} (m : K S A) s (Q : A -> S -> Prop) (H : S -> Prop) :
  keeps P m -> P s -> wph m s Q H -> wph m s (fun a s' => Q a s' /\ P s') H.
Proof. intros Hm Hs. specialize (Hm s Hs). unfold wph. destruct (m s); cbn in *; auto. Qed.

Lemma keeps_for {A} (l : list A) (f : A -> K S unit) :
  (forall a, keeps P (f a)) -> keeps P (kfor l f).
Proof.
  intros Hf. induction l as [ | a l IH]; [apply keeps_ret | ]. apply keeps_bind; [apply Hf | by intros _].
Qed.

Lemma keeps_fold {A B} (l : list A) (f : A -> B -> K S B) b :
  (forall a b, keeps P (f a b)) -> keeps P (kfold l f b).
Proof.
  intros Hf. revert b. induction l as [ | a l IH]; intros b; [apply keeps_ret | ].
  by apply keeps_bind; [apply Hf | intros b'].
Qed.

Lemma keeps_iter {A R} n (body : A -> K S (A + R)) a :
  (forall a, keeps P (body a)) -> keeps P (kiter n body a).
Proof.
  intros Hb. revert a. induction n as [n IH | n IH | ]; intros a; cbn [kiter].
  - apply keeps_bind; [apply Hb | ]. intros [a' | x]; [ | apply keeps_ret].
    apply keeps_bind; [apply IH | ]. intros [a'' | x]; [apply IH | apply keeps_ret].
  - apply keeps_bind; [apply IH | ]. intros [a' | x]; [apply IH | apply keeps_ret].
  - apply Hb.
Qed.

Lemma keeps_try {R} n (body : K S (option R)) : keeps P body -> keeps P (ktry n body).
Proof.
  intros Hb. unfold ktry. apply keeps_bind; [ | intros; apply keeps_ret].
  apply keeps_iter. intros _. apply keeps_bind; [exact Hb | intros; apply keeps_ret].
Qed.

Lemma keeps_loop {R} n (body : K S (option R)) : keeps P body -> keeps P (kloop n body).
Proof.
  intros Hb. induction n as [ | n IH]; [apply keeps_fuel | ]. cbn [kloop].
  apply keeps_bind; [exact Hb | ]. intros [x | ]; [apply keeps_ret | exact IH].
Qed.
End Keeps.

#[export] Hint Resolve keeps_ret keeps_gets keeps_panic keeps_halt keeps_fuel : keeps.

(** Follows the shape of the code: hints for the functions it calls, a case for every branch. *)
Ltac keep_step :=
  lazymatch goal with
  | |- keeps _ (mbind _ _) => apply keeps_bind; [ | intros ?]
  | |- keeps _ (kfor _ _) => first [solve [eauto 2 with keeps] | apply keeps_for; intros ?]
  | |- keeps _ (kfold _ _ _) => apply keeps_fold; intros ? ?
  | |- keeps _ (kiter _ _ _) => apply keeps_iter; intros ?
  | |- keeps _ (ktry _ _) => apply keeps_try
  | |- keeps _ (kloop _ _) => apply keeps_loop
  | |- keeps _ (let _ := _ in _) => cbv zeta
  | |- keeps _ ((fun _ => _) _) => cbv beta
  | |- keeps _ (match ?x with _ => _ end) => destruct x
  | |- keeps _ (match ?x with _ => _ end _) => destruct x
  | |- keeps _ _ => solve [eauto 2 with keeps]
  end.
Ltac keep := repeat keep_step.
