(* ===== verification/XhciData.v ===== *)
(** * Data of the xHCI driver (kernel/src/xhci.rs)

    The capability registers, the controller's static state and the transfer
    request blocks, with the functions on them that touch no hardware. *)

From S2P Require Import Prelude.
From stdpp Require Import gmap list.
From Stdlib Require Import ZArith Lia.

Open Scope Z_scope.

Record XhciInfo : Type := mkXhciInfo {
  xi_base : Z;          (* u64 *)
  xi_cap_length : Z;    (* u8 *)
  xi_hci_version : Z;   (* u16 *)
  xi_hcsparams1 : Z;    (* u32, like the rest *)
  xi_hcsparams2 : Z;
  xi_hcsparams3 : Z;
  xi_hccparams1 : Z;
  xi_dboff : Z;
  xi_rtsoff : Z
}.

Definition max_slots (i : XhciInfo) : Z := u8 (Z.land (xi_hcsparams1 i) 0xFF).

Definition max_ports (i : XhciInfo) : Z :=
  u8 (Z.land (Z.shiftr (xi_hcsparams1 i) 24) 0xFF).

Definition context_size (i : XhciInfo) : Z :=
  if has (xi_hccparams1 i) (Z.shiftl 1 2) then 64 else 32.

Record Trb : Type := mkTrb {
  parameter : Z;   (* u64 *)
  status : Z;      (* u32 *)
  control : Z      (* u32 *)
}.

Definition Trb_default : Trb := mkTrb 0 0 0.

Record ControllerState : Type := mkController {
  info : XhciInfo;
  command_ring_phys : Z;
  command_ring_len : Z;
  command_ring_enqueue : Z;
  command_ring_cycle : bool;
  event_ring_phys : Z;
  event_ring_len : Z;
  event_ring_dequeue : Z;
  event_ring_cycle : bool;
  dcbaa_phys : Z;
  erst_phys : Z;
  last_completion_code : option Z;
  last_completed_slot : option Z;
  last_transfer_code : option Z;
  last_transfer_len : option Z;
  last_transfer_ep : option Z;
  last_transfer_slot : option Z;
  active_slot : option Z;
  ep0_ring_phys : Z;
  ep0_ring_len : Z;
  ep0_enqueue : Z;
  ep0_cycle : bool;
  intr_ep_addr : Z;
  intr_ep_id : Z;
  intr_ring_phys : Z;
  intr_ring_len : Z;
  intr_enqueue : Z;
  intr_cycle : bool;
  hid_buf_phys : Z;
  hid_buf_len : Z
}.
