(* ===== verification/State.v ===== *)
(** * The state of the kernel and its platform

    [World] gathers every static of kernel/src with the machine the kernel runs on.
    The hardware and the third-party crates are not part of the repository: they are
    the type classes [Hardware] and [Crates], and every theorem holds for all of
    their instances (that satisfy [CratesLaws] where a lock is taken). *)

From S2P Require Import Prelude XhciData.
From stdpp Require Import gmap list.
From Stdlib Require Import ZArith Lia.

Open Scope Z_scope.

(** ** The platform *)

(** The machine: ports, memory-mapped registers, devices that write to memory on
    their own, and the interrupt request lines (0 to 15) raised since the last time we looked. *)
Class Hardware (D : Type) : Type := {
  hw_in : Z -> D -> Z * D;
  hw_out : Z -> Z -> D -> D;
  hw_mmio_read : Z -> D -> memory -> Z * D * memory;
  hw_mmio_write : Z -> Z -> D -> memory -> D * memory;
  hw_dma : D -> memory -> D * memory;
  hw_irqs : D -> list Z * D
}.

(** The crates [spin], [pic8259] and [bitflags].  A mutex is observed through one bit, whether a
    guard is alive; [mutex_lock] is [None] when [lock] does not return. *)
Class Crates (D : Type) : Type := {
  mutex_lock : bool -> option bool;
  mutex_unlock : bool -> bool;
  once_call : forall A : Type, option A -> A -> option A;
  pic_initialize : Z -> Z -> D -> D;
  pic_write_masks : Z -> Z -> D -> D;
  pic_notify_eoi : Z -> D -> D;
  flags_from_bits_truncate : Z -> Z -> Z;   (* the declared flags, the bits *)
  flags_contains : Z -> Z -> bool;
  flags_insert : Z -> Z -> Z;
  flags_remove : Z -> Z -> Z
}.

(** What the code relies on: a free mutex is acquired, a second [lock] on the only
    core spins for ever, dropping the guard frees it, [Once] keeps its first value; flag
    sets are their bits. *)
Class CratesLaws (D : Type) {C : Crates D} : Prop := {
  mutex_lock_free : mutex_lock false = Some true;
  mutex_lock_held : mutex_lock true = None;
  mutex_unlock_held : mutex_unlock true = false;
  once_call_first : forall A (a : A), once_call A None a = Some a;
  once_call_again : forall A (a b : A), once_call A (Some b) a = Some b;
  flags_truncate_spec : forall all bits, flags_from_bits_truncate all bits = Z.land bits all;
  flags_contains_spec : forall s f, flags_contains s f = (Z.land s f =? f);
  flags_insert_spec : forall s f, flags_insert s f = Z.lor s f;
  flags_remove_spec : forall s f, flags_remove s f = Z.land s (Z.lnot f)
}.

(** The compiler.  keyboard.rs declares [KBUF] an immutable static and stores into it through a cast
    pointer, which Rust leaves undefined: a build may load the stored byte or, say, the initial
    one.  [static_load initial stored] is what such a load yields. *)
Class Build : Type := static_load : Z -> Z -> Z.

(** A build that performs the accesses as they are written. *)
Class BuildKeeps {B : Build} : Prop := static_load_stored : forall initial stored, static_load initial stored = stored.

(** What leaves the kernel: port writes, end-of-interrupt commands, programming of
    the interrupt controllers, register writes to the xHCI controller. *)
Inductive Event : Type :=
| EvOut (port value : Z)
| EvEoi (vector : Z)
| EvPicInit (offset1 offset2 : Z)
| EvPicMasks (mask1 mask2 : Z)
| EvMmio (addr value : Z).

(** ** The statics, module by module *)

Inductive LockId : Type :=
| SERIAL | CONSOLE | PICS | APPLY_LOCK | TASKS_LOCK | NEXT_INDEX_LOCK | CONTROLLER_LOCK.

Record Locks : Type := mkLocks {
  lk_serial : bool; lk_console : bool; lk_pics : bool; lk_apply : bool;
  lk_tasks : bool; lk_next_index : bool; lk_controller : bool
}.

Definition get_lock (l : LockId) (k : Locks) : bool :=
  match l with
  | SERIAL => lk_serial k | CONSOLE => lk_console k | PICS => lk_pics k
  | APPLY_LOCK => lk_apply k | TASKS_LOCK => lk_tasks k
  | NEXT_INDEX_LOCK => lk_next_index k | CONTROLLER_LOCK => lk_controller k
  end.

Definition set_lock (l : LockId) (b : bool) (k : Locks) : Locks :=
  let '(mkLocks s c p a t n x) := k in
  match l with
  | SERIAL => mkLocks b c p a t n x
  | CONSOLE => mkLocks s b p a t n x
  | PICS => mkLocks s c b a t n x
  | APPLY_LOCK => mkLocks s c p b t n x
  | TASKS_LOCK => mkLocks s c p a b n x
  | NEXT_INDEX_LOCK => mkLocks s c p a t b x
  | CONTROLLER_LOCK => mkLocks s c p a t n b
  end.

(** vga.rs: [CONSOLE]. *)
Record Console : Type := mkConsole {
  column_position : Z; row_position : Z; style : Z
}.

(** keyboard.rs: [CTRL_HELD], [SHIFT_HELD], [KBUF], [KHEAD], [KTAIL]. *)
Record Keyboard : Type := mkKeyboard {
  CTRL_HELD : bool; SHIFT_HELD : bool; KBUF : list Z; KHEAD : Z; KTAIL : Z
}.

(** pmm.rs: [NEXT_FREE], [LIMIT]. *)
Record PmmState : Type := mkPmm { NEXT_FREE : Z; LIMIT : Z }.

(** idt.rs: [IDT] (whether the [Once] has run; its value is a constant of the code),
    [IRQ_COUNT], [PAGE_FAULTS], [TIMER_TICKS]. *)
Record IdtCounters : Type := mkIdt {
  IDT : option unit; IRQ_COUNT : Z; PAGE_FAULTS : Z; TIMER_TICKS : Z
}.

(** apply_action.rs: [QUANTUM_US], [SEQ], [SYSTEM_READY]. *)
Record ApplyState : Type := mkApply {
  QUANTUM_US : Z; SEQ : Z; SYSTEM_READY : bool
}.

(** task.rs: [TASKS], [NEXT_INDEX]; a [TaskFn] is the address of its code. *)
Record TaskState : Type := mkTasks { TASKS : list (option Z); NEXT_INDEX : Z }.

(** ai_link.rs. *)
Record AiLink : Type := mkLink {
  AI_MODEL_ADDR : Z; AI_MODEL_LEN : Z; INITRD_BASE : Z; INITRD_LEN : Z
}.

(** ai_model.rs: the header of a model file. *)
Record ModelHeader : Type := mkHeader {
  magic : list Z; n_layers : Z; hidden : Z; vocab : Z; dtype : Z; _res : list Z
}.

(** ai_agent.rs: [AI_RUNNING], [AGENT_STATE]. *)
Record AgentState : Type := mkAgent {
  hdr : ModelHeader; model_ptr : Z; prev_ticks : Z; prev_pf : Z; scratch : list Z
}.
Record AgentStatics : Type := mkAgentStatics {
  AI_RUNNING : bool; AGENT_STATE : option AgentState
}.

(** shell.rs: [LINE], [LEN]. *)
Record ShellState : Type := mkShell { LINE : list Z; LEN : Z }.

(** x86_64: the entries of a descriptor table and the stacks of a task state segment. *)
Inductive Descriptor : Type :=
| UserSegment (bits : Z)
| SystemSegment (low high : Z).

Record TaskStateSegment : Type := mkTss {
  privilege_stack_table : list Z; interrupt_stack_table : list Z
}.

(** gdt.rs: [Selectors]. *)
Record Selectors : Type := mkSelectors {
  sel_code : Z; sel_data : Z; sel_user_code : Z; sel_user_data : Z; sel_tss : Z
}.

(** gdt.rs: [GDT], [TSS]; and the processor's table and selector registers. *)
Record Segments : Type := mkSegments {
  GDT : option (list Z * Selectors); TSS : option TaskStateSegment;
  reg_gdt : list Z; reg_CS : Z; reg_SS : Z; reg_DS : Z; reg_ES : Z; reg_FS : Z; reg_GS : Z;
  reg_TR : Z
}.

(** Everything the kernel can see.  The statics have fields of their own: [w_mem] is the physical
    memory outside the kernel's image (its code and statics), so in the model no store through a
    pointer and no DMA changes a static or an instruction.  Of the machine this is an assumption.
    linker.ld loads the image at 1 MiB, and [pmm::init] takes no account of it: on the memory map of
    a PC the first block handed out is the image ([Pmm.pmm_hands_out_the_image]), and what the xHCI
    driver then writes to its rings there is outside the model.  Without an xHCI controller
    the kernel allocates nothing. *)
Record World (D : Type) : Type := mkWorld {
  w_dev : D;
  w_mem : memory;
  w_trace : list Event;
  w_if : bool;
  w_locks : Locks;
  w_serial_init : bool;
  w_console : Console;
  w_kbd : Keyboard;
  w_pmm : PmmState;
  w_idt : IdtCounters;
  w_apply : ApplyState;
  w_tasks : TaskState;
  w_link : AiLink;
  w_agent : AgentStatics;
  w_shell : ShellState;
  w_xhci : option ControllerState;
  w_seg : Segments
}.
Arguments mkWorld {D}.
Arguments w_dev {D} _.
Arguments w_mem {D} _.
Arguments w_trace {D} _.
Arguments w_if {D} _.
Arguments w_locks {D} _.
Arguments w_serial_init {D} _.
Arguments w_console {D} _.
Arguments w_kbd {D} _.
Arguments w_pmm {D} _.
Arguments w_idt {D} _.
Arguments w_apply {D} _.
Arguments w_tasks {D} _.
Arguments w_link {D} _.
Arguments w_agent {D} _.
Arguments w_shell {D} _.
Arguments w_xhci {D} _.
Arguments w_seg {D} _.

Definition set_dev {D} (v : D) (w : World D) : World D :=
  mkWorld v (w.(w_mem)) (w.(w_trace)) (w.(w_if)) (w.(w_locks)) (w.(w_serial_init))
    (w.(w_console)) (w.(w_kbd)) (w.(w_pmm)) (w.(w_idt)) (w.(w_apply)) (w.(w_tasks))
    (w.(w_link)) (w.(w_agent)) (w.(w_shell)) (w.(w_xhci))
    (w.(w_seg)).
Definition set_mem {D} (v : memory) (w : World D) : World D :=
  mkWorld (w.(w_dev)) v (w.(w_trace)) (w.(w_if)) (w.(w_locks)) (w.(w_serial_init))
    (w.(w_console)) (w.(w_kbd)) (w.(w_pmm)) (w.(w_idt)) (w.(w_apply)) (w.(w_tasks))
    (w.(w_link)) (w.(w_agent)) (w.(w_shell)) (w.(w_xhci))
    (w.(w_seg)).
Definition set_trace {D} (v : list Event) (w : World D) : World D :=
  mkWorld (w.(w_dev)) (w.(w_mem)) v (w.(w_if)) (w.(w_locks)) (w.(w_serial_init))
    (w.(w_console)) (w.(w_kbd)) (w.(w_pmm)) (w.(w_idt)) (w.(w_apply)) (w.(w_tasks))
    (w.(w_link)) (w.(w_agent)) (w.(w_shell)) (w.(w_xhci))
    (w.(w_seg)).
Definition set_if {D} (v : bool) (w : World D) : World D :=
  mkWorld (w.(w_dev)) (w.(w_mem)) (w.(w_trace)) v (w.(w_locks)) (w.(w_serial_init))
    (w.(w_console)) (w.(w_kbd)) (w.(w_pmm)) (w.(w_idt)) (w.(w_apply)) (w.(w_tasks))
    (w.(w_link)) (w.(w_agent)) (w.(w_shell)) (w.(w_xhci))
    (w.(w_seg)).
Definition set_locks {D} (v : Locks) (w : World D) : World D :=
  mkWorld (w.(w_dev)) (w.(w_mem)) (w.(w_trace)) (w.(w_if)) v (w.(w_serial_init))
    (w.(w_console)) (w.(w_kbd)) (w.(w_pmm)) (w.(w_idt)) (w.(w_apply)) (w.(w_tasks))
    (w.(w_link)) (w.(w_agent)) (w.(w_shell)) (w.(w_xhci))
    (w.(w_seg)).
Definition set_serial_init {D} (v : bool) (w : World D) : World D :=
  mkWorld (w.(w_dev)) (w.(w_mem)) (w.(w_trace)) (w.(w_if)) (w.(w_locks)) v
    (w.(w_console)) (w.(w_kbd)) (w.(w_pmm)) (w.(w_idt)) (w.(w_apply)) (w.(w_tasks))
    (w.(w_link)) (w.(w_agent)) (w.(w_shell)) (w.(w_xhci))
    (w.(w_seg)).
Definition set_console {D} (v : Console) (w : World D) : World D :=
  mkWorld (w.(w_dev)) (w.(w_mem)) (w.(w_trace)) (w.(w_if)) (w.(w_locks))
    (w.(w_serial_init)) v (w.(w_kbd)) (w.(w_pmm)) (w.(w_idt)) (w.(w_apply))
    (w.(w_tasks)) (w.(w_link)) (w.(w_agent)) (w.(w_shell)) (w.(w_xhci))
    (w.(w_seg)).
Definition set_kbd {D} (v : Keyboard) (w : World D) : World D :=
  mkWorld (w.(w_dev)) (w.(w_mem)) (w.(w_trace)) (w.(w_if)) (w.(w_locks))
    (w.(w_serial_init)) (w.(w_console)) v (w.(w_pmm)) (w.(w_idt)) (w.(w_apply))
    (w.(w_tasks)) (w.(w_link)) (w.(w_agent)) (w.(w_shell)) (w.(w_xhci))
    (w.(w_seg)).
Definition set_pmm {D} (v : PmmState) (w : World D) : World D :=
  mkWorld (w.(w_dev)) (w.(w_mem)) (w.(w_trace)) (w.(w_if)) (w.(w_locks))
    (w.(w_serial_init)) (w.(w_console)) (w.(w_kbd)) v (w.(w_idt)) (w.(w_apply))
    (w.(w_tasks)) (w.(w_link)) (w.(w_agent)) (w.(w_shell)) (w.(w_xhci))
    (w.(w_seg)).
Definition set_idt {D} (v : IdtCounters) (w : World D) : World D :=
  mkWorld (w.(w_dev)) (w.(w_mem)) (w.(w_trace)) (w.(w_if)) (w.(w_locks))
    (w.(w_serial_init)) (w.(w_console)) (w.(w_kbd)) (w.(w_pmm)) v (w.(w_apply))
    (w.(w_tasks)) (w.(w_link)) (w.(w_agent)) (w.(w_shell)) (w.(w_xhci))
    (w.(w_seg)).
Definition set_apply {D} (v : ApplyState) (w : World D) : World D :=
  mkWorld (w.(w_dev)) (w.(w_mem)) (w.(w_trace)) (w.(w_if)) (w.(w_locks))
    (w.(w_serial_init)) (w.(w_console)) (w.(w_kbd)) (w.(w_pmm)) (w.(w_idt)) v
    (w.(w_tasks)) (w.(w_link)) (w.(w_agent)) (w.(w_shell)) (w.(w_xhci))
    (w.(w_seg)).
Definition set_tasks {D} (v : TaskState) (w : World D) : World D :=
  mkWorld (w.(w_dev)) (w.(w_mem)) (w.(w_trace)) (w.(w_if)) (w.(w_locks))
    (w.(w_serial_init)) (w.(w_console)) (w.(w_kbd)) (w.(w_pmm)) (w.(w_idt))
    (w.(w_apply)) v (w.(w_link)) (w.(w_agent)) (w.(w_shell)) (w.(w_xhci))
    (w.(w_seg)).
Definition set_link {D} (v : AiLink) (w : World D) : World D :=
  mkWorld (w.(w_dev)) (w.(w_mem)) (w.(w_trace)) (w.(w_if)) (w.(w_locks))
    (w.(w_serial_init)) (w.(w_console)) (w.(w_kbd)) (w.(w_pmm)) (w.(w_idt))
    (w.(w_apply)) (w.(w_tasks)) v (w.(w_agent)) (w.(w_shell)) (w.(w_xhci))
    (w.(w_seg)).
Definition set_agent {D} (v : AgentStatics) (w : World D) : World D :=
  mkWorld (w.(w_dev)) (w.(w_mem)) (w.(w_trace)) (w.(w_if)) (w.(w_locks))
    (w.(w_serial_init)) (w.(w_console)) (w.(w_kbd)) (w.(w_pmm)) (w.(w_idt))
    (w.(w_apply)) (w.(w_tasks)) (w.(w_link)) v (w.(w_shell)) (w.(w_xhci))
    (w.(w_seg)).
Definition set_shell {D} (v : ShellState) (w : World D) : World D :=
  mkWorld (w.(w_dev)) (w.(w_mem)) (w.(w_trace)) (w.(w_if)) (w.(w_locks))
    (w.(w_serial_init)) (w.(w_console)) (w.(w_kbd)) (w.(w_pmm)) (w.(w_idt))
    (w.(w_apply)) (w.(w_tasks)) (w.(w_link)) (w.(w_agent)) v (w.(w_xhci))
    (w.(w_seg)).
Definition set_xhci {D} (v : option ControllerState) (w : World D) : World D :=
  mkWorld (w.(w_dev)) (w.(w_mem)) (w.(w_trace)) (w.(w_if)) (w.(w_locks))
    (w.(w_serial_init)) (w.(w_console)) (w.(w_kbd)) (w.(w_pmm)) (w.(w_idt))
    (w.(w_apply)) (w.(w_tasks)) (w.(w_link)) (w.(w_agent)) (w.(w_shell)) v (w.(w_seg)).
Definition set_seg {D} (v : Segments) (w : World D) : World D :=
  mkWorld (w.(w_dev)) (w.(w_mem)) (w.(w_trace)) (w.(w_if)) (w.(w_locks))
    (w.(w_serial_init)) (w.(w_console)) (w.(w_kbd)) (w.(w_pmm)) (w.(w_idt))
    (w.(w_apply)) (w.(w_tasks)) (w.(w_link)) (w.(w_agent)) (w.(w_shell)) (w.(w_xhci)) v.

(** The statics as the image is loaded (the initialisers of the source). *)
Definition boot_world {D} (d : D) (m : memory) : World D :=
  mkWorld d m [] false (mkLocks false false false false false false false)
    false (mkConsole 0 0 0x0f) (mkKeyboard false false (replicate 256 0) 0 0)
    (mkPmm 0 0) (mkIdt None 0 0 0) (mkApply 1000 0 false)
    (mkTasks (replicate 8 None) 0) (mkLink 0 0 0 0) (mkAgentStatics true None)
    (mkShell (replicate 256 0) 0) None
    (mkSegments None None [] 0 0 0 0 0 0 0).

(** ** Primitive effects *)

Section Primitives.
Context {D : Type} {HW : Hardware D} {CR : Crates D}.

Abbreviation KW := (K (World D)).

Definition emit (e : Event) (w : World D) : World D := set_trace (e :: w.(w_trace)) w.

(** [Port::write]: the [out] instruction. *)
Definition port_write (port value : Z) : KW unit :=
  modify (fun w => emit (EvOut port value) (set_dev (hw_out port value w.(w_dev)) w)).

(** [Port::read] of [n] bits: the [in] instruction. *)
Definition port_read (n port : Z) : KW Z := fun w =>
  let '(v, d) := hw_in port w.(w_dev) in Ret (wrap n v) (set_dev d w).

Definition lock (l : LockId) : KW unit := fun w =>
  match mutex_lock (get_lock l w.(w_locks)) with
  | Some b => Ret tt (set_locks (set_lock l b w.(w_locks)) w)
  | None => Deadlock w
  end.

Definition unlock (l : LockId) : KW unit :=
  modify (fun w =>
    set_locks (set_lock l (mutex_unlock (get_lock l w.(w_locks))) w.(w_locks)) w).

(** A guard that lives for the scope of [m]. *)
Definition with_lock {A} (l : LockId) (m : KW A) : KW A :=
  lock l ;; a ← m; unlock l ;; mret a.

End Primitives.

Abbreviation locked l w := (get_lock l (w_locks w)).

(** The values written to one port, oldest first. *)
Definition port_log {D} (port : Z) (w : World D) : list Z :=
  omap (fun e => match e with EvOut p v => if p =? port then Some v else None | _ => None end)
       (rev (w_trace w)).

(** ** Laws *)

Create HintDb world.

Lemma get_set_lock l b k : get_lock l (set_lock l b k) = b.
Proof. by destruct l, k. Qed.

Lemma get_set_lock_ne l l' b k : l <> l' -> get_lock l (set_lock l' b k) = get_lock l k.
Proof. by destruct l, l', k. Qed.

Lemma set_set_lock l b b' k : set_lock l b (set_lock l b' k) = set_lock l b k.
Proof. by destruct l, k. Qed.

Lemma set_get_lock l k : set_lock l (get_lock l k) k = k.
Proof. by destruct l, k. Qed.

Section Laws.
Context {D : Type} {HW : Hardware D} {CR : Crates D} {CL : CratesLaws D}.

Lemma lock_free l (w : World D) :
  locked l w = false -> lock l w = Ret tt (set_locks (set_lock l true (w_locks w)) w).
Proof. intros H. unfold lock. by rewrite H, mutex_lock_free. Qed.

Lemma lock_held l (w : World D) : locked l w = true -> lock l w = Deadlock w.
Proof. intros H. unfold lock. by rewrite H, mutex_lock_held. Qed.

Lemma with_lock_held {A} l (m : K (World D) A) (w : World D) :
  locked l w = true -> with_lock l m w = Deadlock w.
Proof. intros H. unfold with_lock, mbind, K_bind, kbind. by rewrite lock_held. Qed.

(** Running a critical section: the body runs with the lock taken, and the lock is
    free again afterwards. *)
Lemma wp_with_lock {A} l (m : K (World D) A) (w : World D) (Q : A -> World D -> Prop) :
  locked l w = false ->
  wp m (set_locks (set_lock l true (w_locks w)) w)
    (fun a w' => locked l w' = true /\
                 Q a (set_locks (set_lock l false (w_locks w')) w')) ->
  wp (with_lock l m) w Q.
Proof.
  intros Hl Hm. unfold with_lock. apply wp_bind.
  eapply wp_eq; [by apply lock_free | ]. apply wp_bind.
  eapply wp_mono; [exact Hm | ]. intros a w' [Hl' HQ].
  unfold unlock. wp_steps. by rewrite Hl', mutex_unlock_held.
Qed.

Lemma wph_with_lock {A} l (m : K (World D) A) (w : World D) (Q : A -> World D -> Prop) H :
  locked l w = false ->
  wph m (set_locks (set_lock l true (w_locks w)) w)
    (fun a w' => locked l w' = true /\
                 Q a (set_locks (set_lock l false (w_locks w')) w')) H ->
  wph (with_lock l m) w Q H.
Proof.
  intros Hl Hm. unfold with_lock. apply wph_bind, wph_wp.
  eapply wp_eq; [by apply lock_free | ]. apply wph_bind.
  eapply wph_mono; [exact Hm | | done]. intros a w' [Hl' HQ].
  apply wph_wp. unfold unlock. wp_steps. by rewrite Hl', mutex_unlock_held.
Qed.

(** The common case: a body that always returns and leaves the locks alone. *)
Lemma with_lock_run {A} l (m : K (World D) A) (w w' : World D) a :
  locked l w = false ->
  m (set_locks (set_lock l true (w_locks w)) w) = Ret a w' ->
  w_locks w' = set_lock l true (w_locks w) ->
  with_lock l m w = Ret a (set_locks (w_locks w) w').
Proof.
  intros Hl Hm Hk. unfold with_lock, mbind, K_bind, kbind.
  rewrite lock_free, Hm by done. unfold unlock, modify. cbn.
  rewrite Hk, get_set_lock, mutex_unlock_held, set_set_lock, <- Hl, set_get_lock. done.
Qed.

Lemma port_log_emit_same p v (w : World D) :
  port_log p (emit (EvOut p v) w) = port_log p w ++ [v].
Proof. unfold port_log. cbn. by rewrite omap_app; cbn; rewrite Z.eqb_refl. Qed.

Lemma port_log_emit_other p q v (w : World D) :
  p <> q -> port_log p (emit (EvOut q v) w) = port_log p w.
Proof.
  intros H. unfold port_log. cbn. rewrite omap_app. cbn.
  rewrite (proj2 (Z.eqb_neq q p)) by done. by rewrite app_nil_r.
Qed.
End Laws.

(** ** Framing

    [io_step w w']: the step from [w] to [w'] talked to devices and changed no static
    and no memory. *)

Definition io_step {D} (w w' : World D) : Prop :=
  exists d t, w' = set_trace (t ++ w_trace w) (set_dev d w).

#[export] Instance io_step_preorder {D} : PreOrder (@io_step D).
Proof.
  split.
  - intros w. exists (w_dev w), []. by destruct w.
  - intros w1 w2 w3 (d & t & ->) (d' & t' & ->).
    exists d', (t' ++ t). destruct w1; unfold set_trace, set_dev; cbn.
    by rewrite app_assoc.
Qed.

Lemma io_step_fields {D} (w w' : World D) :
  io_step w w' ->
  w_mem w' = w_mem w /\ w_if w' = w_if w /\ w_locks w' = w_locks w /\
  w_serial_init w' = w_serial_init w /\ w_console w' = w_console w /\
  w_kbd w' = w_kbd w /\ w_pmm w' = w_pmm w /\ w_idt w' = w_idt w /\
  w_apply w' = w_apply w /\ w_tasks w' = w_tasks w /\ w_link w' = w_link w /\
  w_agent w' = w_agent w /\ w_shell w' = w_shell w /\ w_xhci w' = w_xhci w.
Proof. intros (d & t & ->). by destruct w. Qed.

Section PortLemmas.
Context {D : Type} {HW : Hardware D} {CR : Crates D} {CL : CratesLaws D}.

Lemma wp_port_write p v (w : World D) :
  wp (port_write p v) w (fun _ w' =>
    io_step w w' /\ port_log p w' = port_log p w ++ [v] /\
    (forall q, q <> p -> port_log q w' = port_log q w)).
Proof.
  unfold port_write. wp_steps. split; [ | split].
  - eexists _, [_]. by destruct w.
  - rewrite port_log_emit_same. by destruct w.
  - intros q Hq. rewrite port_log_emit_other by done. by destruct w.
Qed.

Lemma wp_port_read n p (w : World D) :
  0 <= n ->
  wp (port_read n p) w (fun v w' =>
    io_step w w' /\ fits n v /\ forall q, port_log q w' = port_log q w).
Proof.
  intros Hn. unfold port_read, wp. destruct (hw_in p (w_dev w)) as [v d] eqn:E.
  split; [ | split]; [ | by apply wrap_fits | done].
  exists d, []. by destruct w.
Qed.

(** A loop of writes to one port. *)
Lemma wp_port_write_list p l (w : World D) :
  wp (kfor l (port_write p)) w (fun _ w' =>
    io_step w w' /\ port_log p w' = port_log p w ++ l /\
    (forall q, q <> p -> port_log q w' = port_log q w)).
Proof.
  revert w. induction l as [ | v l IH]; intros w; cbn [kfor].
  - apply wp_ret. rewrite app_nil_r. done.
  - apply wp_bind. eapply wp_mono; [apply wp_port_write | ].
    intros [] w1 (H1 & L1 & O1). cbn. eapply wp_mono; [apply IH | ].
    intros [] w2 (H2 & L2 & O2). split; [by transitivity w1 | split].
    + by rewrite L2, L1, <- app_assoc.
    + intros q Hq. by rewrite O2, O1.
Qed.

(** A critical section whose body only talks to devices only talks to devices. *)
Lemma wp_with_lock_io {A} l (m : K (World D) A) (w : World D) (Q : A -> World D -> Prop) :
  locked l w = false ->
  wp m (set_locks (set_lock l true (w_locks w)) w)
    (fun a w' => io_step (set_locks (set_lock l true (w_locks w)) w) w' /\
                 Q a (set_locks (w_locks w) w')) ->
  wp (with_lock l m) w (fun a w' => io_step w w' /\ Q a w').
Proof.
  intros Hl Hm. apply wp_with_lock; [done | ].
  eapply wp_mono; [exact Hm | ]. intros a w' [(d & t & ->) HQ]. cbn in *.
  rewrite get_set_lock, set_set_lock, <- Hl, set_get_lock. split; [done | ].
  split; [ | done]. exists d, t. by destruct w.
Qed.
End PortLemmas.
