(* ===== verification/Sim.v ===== *)
(** * A concrete platform

    Instances of the platform classes on which the definitions run: ports that answer
    a constant, registers that read as zero, a script of interrupts.  They show that
    the laws the theorems assume can hold. *)

From S2P Require Import Prelude XhciData State.
From stdpp Require Import gmap list.
From Stdlib Require Import ZArith Lia.

Open Scope Z_scope.

(** The answer of every port, and the vectors raised at each interruptible point. *)
Record Sim : Type := mkSim { sim_port : Z; sim_irqs : list (list Z) }.

#[export] Instance sim_hardware : Hardware Sim := {
  hw_in _ d := (sim_port d, d);
  hw_out _ _ d := d;
  hw_mmio_read _ d m := (0, d, m);
  hw_mmio_write _ _ d m := (d, m);
  hw_dma d m := (d, m);
  hw_irqs d := match sim_irqs d with
               | [] => ([], d)
               | l :: ls => (l, mkSim (sim_port d) ls)
               end
}.

(** The crates as their documentation has them, on any machine. *)
Definition plain_crates (D : Type) : Crates D := {|
  mutex_lock b := if b then None else Some true;
  mutex_unlock _ := false;
  once_call A o a := match o with None => Some a | Some b => Some b end;
  pic_initialize _ _ d := d;
  pic_write_masks _ _ d := d;
  pic_notify_eoi _ d := d;
  flags_from_bits_truncate all bits := Z.land bits all;
  flags_contains s f := Z.land s f =? f;
  flags_insert s f := Z.lor s f;
  flags_remove s f := Z.land s (Z.lnot f)
|}.

Lemma plain_crates_laws D : @CratesLaws D (plain_crates D).
Proof. by split. Qed.

#[export] Instance sim_crates : Crates Sim := plain_crates Sim.
#[export] Instance sim_crates_laws : CratesLaws Sim := plain_crates_laws Sim.

(** A build that compiles every access to itself. *)
Definition plain_build : Build := fun _ stored => stored.
#[export] Instance plain_build_keeps : @BuildKeeps plain_build.
Proof. by intros initial stored. Qed.

(** The machine right after loading, its UART ready. *)
Definition sim_boot : World Sim := boot_world (mkSim 0x60 []) ∅.
Definition sim_ready : World Sim := set_serial_init true sim_boot.
