(* ===== verification/Fmt.v ===== *)
(** * Numbers as text

    The integer formats of [core::fmt] the kernel uses ([{}], [{:x}], [{:08x}],
    [{:#x}], ...), and the digit loop the kernel repeats in journal.rs and shell.rs,
    which fills a 20-byte buffer from its end. *)

From S2P Require Import Prelude.
From stdpp Require Import gmap list strings.
From Stdlib Require Import ZArith Lia.

Open Scope Z_scope.

(** ** [core::fmt] *)

(** Digits of [n] in base [b], least significant first. *)
Fixpoint digits_rev (fuel : nat) (b n : Z) : list Z :=
  match fuel with
  | O => []
  | S f => if n =? 0 then [] else n mod b :: digits_rev f b (n / b)
  end.

(** 64 digits are enough for a 64-bit integer in any base. *)
Definition digits (b n : Z) : list Z := rev (digits_rev 64 b n).

Definition digit_char (d : Z) : Z := if d <? 10 then 48 + d else 87 + d.

Definition show (b n : Z) : list Z :=
  if n =? 0 then [48] else digit_char <$> digits b n.

Definition pad0 (w : nat) (s : list Z) : list Z := replicate (w - length s) 48 ++ s.

Definition fmt_dec (n : Z) : list Z := show 10 n.                       (* {} *)
Definition fmt_hex (n : Z) : list Z := show 16 n.                       (* {:x} *)
Definition fmt_hexw (w : nat) (n : Z) : list Z := pad0 w (show 16 n).   (* {:0wx} *)
Definition fmt_xhex (n : Z) : list Z := bytes_of "0x" ++ show 16 n.     (* {:#x} *)
Definition fmt_xhexw (w : nat) (n : Z) : list Z :=                      (* {:#0wx} *)
  bytes_of "0x" ++ pad0 (w - 2) (show 16 n).
Definition fmt_xbinw (w : nat) (n : Z) : list Z :=                      (* {:#0wb} *)
  bytes_of "0b" ++ pad0 (w - 2) (show 2 n).
Definition fmt_bool (b : bool) : list Z := fmt_dec (if b then 1 else 0). (* b as u8 *)

(** ** The kernel's digit loop

    [while v > 0 { i -= 1; buf[i] = b'0' + (v % 10) as u8; v /= 10; }] on a buffer of
    20 bytes; [None] is the panic of an index out of the buffer.  The budget of 20
    rounds is no restriction: a 21st round would decrement [i = 0] and panic. *)
Fixpoint digit_loop (rounds : nat) (v i : Z) (buf : list Z) : option (Z * list Z) :=
  if v >? 0 then
    match rounds with
    | O => None
    | S r =>
        let i' := u64 (i - 1) in
        if i' <? 20
        then digit_loop r (v / 10) i' (<[Z.to_nat i' := u8 (48 + u8 (v mod 10))]> buf)
        else None
    end
  else Some (i, buf).

(** The bytes [&buf[i..]] the callers print. *)
Definition render_u64 (v : Z) : option (list Z) :=
  match digit_loop 20 v 20 (replicate 20 0) with
  | Some (i, buf) => Some (drop (Z.to_nat i) buf)
  | None => None
  end.

(** Reading decimal text back. *)
Definition undigits (b : Z) (ds : list Z) : Z := fold_left (fun a d => a * b + d) ds 0.

(** ** Lemmas *)

Lemma digits_rev_fuel b f f' n :
  2 <= b -> 0 <= n < b ^ Z.of_nat f -> (f <= f')%nat ->
  digits_rev f' b n = digits_rev f b n.
Proof.
  intros Hb. revert f' n. induction f as [ | f IH]; intros f' n Hn Hf.
  - cbn in Hn. assert (n = 0) as -> by lia. by destruct f'.
  - destruct f' as [ | f']; [lia | ]. cbn [digits_rev].
    destruct (n =? 0); [done | ]. f_equal. apply IH; [ | lia].
    rewrite Nat2Z.inj_succ, Z.pow_succ_r in Hn by lia.
    split; [apply Z.div_pos | apply Z.div_lt_upper_bound]; lia.
Qed.

Lemma digits_rev_value b f n :
  2 <= b -> 0 <= n < b ^ Z.of_nat f ->
  fold_right (fun d a => a * b + d) 0 (digits_rev f b n) = n.
Proof.
  intros Hb. revert n. induction f as [ | f IH]; intros n Hn.
  - cbn in *. lia.
  - cbn [digits_rev]. destruct (Z.eqb_spec n 0) as [-> | Hn0]; [done | ].
    cbn [fold_right]. rewrite IH.
    + pose proof (Z.div_mod n b). lia.
    + rewrite Nat2Z.inj_succ, Z.pow_succ_r in Hn by lia.
      split; [apply Z.div_pos | apply Z.div_lt_upper_bound]; lia.
Qed.

Lemma digits_rev_range b f n d :
  2 <= b -> d ∈ digits_rev f b n -> 0 <= d < b.
Proof.
  intros Hb. revert n. induction f as [ | f IH]; intros n; cbn [digits_rev].
  - by rewrite elem_of_nil.
  - destruct (n =? 0); [by rewrite elem_of_nil | ].
    rewrite elem_of_cons. intros [-> | H]; [apply Z.mod_pos_bound; lia | by eapply IH].
Qed.

Lemma digits_value b n : 2 <= b -> fits 64 n -> undigits b (digits b n) = n.
Proof.
  intros Hb Hn. unfold undigits, digits. rewrite <- fold_left_rev_right, rev_involutive.
  apply digits_rev_value; [done | ]. split; [apply Hn | ].
  eapply Z.lt_le_trans; [apply Hn | ]. change (Z.of_nat 64) with 64.
  apply Z.pow_le_mono_l. lia.
Qed.

Lemma digit_loop_spec f v i buf :
  length buf = 20%nat -> 0 <= v < 10 ^ Z.of_nat f -> Z.of_nat f <= i <= 20 ->
  exists buf',
    digit_loop f v i buf = Some (i - Z.of_nat (length (digits_rev f 10 v)), buf') /\
    length buf' = 20%nat /\ (length (digits_rev f 10 v) <= f)%nat /\
    drop (Z.to_nat (i - Z.of_nat (length (digits_rev f 10 v)))) buf' =
      (digit_char <$> rev (digits_rev f 10 v)) ++ drop (Z.to_nat i) buf.
Proof.
  revert v i buf. induction f as [ | f IH]; intros v i buf Hl Hv Hi.
  - cbn in Hv. assert (v = 0) as -> by lia. cbn. exists buf.
    rewrite Z.sub_0_r. repeat split; auto.
  - rewrite Nat2Z.inj_succ, Z.pow_succ_r in Hv by lia. cbn [digit_loop digits_rev].
    destruct (Z.eqb_spec v 0) as [-> | Hv0].
    + cbn. exists buf. rewrite Z.sub_0_r. repeat split; auto; lia.
    + rewrite (proj2 (Z.gtb_lt v 0)) by lia.
      rewrite (wrap_small 64 (i - 1)) by zlia.
      rewrite (proj2 (Z.ltb_lt _ _)) by lia.
      pose proof (Z.mod_pos_bound v 10).
      rewrite !(wrap_small 8) by (pow2; rewrite ?(wrap_small 8) by zlia; lia).
      destruct (IH (v / 10) (i - 1) (<[Z.to_nat (i - 1):=48 + v mod 10]> buf))
        as (buf' & E & Hl' & Hlen & Hd).
      { by rewrite length_insert. }
      { split; [apply Z.div_pos | apply Z.div_lt_upper_bound]; lia. }
      { lia. }
      exists buf'. cbn [length rev]. rewrite fmap_app, <- app_assoc.
      replace (i - Z.of_nat (S (length (digits_rev f 10 (v / 10)))))
        with (i - 1 - Z.of_nat (length (digits_rev f 10 (v / 10)))) by lia.
      split; [done | ]. split; [done | ]. split; [lia | ].
      rewrite Hd. f_equal. cbn [fmap list_fmap].
      unfold digit_char at 1. rewrite (proj2 (Z.ltb_lt (v mod 10) 10)) by lia.
      rewrite drop_insert_ge by lia. rewrite Nat.sub_diag.
      destruct (lookup_lt_is_Some_2 buf (Z.to_nat (i - 1))) as [y Hy]; [lia | ].
      rewrite (drop_S buf y) by done. cbn. do 2 f_equal. lia.
Qed.

(** The loop prints what [core::fmt] prints, and never leaves its buffer. *)
Lemma render_u64_spec v : fits 64 v -> 0 < v -> render_u64 v = Some (fmt_dec v).
Proof.
  intros Hv H0. assert (v < 10 ^ Z.of_nat 20) by zlia.
  destruct (digit_loop_spec 20 v 20 (replicate 20 0)) as (buf & E & _ & _ & Hd);
    [done | zlia | lia | ].
  unfold render_u64, fmt_dec, show, digits. rewrite E, Hd, drop_replicate.
  rewrite (proj2 (Z.eqb_neq v 0)), (digits_rev_fuel 10 20 64) by (try lia; zlia).
  cbn [replicate Nat.sub Z.to_nat Pos.to_nat Pos.iter_op]. by rewrite app_nil_r.
Qed.

(** *** Formatted text is made of bytes *)

Create HintDb bytes discriminated.

#[export] Hint Opaque bytes_of fmt_dec fmt_hex fmt_hexw fmt_xhex fmt_xhexw fmt_xbinw fmt_bool
  show pad0 : bytes.

Lemma bytes_of_bytes s : Forall (fits 8) (bytes_of s).
Proof.
  unfold bytes_of. rewrite Forall_fmap. apply Forall_true. intros c. cbn.
  pose proof (Ascii.N_ascii_bounded c). zlia.
Qed.

Lemma show_bytes b n : 2 <= b <= 16 -> Forall (fits 8) (show b n).
Proof.
  intros Hb. unfold show. case_match; [repeat constructor; done | ].
  rewrite Forall_fmap. apply Forall_forall. intros d Hd. unfold digits in Hd.
  rewrite list_elem_of_In, <- in_rev, <- list_elem_of_In in Hd.
  apply digits_rev_range in Hd; [ | lia]. cbn. unfold digit_char.
  case_match; zlia.
Qed.

Lemma pad0_bytes w s : Forall (fits 8) s -> Forall (fits 8) (pad0 w s).
Proof.
  intros H. unfold pad0. apply Forall_app. split; [ | done].
  apply Forall_replicate. zlia.
Qed.

Lemma fmt_dec_bytes n : Forall (fits 8) (fmt_dec n).
Proof. apply show_bytes. lia. Qed.

Lemma fmt_xhex_bytes n : Forall (fits 8) (fmt_xhex n).
Proof. apply Forall_app. split; [apply bytes_of_bytes | apply show_bytes; lia]. Qed.

Lemma fmt_hexw_bytes w n : Forall (fits 8) (fmt_hexw w n).
Proof. apply pad0_bytes, show_bytes. lia. Qed.

Lemma fmt_xhexw_bytes w n : Forall (fits 8) (fmt_xhexw w n).
Proof.
  apply Forall_app. split; [apply bytes_of_bytes | apply pad0_bytes, show_bytes; lia].
Qed.

Lemma fmt_xbinw_bytes w n : Forall (fits 8) (fmt_xbinw w n).
Proof.
  apply Forall_app. split; [apply bytes_of_bytes | apply pad0_bytes, show_bytes; lia].
Qed.

Lemma fmt_bool_bytes b : Forall (fits 8) (fmt_bool b).
Proof. apply fmt_dec_bytes. Qed.

Lemma crlf_bytes : Forall (fits 8) [13; 10].
Proof. repeat constructor; done. Qed.

#[export] Hint Resolve bytes_of_bytes fmt_dec_bytes fmt_xhex_bytes fmt_hexw_bytes
  fmt_xhexw_bytes fmt_xbinw_bytes fmt_bool_bytes crlf_bytes : bytes.

Ltac solve_bytes :=
  repeat lazymatch goal with |- Forall _ (_ ++ _) => apply Forall_app; split end;
  auto with bytes.
