(* ===== verification/BootInfo.v ===== *)
(** * Boot information (kernel/src/bootinfo.rs)

    The structure stage 2 hands to the kernel and the iterator over its memory map. *)

From S2P Require Import Prelude.
From stdpp Require Import gmap list strings.
From Stdlib Require Import ZArith Lia.

Open Scope Z_scope.

Record BootInfo : Type := mkBootInfo {
  bi_memory_map : Z;
  bi_memory_map_len : Z;
  bi_memory_map_entry_size : Z;
  bi_initrd_base : Z;
  bi_initrd_len : Z
}.

(** The structure a reference to [p] reads. *)
Definition read_boot_info (m : memory) (p : Z) : BootInfo :=
  mkBootInfo (ld 8 m p) (ld 8 m (p + 8)) (ld 8 m (p + 16)) (ld 8 m (p + 24)) (ld 8 m (p + 32)).

Record MemoryMapEntry : Type := mkEntry {
  base_addr : Z; length : Z; region_type : Z; attributes : Z
}.

(** [mem::size_of::<MemoryMapEntry>()] under [repr(C)]. *)
Definition ENTRY_SIZE : Z := 24.

Inductive MemoryRegionKind : Type :=
| Usable | Reserved | AcpiReclaimable | AcpiNvs | BadMemory | Unknown (code : Z).

Definition as_str (k : MemoryRegionKind) : list Z :=
  bytes_of (match k with
  | Usable => "Usable"
  | Reserved => "Reserved"
  | AcpiReclaimable => "ACPI Reclaimable"
  | AcpiNvs => "ACPI NVS"
  | BadMemory => "Bad Memory"
  | Unknown _ => "Unknown"
  end).

Definition kind (e : MemoryMapEntry) : MemoryRegionKind :=
  match region_type e with
  | 1 => Usable
  | 2 => Reserved
  | 3 => AcpiReclaimable
  | 4 => AcpiNvs
  | 5 => BadMemory
  | other => Unknown other
  end.

Definition is_usable (e : MemoryMapEntry) : bool := region_type e =? 1.

Record MemoryMapIter : Type := mkIter { it_ptr : Z; it_remaining : Z; it_stride : Z }.

Definition memory_map (b : BootInfo) : MemoryMapIter :=
  mkIter (bi_memory_map b) (bi_memory_map_len b)
    (Z.max (bi_memory_map_entry_size b) ENTRY_SIZE).

Definition initrd_base (b : BootInfo) : Z := bi_initrd_base b.
Definition initrd_len (b : BootInfo) : Z := bi_initrd_len b.

(** The entry a reference to [p] reads. *)
Definition read_entry (m : memory) (p : Z) : MemoryMapEntry :=
  mkEntry (ld 8 m p) (ld 8 m (p + 8)) (ld 4 m (p + 16)) (ld 4 m (p + 20)).

Definition next (m : memory) (it : MemoryMapIter) : option (MemoryMapEntry * MemoryMapIter) :=
  if it_remaining it =? 0 then None
  else Some (read_entry m (it_ptr it),
             mkIter (u64 (it_ptr it + it_stride it)) (it_remaining it - 1) (it_stride it)).

(** [for entry in iter]: [remaining] rounds are enough, since each one decrements it. *)
Fixpoint collect (rounds : nat) (m : memory) (it : MemoryMapIter) : list MemoryMapEntry :=
  match rounds with
  | O => []
  | S r => match next m it with
           | None => []
           | Some (e, it') => e :: collect r m it'
           end
  end.

Definition entries (m : memory) (b : BootInfo) : list MemoryMapEntry :=
  collect (Z.to_nat (bi_memory_map_len b)) m (memory_map b).

(** ** Properties *)

(** A budget of [remaining] rounds runs the loop to its end. *)
Lemma collect_more r k m it :
  Z.of_nat r = it_remaining it -> collect (r + k) m it = collect r m it.
Proof.
  revert it. induction r as [ | r IH]; intros it Hr; cbn [collect Nat.add].
  - destruct k; [done | ]. cbn. unfold next. by replace (it_remaining it =? 0) with true by lia.
  - unfold next. replace (it_remaining it =? 0) with false by lia.
    f_equal. apply IH. cbn. lia.
Qed.

Lemma collect_lookup r m it i :
  Z.of_nat r = it_remaining it -> 0 <= it_stride it -> 0 <= it_ptr it ->
  it_ptr it + it_stride it * Z.of_nat r < 2 ^ 64 -> (i < r)%nat ->
  collect r m it !! i = Some (read_entry m (it_ptr it + it_stride it * Z.of_nat i)).
Proof.
  revert it i. induction r as [ | r IH]; intros it i Hr Hs Hp Hb Hi; [lia | ].
  cbn [collect]. unfold next. replace (it_remaining it =? 0) with false by lia.
  destruct i as [ | i]; [cbn; do 2 f_equal; lia | ].
  cbn [lookup list_lookup]. fold (@lookup nat MemoryMapEntry (list MemoryMapEntry) _).
  rewrite IH; cbn [it_ptr it_stride it_remaining]; rewrite ?wrap_small; try nia; try lia.
  do 2 f_equal. lia.
Qed.

Lemma collect_local base len m m' r it :
  agree base len m m' -> base <= it_ptr it -> 0 <= base -> ENTRY_SIZE <= it_stride it ->
  it_ptr it + it_stride it * Z.of_nat r <= base + len -> base + len < 2 ^ 64 ->
  collect r m it = collect r m' it.
Proof.
  intros Hm. revert it. induction r as [ | r IH]; intros it Hp H0 Hs He Hb; [done | ].
  unfold ENTRY_SIZE in *. rewrite Nat2Z.inj_succ, Z.mul_succ_r in He.
  assert (0 <= it_stride it * Z.of_nat r) by nia.
  cbn [collect]. unfold next. destruct (_ =? 0); [done | ]. f_equal.
  - unfold read_entry. f_equal; (eapply ld_agree; [exact Hm | lia | cbn; lia]).
  - apply IH; cbn [it_ptr it_stride it_remaining]; rewrite ?wrap_small by lia; lia.
Qed.

(** The map is read where it is. *)
Lemma map_local m m' (b : BootInfo) :
  let len := Z.max (bi_memory_map_entry_size b) ENTRY_SIZE * bi_memory_map_len b in
  0 <= bi_memory_map b -> 0 <= bi_memory_map_len b -> bi_memory_map b + len < 2 ^ 64 ->
  agree (bi_memory_map b) len m m' -> entries m b = entries m' b.
Proof.
  intros len Hb Hl Hf Hm. unfold entries.
  apply (collect_local (bi_memory_map b) len); [exact Hm | ..];
    cbn [memory_map it_ptr it_stride]; rewrite ?Z2Nat.id by done; lia.
Qed.

(** The iterator visits the whole map and only the map: it yields exactly
    [memory_map_len] entries, the [i]-th read at [memory_map + i * stride] with the
    stride never below the 24 bytes of an entry, and a longer loop yields no more. *)
Theorem memory_map_entries m (b : BootInfo) :
  0 <= bi_memory_map b -> 0 <= bi_memory_map_len b ->
  bi_memory_map b + Z.max (bi_memory_map_entry_size b) ENTRY_SIZE * bi_memory_map_len b
    < 2 ^ 64 ->
  Z.of_nat (List.length (entries m b)) = bi_memory_map_len b /\
  (forall i, 0 <= i < bi_memory_map_len b ->
     entries m b !! Z.to_nat i =
       Some (read_entry m (bi_memory_map b +
               Z.max (bi_memory_map_entry_size b) ENTRY_SIZE * i))) /\
  (forall k, collect (Z.to_nat (bi_memory_map_len b) + k) m (memory_map b) = entries m b).
Proof.
  intros Hp Hn Hb.
  assert (HL : forall i, 0 <= i < bi_memory_map_len b -> entries m b !! Z.to_nat i =
       Some (read_entry m (bi_memory_map b +
               Z.max (bi_memory_map_entry_size b) ENTRY_SIZE * i))).
  { intros i Hi. unfold entries. rewrite collect_lookup; cbn; unfold ENTRY_SIZE in *;
      try lia. by rewrite Z2Nat.id by lia. }
  assert (HM : forall k, collect (Z.to_nat (bi_memory_map_len b) + k) m (memory_map b)
                         = entries m b) by (intros k; apply collect_more; cbn; lia).
  split; [ | by split].
  assert (HC : forall r it, (List.length (collect r m it) <= r)%nat).
  { induction r as [ | r IH]; intros it; cbn; [lia | ].
    destruct (next m it) as [[e it'] | ]; cbn; [specialize (IH it') | ]; lia. }
  pose proof (HC (Z.to_nat (bi_memory_map_len b)) (memory_map b)) as Hle.
  fold (entries m b) in Hle. clear Hb HC HM.
  destruct (Z.eq_dec (bi_memory_map_len b) 0) as [E | E]; [lia | ].
  assert (Hi : 0 <= bi_memory_map_len b - 1 < bi_memory_map_len b) by lia.
  pose proof (lookup_lt_Some _ _ _ (HL _ Hi)). lia.
Qed.

(** A map of two regions, 24 bytes apart. *)
Definition sample_map : memory :=
  st 8 0x1000 0 (st 8 0x1008 0x9fc00 (st 4 0x1010 1 (
  st 8 0x1018 0x100000 (st 8 0x1020 0x7ee0000 (st 4 0x1028 1 ∅))))).
Definition sample_boot : BootInfo := mkBootInfo 0x1000 2 24 0 0.

Lemma memory_map_entries_witness :
  Z.of_nat (List.length (entries sample_map sample_boot)) = 2 /\
  (forall i, 0 <= i < 2 -> entries sample_map sample_boot !! Z.to_nat i =
       Some (read_entry sample_map (0x1000 + Z.max 24 ENTRY_SIZE * i))) /\
  (forall k, collect (Z.to_nat 2 + k) sample_map (memory_map sample_boot)
             = entries sample_map sample_boot).
Proof.
  apply (memory_map_entries sample_map sample_boot); [discriminate | discriminate | reflexivity].
Defined.
