(* ===== verification/Serial.v ===== *)
(** * The serial console (kernel/src/serial.rs)

    COM1 behind the [SERIAL] mutex, mirrored on the debug port 0xE9.  A message that
    comes before [init] goes to the debug port only. *)

From S2P Require Import Prelude XhciData State Sim.
From stdpp Require Import gmap list strings.
From Stdlib Require Import ZArith Lia.

Open Scope Z_scope.

Definition COM1_BASE : Z := 0x3F8.
Definition DEBUGCON : Z := 0xE9.

(** The ports of [SerialPort::new(COM1_BASE)]. *)
Definition data : Z := COM1_BASE.
Definition interrupt_enable : Z := COM1_BASE + 1.
Definition fifo_control : Z := COM1_BASE + 2.
Definition line_control : Z := COM1_BASE + 3.
Definition modem_control : Z := COM1_BASE + 4.
Definition line_status : Z := COM1_BASE + 5.

Definition HEX : list Z := bytes_of "0123456789abcdef".

Section Serial.
Context {D : Type} {HW : Hardware D} {CR : Crates D}.
Abbreviation KW := (K (World D)).

Definition dbg_str (msg : list Z) : KW unit := kfor msg (port_write DEBUGCON).

(** [HEX[i]] panics out of range. *)
Definition hex_digit (i : Z) : KW Z :=
  match HEX !! Z.to_nat i with Some c => mret c | None => kpanic end.

Definition dbg_hex (prefix : list Z) (value : Z) : KW unit :=
  dbg_str prefix ;;
  hi ← hex_digit (Z.shiftr value 4);
  lo ← hex_digit (Z.land value 0x0F);
  port_write DEBUGCON hi ;;
  port_write DEBUGCON lo ;;
  port_write DEBUGCON 10.

(** [DebugWriter::write_str] under [write_fmt]. *)
Definition dbg_fmt (args : list Z) : KW unit := kfor args (port_write DEBUGCON).

Definition is_ready : KW bool := gets w_serial_init.

(** [SerialPort::init]: 38400 baud, 8N1, FIFO on. *)
Definition SerialPort_init : KW unit :=
  port_write interrupt_enable 0x00 ;;
  port_write line_control 0x80 ;;
  port_write data 0x03 ;;
  port_write interrupt_enable 0x00 ;;
  port_write line_control 0x03 ;;
  port_write fifo_control 0xC7 ;;
  port_write modem_control 0x0B.

(** One round of the loop that waits for the transmitter, with its counter. *)
Definition wait_round (spins : Z) : KW (Z + unit) :=
  status ← port_read 8 line_status;
  if has status 0x20 || has status 0x40 then mret (inr tt)
  else
    (if spins <? 8 then dbg_hex (bytes_of "serial: wait lsr=") status else mret tt) ;;
    let spins := spins + 1 in
    if spins >? 1000000 then
      dbg_hex (bytes_of "serial: wait timeout lsr=") status ;; mret (inr tt)
    else mret (inl spins).

(** The loop leaves after 1_000_001 rounds at the latest. *)
Definition wait_transmit : KW unit :=
  r ← kiter 1000001 wait_round 0;
  match r with inr _ => mret tt | inl _ => kfuel end.

Definition send_byte (byte : Z) : KW unit :=
  wait_transmit ;;
  port_write data byte ;;
  dbg_str (bytes_of "serial: byte sent" ++ [10]).

(** [SerialPort::write_byte].  Its recursive call is on ['\r'], which makes none. *)
Definition write_byte (byte : Z) : KW unit :=
  dbg_hex (bytes_of "serial: write_byte ") byte ;;
  (if byte =? 10
   then dbg_hex (bytes_of "serial: write_byte ") 13 ;; send_byte 13
   else mret tt) ;;
  send_byte byte.

Definition SerialPort_write_str (s : list Z) : KW unit := kfor s write_byte.

Definition init : KW unit :=
  dbg_str (bytes_of "serial: init start" ++ [10]) ;;
  with_lock SERIAL SerialPort_init ;;
  modify (set_serial_init true) ;;
  dbg_str (bytes_of "serial: init done" ++ [10]).

Definition write_str (message : list Z) : KW unit :=
  dbg_str (bytes_of "serial: write_str" ++ [10]) ;;
  ready ← is_ready;
  if negb ready then dbg_fmt message
  else with_lock SERIAL (SerialPort_write_str message).

(** [args] is the formatted text. *)
Definition write_fmt (args : list Z) : KW unit :=
  ready ← is_ready;
  if negb ready then dbg_fmt args
  else with_lock SERIAL (SerialPort_write_str args).

Definition panic (info : list Z) : KW unit :=
  let text := bytes_of "panic: " ++ info ++ [10] in
  ready ← is_ready;
  if negb ready then dbg_fmt text
  else with_lock SERIAL (SerialPort_write_str text).

End Serial.

(** What the line carries: every line feed is preceded by a carriage return. *)
Definition crlf (s : list Z) : list Z :=
  s ≫= fun b => if b =? 10 then [13; 10] else [b].

(** ** Properties *)

Lemma crlf_app s1 s2 : crlf (s1 ++ s2) = crlf s1 ++ crlf s2.
Proof. unfold crlf. apply bind_app. Qed.

Section SerialProps.
Context {D : Type} {HW : Hardware D} {CR : Crates D} {CL : CratesLaws D}.

(** Effects that reach COM1's data port with [l] and change nothing but devices. *)
Definition sends (l : list Z) (w w' : World D) : Prop :=
  io_step w w' /\ port_log data w' = port_log data w ++ l.

Lemma sends_trans l1 l2 w1 w2 w3 :
  sends l1 w1 w2 -> sends l2 w2 w3 -> sends (l1 ++ l2) w1 w3.
Proof.
  intros [H1 L1] [H2 L2]. split; [by transitivity w2 | by rewrite L2, L1, app_assoc].
Qed.

Lemma sends_nil_trans l w1 w2 w3 :
  sends [] w1 w2 -> sends l w2 w3 -> sends l w1 w3.
Proof. apply (sends_trans [] l). Qed.

Lemma sends_refl w : sends [] w w.
Proof. split; [done | by rewrite app_nil_r]. Qed.

Lemma wp_dbg_str s (w : World D) : wp (dbg_str s) w (fun _ => sends [] w).
Proof.
  eapply wp_mono; [apply wp_port_write_list | ]. intros [] w' (H & _ & O).
  split; [done | ]. by rewrite O, app_nil_r.
Qed.

Lemma wp_dbg_out v (w : World D) : wp (port_write DEBUGCON v) w (fun _ => sends [] w).
Proof.
  eapply wp_mono; [apply wp_port_write | ]. intros [] w' (H & _ & O).
  split; [done | ]. by rewrite O, app_nil_r.
Qed.

Lemma wp_hex_digit i (w : World D) Q :
  0 <= i < 16 -> (forall c, Q c w) -> wp (hex_digit i) w Q.
Proof.
  intros Hi HQ. unfold hex_digit.
  destruct (lookup_lt_is_Some_2 HEX (Z.to_nat i)) as [c ->]; [ | by apply HQ].
  change (length HEX) with 16%nat. lia.
Qed.

Lemma wp_dbg_hex prefix v (w : World D) :
  fits 8 v -> wp (dbg_hex prefix v) w (fun _ => sends [] w).
Proof.
  intros Hv. unfold dbg_hex. apply wp_bind.
  eapply wp_mono; [apply wp_dbg_str | ]. intros [] w1 H1.
  apply wp_bind, wp_hex_digit.
  { rewrite Z.shiftr_div_pow2 by lia. pow2.
    split; [apply Z.div_pos | apply Z.div_lt_upper_bound]; zlia. }
  intros hi. apply wp_bind, wp_hex_digit.
  { rewrite (land_ones_mod _ 4) by done. apply Z.mod_pos_bound. lia. }
  intros lo.
  apply wp_bind. eapply wp_mono; [apply wp_dbg_out | ]. intros [] w2 H2.
  apply wp_bind. eapply wp_mono; [apply wp_dbg_out | ]. intros [] w3 H3.
  eapply wp_mono; [apply wp_dbg_out | ]. intros [] w4 H4.
  by do 3 (eapply sends_nil_trans; [done | ]).
Qed.

Lemma wp_wait_round w0 k (w : World D) :
  sends [] w0 w -> 0 <= k <= 1000000 ->
  wp (wait_round k) w (fun r w' =>
    match r with inl k' => k' = k + 1 /\ k' <= 1000000 /\ sends [] w0 w'
               | inr _ => sends [] w0 w' end).
Proof.
  intros H0 Hk. unfold wait_round. apply wp_bind.
  eapply wp_mono; [by apply wp_port_read | ]. intros st w1 (H1 & Hst & O1).
  assert (sends [] w0 w1) as S1.
  { eapply sends_nil_trans; [exact H0 | ]. split; [done | by rewrite O1, app_nil_r]. }
  destruct (has st 0x20 || has st 0x40); [done | ].
  apply wp_bind. apply (wp_mono _ _ (fun _ => sends [] w0)).
  { case_match; [ | by apply wp_ret].
    eapply wp_mono; [by apply wp_dbg_hex | ]. intros ? w2. by apply sends_nil_trans. }
  intros ? w2 S2. cbv zeta beta. destruct (Z.gtb_spec (k + 1) 1000000).
  - apply wp_bind. eapply wp_mono; [by apply wp_dbg_hex | ]. intros [] w3 S3.
    apply wp_ret. by eapply sends_nil_trans.
  - apply wp_ret. split; [done | ]. split; [lia | done].
Qed.

(** Whatever the UART answers, the wait ends. *)
Lemma wp_wait_transmit (w : World D) : wp wait_transmit w (fun _ => sends [] w).
Proof.
  unfold wait_transmit. apply wp_bind. eapply wp_mono.
  - apply (wp_kiter _ _ (fun k a w' => a = k /\ 0 <= k <= 1000000 /\ sends [] w w')
             (fun _ => sends [] w) 0).
    { split; [done | split; [lia | apply sends_refl]]. }
    intros k a w' (-> & Hk & Hs). eapply wp_mono; [by apply wp_wait_round | ].
    intros [k' | []] w'' H; [ | done]. destruct H as (-> & ? & ?).
    split; [done | split; [lia | done]].
  - intros [k | []] w' H; [lia | done].
Qed.

Lemma wp_send_byte b (w : World D) : wp (send_byte b) w (fun _ => sends [b] w).
Proof.
  unfold send_byte. apply wp_bind.
  eapply wp_mono; [apply wp_wait_transmit | ]. intros [] w1 H1.
  apply wp_bind. eapply wp_mono; [apply wp_port_write | ]. intros [] w2 (H2 & L2 & _).
  eapply wp_mono; [apply wp_dbg_str | ]. intros [] w3 H3.
  eapply sends_nil_trans; [exact H1 | ]. apply (sends_trans [b] [] _ w2); [ | done].
  split; [done | exact L2].
Qed.

Lemma wp_write_byte b (w : World D) :
  fits 8 b -> wp (write_byte b) w (fun _ => sends (crlf [b]) w).
Proof.
  intros Hb. unfold write_byte. apply wp_bind.
  eapply wp_mono; [by apply wp_dbg_hex | ]. intros [] w1 H1. apply wp_bind.
  unfold crlf. cbn. destruct (b =? 10) eqn:E.
  - apply Z.eqb_eq in E as ->. apply wp_bind.
    eapply wp_mono; [apply wp_dbg_hex; zlia | ]. intros [] w2 H2.
    eapply wp_mono; [apply wp_send_byte | ]. intros [] w3 H3.
    eapply wp_mono; [apply wp_send_byte | ]. intros [] w4 H4.
    eapply sends_nil_trans; [exact H1 | ]. eapply sends_nil_trans; [exact H2 | ].
    by apply (sends_trans [13] [10] _ w3).
  - apply wp_ret. eapply wp_mono; [apply wp_send_byte | ]. intros [] w4 H4.
    by eapply sends_nil_trans.
Qed.

Lemma wp_SerialPort_write_str s (w : World D) :
  Forall (fits 8) s -> wp (SerialPort_write_str s) w (fun _ => sends (crlf s) w).
Proof.
  intros Hs. unfold SerialPort_write_str. revert w.
  induction Hs as [ | b s Hb Hs IH]; intros w; cbn [kfor].
  - apply wp_ret, sends_refl.
  - apply wp_bind. eapply wp_mono; [by apply wp_write_byte | ]. intros [] w1 H1.
    eapply wp_mono; [apply IH | ]. intros [] w2 H2.
    replace (crlf (b :: s)) with (crlf [b] ++ crlf s); [by eapply sends_trans | ].
    unfold crlf. cbn. by rewrite app_nil_r.
Qed.

(** *** The three entry points share this behaviour. *)
Definition prints (s : list Z) (w w' : World D) : Prop :=
  io_step w w' /\
  (w_serial_init w = true -> port_log data w' = port_log data w ++ crlf s) /\
  (w_serial_init w = false ->
     port_log data w' = port_log data w /\
     exists pre, port_log DEBUGCON w' = port_log DEBUGCON w ++ pre ++ s).

Lemma wp_emit_text s (w : World D) :
  Forall (fits 8) s -> locked SERIAL w = false ->
  wp (ready ← is_ready;
      if negb ready then dbg_fmt s else with_lock SERIAL (SerialPort_write_str s))
     w (fun _ => prints s w).
Proof.
  intros Hs Hl. apply wp_bind. unfold is_ready. apply wp_gets.
  destruct (w_serial_init w) eqn:E; cbn.
  - eapply wp_mono.
    + apply (wp_with_lock_io SERIAL _ _
               (fun _ w' => port_log data w' = port_log data w ++ crlf s)); [done | ].
      eapply wp_mono; [by apply wp_SerialPort_write_str | ]. intros [] w' [H L].
      split; [exact H | ]. cbn in L |- *. exact L.
    + intros [] w' [H L]. split; [done | ]. split; [done | congruence].
  - eapply wp_mono; [apply wp_port_write_list | ]. intros [] w' (H & L & O).
    split; [done | ]. split; [congruence | ]. intros _. split; [by apply O | by exists []].
Qed.

Lemma wp_serial_write_fmt s (w : World D) :
  Forall (fits 8) s -> locked SERIAL w = false ->
  wp (write_fmt s) w (fun _ => prints s w).
Proof. apply wp_emit_text. Qed.

Lemma wp_serial_write_str s (w : World D) :
  Forall (fits 8) s -> locked SERIAL w = false ->
  wp (write_str s) w (fun _ => prints s w).
Proof.
  intros Hs Hl. unfold write_str. apply wp_bind.
  eapply wp_mono; [apply wp_port_write_list | ]. intros [] w1 (H1 & L1 & O1).
  destruct (io_step_fields _ _ H1) as (_ & _ & Ek & Ei & _).
  eapply wp_mono; [apply wp_emit_text; [done | by rewrite Ek] | ].
  intros [] w2 (H2 & Hr & Hn). rewrite Ei in Hr, Hn. split; [by transitivity w1 | split].
  - intros R. rewrite (Hr R), O1; done.
  - intros R. destruct (Hn R) as (-> & pre & ->). split; [by apply O1 | ].
    rewrite L1. eexists (_ ++ pre). rewrite <- !(app_assoc (port_log _ _)).
    rewrite <- (app_assoc _ pre s). reflexivity.
Qed.


Lemma wp_port_quiet p v (w : World D) : p <> data -> wp (port_write p v) w (fun _ => sends [] w).
Proof.
  intros Hp. eapply wp_mono; [apply wp_port_write | ]. intros [] w' (H & _ & O).
  split; [done | ]. by rewrite O, app_nil_r.
Qed.

Lemma wp_sends_seq l1 l2 (m k : K (World D) unit) w :
  wp m w (fun _ => sends l1 w) -> (forall w', wp k w' (fun _ => sends l2 w')) ->
  wp (m ;; k) w (fun _ => sends (l1 ++ l2) w).
Proof.
  intros Hm Hk. apply wp_bind. eapply wp_mono; [exact Hm | ]. intros [] w1 H1.
  eapply wp_mono; [apply Hk | ]. intros [] w2. by apply sends_trans.
Qed.

Lemma wp_SerialPort_init w : wp SerialPort_init w (fun _ => sends [3] w).
Proof.
  unfold SerialPort_init. do 2 (apply (wp_sends_seq [] [3]); [by apply wp_port_quiet | intros ?]).
  apply (wp_sends_seq [3] []).
  { eapply wp_mono; [apply wp_port_write | ]. intros [] w1 (H & L & _). by split. }
  intros ?. do 3 (apply (wp_sends_seq [] []); [by apply wp_port_quiet | intros ?]). by apply wp_port_quiet.
Qed.

(** Initialisation: the divisor goes through the data port, then the line is up. *)
Lemma wp_serial_init (w : World D) :
  locked SERIAL w = false ->
  wp init w (fun _ w' => io_step (set_serial_init true w) w' /\ port_log data w' = port_log data w ++ [3]).
Proof.
  intros Hl. unfold init. apply wp_bind. eapply wp_mono; [apply wp_dbg_str | ]. intros [] w1 [H1 L1].
  destruct (io_step_fields _ _ H1) as (_ & _ & Ek & _). apply wp_bind.
  eapply (wp_mono _ _ (fun _ w' => io_step w1 w' /\ port_log data w' = port_log data w1 ++ [3])).
  { apply (wp_with_lock_io SERIAL _ _ (fun _ w' => port_log data w' = port_log data w1 ++ [3])); [by rewrite Ek | ].
    eapply wp_mono; [apply wp_SerialPort_init | ]. intros [] w2 [H L]. split; [exact H | exact L]. }
  intros [] w2 [H2 L2]. apply wp_bind, wp_modify.
  eapply wp_mono; [apply wp_dbg_str | ]. intros [] w3 [H3 L3]. split.
  - destruct H1 as (d1 & t1 & ->), H2 as (d2 & t2 & ->), H3 as (d3 & t3 & ->). destruct w.
    exists d3, (t3 ++ t2 ++ t1). cbn. by rewrite !app_assoc.
  - rewrite L3, !app_nil_r in *. by rewrite <- L1, <- L2.
Qed.

(** [C29] Text reaches COM1 intact for every UART: whatever the line status register
    answers (a transmitter that never becomes ready included), [write_str] and
    [write_fmt] return, change no static and no memory, and once the port is
    initialised the data port receives exactly the text with each line feed preceded by
    a carriage return; before that nothing is sent to COM1 and the text goes to the
    debug port. *)
Theorem serial_text_delivered s (w : World D) :
  Forall (fits 8) s -> locked SERIAL w = false ->
  (exists w', write_str s w = Ret tt w' /\ prints s w w') /\
  (exists w', write_fmt s w = Ret tt w' /\ prints s w w').
Proof.
  intros Hs Hl. split.
  - pose proof (wp_serial_write_str s w Hs Hl) as H.
    apply wp_iff in H as ([] & w' & E & H). by exists w'.
  - pose proof (wp_serial_write_fmt s w Hs Hl) as H.
    apply wp_iff in H as ([] & w' & E & H). by exists w'.
Qed.

End SerialProps.

(** *** Witness *)

Lemma serial_text_delivered_witness :
  (exists w', write_str [72; 105; 10] sim_ready = Ret tt w' /\ prints [72; 105; 10] sim_ready w') /\
  (exists w', write_fmt [72; 105; 10] sim_ready = Ret tt w' /\ prints [72; 105; 10] sim_ready w').
Proof.
  apply (serial_text_delivered [72; 105; 10] sim_ready).
  - repeat constructor; discriminate || reflexivity.
  - reflexivity.
Defined.
