(* ===== verification/Vga.v ===== *)
(** * The text console (kernel/src/vga.rs)

    An 80 x 25 text buffer of 16-bit cells at 0xb8000, a cursor and a style byte,
    behind the [CONSOLE] mutex. *)

From S2P Require Import Prelude XhciData State Sim Fmt.
From stdpp Require Import gmap list strings.
From Stdlib Require Import ZArith Lia.

Open Scope Z_scope.

Definition VGA_BUFFER_ADDRESS : Z := 0xb8000.
Definition BUFFER_HEIGHT : Z := 25.
Definition BUFFER_WIDTH : Z := 80.
Definition DEFAULT_STYLE : Z := 0x0f.

(** The methods of [Console] act on the cursor and on the text buffer. *)
Definition cstate : Type := Console * memory.

Definition buffer_ptr (row col : Z) : Z :=
  u64 (VGA_BUFFER_ADDRESS + u64 (u64 (u64 (row * BUFFER_WIDTH) + col) * 2)).

Definition entry (byte style : Z) : Z := Z.lor (u16 (Z.shiftl style 8)) byte.

Definition write_entry_at (byte style row col : Z) (m : memory) : memory :=
  st 2 (buffer_ptr row col) (entry byte style) m.

Definition read_entry_at (row col : Z) (m : memory) : Z := ld 2 m (buffer_ptr row col).

Definition set_cursor (col row : Z) (c : Console) : Console := mkConsole col row (style c).

Definition clear (s : cstate) : cstate :=
  let '(c, m) := s in
  (set_cursor 0 0 c,
   fold_left (fun m row =>
     fold_left (fun m col => write_entry_at 32 (style c) row col m)
       (seqZ 0 BUFFER_WIDTH) m)
     (seqZ 0 BUFFER_HEIGHT) m).

(** One cell of the scroll loop: the entry moves up one row. *)
Definition move_up (row : Z) (m : memory) (col : Z) : memory :=
  let e := read_entry_at row col m in
  write_entry_at (u8 e) (u8 (Z.shiftr e 8)) (row - 1) col m.

Definition scroll (sty : Z) (m : memory) : memory :=
  let m := fold_left (fun m row => fold_left (move_up row) (seqZ 0 BUFFER_WIDTH) m)
             (seqZ 1 (BUFFER_HEIGHT - 1)) m in
  fold_left (fun m col => write_entry_at 32 sty (BUFFER_HEIGHT - 1) col m)
    (seqZ 0 BUFFER_WIDTH) m.

Definition new_line (s : cstate) : cstate :=
  let '(c, m) := s in
  if row_position c <? BUFFER_HEIGHT - 1
  then (set_cursor 0 (row_position c + 1) c, m)
  else (set_cursor 0 (row_position c) c, scroll (style c) m).

Definition write_byte (byte : Z) (s : cstate) : cstate :=
  let '(c, m) := if column_position (fst s) >=? BUFFER_WIDTH then new_line s else s in
  (set_cursor (u64 (column_position c + 1)) (row_position c) c,
   write_entry_at byte (style c) (row_position c) (column_position c) m).

(** One byte of [Console::write_str]. *)
Definition write_str_byte (s : cstate) (byte : Z) : cstate :=
  if byte =? 10 then new_line s
  else if byte =? 13 then (set_cursor 0 (row_position (fst s)) (fst s), snd s)
  else write_byte byte s.

Definition console_write_str (message : list Z) (s : cstate) : cstate :=
  fold_left write_str_byte message s.

Definition console_backspace (s : cstate) : cstate :=
  let '(c, m) := s in
  if column_position c >? 0 then
    let col := column_position c - 1 in
    (set_cursor col (row_position c) c,
     write_entry_at 32 (style c) (row_position c) col m)
  else if row_position c >? 0 then
    let row := row_position c - 1 in
    let col := BUFFER_WIDTH - 1 in
    (set_cursor col row c, write_entry_at 32 (style c) row col m)
  else s.

(** [char::encode_utf8]. *)
Definition encode_utf8 (c : Z) : list Z :=
  if c <? 0x80 then [c]
  else if c <? 0x800 then
    [Z.lor 0xC0 (Z.shiftr c 6); Z.lor 0x80 (Z.land c 0x3F)]
  else if c <? 0x10000 then
    [Z.lor 0xE0 (Z.shiftr c 12); Z.lor 0x80 (Z.land (Z.shiftr c 6) 0x3F);
     Z.lor 0x80 (Z.land c 0x3F)]
  else
    [Z.lor 0xF0 (Z.shiftr c 18); Z.lor 0x80 (Z.land (Z.shiftr c 12) 0x3F);
     Z.lor 0x80 (Z.land (Z.shiftr c 6) 0x3F); Z.lor 0x80 (Z.land c 0x3F)].

Definition write_char (c : Z) (s : cstate) : cstate :=
  if c =? 10 then new_line s
  else fold_left (fun s b => write_byte b s) (encode_utf8 c) s.

Section Vga.
Context {D : Type} {HW : Hardware D} {CR : Crates D}.
Abbreviation KW := (K (World D)).

(** A method call on the locked console. *)
Definition on_console (f : cstate -> cstate) : KW unit :=
  modify (fun w => let '(c, m) := f (w_console w, w_mem w) in
                   set_console c (set_mem m w)).

Definition init : KW unit := with_lock CONSOLE (on_console clear).

Definition write_str (message : list Z) : KW unit :=
  with_lock CONSOLE (on_console (console_write_str message)).

Definition write_line (message : list Z) : KW unit :=
  with_lock CONSOLE (on_console (console_write_str message) ;; on_console new_line).

Definition put_char (c : Z) : KW unit := with_lock CONSOLE (on_console (write_char c)).

Definition backspace : KW unit := with_lock CONSOLE (on_console console_backspace).

Definition with_style (sty : Z) (s : cstate) : cstate :=
  let '(c, m) := s in (mkConsole (column_position c) (row_position c) sty, m).

Definition set_style (sty : Z) : KW unit := with_lock CONSOLE (on_console (with_style sty)).

(** [fmt] and [panic] write text that is already formatted. *)
Definition fmt (args : list Z) : KW unit :=
  with_lock CONSOLE (on_console (console_write_str args)).

Definition panic (info : list Z) : KW unit :=
  with_lock CONSOLE
    (c ← gets w_console;
     let saved_style := style c in
     on_console (with_style 0x4f) ;;
     on_console (console_write_str (bytes_of "panic: " ++ info ++ [10])) ;;
     on_console (with_style saved_style)).

End Vga.

(** ** The invariant: the cursor is on the screen, or just past the end of a row *)

Definition console_ok (c : Console) : Prop :=
  0 <= column_position c <= BUFFER_WIDTH /\ 0 <= row_position c < BUFFER_HEIGHT /\
  fits 8 (style c).

Definition cstate_ok (s : cstate) : Prop := console_ok (fst s).

(** The bytes of the text buffer. *)
Definition vga_byte (a : Z) : Prop :=
  VGA_BUFFER_ADDRESS <= a < VGA_BUFFER_ADDRESS + BUFFER_WIDTH * BUFFER_HEIGHT * 2.

(** Two memories that agree outside the text buffer. *)
Definition same_outside (m m' : memory) : Prop :=
  forall a, ~ vga_byte a -> m' !! a = m !! a.

#[export] Instance same_outside_preorder : PreOrder same_outside.
Proof.
  split; [done | ]. intros m1 m2 m3 H1 H2 a Ha. by rewrite H2, H1.
Qed.

(** A cell on the screen. *)
Definition on_screen (row col : Z) : Prop :=
  0 <= row < BUFFER_HEIGHT /\ 0 <= col < BUFFER_WIDTH.

Lemma buffer_ptr_eq row col :
  on_screen row col -> buffer_ptr row col = VGA_BUFFER_ADDRESS + (row * 80 + col) * 2.
Proof.
  unfold on_screen, buffer_ptr, BUFFER_HEIGHT, BUFFER_WIDTH, VGA_BUFFER_ADDRESS.
  intros H. rewrite (wrap_small 64 (row * 80)), (wrap_small 64 (row * 80 + col)) by zlia.
  rewrite (wrap_small 64 (_ * 2)), wrap_small by zlia. done.
Qed.

Lemma entry_value byte sty : fits 8 byte -> fits 8 sty -> entry byte sty = sty * 256 + byte.
Proof.
  intros Hb Hs. unfold entry. rewrite Z.shiftl_mul_pow2 by lia.
  rewrite wrap_small by zlia. apply (lor_add 8); [lia | exact Hb].
Qed.

(** The cells of the screen behave as independent variables. *)
Lemma read_write_same byte sty row col m :
  fits 8 byte -> fits 8 sty ->
  read_entry_at row col (write_entry_at byte sty row col m) = entry byte sty.
Proof.
  intros Hb Hs. unfold read_entry_at, write_entry_at. rewrite ld_st_same.
  apply Z.mod_small. rewrite entry_value by done. zlia.
Qed.

Lemma read_write_other byte sty row col row' col' m :
  on_screen row col -> on_screen row' col' -> (row, col) <> (row', col') ->
  read_entry_at row' col' (write_entry_at byte sty row col m) = read_entry_at row' col' m.
Proof.
  intros H H' Hne. unfold read_entry_at, write_entry_at. apply ld_st_disjoint.
  rewrite !buffer_ptr_eq by done. unfold on_screen, BUFFER_HEIGHT, BUFFER_WIDTH in *.
  destruct (Z.eq_dec row row') as [-> | ]; [ | lia].
  destruct (Z.eq_dec col col') as [-> | ]; [done | lia].
Qed.

Lemma write_entry_outside byte sty row col m :
  on_screen row col -> same_outside m (write_entry_at byte sty row col m).
Proof.
  intros H a Ha. unfold write_entry_at. apply st_frame. rewrite buffer_ptr_eq by done.
  unfold vga_byte, on_screen, VGA_BUFFER_ADDRESS, BUFFER_HEIGHT, BUFFER_WIDTH in *. lia.
Qed.


(** *** The scroll loop *)

Lemma entry_split e : 0 <= e < 2 ^ 16 -> entry (u8 e) (u8 (e ≫ 8)) = e.
Proof.
  intros He. rewrite entry_value by (apply wrap_fits; lia).
  rewrite Z.shiftr_div_pow2 by lia. unfold wrap. pow2.
  rewrite (Z.mod_small (e / 256)) by (split; [apply Z.div_pos | apply Z.div_lt_upper_bound]; lia).
  pose proof (Z.div_mod e 256). lia.
Qed.

Ltac screen := unfold on_screen, BUFFER_HEIGHT, BUFFER_WIDTH in *; lia.

(** The cells after a write, as a function of the cells before it. *)
Lemma read_write byte sty row col r c m :
  fits 8 byte -> fits 8 sty -> on_screen row col -> on_screen r c ->
  read_entry_at r c (write_entry_at byte sty row col m) =
    if (r =? row) && (c =? col) then entry byte sty else read_entry_at r c m.
Proof.
  intros Hb Hs H H'. destruct (Z.eqb_spec r row) as [-> | Hr];
    [destruct (Z.eqb_spec c col) as [-> | Hc] | ]; cbn.
  - by apply read_write_same.
  - apply read_write_other; [done | done | congruence].
  - apply read_write_other; [done | done | congruence].
Qed.

Lemma read_move_up row col r c m :
  on_screen row col -> on_screen (row - 1) col -> on_screen r c ->
  read_entry_at r c (move_up row m col) =
    if (r =? row - 1) && (c =? col) then read_entry_at row col m else read_entry_at r c m.
Proof.
  intros H H1 H'. unfold move_up.
  rewrite read_write by (try apply wrap_fits; done || lia).
  by rewrite entry_split by apply (ld_range 2).
Qed.

Lemma move_row_spec row m :
  1 <= row < BUFFER_HEIGHT ->
  (forall r c, on_screen r c ->
     read_entry_at r c (fold_left (move_up row) (seqZ 0 BUFFER_WIDTH) m) =
       if r =? row - 1 then read_entry_at row c m else read_entry_at r c m) /\
  same_outside m (fold_left (move_up row) (seqZ 0 BUFFER_WIDTH) m).
Proof.
  intros Hrow. pose (P i m' := (forall r c, on_screen r c ->
    read_entry_at r c m' =
      if (r =? row - 1) && (c <? i) then read_entry_at row c m else read_entry_at r c m) /\
    same_outside m m').
  assert (HP : P (0 + BUFFER_WIDTH) (fold_left (move_up row) (seqZ 0 BUFFER_WIDTH) m)).
  { apply fold_seqZ_ind; [screen | | ].
    - split; [ | done]. intros r c H. replace (c <? 0) with false by screen.
      by rewrite andb_false_r.
    - intros i m' Hi [IH IO]. split.
      + intros r c H. rewrite read_move_up, !IH by screen.
        replace (row =? row - 1) with false by lia. cbn [andb].
        destruct (Z.eqb_spec r (row - 1)), (Z.eqb_spec c i), (Z.ltb_spec c i),
          (Z.ltb_spec c (i + 1)); cbn; subst; done || lia.
      + etransitivity; [exact IO | ]. apply write_entry_outside. screen. }
  destruct HP as [HP HO]. split; [ | done]. intros r c H. rewrite HP by done.
  replace (c <? 0 + BUFFER_WIDTH) with true by screen. by rewrite andb_true_r.
Qed.

Lemma move_rows_spec m :
  let m' := fold_left (fun m row => fold_left (move_up row) (seqZ 0 BUFFER_WIDTH) m)
              (seqZ 1 (BUFFER_HEIGHT - 1)) m in
  (forall r c, on_screen r c -> read_entry_at r c m' =
     if r <? BUFFER_HEIGHT - 1 then read_entry_at (r + 1) c m else read_entry_at r c m) /\
  same_outside m m'.
Proof.
  cbv zeta.
  apply (fold_seqZ_ind (fun k m' => (forall r c, on_screen r c -> read_entry_at r c m' =
     if r <? k - 1 then read_entry_at (r + 1) c m else read_entry_at r c m) /\
     same_outside m m')); [screen | | ].
  - split; [ | done]. intros r c H. by replace (r <? 1 - 1) with false by screen.
  - intros k m' Hk [IH IO]. destruct (move_row_spec k m') as [HM HO]; [screen | ].
    split; [ | by transitivity m'].
    intros r c H. rewrite HM, !IH by screen.
    destruct (Z.eqb_spec r (k - 1)), (Z.ltb_spec r (k - 1)), (Z.ltb_spec r (k + 1 - 1)),
      (Z.ltb_spec k (k - 1)); subst; try lia; try done. f_equal. lia.
Qed.

(** Filling a row with blanks. *)
Lemma fill_row_spec sty row m :
  fits 8 sty -> 0 <= row < BUFFER_HEIGHT ->
  let m' := fold_left (fun m col => write_entry_at 32 sty row col m) (seqZ 0 BUFFER_WIDTH) m in
  (forall r c, on_screen r c -> read_entry_at r c m' =
     if r =? row then entry 32 sty else read_entry_at r c m) /\
  same_outside m m'.
Proof.
  intros Hs Hrow. cbv zeta.
  assert (HP := fold_seqZ_ind (fun i m' => (forall r c, on_screen r c ->
    read_entry_at r c m' =
      if (r =? row) && (c <? i) then entry 32 sty else read_entry_at r c m) /\
    same_outside m m') (fun m col => write_entry_at 32 sty row col m) 0 BUFFER_WIDTH m).
  destruct HP as [HP HO].
  - screen.
  - split; [ | done]. intros r c H. replace (c <? 0) with false by screen.
    by rewrite andb_false_r.
  - intros i m' Hi [IH IO]. split.
    + intros r c H. rewrite read_write, IH by (screen || zlia).
      destruct (Z.eqb_spec r row), (Z.eqb_spec c i), (Z.ltb_spec c i),
        (Z.ltb_spec c (i + 1)); cbn; subst; done || lia.
    + etransitivity; [exact IO | ]. apply write_entry_outside. screen.
  - split; [ | done]. intros r c H. rewrite HP by done.
    replace (c <? 0 + BUFFER_WIDTH) with true by screen. by rewrite andb_true_r.
Qed.

Lemma scroll_spec sty m :
  fits 8 sty ->
  (forall r c, on_screen r c -> read_entry_at r c (scroll sty m) =
     if r <? BUFFER_HEIGHT - 1 then read_entry_at (r + 1) c m else entry 32 sty) /\
  same_outside m (scroll sty m).
Proof.
  intros Hs. unfold scroll. destruct (move_rows_spec m) as [HM HO].
  destruct (fill_row_spec sty (BUFFER_HEIGHT - 1)
    (fold_left (fun m row => fold_left (move_up row) (seqZ 0 BUFFER_WIDTH) m)
       (seqZ 1 (BUFFER_HEIGHT - 1)) m)) as [HF HF']; [done | screen | ].
  split; [ | etransitivity; eassumption].
  intros r c H. rewrite HF, HM by done.
  destruct (Z.eqb_spec r (BUFFER_HEIGHT - 1)), (Z.ltb_spec r (BUFFER_HEIGHT - 1));
    done || screen.
Qed.

Lemma clear_spec c m :
  fits 8 (style c) ->
  (forall r k, on_screen r k -> read_entry_at r k (snd (clear (c, m))) = entry 32 (style c)) /\
  same_outside m (snd (clear (c, m))).
Proof.
  intros Hs. cbn [clear snd].
  assert (HP := fold_seqZ_ind (fun i m' => (forall r k, on_screen r k ->
    read_entry_at r k m' = if r <? i then entry 32 (style c) else read_entry_at r k m) /\
    same_outside m m')
    (fun m row => fold_left (fun m col => write_entry_at 32 (style c) row col m)
       (seqZ 0 BUFFER_WIDTH) m) 0 BUFFER_HEIGHT m).
  destruct HP as [HP HO].
  - screen.
  - split; [ | done]. intros r k H. by replace (r <? 0) with false by screen.
  - intros i m' Hi [IH IO]. destruct (fill_row_spec (style c) i m') as [HF HF'];
      [done | screen | ]. split; [ | by transitivity m'].
    intros r k H. rewrite HF, IH by done.
    destruct (Z.eqb_spec r i), (Z.ltb_spec r i), (Z.ltb_spec r (i + 1)); done || lia.
  - split; [ | done]. intros r k H. rewrite HP by done.
    by replace (r <? 0 + BUFFER_HEIGHT) with true by screen.
Qed.

(** ** The abstract terminal

    What the console promises: a grid of 25 rows of 80 cells.  A line feed on the last
    row drops the first row and appends a blank one. *)

Record Term : Type := mkTerm {
  t_rows : list (list Z); t_row : Z; t_col : Z; t_style : Z
}.

Definition term_newline (t : Term) : Term :=
  if t_row t <? BUFFER_HEIGHT - 1
  then mkTerm (t_rows t) (t_row t + 1) 0 (t_style t)
  else mkTerm (tail (t_rows t) ++ [replicate 80 (entry 32 (t_style t))])
         (t_row t) 0 (t_style t).

Definition term_poke (row col v : Z) (rows : list (list Z)) : list (list Z) :=
  alter (fun l : list Z => <[Z.to_nat col := v]> l) (Z.to_nat row) rows.

(** A character goes to the cursor's cell, on the next row when the row is full. *)
Definition term_put (byte : Z) (t : Term) : Term :=
  let t := if t_col t <? BUFFER_WIDTH then t else term_newline t in
  mkTerm (term_poke (t_row t) (t_col t) (entry byte (t_style t)) (t_rows t))
    (t_row t) (t_col t + 1) (t_style t).

(** Erases the cell before the cursor, which may be the last of the row above. *)
Definition term_backspace (t : Term) : Term :=
  if (t_row t =? 0) && (t_col t =? 0) then t
  else
    let '(row, col) := if t_col t =? 0 then (t_row t - 1, BUFFER_WIDTH - 1)
                       else (t_row t, t_col t - 1) in
    mkTerm (term_poke row col (entry 32 (t_style t)) (t_rows t)) row col (t_style t).

Definition term_byte (t : Term) (b : Z) : Term :=
  if b =? 10 then term_newline t
  else if b =? 13 then mkTerm (t_rows t) (t_row t) 0 (t_style t)
  else term_put b t.

Lemma term_put_col b t :
  t_col (term_put b t) = (if t_col t <? BUFFER_WIDTH then t_col t else 0) + 1.
Proof.
  unfold term_put, term_newline. destruct (t_col t <? BUFFER_WIDTH); [done | ].
  by destruct (t_row t <? BUFFER_HEIGHT - 1).
Qed.

(** What the machine shows. *)
Definition grid (g : Z -> Z -> Z) : list (list Z) :=
  (fun r => (fun c => g r c) <$> seqZ 0 BUFFER_WIDTH) <$> seqZ 0 BUFFER_HEIGHT.

Definition view (s : cstate) : Term :=
  let '(c, m) := s in
  mkTerm (grid (fun r k => read_entry_at r k m)) (row_position c) (column_position c) (style c).

(** The screen cells of an abstract terminal. *)
Lemma lookup_grid g r : 0 <= r < BUFFER_HEIGHT ->
  grid g !! Z.to_nat r = Some ((fun c => g r c) <$> seqZ 0 BUFFER_WIDTH).
Proof.
  intros H. unfold grid. rewrite list_lookup_fmap, lookup_seqZ_lt by screen.
  by replace (0 + Z.of_nat (Z.to_nat r)) with r by lia.
Qed.

Lemma grid_ext g g' : (forall r c, on_screen r c -> g r c = g' r c) -> grid g = grid g'.
Proof.
  intros H. unfold grid. apply list_fmap_ext. intros i r Hr.
  apply list_fmap_ext. intros j c Hc. apply lookup_seqZ in Hr, Hc. apply H. screen.
Qed.

Lemma term_poke_grid row col v g :
  on_screen row col ->
  term_poke row col v (grid g) =
    grid (fun r c => if (r =? row) && (c =? col) then v else g r c).
Proof.
  intros H. unfold term_poke. apply list_eq. intros i.
  destruct (decide (i < 25)%nat) as [Hi | Hi].
  2:{ unfold grid. rewrite !(proj2 (lookup_ge_None _ i)); [done | ..];
        rewrite ?length_alter, length_fmap, length_seqZ; screen. }
  replace i with (Z.to_nat (Z.of_nat i)) by lia.
  rewrite (lookup_grid (fun r c => if (r =? row) && (c =? col) then v else g r c)) by screen.
  destruct (Z.eqb_spec (Z.of_nat i) row) as [<- | Hne].
  - rewrite list_lookup_alter_eq, lookup_grid by screen. cbn [fmap option_fmap option_map].
    f_equal. apply list_eq. intros j.
    destruct (decide (j < 80)%nat) as [Hj | Hj].
    2:{ rewrite !(proj2 (lookup_ge_None _ j)); [done | ..];
          rewrite ?length_insert, length_fmap, length_seqZ; screen. }
    rewrite list_lookup_fmap, lookup_seqZ_lt by screen. cbn [fmap option_fmap option_map andb].
    destruct (Z.eqb_spec (0 + Z.of_nat j) col) as [Hc | Hc].
    + replace (Z.to_nat col) with j by lia.
      apply list_lookup_insert_eq. rewrite length_fmap, length_seqZ. screen.
    + rewrite list_lookup_insert_ne by screen.
      by rewrite list_lookup_fmap, lookup_seqZ_lt by screen.
  - rewrite list_lookup_alter_ne by screen. by rewrite lookup_grid by screen.
Qed.

Lemma grid_scroll g v :
  tail (grid g) ++ [replicate 80 v] =
    grid (fun r c => if r <? BUFFER_HEIGHT - 1 then g (r + 1) c else v).
Proof. reflexivity. Qed.

Section Refinement.
Context (s : cstate).
Context (Hok : cstate_ok s).

Lemma new_line_refines :
  view (new_line s) = term_newline (view s) /\ cstate_ok (new_line s) /\
  same_outside (snd s) (snd (new_line s)).
Proof using Hok.
  destruct s as [c m], Hok as (Hc & Hr & Hs). cbn in Hc, Hr, Hs.
  unfold new_line, term_newline, view, set_cursor.
  cbn [t_row t_col t_rows t_style fst snd].
  destruct (Z.ltb_spec (row_position c) (BUFFER_HEIGHT - 1)).
  - split; [done | split; [ | done]]. split; cbn; [screen | split; [screen | done]].
  - destruct (scroll_spec (style c) m Hs) as [HS HO]. split; [ | split; [ | done]].
    + apply (f_equal (fun rows => mkTerm rows (row_position c) 0 (style c))).
      rewrite grid_scroll. by apply grid_ext.
    + split; cbn; [screen | split; [screen | done]].
Qed.

Lemma write_byte_refines b :
  fits 8 b ->
  view (write_byte b s) = term_put b (view s) /\ cstate_ok (write_byte b s) /\
  same_outside (snd s) (snd (write_byte b s)).
Proof using Hok.
  intros Hb. unfold write_byte, term_put.
  replace (t_col (view s)) with (column_position (fst s)) by by destruct s.
  assert (exists c m, (if column_position (fst s) >=? BUFFER_WIDTH then new_line s else s)
      = (c, m) /\ column_position c < BUFFER_WIDTH /\ cstate_ok (c, m) /\
      same_outside (snd s) m /\
      (if column_position (fst s) <? BUFFER_WIDTH then view s else term_newline (view s))
        = view (c, m)) as (c & m & -> & Hc & (Hc' & Hr & Hs) & HO & ->).
  { destruct new_line_refines as (Hv & Hk & HO). rewrite Z.geb_leb.
    destruct (Z.leb_spec BUFFER_WIDTH (column_position (fst s))).
    - replace (column_position (fst s) <? BUFFER_WIDTH) with false by lia.
      rewrite <- Hv. destruct (new_line s) as [c m] eqn:E. exists c, m.
      split; [done | ]. split; [ | by split].
      unfold new_line in E. destruct s as [c0 m0], (_ <? _); injection E as <- _; cbn; screen.
    - replace (column_position (fst s) <? BUFFER_WIDTH) with true by lia.
      destruct s as [c m]. exists c, m. done. }
  cbn in Hc', Hr, Hs. cbn [fst snd].
  assert (Hscr : on_screen (row_position c) (column_position c)) by screen.
  unfold view, set_cursor.
  cbn [t_row t_col t_rows t_style fst snd]. rewrite term_poke_grid by done.
  rewrite wrap_small by (unfold BUFFER_WIDTH in *; zlia). split; [ | split].
  - f_equal. apply grid_ext. intros r k H. by apply read_write.
  - split; cbn; [screen | by split].
  - etransitivity; [exact HO | by apply write_entry_outside].
Qed.

Lemma backspace_refines :
  view (console_backspace s) = term_backspace (view s) /\ cstate_ok (console_backspace s) /\
  same_outside (snd s) (snd (console_backspace s)).
Proof using Hok.
  destruct s as [c m], Hok as (Hc & Hr & Hs). cbn in Hc, Hr, Hs.
  unfold console_backspace, term_backspace. cbn [view t_row t_col t_rows t_style].
  assert (Hpoke : forall row col, on_screen row col ->
    view (mkConsole col row (style c), write_entry_at 32 (style c) row col m) =
      mkTerm (term_poke row col (entry 32 (style c)) (t_rows (view (c, m)))) row col (style c)
    /\ cstate_ok (mkConsole col row (style c), write_entry_at 32 (style c) row col m)
    /\ same_outside m (write_entry_at 32 (style c) row col m)).
  { intros row col H. cbn [view t_rows column_position row_position style].
    rewrite term_poke_grid by done. split; [ | split].
    - f_equal. apply grid_ext. intros r k H'. apply read_write; done || zlia.
    - split; cbn; [screen | split; [screen | done]].
    - by apply write_entry_outside. }
  destruct (Z.gtb_spec (column_position c) 0); [ | destruct (Z.gtb_spec (row_position c) 0)].
  - replace (column_position c =? 0) with false by lia. rewrite andb_false_r.
    apply Hpoke. screen.
  - replace (row_position c =? 0) with false by lia.
    replace (column_position c =? 0) with true by lia. cbn [andb]. apply Hpoke. screen.
  - replace (row_position c =? 0) with true by lia.
    replace (column_position c =? 0) with true by lia. cbn [andb].
    split; [done | split; [by split | done]].
Qed.

End Refinement.

Lemma write_str_byte_refines s b :
  cstate_ok s -> fits 8 b ->
  view (write_str_byte s b) = term_byte (view s) b /\ cstate_ok (write_str_byte s b) /\
  same_outside (snd s) (snd (write_str_byte s b)).
Proof.
  intros Hok Hb. unfold write_str_byte, term_byte.
  destruct (b =? 10); [by apply new_line_refines | ].
  destruct (b =? 13); [ | by apply write_byte_refines].
  destruct s as [c m], Hok as (Hc & Hr & Hs). split; [done | split; [ | done]].
  split; cbn in *; [screen | by split].
Qed.

Lemma write_str_refines s msg :
  cstate_ok s -> Forall (fits 8) msg ->
  view (console_write_str msg s) = fold_left term_byte msg (view s) /\
  cstate_ok (console_write_str msg s) /\
  same_outside (snd s) (snd (console_write_str msg s)).
Proof.
  unfold console_write_str. intros Hok Hmsg. revert s Hok.
  induction Hmsg as [ | b msg Hb Hmsg IH]; intros s Hok; cbn [fold_left]; [done | ].
  destruct (write_str_byte_refines s b Hok Hb) as (Hv & Hk & HO).
  destruct (IH _ Hk) as (Hv' & Hk' & HO'). rewrite Hv', Hv.
  split; [done | split; [done | etransitivity; eassumption]].
Qed.

(** ** The entry points *)

Section VgaProps.
Context {D : Type} {HW : Hardware D} {CR : Crates D} {CL : CratesLaws D}.

Definition con_state (w : World D) : cstate := (w_console w, w_mem w).
Definition screen_of (w : World D) : Term := view (con_state w).

(** A step that changes the cursor and the text buffer and nothing else. *)
Definition draws (w w' : World D) : Prop :=
  exists c m, w' = set_console c (set_mem m w) /\ console_ok c /\ same_outside (w_mem w) m.

Lemma vga_call f (w : World D) :
  locked CONSOLE w = false ->
  with_lock CONSOLE (on_console f) w =
    Ret tt (set_console (fst (f (con_state w))) (set_mem (snd (f (con_state w))) w)).
Proof.
  intros Hl. unfold con_state. destruct w; cbn in *. erewrite with_lock_run; [ | done | done | ].
  - cbn. by destruct (f (_, _)).
  - cbn. by destruct (f (_, _)).
Qed.

Lemma wp_vga_call f (w : World D) (t : Term) :
  locked CONSOLE w = false ->
  view (f (con_state w)) = t -> cstate_ok (f (con_state w)) ->
  same_outside (w_mem w) (snd (f (con_state w))) ->
  wp (with_lock CONSOLE (on_console f)) w (fun _ w' => draws w w' /\ screen_of w' = t).
Proof.
  intros Hl Hv Hk HO. eapply wp_eq; [by apply vga_call | ]. split.
  - by exists (fst (f (con_state w))), (snd (f (con_state w))).
  - rewrite <- Hv. unfold screen_of, con_state. by destruct w, (f _).
Qed.

Lemma draws_locks w w' : draws w w' -> w_locks w' = w_locks w.
Proof. intros (c & m & -> & _). by destruct w. Qed.

Lemma draws_console_ok w w' : draws w w' -> console_ok (w_console w').
Proof. intros (c & m & -> & Hc & _). by destruct w. Qed.

Lemma draws_trans w1 w2 w3 : draws w1 w2 -> draws w2 w3 -> draws w1 w3.
Proof.
  intros (c & m & -> & Hc & Hm) (c' & m' & -> & Hc' & Hm').
  exists c', m'. destruct w1; cbn in *. split; [done | split; [done | ]].
  by transitivity m.
Qed.

(** The specification lemmas the other components use. *)
Lemma wp_vga_write_str msg (w : World D) :
  locked CONSOLE w = false -> console_ok (w_console w) -> Forall (fits 8) msg ->
  wp (write_str msg) w (fun _ w' =>
    draws w w' /\ screen_of w' = fold_left term_byte msg (screen_of w)).
Proof.
  intros Hl Hc Hm. destruct (write_str_refines (con_state w) msg Hc Hm) as (Hv & Hk & HO).
  by apply wp_vga_call.
Qed.

Lemma wp_vga_write_line msg (w : World D) :
  locked CONSOLE w = false -> console_ok (w_console w) -> Forall (fits 8) msg ->
  wp (write_line msg) w (fun _ w' =>
    draws w w' /\ screen_of w' = term_newline (fold_left term_byte msg (screen_of w))).
Proof.
  intros Hl Hc Hm. destruct (write_str_refines (con_state w) msg Hc Hm) as (Hv & Hk & HO).
  destruct (new_line_refines (console_write_str msg (con_state w)) Hk) as (Hv' & Hk' & HO').
  assert (write_line msg w =
          with_lock CONSOLE (on_console (fun s => new_line (console_write_str msg s))) w) as E.
  { unfold write_line, with_lock, mbind, K_bind, kbind. rewrite lock_free by done.
    unfold on_console. cbn. by destruct (console_write_str msg _). }
  unfold wp. rewrite E. apply wp_vga_call; [done | by rewrite Hv', Hv | done | ].
  etransitivity; [exact HO | exact HO'].
Qed.

Lemma wp_vga_backspace (w : World D) :
  locked CONSOLE w = false -> console_ok (w_console w) ->
  wp backspace w (fun _ w' => draws w w' /\ screen_of w' = term_backspace (screen_of w)).
Proof.
  intros Hl Hc. destruct (backspace_refines (con_state w) Hc) as (Hv & Hk & HO).
  by apply wp_vga_call.
Qed.

(** The characters of the keyboard maps and of [put_char]'s other callers. *)
Lemma wp_vga_put_char ch (w : World D) :
  locked CONSOLE w = false -> console_ok (w_console w) -> 0 <= ch < 0x80 ->
  wp (put_char ch) w (fun _ w' =>
    draws w w' /\ screen_of w' = if ch =? 10 then term_newline (screen_of w)
                                 else term_put ch (screen_of w)).
Proof.
  intros Hl Hc Hch. unfold put_char. apply wp_vga_call; [done | ..];
    unfold write_char, encode_utf8; replace (ch <? 0x80) with true by lia;
    destruct (ch =? 10); cbn [fold_left];
    (destruct (new_line_refines (con_state w) Hc) as (?&?&?); by auto) ||
    (destruct (write_byte_refines (con_state w) Hc ch) as (?&?&?); [zlia | by auto]).
Qed.

(** A blank screen, and another style. *)
Definition term_clear (t : Term) : Term :=
  mkTerm (grid (fun _ _ => entry 32 (t_style t))) 0 0 (t_style t).
Definition term_style (sty : Z) (t : Term) : Term := mkTerm (t_rows t) (t_row t) (t_col t) sty.

Lemma wp_vga_init (w : World D) :
  locked CONSOLE w = false -> console_ok (w_console w) ->
  wp init w (fun _ w' => draws w w' /\ screen_of w' = term_clear (screen_of w)).
Proof.
  intros Hl (Hc & Hr & Hs). destruct (clear_spec (w_console w) (w_mem w) Hs) as [HC HO].
  apply wp_vga_call; [done | | by split | exact HO].
  unfold con_state, screen_of, term_clear, view. cbn [clear snd] in *.
  apply (f_equal (fun rows => mkTerm rows 0 0 (style (w_console w)))). by apply grid_ext.
Qed.

Lemma wp_vga_set_style sty (w : World D) :
  locked CONSOLE w = false -> console_ok (w_console w) -> fits 8 sty ->
  wp (set_style sty) w (fun _ w' => draws w w' /\ screen_of w' = term_style sty (screen_of w)).
Proof. intros Hl (Hc & Hr & _) Hs. by apply wp_vga_call. Qed.

(** A message in another style; the style before is restored. *)
Lemma wp_vga_panic info (w : World D) :
  locked CONSOLE w = false -> console_ok (w_console w) -> Forall (fits 8) info ->
  wp (panic info) w (fun _ w' => draws w w' /\
    screen_of w' = term_style (t_style (screen_of w))
      (fold_left term_byte (bytes_of "panic: " ++ info ++ [10]) (term_style 0x4f (screen_of w)))).
Proof.
  intros Hl (Hc & Hr & Hs) Hi.
  set (f := fun s => with_style (style (w_console w)) (console_write_str (bytes_of "panic: " ++ info ++ [10]) (with_style 0x4f s))).
  assert (panic info w = with_lock CONSOLE (on_console f) w) as E.
  { unfold panic, with_lock, mbind, K_bind, kbind. rewrite lock_free by done.
    unfold on_console, gets, f. cbn. by destruct (console_write_str _ _). }
  unfold wp. rewrite E.
  destruct (write_str_refines (with_style 0x4f (con_state w)) (bytes_of "panic: " ++ info ++ [10])) as (Hv & Hk & HO).
  { by split. } { apply Forall_app. split; [apply bytes_of_bytes | ]. apply Forall_app. split; [done | by repeat constructor]. }
  fold (wp (with_lock CONSOLE (on_console f)) w (fun _ w' => draws w w' /\
    screen_of w' = term_style (t_style (screen_of w))
      (fold_left term_byte (bytes_of "panic: " ++ info ++ [10]) (term_style 0x4f (screen_of w))))).
  apply wp_vga_call; [done | | | ]; unfold f, con_state in *.
  - change (term_style 0x4f (screen_of w)) with (view (with_style 0x4f (w_console w, w_mem w))).
    rewrite <- Hv. by destruct (console_write_str _ _).
  - destruct (console_write_str _ _) as [c m], Hk as (K1 & K2 & _). by repeat split; try apply K1; try apply K2; try apply Hs.
  - cbn in HO |- *. by destruct (console_write_str _ _).
Qed.

(** [C10] The console implements the terminal: from a cursor on the screen, [write_str]
    returns, the 80x25 cells it leaves on the screen are those the abstract terminal
    shows after the same bytes (line feeds, carriage returns, wrapping at column 80 and
    scrolling included), the cursor is on the screen again, and no byte outside the
    text buffer at 0xb8000 and no other static has changed. *)
Theorem vga_write_str_refines_terminal msg (w : World D) :
  locked CONSOLE w = false -> console_ok (w_console w) -> Forall (fits 8) msg ->
  exists w', write_str msg w = Ret tt w' /\ draws w w' /\
             screen_of w' = fold_left term_byte msg (screen_of w).
Proof.
  intros Hl Hc Hm. pose proof (wp_vga_write_str msg w Hl Hc Hm) as H.
  apply wp_iff in H as ([] & w' & E & H). by exists w'.
Qed.

(** [backspace] undoes a printed character: after any ASCII character other than
    a line feed is put, a backspace blanks its cell and brings the cursor back onto
    it, on every path (inside a row and at the wrap to the next row). *)
Theorem vga_backspace_after_put ch (w : World D) :
  locked CONSOLE w = false -> console_ok (w_console w) -> 0 <= ch < 0x80 -> ch <> 10 ->
  exists w', (put_char ch ;; backspace) w = Ret tt w' /\ draws w w' /\
    screen_of w' = term_backspace (term_put ch (screen_of w)) /\
    t_col (screen_of w') = t_col (term_put ch (screen_of w)) - 1 /\
    t_row (screen_of w') = t_row (term_put ch (screen_of w)).
Proof.
  intros Hl Hc Hch Hne.
  assert (wp (put_char ch ;; backspace) w (fun _ w' => draws w w' /\
    screen_of w' = term_backspace (term_put ch (screen_of w)))) as H.
  { apply wp_bind. eapply wp_mono; [by apply wp_vga_put_char | ]. intros [] w1 [D1 V1].
    rewrite (proj2 (Z.eqb_neq ch 10)) in V1 by done.
    eapply wp_mono; [apply wp_vga_backspace | ].
    - by rewrite (draws_locks _ _ D1).
    - by eapply draws_console_ok.
    - intros [] w2 [D2 V2]. split; [by eapply draws_trans | by rewrite V2, V1]. }
  apply wp_iff in H as ([] & w' & E & HD & HV). exists w'. rewrite HV.
  do 3 (split; [done | ]). unfold term_backspace.
  set (t := term_put ch (screen_of w)).
  assert (0 < t_col t) as Ht.
  { subst t. rewrite term_put_col. destruct Hc as (Hc & _).
    change (t_col (screen_of w)) with (column_position (w_console w)). case_match; lia. }
  rewrite (proj2 (Z.eqb_neq (t_col t) 0)), andb_false_r by lia. done.
Qed.
End VgaProps.

(** *** Witnesses *)

Lemma vga_write_str_refines_terminal_witness :
  exists w', write_str [72; 105; 10] sim_boot = Ret tt w' /\ draws sim_boot w' /\
             screen_of w' = fold_left term_byte [72; 105; 10] (screen_of sim_boot).
Proof.
  apply (vga_write_str_refines_terminal [72; 105; 10] sim_boot).
  - reflexivity.
  - repeat split; discriminate || reflexivity.
  - repeat constructor; discriminate || reflexivity.
Defined.

Lemma vga_backspace_after_put_witness :
  exists w', (put_char 65 ;; backspace) sim_boot = Ret tt w' /\ draws sim_boot w' /\
    screen_of w' = term_backspace (term_put 65 (screen_of sim_boot)) /\
    t_col (screen_of w') = t_col (term_put 65 (screen_of sim_boot)) - 1 /\
    t_row (screen_of w') = t_row (term_put 65 (screen_of sim_boot)).
Proof.
  apply (vga_backspace_after_put 65 sim_boot).
  - reflexivity.
  - repeat split; discriminate || reflexivity.
  - split; discriminate || reflexivity.
  - discriminate.
Defined.
