(* ===== verification/Pmm.v ===== *)
(** * The physical memory manager (kernel/src/pmm.rs)

    A bump allocator over the largest usable region: [NEXT_FREE] only grows, by a
    compare-and-swap, up to [LIMIT]. *)

From S2P Require Import Prelude XhciData State Sim Fmt BootInfo Serial.
From stdpp Require Import gmap list strings relations.
From Stdlib Require Import ZArith Lia.

Open Scope Z_scope.

Definition PAGE_SIZE : Z := 4096.

Definition align_up (value align : Z) : Z :=
  Z.land (u64 (u64 (value + align) - 1)) (bnot 64 (u64 (align - 1))).

Definition align_down (value align : Z) : Z :=
  Z.land value (bnot 64 (u64 (align - 1))).

(** One entry of the scan in [init]: the best region so far is [(best_base, best_len)]. *)
Definition scan_entry (best : Z * Z) (e : MemoryMapEntry) : Z * Z :=
  if negb (is_usable e) then best
  else
    let start := align_up (base_addr e) PAGE_SIZE in
    let stop := align_down (u64 (base_addr e + BootInfo.length e)) PAGE_SIZE in
    if stop <=? start then best
    else
      let usable := stop - start in
      if usable >? snd best then (start, usable) else best.

(** What one round of [alloc_aligned] decides from the two loads: nothing fits, or the
    block starts at [aligned] and ends at [stop]. *)
Definition place (adj_size align current limit : Z) : option (Z * Z) :=
  if (current =? 0) || (current >=? limit) then None
  else
    let aligned := align_up current align in
    let stop := aligned + adj_size in
    if stop >=? 2 ^ 64 then None
    else if stop >? limit then None
    else Some (aligned, stop).

Definition bad_align (align : Z) : bool :=
  (align =? 0) || negb (Z.land align (u64 (align - 1)) =? 0).

Definition adjusted (size align : Z) : Z := align_up size (Z.max PAGE_SIZE align).

Section Pmm.
Context {D : Type} {HW : Hardware D} {CR : Crates D}.
Abbreviation KW := (K (World D)).

Definition init (boot : BootInfo) : KW unit :=
  m ← gets w_mem;
  let '(best_base, best_len) := fold_left scan_entry (entries m boot) (0, 0) in
  if best_len >=? PAGE_SIZE then
    modify (fun w => set_pmm (mkPmm best_base (LIMIT (w_pmm w))) w) ;;
    modify (fun w => set_pmm (mkPmm (NEXT_FREE (w_pmm w)) (u64 (best_base + best_len))) w) ;;
    Serial.write_fmt (bytes_of "[pmm] using region " ++ fmt_xhex best_base ++
      bytes_of "-" ++ fmt_xhex (u64 (best_base + best_len)) ++ [13; 10])
  else Serial.write_str (bytes_of "[pmm] no usable memory found" ++ [13; 10]).

(** [NEXT_FREE.compare_exchange(current, new)]. *)
Definition cas_next_free (current new : Z) : KW bool := fun w =>
  if NEXT_FREE (w_pmm w) =? current
  then Ret true (set_pmm (mkPmm new (LIMIT (w_pmm w))) w)
  else Ret false w.

(** One round of the loop: [Some r] returns [r]. *)
Definition alloc_round (adj_size align : Z) : KW (option (option Z)) :=
  current ← gets (fun w => NEXT_FREE (w_pmm w));
  limit ← gets (fun w => LIMIT (w_pmm w));
  match place adj_size align current limit with
  | None => mret (Some None)
  | Some (aligned, stop) =>
      ok ← cas_next_free current stop;
      mret (if (ok : bool) then Some (Some aligned) else None)
  end.

(** Nothing runs between the loads and the exchange here, so a budget of one round is
    enough ([alloc_round_decides]); rounds that interleave are modelled below. *)
Definition alloc_aligned (size align : Z) : KW (option Z) :=
  if bad_align align then mret None
  else kloop 1 (alloc_round (adjusted size align) align).

Definition alloc_page : KW (option Z) := alloc_aligned PAGE_SIZE PAGE_SIZE.

Definition free_kib : KW Z :=
  next ← gets (fun w => NEXT_FREE (w_pmm w));
  limit ← gets (fun w => LIMIT (w_pmm w));
  mret (if (next =? 0) || (limit <=? next) then 0 else (limit - next) / 1024).

End Pmm.

(** ** Allocators that interleave

    [NEXT_FREE] and [LIMIT] are atomics so that [alloc_aligned] can be called from
    several contexts.  A context is between two of its atomic accesses; a step of the
    pool performs one access of one context. *)

Inductive pc : Type :=
| Begin
| Loaded (current : Z)
| Exchange (current aligned stop : Z)
| Done (result : option Z).

Record ctx : Type := mkCtx { c_size : Z; c_align : Z; c_pc : pc }.

Definition ctx_step (p : PmmState) (c : ctx) : option (PmmState * pc) :=
  match c_pc c with
  | Begin =>
      if bad_align (c_align c) then Some (p, Done None)
      else Some (p, Loaded (NEXT_FREE p))
  | Loaded current =>
      match place (adjusted (c_size c) (c_align c)) (c_align c) current (LIMIT p) with
      | None => Some (p, Done None)
      | Some (aligned, stop) => Some (p, Exchange current aligned stop)
      end
  | Exchange current aligned stop =>
      if NEXT_FREE p =? current then Some (mkPmm stop (LIMIT p), Done (Some aligned))
      else Some (p, Begin)
  | Done _ => None
  end.

Inductive pool_step : PmmState * list ctx -> PmmState * list ctx -> Prop :=
| pool_step_at i p cs c p' pc' :
    cs !! i = Some c -> ctx_step p c = Some (p', pc') ->
    pool_step (p, cs) (p', <[i := mkCtx (c_size c) (c_align c) pc']> cs).

(** ** Alignment arithmetic *)

Definition pow2b (a : Z) : Prop := exists k, 0 <= k <= 63 /\ a = 2 ^ k.

Lemma pow2b_pos a : pow2b a -> 0 < a <= 2 ^ 63.
Proof.
  intros (k & Hk & ->). split; [apply Z.pow_pos_nonneg; lia | ].
  apply Z.pow_le_mono_r; lia.
Qed.

Lemma pow2b_max_page a : pow2b a -> pow2b (Z.max PAGE_SIZE a) /\ PAGE_SIZE <= Z.max PAGE_SIZE a.
Proof.
  intros H. split; [ | lia]. destruct (Z.max_spec PAGE_SIZE a) as [[_ ->] | [_ ->]]; [done | ].
  by exists 12.
Qed.

Lemma pow2b_good a : pow2b a -> bad_align a = false.
Proof.
  intros H. pose proof (pow2b_pos a H). destruct H as (k & Hk & ->). unfold bad_align.
  replace (2 ^ k =? 0) with false by lia. cbn [orb].
  rewrite wrap_small by zlia. apply negb_false_iff, Z.eqb_eq.
  rewrite (land_ones_mod _ k) by lia. apply Z.mod_same. lia.
Qed.

(** A power of two is what the guard of [alloc_aligned] accepts. *)
Lemma good_pow2b a : fits 64 a -> bad_align a = false -> pow2b a.
Proof.
  intros Ha H. unfold bad_align in H. apply orb_false_iff in H as [H0 H1].
  apply negb_false_iff, Z.eqb_eq in H1. apply Z.eqb_neq in H0.
  assert (0 < a) by zlia. rewrite wrap_small in H1 by zlia.
  set (k := Z.log2 a). pose proof (Z.log2_spec a ltac:(lia)) as [Hl Hu]. fold k in Hl, Hu.
  pose proof (Z.log2_nonneg a). fold k in H2.
  exists k. split.
  { split; [lia | ]. assert (k < 64); [ | lia]. apply Z.log2_lt_pow2; [lia | apply Ha]. }
  destruct (Z.eq_dec a (2 ^ k)) as [ | Hne]; [done | exfalso].
  assert (Z.testbit (Z.land a (a - 1)) k = true) as Ht; [ | rewrite H1, Z.bits_0 in Ht; done].
  rewrite Z.land_spec. apply andb_true_iff. split; [by apply Z.bit_log2 | ].
  replace k with (Z.log2 (a - 1)); [apply Z.bit_log2; lia | ].
  apply Z.log2_unique; [lia | ]. rewrite Z.pow_succ_r in * by lia. lia.
Qed.

Lemma align_down_eq v a : fits 64 v -> pow2b a -> align_down v a = v - v mod a.
Proof.
  intros Hv Ha. pose proof (pow2b_pos a Ha). destruct Ha as (k & Hk & ->).
  unfold align_down. rewrite wrap_small by zlia. by apply land_not_low; [lia | ].
Qed.

Lemma align_up_eq v a :
  0 <= v -> v + a <= 2 ^ 64 -> pow2b a ->
  align_up v a = (v + a - 1) - (v + a - 1) mod a.
Proof.
  intros Hv Hb Ha. pose proof (pow2b_pos a Ha). destruct Ha as (k & Hk & ->).
  unfold align_up. rewrite (wrap_small 64 (2 ^ k - 1)) by zlia.
  replace (u64 (u64 (v + 2 ^ k) - 1)) with (v + 2 ^ k - 1).
  2:{ destruct (Z.eq_dec (v + 2 ^ k) (2 ^ 64)) as [E | E].
      - unfold wrap. rewrite E, Z.mod_same by done. reflexivity.
      - rewrite (wrap_small 64 (v + 2 ^ k)), wrap_small by lia. done. }
  apply land_not_low; lia.
Qed.

Lemma align_up_spec v a :
  0 <= v -> v + a <= 2 ^ 64 -> pow2b a ->
  align_up v a mod a = 0 /\ v <= align_up v a < v + a.
Proof.
  intros Hv Hb Ha. rewrite align_up_eq by done. pose proof (pow2b_pos a Ha).
  pose proof (Z.mod_pos_bound (v + a - 1) a). split; [ | lia].
  rewrite Zminus_mod, Zmod_mod, Z.sub_diag. done.
Qed.

(** ** The sequential allocator *)

Section PmmProps.
Context {D : Type} {HW : Hardware D} {CR : Crates D} {CL : CratesLaws D}.

Lemma alloc_round_decides adj align (w : World D) :
  alloc_round adj align w =
    match place adj align (NEXT_FREE (w_pmm w)) (LIMIT (w_pmm w)) with
    | None => Ret (Some None) w
    | Some (a, stop) => Ret (Some (Some a)) (set_pmm (mkPmm stop (LIMIT (w_pmm w))) w)
    end.
Proof.
  unfold alloc_round, mbind, K_bind, kbind, gets, cas_next_free.
  destruct (place _ _ _ _) as [[a stop] | ]; [ | done]. by rewrite Z.eqb_refl.
Qed.

Lemma alloc_aligned_eq size align (w : World D) :
  alloc_aligned size align w =
    if bad_align align then Ret None w
    else match place (adjusted size align) align (NEXT_FREE (w_pmm w)) (LIMIT (w_pmm w)) with
         | None => Ret None w
         | Some (a, stop) => Ret (Some a) (set_pmm (mkPmm stop (LIMIT (w_pmm w))) w)
         end.
Proof.
  unfold alloc_aligned. destruct (bad_align align); [done | ].
  cbn [kloop]. unfold mbind, K_bind, kbind. rewrite alloc_round_decides.
  by destruct (place _ _ _ _) as [[a stop] | ].
Qed.
End PmmProps.

(** A request whose rounding does not overflow. *)
Definition sane_request (size align : Z) : Prop := 0 <= size <= 2 ^ 63 /\ pow2b align.
Definition sane_pmm (p : PmmState) : Prop := 0 <= NEXT_FREE p /\ LIMIT p <= 2 ^ 63.

Lemma adjusted_spec size align :
  sane_request size align ->
  size <= adjusted size align /\ adjusted size align mod PAGE_SIZE = 0 /\
  adjusted size align mod align = 0.
Proof.
  intros [Hs Ha]. destruct (pow2b_max_page _ Ha) as [Hm Hp]. pose proof (pow2b_pos _ Hm).
  destruct (align_up_spec size (Z.max PAGE_SIZE align)) as [Hmod Hr]; [lia | zlia | done | ].
  unfold adjusted. split; [lia | ].
  assert (Hdiv : forall b, pow2b b -> b <= Z.max PAGE_SIZE align ->
            align_up size (Z.max PAGE_SIZE align) mod b = 0).
  { intros b (j & Hj & ->) Hle. destruct Hm as (k & Hk & Ek). rewrite Ek in *.
    assert (j <= k) by (apply (Z.pow_le_mono_r_iff 2); lia).
    apply Z.mod_divide; [lia | ]. apply Z.mod_divide in Hmod; [ | lia].
    etransitivity; [ | exact Hmod]. exists (2 ^ (k - j)).
    rewrite <- Z.pow_add_r by lia. f_equal. lia. }
  split; apply Hdiv; try lia; [by exists 12 | done].
Qed.

(** Overflow or not, a rounded size is a number of whole pages. *)
Lemma adjusted_pages size align :
  pow2b align -> 0 <= adjusted size align /\ adjusted size align mod PAGE_SIZE = 0.
Proof.
  intros Ha. destruct (pow2b_max_page _ Ha) as [Hm Hp]. pose proof (pow2b_pos _ Hm).
  unfold adjusted, align_up. fold (align_down (u64 (u64 (size + Z.max PAGE_SIZE align) - 1)) (Z.max PAGE_SIZE align)).
  rewrite align_down_eq by (done || by apply wrap_fits).
  set (v := u64 _). assert (0 <= v) by (apply wrap_fits; done).
  set (a := Z.max PAGE_SIZE align) in *. pose proof (Z.mod_le v a ltac:(done) ltac:(lia)). split; [lia | ].
  destruct Hm as (k & Hk & Ek). assert (12 <= k).
  { apply (Z.pow_le_mono_r_iff 2); [lia | lia | ]. rewrite <- Ek. exact Hp. }
  apply Z.mod_divide; [done | ]. apply Z.divide_trans with a.
  - exists (2 ^ (k - 12)). rewrite Ek. change PAGE_SIZE with (2 ^ 12). rewrite <- Z.pow_add_r by lia. f_equal. lia.
  - exists (v / a). pose proof (Z.div_mod v a ltac:(lia)). lia.
Qed.

(** What a successful placement guarantees. *)
Lemma place_spec p size align a stop :
  sane_pmm p -> pow2b align ->
  place (adjusted size align) align (NEXT_FREE p) (LIMIT p) = Some (a, stop) ->
  a mod align = 0 /\ 0 < NEXT_FREE p <= a /\ stop = a + adjusted size align /\
  stop <= LIMIT p.
Proof.
  intros [H0 Hl] Ha H. unfold place in H. pose proof (pow2b_pos _ Ha).
  destruct (Z.eqb_spec (NEXT_FREE p) 0); [done | ]. cbn [orb] in H. rewrite Z.geb_leb in H.
  destruct (Z.leb_spec (LIMIT p) (NEXT_FREE p)); [done | ].
  destruct (_ >=? _); [done | ]. rewrite Z.gtb_ltb in H.
  destruct (Z.ltb_spec (LIMIT p) (align_up (NEXT_FREE p) align + adjusted size align));
    [done | ]. injection H as <- <-.
  destruct (align_up_spec (NEXT_FREE p) align) as [Hm Hr]; [lia | zlia | done | ].
  repeat split; auto; lia.
Qed.

Section PmmClaims.
Context {D : Type} {HW : Hardware D} {CR : Crates D} {CL : CratesLaws D}.

(** [C8] [alloc_aligned], for every size and alignment, on a region that ends at or below 2^63:
    it returns after one round.  On success the alignment is a power of two, the block is
    aligned to it, lies in the managed region above everything handed out before, is a
    number of whole pages and ends at the new [NEXT_FREE]; it holds at least [size] bytes
    whenever rounding the size up does not pass 2^64 (beyond that the code's sum wraps
    around and the block is too small, see [pmm_alloc_overflow]).  On failure the state is
    untouched, and the alignment is no power of two, the region is not set up or used
    up, or it is too small for the rounded block.  Only [NEXT_FREE] ever changes. *)
Theorem pmm_alloc_sound size align (w : World D) :
  sane_pmm (w_pmm w) -> 0 <= size -> fits 64 align ->
  (exists a stop,
     alloc_aligned size align w = Ret (Some a) (set_pmm (mkPmm stop (LIMIT (w_pmm w))) w) /\
     pow2b align /\ a mod align = 0 /\ 0 < NEXT_FREE (w_pmm w) <= a /\
     (stop - a) mod PAGE_SIZE = 0 /\ a <= stop <= LIMIT (w_pmm w) /\
     (size + Z.max PAGE_SIZE align <= 2 ^ 64 -> size <= stop - a)) \/
  (alloc_aligned size align w = Ret None w /\
   (~ pow2b align \/
    NEXT_FREE (w_pmm w) = 0 \/
    LIMIT (w_pmm w) < align_up (NEXT_FREE (w_pmm w)) align + adjusted size align \/
    LIMIT (w_pmm w) <= NEXT_FREE (w_pmm w))).
Proof.
  intros Hp Hs Hf. rewrite alloc_aligned_eq. destruct (bad_align align) eqn:Eb.
  { right. split; [done | ]. left. intros Ha. by rewrite pow2b_good in Eb. }
  apply good_pow2b in Eb as Ha; [ | done].
  destruct (place _ _ _ _) as [[a stop] | ] eqn:E.
  - left. exists a, stop. split; [done | ]. split; [done | ].
    destruct (place_spec _ _ _ _ _ Hp Ha E) as (H1 & H2 & -> & H3).
    destruct (adjusted_pages size align Ha) as [H4 H5]. do 2 (split; [done | ]).
    replace (a + adjusted size align - a) with (adjusted size align) by lia.
    split; [done | split; [lia | ]]. intros Hov.
    destruct (pow2b_max_page _ Ha) as [Hm _].
    by destruct (align_up_spec size (Z.max PAGE_SIZE align) Hs Hov Hm) as [_ [? _]].
  - right. split; [done | right]. destruct Hp as [Hp0 Hpl]. unfold place in E.
    destruct (Z.eqb_spec (NEXT_FREE (w_pmm w)) 0); [by left | right].
    cbn [orb] in E. rewrite Z.geb_leb in E.
    destruct (Z.leb_spec (LIMIT (w_pmm w)) (NEXT_FREE (w_pmm w))); [by right | left].
    rewrite Z.geb_leb, Z.gtb_ltb in E.
    destruct (Z.leb_spec (2 ^ 64) (align_up (NEXT_FREE (w_pmm w)) align + adjusted size align));
      [zlia | ].
    by destruct (Z.ltb_spec (LIMIT (w_pmm w))
      (align_up (NEXT_FREE (w_pmm w)) align + adjusted size align)).
Qed.

(** The rounding of the size is not checked for overflow: a request for the whole
    address space less one byte succeeds on any region with a free page, and reserves
    nothing ([NEXT_FREE] only moves to the next aligned address). *)
Theorem pmm_alloc_overflow (w : World D) :
  0 < NEXT_FREE (w_pmm w) -> NEXT_FREE (w_pmm w) mod PAGE_SIZE = 0 ->
  NEXT_FREE (w_pmm w) < LIMIT (w_pmm w) -> LIMIT (w_pmm w) <= 2 ^ 63 ->
  alloc_aligned (2 ^ 64 - 1) PAGE_SIZE w = Ret (Some (NEXT_FREE (w_pmm w))) w.
Proof.
  intros H0 Hm Hl Hb. rewrite alloc_aligned_eq.
  change (bad_align PAGE_SIZE) with false. cbv iota.
  change (adjusted (2 ^ 64 - 1) PAGE_SIZE) with 0. unfold place.
  assert (align_up (NEXT_FREE (w_pmm w)) PAGE_SIZE = NEXT_FREE (w_pmm w)) as ->.
  { rewrite align_up_eq; [ | lia | unfold PAGE_SIZE; zlia | by exists 12].
    unfold PAGE_SIZE in *. Z.div_mod_to_equations. lia. }
  replace (NEXT_FREE (w_pmm w) =? 0) with false by lia. rewrite Z.geb_leb, Z.add_0_r.
  replace (LIMIT (w_pmm w) <=? NEXT_FREE (w_pmm w)) with false by lia. cbn [orb].
  rewrite Z.geb_leb, Z.gtb_ltb. pow2.
  replace (18446744073709551616 <=? NEXT_FREE (w_pmm w)) with false by lia.
  replace (LIMIT (w_pmm w) <? NEXT_FREE (w_pmm w)) with false by lia.
  f_equal. destruct w as [? ? ? ? ? ? ? ? []]; done.
Qed.
End PmmClaims.

(** ** The choice of the region *)

Definition first_page (e : MemoryMapEntry) : Z := align_up (base_addr e) PAGE_SIZE.
Definition last_page (e : MemoryMapEntry) : Z :=
  align_down (u64 (base_addr e + BootInfo.length e)) PAGE_SIZE.

(** A usable entry ends at least a page before the end of the address space, so that the
    unchecked sums of [init] do not wrap around. *)
Definition sane_entry (e : MemoryMapEntry) : Prop :=
  is_usable e = true -> base_addr e + BootInfo.length e + PAGE_SIZE <= 2 ^ 64.

Lemma page_pow2b : pow2b PAGE_SIZE.
Proof. by exists 12. Qed.

Definition entry_fits (e : MemoryMapEntry) : Prop := 0 <= base_addr e /\ 0 <= BootInfo.length e.

Lemma entries_fit m boot e : e ∈ entries m boot -> entry_fits e.
Proof.
  unfold entries. generalize (memory_map boot) (Z.to_nat (bi_memory_map_len boot)). intros it n.
  revert it. induction n as [ | n IH]; intros it; cbn; [by intros ?%elem_of_nil | ].
  destruct (next m it) as [[e' it'] | ] eqn:E; cbn; [ | by intros ?%elem_of_nil].
  intros [-> | H]%elem_of_cons; [ | by eapply IH]. unfold next in E.
  destruct (_ =? 0); [done | ]. injection E as <- _. split; apply ld_range.
Qed.

Lemma pages_spec e :
  entry_fits e -> base_addr e + BootInfo.length e + PAGE_SIZE <= 2 ^ 64 ->
  first_page e mod PAGE_SIZE = 0 /\ base_addr e <= first_page e /\
  last_page e mod PAGE_SIZE = 0 /\ last_page e <= base_addr e + BootInfo.length e /\
  (forall s t, s mod PAGE_SIZE = 0 -> t mod PAGE_SIZE = 0 -> base_addr e <= s ->
     t <= base_addr e + BootInfo.length e -> first_page e <= s /\ t <= last_page e).
Proof.
  intros [Hb Hl] He. unfold first_page, last_page.
  rewrite wrap_small by (unfold PAGE_SIZE in *; zlia).
  rewrite align_down_eq by (apply page_pow2b || (unfold PAGE_SIZE in *; zlia)).
  rewrite align_up_eq by (apply page_pow2b || lia).
  set (p := PAGE_SIZE) in *. assert (0 < p) by done. clearbody p.
  split; [rewrite Zminus_mod, Zmod_mod, Z.sub_diag; apply Z.mod_0_l; lia | ].
  pose proof (Z.mod_pos_bound (base_addr e + p - 1) p ltac:(lia)).
  pose proof (Z.mod_pos_bound (base_addr e + BootInfo.length e) p ltac:(lia)).
  split; [lia | ].
  split; [rewrite Zminus_mod, Zmod_mod, Z.sub_diag; apply Z.mod_0_l; lia | ].
  split; [lia | ]. intros s t Hs Ht Hbs Hte.
  pose proof (Z.div_mod (base_addr e + p - 1) p ltac:(lia)).
  pose proof (Z.div_mod (base_addr e + BootInfo.length e) p ltac:(lia)).
  pose proof (Z.div_mod s p ltac:(lia)). pose proof (Z.div_mod t p ltac:(lia)).
  assert ((base_addr e + p - 1) / p < s / p + 1) by (apply Z.div_lt_upper_bound; lia).
  assert (t / p <= (base_addr e + BootInfo.length e) / p) by (apply Z.div_le_mono; lia).
  assert (p * ((base_addr e + p - 1) / p) <= p * (s / p))
    by (apply Z.mul_le_mono_nonneg_l; lia).
  assert (p * (t / p) <= p * ((base_addr e + BootInfo.length e) / p))
    by (apply Z.mul_le_mono_nonneg_l; lia).
  split; lia.
Qed.

Lemma scan_spec l b0 n0 b n :
  fold_left scan_entry l (b0, n0) = (b, n) -> 0 <= n0 ->
  n0 <= n /\
  (b = b0 /\ n = n0 \/
   exists e, e ∈ l /\ is_usable e = true /\ b = first_page e /\ b + n = last_page e /\ 0 < n) /\
  (forall e, e ∈ l -> is_usable e = true -> last_page e - first_page e <= n).
Proof.
  revert b0 n0. induction l as [ | e l IH]; intros b0 n0 H Hn0; cbn in H.
  - injection H as <- <-. split; [lia | ]. split; [by left | ]. intros e He.
    by apply elem_of_nil in He.
  - assert (Hkeep : forall b' n', fold_left scan_entry l (b', n') = (b, n) -> n0 <= n' ->
        (b' = b0 /\ n' = n0 \/ is_usable e = true /\ b' = first_page e /\
          b' + n' = last_page e /\ 0 < n') ->
        (is_usable e = true -> last_page e - first_page e <= n') ->
        n0 <= n /\
        (b = b0 /\ n = n0 \/ exists e', e' ∈ e :: l /\ is_usable e' = true /\
           b = first_page e' /\ b + n = last_page e' /\ 0 < n) /\
        (forall e', e' ∈ e :: l -> is_usable e' = true -> last_page e' - first_page e' <= n)).
    { intros b' n' Hf Hn' Hb' He. destruct (IH b' n' Hf ltac:(lia)) as (Hle & Hb & Hm).
      split; [lia | ]. split.
      - destruct Hb as [[-> ->] | (x & Hx & Hrest)].
        + destruct Hb' as [ | ?]; [by left | right]. exists e. by rewrite elem_of_cons; auto.
        + right. exists x. split; [by apply elem_of_cons; right | done].
      - intros x [-> | Hx]%elem_of_cons Hu; [specialize (He Hu); lia | by apply Hm]. }
    unfold scan_entry at 2 in H. fold (first_page e) (last_page e) in H.
    destruct (is_usable e) eqn:Eu; cbn [negb snd] in H; [ | by apply (Hkeep b0 n0); auto with lia].
    destruct (Z.leb_spec (last_page e) (first_page e));
      [by apply (Hkeep b0 n0); auto with lia | ].
    rewrite Z.gtb_ltb in H. destruct (Z.ltb_spec n0 (last_page e - first_page e));
      [ | by apply (Hkeep b0 n0); auto with lia].
    apply (Hkeep _ _ H); [lia | right; repeat split; lia | lia].
Qed.

(** [s]..[t] are whole pages of a usable entry. *)
Definition page_run (es : list MemoryMapEntry) (e : MemoryMapEntry) (s t : Z) : Prop :=
  e ∈ es /\ is_usable e = true /\ s mod PAGE_SIZE = 0 /\ t mod PAGE_SIZE = 0 /\
  base_addr e <= s /\ t <= base_addr e + BootInfo.length e.

(** The allocator goes from [p] to [p'], which spans a longest run of pages. *)
Definition manages_largest (es : list MemoryMapEntry) (p p' : PmmState) : Prop :=
  ((exists e, page_run es e (NEXT_FREE p') (LIMIT p')) /\ NEXT_FREE p' < LIMIT p' /\
   (forall e s t, page_run es e s t -> t - s <= LIMIT p' - NEXT_FREE p')) \/
  (p' = p /\ forall e s t, page_run es e s t -> t <= s).

(** The line [init] logs about the range it manages. *)
Definition region_text (p : PmmState) : list Z :=
  bytes_of "[pmm] using region " ++ fmt_xhex (NEXT_FREE p) ++ bytes_of "-" ++ fmt_xhex (LIMIT p) ++ [13; 10].
Definition no_region_text : list Z := bytes_of "[pmm] no usable memory found" ++ [13; 10].

Lemma no_whole_page s t : s mod PAGE_SIZE = 0 -> t mod PAGE_SIZE = 0 -> t - s < PAGE_SIZE -> t <= s.
Proof.
  intros H1 H2 H. pose proof (Z.div_mod s PAGE_SIZE ltac:(done)). pose proof (Z.div_mod t PAGE_SIZE ltac:(done)).
  unfold PAGE_SIZE in *. lia.
Qed.

(** What the scan finds is the range to manage. *)
Lemma scan_manages es p0 b n :
  (forall e, e ∈ es -> entry_fits e) -> (forall e, e ∈ es -> sane_entry e) ->
  fold_left scan_entry es (0, 0) = (b, n) ->
  (PAGE_SIZE <= n -> u64 (b + n) = b + n /\ manages_largest es p0 (mkPmm b (b + n))) /\
  (n < PAGE_SIZE -> manages_largest es p0 p0).
Proof.
  intros Hf Hs E. destruct (scan_spec es 0 0 b n E ltac:(lia)) as (Hn & Hb & Hm).
  assert (Hmax : forall e' s t, page_run es e' s t -> t - s <= n).
  { intros e' s t (He & Hu & H1 & H2 & H3 & H4). specialize (Hm e' He Hu).
    destruct (pages_spec e' (Hf e' He) (Hs e' He Hu)) as (_ & _ & _ & _ & Hp).
    specialize (Hp s t H1 H2 H3 H4). lia. }
  split; intros Hpn.
  - destruct Hb as [[-> ->] | (e & He & Hu & -> & Hsum & Hpos)]; [done | ].
    destruct (pages_spec e (Hf e He) (Hs e He Hu)) as (P1 & P2 & P3 & P4 & _). rewrite Hsum. split.
    { apply wrap_small. destruct (Hf e He) as [B1 B2]. pose proof (Hs e He Hu). unfold PAGE_SIZE in *. lia. }
    left. cbn. split; [exists e; repeat split; auto; lia | ]. split; [lia | ].
    intros e' s t Hrn. replace (last_page e - first_page e) with n by lia. by eapply Hmax.
  - right. split; [done | ]. intros e' s t Hrn. specialize (Hmax e' s t Hrn).
    destruct Hrn as (_ & _ & H1 & H2 & _). apply no_whole_page; [done | done | lia].
Qed.

Section PmmInit.
Context {D : Type} {HW : Hardware D} {CR : Crates D} {CL : CratesLaws D}.

Lemma wp_pmm_init boot (w : World D) :
  locked SERIAL w = false ->
  (forall e, e ∈ entries (w_mem w) boot -> sane_entry e) ->
  wp (init boot) w (fun _ w' => exists p s,
    prints s (set_pmm p w) w' /\ manages_largest (entries (w_mem w) boot) (w_pmm w) p /\
    (s = region_text p \/ s = no_region_text /\ p = w_pmm w)).
Proof.
  intros Hl Hs. unfold init. apply wp_bind, wp_gets.
  destruct (fold_left scan_entry _ (0, 0)) as [b n] eqn:E.
  destruct (scan_manages _ (w_pmm w) b n (entries_fit _ _) Hs E) as [Hbig Hsmall]. rewrite Z.geb_leb.
  destruct (Z.leb_spec PAGE_SIZE n) as [Hn | Hn].
  - destruct (Hbig Hn) as [Eb Hm]. apply wp_bind, wp_modify, wp_bind, wp_modify. rewrite Eb.
    eapply wp_mono; [apply wp_serial_write_fmt; [solve_bytes | by destruct w] | ].
    intros [] w' H. exists (mkPmm b (b + n)), (region_text (mkPmm b (b + n))).
    split; [by destruct w | ]. split; [done | by left].
  - eapply wp_mono; [apply wp_serial_write_str; [solve_bytes | done] | ].
    intros [] w' H. exists (w_pmm w), no_region_text. split; [by destruct w | ].
    split; [by apply Hsmall | by right].
Qed.

(** [C31] [init] manages the largest run of whole pages, on every memory map whose usable entries
    end at least a page below 2^64 (the sums of the code are unchecked and wrap around
    otherwise, see [pmm_init_wraps]): it returns, and either [NEXT_FREE]..[LIMIT] are page aligned
    bounds inside one usable entry and no usable entry holds a longer run of whole pages, or no
    usable entry holds a whole page and the allocator stays as it was.  Nothing but
    the two statics and the log changes. *)
Theorem pmm_init_largest boot (w : World D) :
  locked SERIAL w = false ->
  (forall e, e ∈ entries (w_mem w) boot -> sane_entry e) ->
  exists w', init boot w = Ret tt w' /\ io_step (set_pmm (w_pmm w') w) w' /\
             manages_largest (entries (w_mem w) boot) (w_pmm w) (w_pmm w').
Proof.
  intros Hl Hs. pose proof (wp_pmm_init boot w Hl Hs) as H.
  apply wp_iff in H as ([] & w' & E & p & s & (Hio & _) & Hm & _). exists w'.
  destruct (io_step_fields _ _ Hio) as (_ & _ & _ & _ & _ & _ & Ep & _). cbn in Ep.
  by rewrite Ep.
Qed.
End PmmInit.

(** The sum of a usable entry that reaches past the top of the address space wraps around: the scan
    takes the range from 0 to the wrapped end, which is not in the entry. *)
Example pmm_init_wraps :
  let e := mkEntry (2 ^ 64 - 1) (2 ^ 21 + 1) 1 0 in
  is_usable e = true /\ scan_entry (0, 0) e = (0, 2 ^ 21).
Proof. split; vm_compute; reflexivity. Qed.

(** ** Contexts that interleave *)

Definition fair_request (c : ctx) : Prop := 0 <= c_size c <= 2 ^ 63 /\ fits 64 (c_align c).

Definition block_len (c : ctx) : Z := adjusted (c_size c) (c_align c).

(** What is known of a context between two of its accesses, when the allocator started
    at [base] and now stands at [p]. *)
Definition ctx_ok (base : Z) (p : PmmState) (c : ctx) : Prop :=
  fair_request c /\
  match c_pc c with
  | Begin => True
  | Loaded current => 0 <= current /\ bad_align (c_align c) = false
  | Exchange current aligned stop =>
      bad_align (c_align c) = false /\ aligned mod c_align c = 0 /\ current <= aligned /\
      stop = aligned + block_len c /\ stop <= LIMIT p
  | Done None => True
  | Done (Some a) =>
      bad_align (c_align c) = false /\ a mod c_align c = 0 /\
      base <= a /\ a + block_len c <= NEXT_FREE p
  end.

Definition granted (cs : list ctx) (i : nat) (a n : Z) : Prop :=
  exists c, cs !! i = Some c /\ c_pc c = Done (Some a) /\ n = block_len c.

Record pool_inv (base limit : Z) (s : PmmState * list ctx) : Prop := {
  inv_limit : LIMIT (fst s) = limit;
  inv_sane : sane_pmm (fst s);
  inv_base : base <= NEXT_FREE (fst s);
  inv_top : base <= limit -> NEXT_FREE (fst s) <= limit;
  inv_ctx : forall i c, snd s !! i = Some c -> ctx_ok base (fst s) c;
  inv_disjoint : forall i j a b n k, i <> j ->
    granted (snd s) i a n -> granted (snd s) j b k -> a + n <= b \/ b + k <= a
}.

Lemma fair_sane c : fair_request c -> bad_align (c_align c) = false ->
  sane_request (c_size c) (c_align c).
Proof. intros [Hs Ha] Hb. split; [done | by apply good_pow2b]. Qed.

Lemma block_len_nonneg c : fair_request c -> bad_align (c_align c) = false -> 0 <= block_len c.
Proof.
  intros Hf Hb. pose proof (fair_sane c Hf Hb) as Hs.
  destruct (adjusted_spec _ _ Hs) as [H _], Hs as [Hs _]. unfold block_len. lia.
Qed.

(** [NEXT_FREE] may only grow, which keeps every other context's knowledge. *)
Lemma ctx_ok_mono base p p' c :
  LIMIT p' = LIMIT p -> NEXT_FREE p <= NEXT_FREE p' -> ctx_ok base p c -> ctx_ok base p' c.
Proof.
  intros Hl Hn [Hf H]. split; [done | ].
  destruct (c_pc c) as [ | | | [a | ]]; rewrite ?Hl; try done.
  destruct H as (? & ? & ? & ?). repeat split; auto; lia.
Qed.

(** One access of one context: what it knows afterwards, and how the allocator moved. *)
Lemma ctx_step_ok base p c p' pc' :
  sane_pmm p -> base <= NEXT_FREE p -> ctx_ok base p c -> ctx_step p c = Some (p', pc') ->
  LIMIT p' = LIMIT p /\ NEXT_FREE p <= NEXT_FREE p' /\
  (NEXT_FREE p' = NEXT_FREE p \/ NEXT_FREE p' <= LIMIT p) /\
  ctx_ok base p' (mkCtx (c_size c) (c_align c) pc') /\
  (forall a, pc' = Done (Some a) -> NEXT_FREE p <= a).
Proof.
  intros Hs Hb [Hf Hk] H. unfold ctx_step in H. destruct (c_pc c) as [ | cur | cur a stop | r].
  - destruct (bad_align (c_align c)) eqn:E; injection H as <- <-;
      (do 2 (split; [done | ]); split; [by left | ]; split; [ | done]);
      (split; [done | ]); cbn; [done | split; [apply Hs | done]].
  - destruct Hk as [Hc Hg]. destruct (place _ _ _ _) as [[a stop] | ] eqn:E;
      injection H as <- <-; (do 2 (split; [done | ]); split; [by left | ]; split; [ | done]);
      [ | by split].
    destruct (place_spec (mkPmm cur (LIMIT p)) _ _ _ _ (conj Hc (proj2 Hs)) (proj2 (fair_sane c Hf Hg)) E)
      as (H1 & H2 & H3 & H4). split; [done | ]. cbn in *. repeat split; auto; lia.
  - destruct Hk as (Hg & Hm & Hca & -> & Hl). pose proof (block_len_nonneg c Hf Hg).
    destruct (Z.eqb_spec (NEXT_FREE p) cur) as [<- | Hne]; injection H as <- <-.
    + cbn. split; [done | ]. split; [lia | ]. split; [by right | ]. split.
      * split; [done | ]. cbn. repeat split; auto; try lia.
        unfold block_len. cbn. lia.
      * intros a' E. injection E as <-. done.
    + do 2 (split; [done | ]). split; [by left | ]. split; [by split | done].
  - done.
Qed.

Lemma pool_step_inv base limit s s' :
  pool_inv base limit s -> pool_step s s' -> pool_inv base limit s'.
Proof.
  intros [Il Is Ib It Ic Id] Hstep. destruct Hstep as [i p cs c p' pc' Hi Hc]. cbn in *.
  destruct (ctx_step_ok base p c p' pc' Is Ib (Ic i c Hi) Hc) as (Hl & Hn & Ht & Hk & Hnew).
  assert (Hold : forall j a n, granted cs j a n -> a + n <= NEXT_FREE p).
  { intros j a n (c' & Hj & E & ->). destruct (Ic j c' Hj) as [_ Hj']. rewrite E in Hj'. lia. }
  assert (Hgr : forall j a n, granted (<[i:=mkCtx (c_size c) (c_align c) pc']> cs) j a n ->
            j = i /\ pc' = Done (Some a) \/ j <> i /\ granted cs j a n).
  { intros j a n (c' & Hj & E & En). destruct (decide (j = i)) as [-> | Hne].
    - left. split; [done | ]. rewrite list_lookup_insert_eq in Hj by (by eapply lookup_lt_Some).
      by injection Hj as <-.
    - right. split; [done | ]. rewrite list_lookup_insert_ne in Hj by done. by exists c'. }
  split; cbn.
  - congruence.
  - destruct Is. split; lia.
  - lia.
  - intros Hbl. destruct Ht as [-> | Ht]; [by apply It | lia].
  - intros j c' Hj. destruct (decide (j = i)) as [-> | Hne].
    + rewrite list_lookup_insert_eq in Hj by (by eapply lookup_lt_Some). by injection Hj as <-.
    + rewrite list_lookup_insert_ne in Hj by done. eapply ctx_ok_mono; eauto.
  - intros j k a b n m Hne Gj Gk.
    destruct (Hgr _ _ _ Gj) as [[-> Ej] | [_ Gj']], (Hgr _ _ _ Gk) as [[-> Ek] | [_ Gk']].
    + done.
    + right. pose proof (Hold _ _ _ Gk'). pose proof (Hnew _ Ej). lia.
    + left. pose proof (Hold _ _ _ Gj'). pose proof (Hnew _ Ek). lia.
    + by eapply Id.
Qed.

(** [C7] Allocators that interleave never overlap.  Start any number of contexts, each
    about to call [alloc_aligned] with sizes up to 2^63 and arbitrary alignments, and
    run any interleaving of their loads and compare-and-swaps: every block granted is
    aligned as asked and lies between the initial [NEXT_FREE] and [LIMIT], and the
    blocks granted to two different contexts are disjoint. *)
Theorem pmm_alloc_race_free p cs p' cs' :
  sane_pmm p -> (forall c, c ∈ cs -> fair_request c /\ c_pc c = Begin) ->
  rtc pool_step (p, cs) (p', cs') ->
  (forall i a n, granted cs' i a n ->
     NEXT_FREE p <= a /\ (NEXT_FREE p <= LIMIT p -> a + n <= LIMIT p) /\
     exists c, cs' !! i = Some c /\ c_size c <= n /\ a mod c_align c = 0) /\
  (forall i j a b n k, i <> j -> granted cs' i a n -> granted cs' j b k ->
     a + n <= b \/ b + k <= a).
Proof.
  intros Hs Hcs Hrun.
  assert (pool_inv (NEXT_FREE p) (LIMIT p) (p', cs')) as [Il Is Ib It Ic Id].
  { apply (rtc_ind_r (R := pool_step) (pool_inv (NEXT_FREE p) (LIMIT p)) (p, cs)); [ | | exact Hrun].
    - split; cbn; auto with lia.
      + intros i c Hi. destruct (Hcs c) as [Hf Hb]; [by eapply list_elem_of_lookup_2 | ].
        split; [done | by rewrite Hb].
      + intros i j a b n k _ (c & Hi & E & _). destruct (Hcs c) as [_ Hb];
          [by eapply list_elem_of_lookup_2 | congruence].
    - intros s s' _ Hstep Hinv. by eapply pool_step_inv. }
  cbn in *. split; [ | exact Id].
  intros i a n (c & Hi & E & ->). destruct (Ic i c Hi) as [Hf Hk]. rewrite E in Hk.
  destruct Hk as (Hg & Hm & Hba & Hn). split; [done | ]. split; [intros; lia | ].
  exists c. split; [done | ]. split; [ | done].
  apply (adjusted_spec _ _ (fair_sane c Hf Hg)).
Qed.

(** *** Witnesses *)

Definition pmm_at (n l : Z) : World Sim := set_pmm (mkPmm n l) sim_ready.

Lemma pmm_alloc_sound_witness :
  let w := pmm_at 0x100000 0x200000 in
  (exists a stop,
     alloc_aligned 256 64 w = Ret (Some a) (set_pmm (mkPmm stop (LIMIT (w_pmm w))) w) /\
     pow2b 64 /\ a mod 64 = 0 /\ 0 < NEXT_FREE (w_pmm w) <= a /\
     (stop - a) mod PAGE_SIZE = 0 /\ a <= stop <= LIMIT (w_pmm w) /\
     (256 + Z.max PAGE_SIZE 64 <= 2 ^ 64 -> 256 <= stop - a)) \/
  (alloc_aligned 256 64 w = Ret None w /\
   (~ pow2b 64 \/ NEXT_FREE (w_pmm w) = 0 \/
    LIMIT (w_pmm w) < align_up (NEXT_FREE (w_pmm w)) 64 + adjusted 256 64 \/
    LIMIT (w_pmm w) <= NEXT_FREE (w_pmm w))).
Proof.
  apply (pmm_alloc_sound 256 64 (pmm_at 0x100000 0x200000)).
  - split; discriminate.
  - discriminate.
  - split; [discriminate | reflexivity].
Defined.

Lemma pmm_alloc_overflow_witness :
  alloc_aligned (2 ^ 64 - 1) PAGE_SIZE (pmm_at 0x100000 0x101000) =
    Ret (Some 0x100000) (pmm_at 0x100000 0x101000).
Proof.
  apply (pmm_alloc_overflow (pmm_at 0x100000 0x101000)); reflexivity || discriminate.
Defined.

Lemma pmm_init_largest_witness :
  exists w', init sample_boot (set_mem sample_map sim_ready) = Ret tt w' /\
    io_step (set_pmm (w_pmm w') (set_mem sample_map sim_ready)) w' /\
    manages_largest (entries sample_map sample_boot) (mkPmm 0 0) (w_pmm w').
Proof.
  apply (pmm_init_largest sample_boot (set_mem sample_map sim_ready)); [reflexivity | ].
  intros e He. vm_compute in He. apply list_elem_of_In in He.
  repeat (destruct He as [<- | He]; [intros _; vm_compute; discriminate | ]). done.
Defined.

(** Two contexts whose accesses alternate: the second exchange fails and is retried. *)
Lemma pmm_alloc_race_free_witness :
  let p := mkPmm 0x1000 0x10000 in
  let cs := [mkCtx 100 64 Begin; mkCtx 5000 4096 Begin] in
  exists p' cs', rtc pool_step (p, cs) (p', cs') /\
    granted cs' 0 0x1000 0x1000 /\ granted cs' 1 0x2000 0x2000 /\
    (0x1000 + 0x1000 <= 0x2000 \/ 0x2000 + 0x2000 <= 0x1000).
Proof.
  intros p cs.
  assert (Hrun : rtc pool_step (p, cs) (mkPmm 0x4000 0x10000,
    [mkCtx 100 64 (Done (Some 0x1000)); mkCtx 5000 4096 (Done (Some 0x2000))])).
  { pose proof (fun i => pool_step_at i) as St.
    do 2 (eapply rtc_l; [eapply (St 0%nat); reflexivity | cbn];
          eapply rtc_l; [eapply (St 1%nat); reflexivity | cbn]).
    eapply rtc_l; [eapply (St 0%nat); reflexivity | cbn].
    do 4 (eapply rtc_l; [eapply (St 1%nat); reflexivity | cbn]).
    apply rtc_refl. }
  eexists _, _. split; [exact Hrun | ].
  assert (G0 : granted [mkCtx 100 64 (Done (Some 0x1000)); mkCtx 5000 4096 (Done (Some 0x2000))]
            0 0x1000 0x1000) by (eexists; repeat split).
  assert (G1 : granted [mkCtx 100 64 (Done (Some 0x1000)); mkCtx 5000 4096 (Done (Some 0x2000))]
            1 0x2000 0x2000) by (eexists; repeat split).
  split; [exact G0 | ]. split; [exact G1 | ].
  refine (proj2 (pmm_alloc_race_free p cs _ _ _ _ Hrun) 0%nat 1%nat _ _ _ _ _ G0 G1).
  - split; discriminate.
  - intros c Hc. apply list_elem_of_In in Hc. destruct Hc as [<- | [<- | []]];
      (split; [repeat split; discriminate | reflexivity]).
  - discriminate.
Defined.

(** linker.ld loads the kernel at 1 MiB.  [init] does not know: on the memory map of a PC, where the
    usable memory above 1 MiB is one region, the first page handed out is the kernel's own. *)
Definition IMAGE_START : Z := 0x100000.

Example pmm_hands_out_the_image :
  match (init sample_boot ;; alloc_page) (set_mem sample_map sim_ready) with
  | Ret r w => r = Some IMAGE_START /\ NEXT_FREE (w_pmm w) = IMAGE_START + PAGE_SIZE
  | _ => False
  end.
Proof. vm_compute. by split. Qed.
