(* ===== verification/Task.v ===== *)
(** * Cooperative tasks (kernel/src/task.rs)

    Eight slots of task functions, run one per call in round-robin order.  A task is
    the address of its code; [dispatch] runs the code at an address. *)

From S2P Require Import Prelude XhciData State Sim.
From stdpp Require Import gmap list.
From Stdlib Require Import ZArith Lia.

Open Scope Z_scope.

(** The loop of [register]: the first empty slot takes the task. *)
Fixpoint fill (task : Z) (slots : list (option Z)) : option (list (option Z)) :=
  match slots with
  | [] => None
  | None :: rest => Some (Some task :: rest)
  | Some t :: rest => match fill task rest with
                      | Some rest' => Some (Some t :: rest')
                      | None => None
                      end
  end.

(** The loop of [run_once]: the task found, if any, and the value of [NEXT_INDEX].
    The outer [None] is the panic of an index out of the slots. *)
Fixpoint scan (rounds : nat) (slots : list (option Z)) (idx : Z) : option (option Z * Z) :=
  match rounds with
  | O => Some (None, idx)
  | S r =>
      let len := Z.of_nat (length slots) in
      let i := idx mod len in
      let idx' := u64 (idx + 1) mod len in
      match slots !! Z.to_nat i with
      | None => None
      | Some (Some f) => Some (Some f, idx')
      | Some None => scan r slots idx'
      end
  end.

Section Task.
Context {D : Type} {HW : Hardware D} {CR : Crates D}.
Abbreviation KW := (K (World D)).

Definition set_TASKS (s : list (option Z)) (w : World D) : World D :=
  set_tasks (mkTasks s (NEXT_INDEX (w_tasks w))) w.
Definition set_NEXT_INDEX (i : Z) (w : World D) : World D :=
  set_tasks (mkTasks (TASKS (w_tasks w)) i) w.

Definition register (task : Z) : KW bool :=
  with_lock TASKS_LOCK
    (slots ← gets (fun w => TASKS (w_tasks w));
     match fill task slots with
     | Some slots' => modify (set_TASKS slots') ;; mret true
     | None => mret false
     end).

(** The task found by the scan, with both guards dropped. *)
Definition pick : KW (option Z) :=
  with_lock NEXT_INDEX_LOCK (with_lock TASKS_LOCK
    (slots ← gets (fun w => TASKS (w_tasks w));
     idx ← gets (fun w => NEXT_INDEX (w_tasks w));
     match scan (length slots) slots idx with
     | None => kpanic
     | Some (f, idx') => modify (set_NEXT_INDEX idx') ;; mret f
     end)).

Definition run_once (dispatch : Z -> KW unit) : KW unit :=
  f ← pick;
  match f with Some f => dispatch f | None => mret tt end.

Definition runqueue_len : KW Z :=
  with_lock TASKS_LOCK
    (slots ← gets (fun w => TASKS (w_tasks w));
     mret (Z.of_nat (length (filter is_Some slots)))).

(** [n] calls of [run_once]. *)
Fixpoint run_times (n : nat) (dispatch : Z -> KW unit) : KW unit :=
  match n with
  | O => mret tt
  | S n' => run_once dispatch ;; run_times n' dispatch
  end.

End Task.

(** ** Properties *)

Definition tasks_ok (t : TaskState) : Prop :=
  length (TASKS t) = 8%nat /\ 0 <= NEXT_INDEX t < 8.

(** How far slot [j] is from the index, going round. *)
Definition dist (idx : Z) (j : Z) : Z := (j - idx) mod 8.

Lemma scan_picks r slots idx j f :
  length slots = 8%nat -> 0 <= idx < 8 -> 0 <= j < 8 -> slots !! Z.to_nat j = Some (Some f) ->
  dist idx j < Z.of_nat r ->
  exists g k, scan r slots idx = Some (Some g, (k + 1) mod 8) /\ 0 <= k < 8 /\
    slots !! Z.to_nat k = Some (Some g) /\ dist idx k <= dist idx j.
Proof.
  intros Hl. revert idx. induction r as [ | r IH]; intros idx Hi Hj Hf Hd.
  { pose proof (Z.mod_pos_bound (j - idx) 8). unfold dist in Hd. lia. }
  cbn [scan]. rewrite Hl. change (Z.of_nat 8) with 8.
  rewrite (Z.mod_small idx), (wrap_small 64 (idx + 1)) by zlia.
  destruct (lookup_lt_is_Some_2 slots (Z.to_nat idx)) as [s Hs]; [lia | ]. rewrite Hs.
  destruct s as [g | ].
  - exists g, idx. repeat split; auto; try lia. unfold dist. rewrite Z.sub_diag.
    apply Z.mod_pos_bound. lia.
  - assert (j <> idx) by (intros ->; congruence).
    assert (Hstep : forall x, 0 <= x < 8 -> x <> idx ->
              dist ((idx + 1) mod 8) x = dist idx x - 1).
    { intros x Hx Hne. unfold dist. Z.div_mod_to_equations. lia. }
    destruct (IH ((idx + 1) mod 8)) as (g & k & E & Hk & Hg & Hle); auto.
    { apply Z.mod_pos_bound. lia. }
    { rewrite Hstep by done. lia. }
    exists g, k. rewrite E. split; [done | ]. split; [done | ]. split; [done | ].
    assert (k <> idx) by (intros ->; congruence).
    rewrite !Hstep in Hle by done. lia.
Qed.

(** After a pick the index is just behind the slot that was picked. *)
Lemma dist_after idx j k :
  0 <= idx < 8 -> 0 <= j < 8 -> 0 <= k < 8 -> dist idx k < dist idx j ->
  dist ((k + 1) mod 8) j < dist idx j.
Proof. unfold dist. intros. Z.div_mod_to_equations. lia. Qed.

Section TaskProps.
Context {D : Type} {HW : Hardware D} {CR : Crates D} {CL : CratesLaws D}.

(** Tasks that return, and leave the scheduler's statics and the locks alone. *)
Definition polite (dispatch : Z -> K (World D) unit) : Prop :=
  forall f w, exists w', dispatch f w = Ret tt w' /\
    w_tasks w' = w_tasks w /\ w_locks w' = w_locks w.

Lemma pick_eq (w : World D) f idx' :
  locked NEXT_INDEX_LOCK w = false -> locked TASKS_LOCK w = false ->
  scan (length (TASKS (w_tasks w))) (TASKS (w_tasks w)) (NEXT_INDEX (w_tasks w)) = Some (f, idx') ->
  pick w = Ret f (set_NEXT_INDEX idx' w).
Proof.
  intros H1 H2 E. unfold pick. destruct w as [? ? ? ? lk ? ? ? ? ? ? [ts ni] ? ? ? ?]. cbn in *.
  erewrite with_lock_run; [ | done | | ].
  2:{ erewrite with_lock_run; [reflexivity | | | ].
      - cbn. by destruct lk.
      - unfold mbind, K_bind, kbind, gets. cbn. rewrite E. reflexivity.
      - reflexivity. }
  - reflexivity.
  - reflexivity.
Qed.

(** [C35] Round robin is fair: a task registered in any slot is dispatched by one of the
    next eight calls of [run_once], whatever other tasks are registered, as long as the
    tasks that run before it return and leave the scheduler alone. *)
Theorem task_round_robin_fair dispatch (w : World D) j f :
  polite dispatch -> tasks_ok (w_tasks w) ->
  locked NEXT_INDEX_LOCK w = false -> locked TASKS_LOCK w = false ->
  0 <= j < 8 -> TASKS (w_tasks w) !! Z.to_nat j = Some (Some f) ->
  exists n w' idx', (n < 8)%nat /\ run_times n dispatch w = Ret tt w' /\
    run_once dispatch w' = dispatch f (set_NEXT_INDEX idx' w').
Proof.
  intros Hp Hok Hl1 Hl2 Hj Hf.
  assert (Hgen : forall d w, (Z.to_nat (dist (NEXT_INDEX (w_tasks w)) j) < d)%nat ->
    tasks_ok (w_tasks w) -> locked NEXT_INDEX_LOCK w = false -> locked TASKS_LOCK w = false ->
    TASKS (w_tasks w) !! Z.to_nat j = Some (Some f) ->
    exists n w' idx', (n < d)%nat /\ run_times n dispatch w = Ret tt w' /\
      run_once dispatch w' = dispatch f (set_NEXT_INDEX idx' w')).
  { clear w Hok Hl1 Hl2 Hf. induction d as [ | d IH]; intros w Hd [Hlen Hi] Hl1 Hl2 Hf; [lia | ].
    destruct (scan_picks 8 (TASKS (w_tasks w)) (NEXT_INDEX (w_tasks w)) j f)
      as (g & k & E & Hk & Hg & Hle); auto.
    { unfold dist. apply Z.mod_pos_bound. lia. }
    pose proof (pick_eq w (Some g) ((k + 1) mod 8) Hl1 Hl2) as Hpick.
    rewrite Hlen in Hpick. specialize (Hpick E).
    assert (Hrun : run_once dispatch w = dispatch g (set_NEXT_INDEX ((k + 1) mod 8) w)).
    { unfold run_once. by erewrite kbind_eq by exact Hpick. }
    destruct (Z.eq_dec k j) as [-> | Hne].
    { exists 0%nat, w, ((j + 1) mod 8). rewrite Hf in Hg. injection Hg as ->.
      split; [lia | by split]. }
    assert (dist (NEXT_INDEX (w_tasks w)) k < dist (NEXT_INDEX (w_tasks w)) j).
    { unfold dist in *. Z.div_mod_to_equations. lia. }
    destruct (Hp g (set_NEXT_INDEX ((k + 1) mod 8) w)) as (w1 & E1 & Ht & Hlk).
    destruct (IH w1) as (n & w' & idx' & Hn & Hrn & Hro); rewrite ?Ht, ?Hlk; auto.
    - cbn. pose proof (dist_after (NEXT_INDEX (w_tasks w)) j k ltac:(lia) Hj Hk ltac:(lia)).
      assert (0 <= dist ((k + 1) mod 8) j) by (apply Z.mod_pos_bound; lia). lia.
    - split; cbn; [done | apply Z.mod_pos_bound; lia].
    - exists (S n), w', idx'. split; [lia | ]. split; [ | done].
      cbn [run_times]. erewrite kbind_eq; [exact Hrn | by rewrite Hrun]. }
  apply Hgen; auto. pose proof (Z.mod_pos_bound (j - NEXT_INDEX (w_tasks w)) 8).
  unfold dist. lia.
Qed.

Lemma fill_spec task slots slots' :
  fill task slots = Some slots' ->
  exists i, slots !! i = Some None /\ slots' = <[i := Some task]> slots /\
            forall j, (j < i)%nat -> exists t, slots !! j = Some (Some t).
Proof.
  revert slots'. induction slots as [ | [t | ] slots IH]; intros slots' H; cbn in H.
  - done.
  - destruct (fill task slots) as [r | ] eqn:E; [ | done]. injection H as <-.
    destruct (IH _ eq_refl) as (i & Hi & -> & Hlt). exists (S i). split; [done | ].
    split; [done | ]. intros [ | j] Hj; [by exists t | ]. apply Hlt. lia.
  - injection H as <-. exists 0%nat. split; [done | ]. split; [done | lia].
Qed.

Lemma fill_none task slots :
  fill task slots = None -> forall j, (j < length slots)%nat -> exists t, slots !! j = Some (Some t).
Proof.
  induction slots as [ | [t | ] slots IH]; intros H j Hj; cbn in *; [lia | | done].
  destruct (fill task slots); [done | ]. destruct j as [ | j]; [by exists t | ].
  apply IH; [done | lia].
Qed.

(** [register] takes the first empty slot and no other, or refuses when every slot
    is taken; it returns with the mutex free again and nothing else changed. *)
Theorem task_register_first_free task (w : World D) :
  locked TASKS_LOCK w = false ->
  (exists i, TASKS (w_tasks w) !! i = Some None /\
     (forall j, (j < i)%nat -> exists t, TASKS (w_tasks w) !! j = Some (Some t)) /\
     register task w = Ret true (set_TASKS (<[i := Some task]> (TASKS (w_tasks w))) w)) \/
  ((forall j, (j < length (TASKS (w_tasks w)))%nat ->
      exists t, TASKS (w_tasks w) !! j = Some (Some t)) /\
   register task w = Ret false w).
Proof.
  intros Hl. unfold register. destruct (fill task (TASKS (w_tasks w))) as [s | ] eqn:E.
  - left. destruct (fill_spec _ _ _ E) as (i & Hi & -> & Hlt). exists i.
    split; [done | ]. split; [done | ].
    destruct w as [? ? ? ? ? ? ? ? ? ? ? [ts ni] ? ? ? ?]. cbn in *.
    erewrite with_lock_run; [ | done | | ].
    2:{ unfold mbind, K_bind, kbind, gets. cbn. rewrite E. reflexivity. }
    + reflexivity.
    + reflexivity.
  - right. split; [by apply (fill_none task) | ].
    destruct w as [? ? ? ? ? ? ? ? ? ? ? [ts ni] ? ? ? ?]. cbn in *.
    erewrite with_lock_run; [ | done | | ].
    2:{ unfold mbind, K_bind, kbind, gets. cbn. rewrite E. reflexivity. }
    + reflexivity.
    + reflexivity.
Qed.
End TaskProps.

(** *** Witnesses *)

Definition sim_tasks : World Sim :=
  set_tasks (mkTasks [None; Some 7; None; Some 9; None; None; None; None] 4) sim_ready.

Lemma task_round_robin_fair_witness :
  exists n w' idx', (n < 8)%nat /\ run_times n (fun _ => mret tt) sim_tasks = Ret tt w' /\
    run_once (fun _ => mret tt) w' =
      (fun _ : Z => (mret tt : K (World Sim) unit)) 9 (set_NEXT_INDEX idx' w').
Proof.
  apply (task_round_robin_fair (fun _ => mret tt) sim_tasks 3 9).
  - intros f w. by exists w.
  - split; [reflexivity | split; [discriminate | reflexivity]].
  - reflexivity.
  - reflexivity.
  - split; [discriminate | reflexivity].
  - reflexivity.
Defined.

Lemma task_register_first_free_witness :
  (exists i, TASKS (w_tasks sim_tasks) !! i = Some None /\
     (forall j, (j < i)%nat -> exists t, TASKS (w_tasks sim_tasks) !! j = Some (Some t)) /\
     register 5 sim_tasks =
       Ret true (set_TASKS (<[i := Some 5]> (TASKS (w_tasks sim_tasks))) sim_tasks)) \/
  ((forall j, (j < length (TASKS (w_tasks sim_tasks)))%nat ->
      exists t, TASKS (w_tasks sim_tasks) !! j = Some (Some t)) /\
   register 5 sim_tasks = Ret false sim_tasks).
Proof. apply (task_register_first_free 5 sim_tasks). reflexivity. Defined.
