(* ===== verification/Debug.v ===== *)
(** * Leaf functions of kernel/src/main.rs: the debug port and the QEMU exit port. *)

From S2P Require Import Prelude XhciData State.
From stdpp Require Import gmap list.
From Stdlib Require Import ZArith Lia.

Open Scope Z_scope.

Section Debug.
Context {D : Type} {HW : Hardware D} {CR : Crates D}.
Abbreviation KW := (K (World D)).

Definition debug_out (msg : list Z) : KW unit := kfor msg (port_write 0xE9).

(** Writes to the exit device, then halts for ever. *)
Definition exit_qemu {A} (code : Z) : KW A :=
  port_write 0xF4 (Z.lor (u32 (Z.shiftl code 1)) 1) ;; khalt.

End Debug.
