(* ===== verification/Keyboard.v ===== *)
(** * The PS/2 keyboard (kernel/src/keyboard.rs)

    Scancodes of set 1 become modifier states, shutdown combos, or characters that are
    echoed on the console and queued for the shell in a ring of 256 bytes. *)

From S2P Require Import Prelude XhciData State Sim Fmt Serial Vga Debug.
From stdpp Require Import gmap list strings.
From Stdlib Require Import ZArith Lia.

Open Scope Z_scope.

Definition KBUF_CAP : Z := 256.

(** ** The ring *)

Definition kbuf_push_k (b : Z) (k : Keyboard) : Keyboard :=
  let head := KHEAD k in
  let next := (head + 1) mod KBUF_CAP in
  let tail := KTAIL k in
  if negb (next =? tail)
  then mkKeyboard (CTRL_HELD k) (SHIFT_HELD k) (<[Z.to_nat head := b]> (KBUF k)) next tail
  else k.

(** [poll_char], with the handler runs that may preempt it after the load of the tail,
    after the load of the head and before the store of the tail.
    [*KBUF.as_ptr().add(tail)] is an unchecked read: it is in range under [kbd_ok].  Every byte
    of the static is 0 in its initialiser. *)
Definition poll_char_with {BL : Build} (isr1 isr2 isr3 : Keyboard -> Keyboard) (k : Keyboard)
  : option Z * Keyboard :=
  let tail := KTAIL k in
  let k := isr1 k in
  let head := KHEAD k in
  if tail =? head then (None, k)
  else
    let k := isr2 k in
    let b := static_load 0 (default 0 (KBUF k !! Z.to_nat tail)) in
    let k := isr3 k in
    (Some b,
     mkKeyboard (CTRL_HELD k) (SHIFT_HELD k) (KBUF k) (KHEAD k) ((tail + 1) mod KBUF_CAP)).

Definition poll_char_k {BL : Build} : Keyboard -> option Z * Keyboard := poll_char_with id id id.

(** ** The key maps *)

Definition put_row (start : nat) (s : list Z) (m : list (option Z)) : list (option Z) :=
  list_inserts start (Some <$> s) m.

Definition MAP_NORMAL : list (option Z) :=
  put_row 0x02 (bytes_of "1234567890-=")
  (put_row 0x10 (bytes_of "qwertyuiop[]")
  (put_row 0x1E (bytes_of "asdfghjkl;'`")
  (put_row 0x2B (bytes_of "\zxcvbnm,./")
  (put_row 0x39 (bytes_of " ") (replicate 0x3A None))))).

Definition MAP_SHIFT : list (option Z) :=
  put_row 0x02 (bytes_of "!@#$%^&*()_+")
  (put_row 0x10 (bytes_of "QWERTYUIOP{}")
  (put_row 0x1E (bytes_of "ASDFGHJKL:" ++ [34] ++ bytes_of "~")
  (put_row 0x2B (bytes_of "|ZXCVBNM<>?")
  (put_row 0x39 (bytes_of " ") (replicate 0x3A None))))).

(** [MAP.get(code).and_then(|c| *c)]. *)
Definition map_get (m : list (option Z)) (code : Z) : option Z :=
  match m !! Z.to_nat code with Some c => c | None => None end.

Section Keyboard.
Context {D : Type} {HW : Hardware D} {CR : Crates D}.
Abbreviation KW := (K (World D)).

Definition on_kbd (f : Keyboard -> Keyboard) : KW unit :=
  modify (fun w => set_kbd (f (w_kbd w)) w).

Definition kbuf_push (b : Z) : KW unit := on_kbd (kbuf_push_k b).

Definition poll_char {BL : Build} : KW (option Z) := fun w =>
  let '(c, k) := poll_char_k (w_kbd w) in Ret c (set_kbd k w).

Definition store_SHIFT_HELD (b : bool) : KW unit :=
  on_kbd (fun k => mkKeyboard (CTRL_HELD k) b (KBUF k) (KHEAD k) (KTAIL k)).
Definition store_CTRL_HELD (b : bool) : KW unit :=
  on_kbd (fun k => mkKeyboard b (SHIFT_HELD k) (KBUF k) (KHEAD k) (KTAIL k)).

(** Returns the combo when a shutdown should be triggered. *)
Definition handle_scancode (scancode : Z) : KW (option (list Z)) :=
  if scancode =? 0xE0 then mret None
  else
    let is_release := has scancode 0x80 in
    let code := Z.land scancode 0x7F in
    if (code =? 0x2A) || (code =? 0x36) then
      store_SHIFT_HELD (negb is_release) ;; mret None
    else if code =? 0x1D then
      store_CTRL_HELD (negb is_release) ;; mret None
    else if code =? 0x2D then
      ctrl ← gets (fun w => CTRL_HELD (w_kbd w));
      mret (if negb is_release && ctrl then Some (bytes_of "Ctrl+X") else None)
    else if code =? 0x2E then
      ctrl ← gets (fun w => CTRL_HELD (w_kbd w));
      mret (if negb is_release && ctrl then Some (bytes_of "Ctrl+C") else None)
    else if code =? 0x0E then
      (if negb is_release then Vga.backspace ;; kbuf_push 8 else mret tt) ;; mret None
    else if code =? 0x0F then
      (if negb is_release then
         Vga.write_str (bytes_of "    ") ;;
         kbuf_push 32 ;; kbuf_push 32 ;; kbuf_push 32 ;; kbuf_push 32
       else mret tt) ;; mret None
    else if code =? 0x1C then
      (if negb is_release then Vga.put_char 10 ;; kbuf_push 10 else mret tt) ;; mret None
    else
      (if negb is_release then
         shifted ← gets (fun w => SHIFT_HELD (w_kbd w));
         let ch := if (shifted : bool) then map_get MAP_SHIFT code
                   else map_get MAP_NORMAL code in
         match ch with
         | Some c => Vga.put_char c ;; kbuf_push (u8 c)
         | None => mret tt
         end
       else mret tt) ;; mret None.

Definition shutdown_via_keyboard {A} (combo : list Z) : KW A :=
  Serial.write_fmt (bytes_of "[KEYBOARD] " ++ combo ++ [13; 10]) ;;
  exit_qemu 0.

End Keyboard.

(** ** The ring is a bounded queue *)

Definition kbd_ok (k : Keyboard) : Prop :=
  length (KBUF k) = 256%nat /\ 0 <= KHEAD k < 256 /\ 0 <= KTAIL k < 256.

Definition kcount (k : Keyboard) : Z := (KHEAD k - KTAIL k) mod 256.

(** The bytes between the tail and the head, oldest first. *)
Definition kqueue (k : Keyboard) : list Z :=
  (fun i => default 0 (KBUF k !! Z.to_nat ((KTAIL k + i) mod 256))) <$> seqZ 0 (kcount k).

Lemma kcount_range k : 0 <= kcount k < 256.
Proof. apply Z.mod_pos_bound. lia. Qed.

Lemma length_kqueue k : Z.of_nat (length (kqueue k)) = kcount k.
Proof.
  unfold kqueue. rewrite length_fmap, length_seqZ. pose proof (kcount_range k). lia.
Qed.

Lemma kbuf_push_spec b k :
  kbd_ok k ->
  kbd_ok (kbuf_push_k b k) /\
  kqueue (kbuf_push_k b k) = (if kcount k <? 255 then kqueue k ++ [b] else kqueue k) /\
  KTAIL (kbuf_push_k b k) = KTAIL k /\
  CTRL_HELD (kbuf_push_k b k) = CTRL_HELD k /\ SHIFT_HELD (kbuf_push_k b k) = SHIFT_HELD k.
Proof.
  intros (Hl & Hh & Ht). unfold kbuf_push_k, KBUF_CAP.
  pose proof (kcount_range k) as Hc.
  destruct (Z.eqb_spec ((KHEAD k + 1) mod 256) (KTAIL k)) as [E | E]; cbn [negb].
  - split; [done | ]. split; [ | done]. replace (kcount k <? 255) with false; [done | ].
    unfold kcount in *. symmetry. apply Z.ltb_ge. Z.div_mod_to_equations. lia.
  - assert (kcount k < 255) by (unfold kcount in *; Z.div_mod_to_equations; lia).
    replace (kcount k <? 255) with true by lia.
    set (k' := mkKeyboard _ _ _ _ _). assert (Hc' : kcount k' = kcount k + 1).
    { subst k'. unfold kcount. cbn. Z.div_mod_to_equations. lia. }
    split; [ | split; [ | done]].
    { split; [by subst k'; cbn; rewrite length_insert | ].
      split; [cbn; apply Z.mod_pos_bound; lia | done]. }
    unfold kqueue. rewrite Hc', seqZ_snoc, fmap_app by lia. cbn [fmap list_fmap]. f_equal.
    + apply list_fmap_ext. intros i z Hi. apply lookup_seqZ in Hi as [-> Hi].
      subst k'. cbn [KBUF KTAIL]. rewrite list_lookup_insert_ne; [done | ].
      unfold kcount in *. Z.div_mod_to_equations. lia.
    + f_equal. subst k'. cbn [KBUF KTAIL]. replace ((KTAIL k + kcount k) mod 256) with (KHEAD k).
      * rewrite list_lookup_insert_eq by lia. done.
      * unfold kcount in *. Z.div_mod_to_equations. lia.
Qed.

(** The abstract queue: at most 255 bytes, a byte that does not fit is dropped. *)
Definition enqueue (q : list Z) (b : Z) : list Z :=
  if Z.of_nat (length q) <? 255 then q ++ [b] else q.

Definition pushes (bs : list Z) (k : Keyboard) : Keyboard :=
  fold_left (fun k b => kbuf_push_k b k) bs k.

Lemma enqueue_all_head q b r bs :
  q = b :: r -> exists r', fold_left enqueue bs q = b :: r'.
Proof.
  revert q r. induction bs as [ | c bs IH]; intros q r ->; cbn; [eauto | ].
  unfold enqueue at 2. case_match; [ | by eapply IH]. cbn. by eapply IH.
Qed.

Lemma pushes_spec bs k :
  kbd_ok k ->
  kbd_ok (pushes bs k) /\ kqueue (pushes bs k) = fold_left enqueue bs (kqueue k) /\
  KTAIL (pushes bs k) = KTAIL k /\
  CTRL_HELD (pushes bs k) = CTRL_HELD k /\ SHIFT_HELD (pushes bs k) = SHIFT_HELD k.
Proof.
  unfold pushes. revert k. induction bs as [ | b bs IH]; intros k Hk; [done | ]. cbn.
  destruct (kbuf_push_spec b k Hk) as (H1 & H2 & H3 & H4 & H5).
  destruct (IH _ H1) as (I1 & I2 & I3 & I4 & I5).
  split; [done | ]. rewrite I2, I3, I4, I5, H2, H3, H4, H5. unfold enqueue at 3.
  by rewrite length_kqueue.
Qed.

(** The head of the queue sits at the tail index; storing [tail + 1] removes it. *)
Lemma kqueue_front k :
  kbd_ok k -> KTAIL k <> KHEAD k ->
  let k' := mkKeyboard (CTRL_HELD k) (SHIFT_HELD k) (KBUF k) (KHEAD k)
                       ((KTAIL k + 1) mod KBUF_CAP) in
  kbd_ok k' /\ kqueue k = default 0 (KBUF k !! Z.to_nat (KTAIL k)) :: kqueue k'.
Proof.
  intros (Hl & Hh & Ht) E k'. pose proof (kcount_range k) as Hc.
  assert (0 < kcount k) by (unfold kcount in *; Z.div_mod_to_equations; lia).
  split.
  { split; [done | ]. split; [done | cbn; apply Z.mod_pos_bound; reflexivity]. }
  unfold kqueue. rewrite seqZ_cons by lia. cbn [fmap list_fmap].
  replace ((KTAIL k + 0) mod 256) with (KTAIL k) by (Z.div_mod_to_equations; lia). f_equal.
  assert (Hc' : kcount k' = Z.pred (kcount k)).
  { subst k'. unfold kcount, KBUF_CAP. cbn. Z.div_mod_to_equations. lia. }
  rewrite Hc'. apply list_eq. intros i. rewrite !list_lookup_fmap.
  destruct (decide (Z.of_nat i < Z.pred (kcount k))) as [Hi | Hi].
  - rewrite !lookup_seqZ_lt by lia. subst k'. unfold KBUF_CAP. cbn. do 4 f_equal.
    Z.div_mod_to_equations. lia.
  - rewrite !lookup_seqZ_ge by lia. done.
Qed.

Lemma kqueue_empty k : kbd_ok k -> (kqueue k = [] <-> KTAIL k = KHEAD k).
Proof.
  intros (Hl & Hh & Ht). pose proof (length_kqueue k) as L. pose proof (kcount_range k) as R.
  split.
  - intros E. rewrite E in L. cbn in L. unfold kcount in *. Z.div_mod_to_equations. lia.
  - intros E. unfold kqueue, kcount. by rewrite E, Z.sub_diag.
Qed.

(** [C11] The ring between the interrupt handler and the shell is a bounded queue, also
    when the handler preempts [poll_char] between its atomic accesses and pushes any
    bytes there: exactly the oldest byte queued when the head is loaded is removed, the
    character returned is what the load of its slot yields - the byte itself, if the build performs
    the store and the load of this static that the source declares immutable -, every push lands behind
    the bytes queued before it unless 255 are waiting, and the indices stay in range. *)
Theorem keyboard_ring_linearizable {BL : Build} bs1 bs2 bs3 k :
  kbd_ok k ->
  let r := poll_char_with (pushes bs1) (pushes bs2) (pushes bs3) k in
  kbd_ok (snd r) /\ fst r = static_load 0 <$> head (fold_left enqueue bs1 (kqueue k)) /\
  kqueue (snd r) = match fst r with
                   | None => []
                   | Some _ => tail (fold_left enqueue (bs1 ++ bs2 ++ bs3) (kqueue k))
                   end.
Proof.
  intros Hk r. subst r. unfold poll_char_with.
  destruct (pushes_spec bs1 k Hk) as (H1 & Q1 & T1 & _).
  destruct (pushes_spec bs2 _ H1) as (H2 & Q2 & T2 & _).
  destruct (pushes_spec bs3 _ H2) as (H3 & Q3 & T3 & _).
  pose proof (kqueue_empty _ H1) as E1. rewrite Q1, T1 in E1.
  destruct (Z.eqb_spec (KTAIL k) (KHEAD (pushes bs1 k))) as [E | E]; cbn [fst snd].
  - split; [done | ]. rewrite Q1, (proj2 E1 E). done.
  - destruct (fold_left enqueue bs1 (kqueue k)) as [ | b q] eqn:EQ; [tauto | ].
    destruct (enqueue_all_head _ b q bs2 eq_refl) as (q2 & EQ2).
    rewrite Q1, EQ2 in Q2.
    assert (KTAIL (pushes bs2 (pushes bs1 k)) <> KHEAD (pushes bs2 (pushes bs1 k))) as N2.
    { rewrite <- (kqueue_empty _ H2). by rewrite Q2. }
    destruct (enqueue_all_head _ b q2 bs3 eq_refl) as (q3 & EQ3). rewrite Q2, EQ3 in Q3.
    assert (KTAIL (pushes bs3 (pushes bs2 (pushes bs1 k)))
            <> KHEAD (pushes bs3 (pushes bs2 (pushes bs1 k)))) as N3.
    { rewrite <- (kqueue_empty _ H3). by rewrite Q3. }
    destruct (kqueue_front _ H2 N2) as (_ & F2). destruct (kqueue_front _ H3 N3) as (K3 & F3).
    rewrite T3, T2, T1 in *. rewrite Q2 in F2. injection F2 as -> _.
    rewrite Q3 in F3. injection F3 as _ ->. split; [exact K3 | ].
    split; [done | ]. by rewrite !fold_left_app, EQ, EQ2, EQ3.
Qed.

(** ** Scancodes *)

(** What one key press types, as the code has it: the keys of X and C are taken by the
    shutdown combos and never reach the maps. *)
Definition typed (shift : bool) (code : Z) : list Z :=
  if code =? 0x0E then [8]
  else if code =? 0x0F then [32; 32; 32; 32]
  else if code =? 0x1C then [10]
  else if bool_decide (code ∈ [0x2A; 0x36; 0x1D; 0x2D; 0x2E]) then []
  else option_list (map_get (if shift then MAP_SHIFT else MAP_NORMAL) code).

(** The effect of a typed byte on the terminal. *)
Definition echo (t : Term) (b : Z) : Term :=
  if b =? 8 then term_backspace t else term_byte t b.

Definition shutdown_combo (ctrl : bool) (scancode : Z) : option (list Z) :=
  if ctrl then
    if scancode =? 0x2D then Some (bytes_of "Ctrl+X")
    else if scancode =? 0x2E then Some (bytes_of "Ctrl+C") else None
  else None.

(** The modifiers after a scancode. *)
Definition ctrl_after (ctrl : bool) (scancode : Z) : bool :=
  if scancode =? 0x1D then true else if scancode =? 0x9D then false else ctrl.
Definition shift_after (shift : bool) (scancode : Z) : bool :=
  if (scancode =? 0x2A) || (scancode =? 0x36) then true
  else if (scancode =? 0xAA) || (scancode =? 0xB6) then false else shift.

Definition set_mods (ctrl shift : bool) (k : Keyboard) : Keyboard :=
  mkKeyboard ctrl shift (KBUF k) (KHEAD k) (KTAIL k).

Definition printable (c : Z) : bool := (32 <=? c) && (c <? 127).

Lemma map_get_printable shift code c :
  map_get (if shift : bool then MAP_SHIFT else MAP_NORMAL) code = Some c ->
  32 <= c < 127.
Proof.
  unfold map_get. destruct (_ !! _) as [o | ] eqn:E; [ | done]. intros ->.
  assert (forallb (fun o => match o with Some c => printable c | None => true end)
            (if shift then MAP_SHIFT else MAP_NORMAL) = true) as H
    by (destruct shift; vm_compute; reflexivity).
  apply Is_true_eq_left in H. rewrite forallb_True, Forall_forall in H.
  specialize (H (Some c) (list_elem_of_lookup_2 _ _ _ E)).
  apply Is_true_eq_true in H. unfold printable in H. lia.
Qed.

Section KeyboardProps.
Context {D : Type} {HW : Hardware D} {CR : Crates D} {CL : CratesLaws D}.
Implicit Types w : World D.

(** A step that sets the modifiers, queues [bs] and echoes them, and nothing else. *)
Definition types (ctrl shift : bool) (bs : list Z) (w w' : World D) : Prop :=
  (exists c m, w' = set_console c (set_mem m (set_kbd
                      (set_mods ctrl shift (pushes bs (w_kbd w))) w)) /\
               console_ok c /\ same_outside (w_mem w) m) /\
  screen_of w' = fold_left echo bs (screen_of w).

Lemma set_mods_same k : set_mods (CTRL_HELD k) (SHIFT_HELD k) k = k.
Proof. by destruct k. Qed.

Lemma push_mods b k :
  CTRL_HELD (kbuf_push_k b k) = CTRL_HELD k /\ SHIFT_HELD (kbuf_push_k b k) = SHIFT_HELD k.
Proof. unfold kbuf_push_k. by case_match. Qed.

Lemma pushes_mods bs k :
  CTRL_HELD (pushes bs k) = CTRL_HELD k /\ SHIFT_HELD (pushes bs k) = SHIFT_HELD k.
Proof.
  unfold pushes. revert k. induction bs as [ | b bs IH]; intros k; [done | ]. cbn.
  destruct (IH (kbuf_push_k b k)) as [-> ->]. apply push_mods.
Qed.

Lemma types_draws bs w w' :
  draws w w' -> screen_of w' = fold_left echo bs (screen_of w) ->
  types (CTRL_HELD (w_kbd w)) (SHIFT_HELD (w_kbd w)) bs w
    (set_kbd (pushes bs (w_kbd w')) w').
Proof.
  intros (c & m & -> & Hc & Hm) HS. split; [ | by destruct w].
  exists c, m. split; [ | done]. destruct w as [? ? ? ? ? ? ? k]; cbn.
  destruct (pushes_mods bs k) as [<- <-]. by rewrite set_mods_same.
Qed.

Lemma types_none w :
  console_ok (w_console w) ->
  types (CTRL_HELD (w_kbd w)) (SHIFT_HELD (w_kbd w)) [] w w.
Proof.
  intros Hc. split; [ | done]. exists (w_console w), (w_mem w).
  split; [ | done]. cbn. rewrite set_mods_same. by destruct w.
Qed.

Lemma wp_kbuf_push b w Q :
  Q tt (set_kbd (kbuf_push_k b (w_kbd w)) w) -> wp (kbuf_push b) w Q.
Proof. done. Qed.

Lemma wp_type_char c w :
  locked CONSOLE w = false -> console_ok (w_console w) -> 32 <= c < 127 \/ c = 10 ->
  wp (Vga.put_char c ;; kbuf_push (u8 c)) w
     (fun _ => types (CTRL_HELD (w_kbd w)) (SHIFT_HELD (w_kbd w)) [c] w).
Proof.
  intros Hl Hc Hr. apply wp_bind. eapply wp_mono; [apply wp_vga_put_char; [done | done | lia] | ].
  intros [] w1 [D1 S1]. apply wp_kbuf_push.
  rewrite wrap_small by lia. apply (types_draws [c]); [done | ]. rewrite S1. cbn.
  unfold echo, term_byte. replace (c =? 8) with false by lia.
  destruct (Z.eqb_spec c 10); [done | ]. by replace (c =? 13) with false by lia.
Qed.

Lemma wp_type_backspace w :
  locked CONSOLE w = false -> console_ok (w_console w) ->
  wp (Vga.backspace ;; kbuf_push 8) w
     (fun _ => types (CTRL_HELD (w_kbd w)) (SHIFT_HELD (w_kbd w)) [8] w).
Proof.
  intros Hl Hc. apply wp_bind. eapply wp_mono; [by apply wp_vga_backspace | ].
  intros [] w1 [D1 S1]. apply wp_kbuf_push. by apply (types_draws [8]).
Qed.

Lemma wp_type_tab w :
  locked CONSOLE w = false -> console_ok (w_console w) ->
  wp (Vga.write_str (bytes_of "    ") ;;
      kbuf_push 32 ;; kbuf_push 32 ;; kbuf_push 32 ;; kbuf_push 32) w
     (fun _ => types (CTRL_HELD (w_kbd w)) (SHIFT_HELD (w_kbd w)) [32; 32; 32; 32] w).
Proof.
  intros Hl Hc. apply wp_bind. eapply wp_mono; [apply wp_vga_write_str; [done | done | solve_bytes] | ].
  intros [] w1 [D1 S1]. pose proof (types_draws [32; 32; 32; 32] _ _ D1 S1) as T.
  repeat (apply wp_bind, wp_kbuf_push). apply wp_kbuf_push.
  by destruct w1.
Qed.

Lemma types_mods c s w :
  console_ok (w_console w) ->
  types c s [] w (set_kbd (set_mods c s (w_kbd w)) w).
Proof.
  intros Hc. split; [ | by destruct w]. exists (w_console w), (w_mem w).
  split; [by destruct w | done].
Qed.

Lemma release_bit sc : fits 8 sc -> has sc 0x80 = negb (sc <? 128).
Proof.
  intros H. change 0x80 with (2 ^ 7). rewrite has_testbit by done.
  rewrite Z.testbit_eqb by done. change (2 ^ 7) with 128.
  destruct (Z.ltb_spec sc 128).
  - by rewrite Z.div_small by zlia.
  - replace (sc / 128) with 1; [done | ]. apply Z.div_unique with (sc - 128); zlia.
Qed.

Lemma code_bits sc : fits 8 sc -> Z.land sc 0x7F = if sc <? 128 then sc else sc - 128.
Proof.
  intros H. rewrite (land_ones_mod _ 7) by done. change (2 ^ 7) with 128.
  destruct (Z.ltb_spec sc 128); [apply Z.mod_small; zlia | ].
  symmetry. apply Z.mod_unique with 1; zlia.
Qed.

(** A branch that stores one modifier and returns [None]. *)
Ltac store_case :=
  apply wp_bind, wp_modify, wp_ret; split;
  [by destruct (CTRL_HELD _) | cbn; rewrite ?bool_decide_eq_true_2 by set_solver; auto].

Lemma wp_handle_scancode sc w :
  fits 8 sc -> locked CONSOLE w = false -> console_ok (w_console w) ->
  let k := w_kbd w in
  wp (handle_scancode sc) w (fun r w' =>
    r = shutdown_combo (CTRL_HELD k) sc /\
    types (ctrl_after (CTRL_HELD k) sc) (shift_after (SHIFT_HELD k) sc)
          (if sc <? 128 then typed (SHIFT_HELD k) sc else []) w w').
Proof.
  intros Hf Hl Hc k. unfold handle_scancode.
  pose proof (types_none w Hc) as TN. pose proof (fun c s => types_mods c s w Hc) as TM.
  rewrite release_bit, code_bits by done.
  unfold ctrl_after, shift_after, shutdown_combo.
  destruct (Z.ltb_spec sc 128) as [Hs | Hs]; cbn [negb andb].
  - (* a make code *)
    replace (sc =? 0xE0) with false by lia. replace (sc =? 0x9D) with false by lia.
    replace ((sc =? 0xAA) || (sc =? 0xB6)) with false by lia.
    unfold typed.
    destruct (Z.eqb_spec sc 0x2A) as [-> | ?]; [by store_case | ].
    destruct (Z.eqb_spec sc 0x36) as [-> | ?]; [by store_case | ].
    destruct (Z.eqb_spec sc 0x1D) as [-> | ?]; [by store_case | ].
    destruct (Z.eqb_spec sc 0x2D) as [-> | ?]; [by apply wp_bind, wp_gets, wp_ret | ].
    destruct (Z.eqb_spec sc 0x2E) as [-> | ?]; [by apply wp_bind, wp_gets, wp_ret | ].
    cbn [orb]. replace (if CTRL_HELD k then None else None) with (@None (list Z))
      by (by destruct (CTRL_HELD k)).
    destruct (Z.eqb_spec sc 0x0E) as [-> | ?].
    { apply wp_bind. eapply wp_mono; [by apply wp_type_backspace | ]. by intros [] w' H. }
    destruct (Z.eqb_spec sc 0x0F) as [-> | ?].
    { apply wp_bind. eapply wp_mono; [by apply wp_type_tab | ]. by intros [] w' H. }
    destruct (Z.eqb_spec sc 0x1C) as [-> | ?].
    { apply wp_bind. eapply wp_mono; [apply (wp_type_char 10); auto | ]. by intros [] w' H. }
    rewrite bool_decide_eq_false_2 by (rewrite !elem_of_cons, elem_of_nil; lia).
    apply wp_bind, wp_bind, wp_gets.
    replace (if SHIFT_HELD (w_kbd w) then map_get MAP_SHIFT sc else map_get MAP_NORMAL sc)
      with (map_get (if SHIFT_HELD k then MAP_SHIFT else MAP_NORMAL) sc)
      by (subst k; by destruct (SHIFT_HELD (w_kbd w))).
    destruct (map_get _ sc) as [c | ] eqn:Em; [ | by apply wp_ret].
    apply map_get_printable in Em.
    eapply wp_mono; [by apply wp_type_char; auto | ]. by intros [] w' H.
  - (* a break code *)
    replace (sc =? 0x1D) with false by lia. replace (sc =? 0x2D) with false by lia.
    replace (sc =? 0x2E) with false by lia. replace ((sc =? 0x2A) || (sc =? 0x36)) with false by lia.
    replace (if CTRL_HELD k then None else None) with (@None (list Z))
      by (by destruct (CTRL_HELD k)).
    replace (sc - 128 =? 0x2A) with (sc =? 0xAA) by lia.
    replace (sc - 128 =? 0x36) with (sc =? 0xB6) by lia.
    replace (sc - 128 =? 0x1D) with (sc =? 0x9D) by lia.
    destruct (Z.eqb_spec sc 0xE0) as [-> | ?]; [by apply wp_ret | ].
    destruct (Z.eqb_spec sc 0xAA) as [-> | ?]; [by store_case | ].
    destruct (Z.eqb_spec sc 0xB6) as [-> | ?]; [by store_case | ].
    destruct (Z.eqb_spec sc 0x9D) as [-> | ?]; [by store_case | ].
    cbn [orb]. repeat case_match; by apply wp_ret.
Qed.

(** [C30] Every scancode, on every branch: with the console free the handler returns; the
    modifier flags follow the Ctrl and Shift make and break codes, the combo Ctrl+X or
    Ctrl+C is reported exactly when that key goes down with Ctrl held, a make code
    queues and echoes exactly the characters of its key under the current Shift state,
    and a break code or a 0xE0 prefix types nothing; no other static changes. *)
Theorem keyboard_handle_scancode sc w :
  fits 8 sc -> locked CONSOLE w = false -> console_ok (w_console w) ->
  let k := w_kbd w in
  exists w', handle_scancode sc w = Ret (shutdown_combo (CTRL_HELD k) sc) w' /\
    types (ctrl_after (CTRL_HELD k) sc) (shift_after (SHIFT_HELD k) sc)
          (if sc <? 128 then typed (SHIFT_HELD k) sc else []) w w'.
Proof.
  intros Hf Hl Hc k. pose proof (wp_handle_scancode sc w Hf Hl Hc) as H.
  apply wp_iff in H as (r & w' & E & -> & H). by exists w'.
Qed.

(** Scancodes handled one after the other. *)
Definition handle_scancodes (scs : list Z) : K (World D) unit :=
  kfor scs (fun sc => handle_scancode sc ;; mret tt).

Definition kbd_inv (P : Z -> Prop) (w : World D) : Prop :=
  locked CONSOLE w = false /\ console_ok (w_console w) /\ kbd_ok (w_kbd w) /\
  Forall P (kqueue (w_kbd w)).

Lemma Forall_enqueue P bs q :
  Forall P q -> Forall P bs -> Forall P (fold_left enqueue bs q).
Proof.
  intros Hq Hb. revert q Hq. induction Hb as [ | b bs Hb Hbs IH]; intros q Hq; [done | ].
  cbn. apply IH. unfold enqueue. case_match; [ | done]. apply Forall_app. auto.
Qed.

Lemma types_inv P c s bs w w' :
  types c s bs w w' -> kbd_inv P w -> Forall P bs ->
  kbd_inv P w' /\ CTRL_HELD (w_kbd w') = c /\ SHIFT_HELD (w_kbd w') = s /\
  kqueue (w_kbd w') = fold_left enqueue bs (kqueue (w_kbd w)).
Proof.
  intros [(co & m & -> & Hc & Hm) _] (Hl & _ & Hk & HP) Hb.
  destruct (pushes_spec bs _ Hk) as (H1 & H2 & _).
  destruct w as [? ? ? ? ? ? ? k]; cbn in *.
  change (kqueue (set_mods c s (pushes bs k))) with (kqueue (pushes bs k)).
  change (kbd_ok (set_mods c s (pushes bs k))) with (kbd_ok (pushes bs k)).
  unfold kbd_inv; cbn. change (kqueue (set_mods c s (pushes bs k))) with (kqueue (pushes bs k)).
  rewrite H2. repeat split; try apply Hc || apply H1; try done. by apply Forall_enqueue.
Qed.

Lemma handle_scancodes_inv P scs w :
  kbd_inv P w -> Forall (fits 8) scs ->
  (forall shift code, Forall P (typed shift code)) ->
  wp (handle_scancodes scs) w (fun _ w' =>
    kbd_inv P w' /\
    CTRL_HELD (w_kbd w') = fold_left ctrl_after scs (CTRL_HELD (w_kbd w)) /\
    SHIFT_HELD (w_kbd w') = fold_left shift_after scs (SHIFT_HELD (w_kbd w))).
Proof.
  intros Hw Hs HP. unfold handle_scancodes. revert w Hw.
  induction Hs as [ | sc scs Hsc Hs IH]; intros w Hw; [by apply wp_ret | ].
  apply wp_bind, wp_bind. destruct Hw as (Hl & Hc & Hk & HF).
  eapply wp_mono; [by apply wp_handle_scancode | ]. intros r w1 [_ T].
  apply wp_ret. eapply types_inv in T as (I1 & C1 & S1 & _); [ | done | ].
  - eapply wp_mono; [by apply IH | ]. intros [] w2 (I2 & C2 & S2). by rewrite C2, S2, C1, S1.
  - case_match; [apply HP | done].
Qed.

Definition not_x_or_c (b : Z) : Prop := b ∉ bytes_of "xXcC".

Lemma typed_not_x_or_c shift code : Forall not_x_or_c (typed shift code).
Proof.
  unfold typed, not_x_or_c. change (bytes_of "xXcC") with [120; 88; 99; 67].
  repeat (case_match; [repeat constructor; rewrite !elem_of_cons, elem_of_nil; lia | ]).
  apply bool_decide_eq_false_1 in H2. rewrite !elem_of_cons, elem_of_nil in H2.
  unfold map_get. destruct (_ !! _) as [[c | ] | ] eqn:E; [ | constructor..].
  apply Forall_singleton.
  assert (forallb (fun i =>
      match (if shift then MAP_SHIFT else MAP_NORMAL) !! i with
      | Some (Some c) => negb (existsb (Z.eqb c) (bytes_of "xXcC")) || existsb (Nat.eqb i) [0x2D; 0x2E]%nat
      | _ => true end) (seq 0 0x3A) = true) as HA by (destruct shift; vm_compute; reflexivity).
  apply Is_true_eq_left in HA. rewrite forallb_True, Forall_forall in HA.
  assert (Z.to_nat code < 58)%nat as Hlt.
  { apply lookup_lt_Some in E. by destruct shift. }
  specialize (HA (Z.to_nat code)). rewrite E in HA.
  apply Is_true_eq_true in HA; [ | apply elem_of_seq; lia].
  change (bytes_of "xXcC") with [120; 88; 99; 67] in HA. cbn in HA.
  rewrite !elem_of_cons, elem_of_nil. intros HI.
  destruct (Nat.eqb_spec (Z.to_nat code) 45); [lia | ].
  destruct (Nat.eqb_spec (Z.to_nat code) 46); [lia | ].
  cbn in HA. rewrite orb_false_r in HA. apply negb_true_iff in HA. lia.
Qed.

(** Modifiers and liveness over whole runs: from any keyboard state with the console
    free, handling any sequence of scancode bytes terminates, keeps the ring and the
    cursor well formed and the console unlocked, and leaves Ctrl (Shift) marked as held
    exactly as the last Ctrl (Shift) make or break code of the sequence says. *)
Theorem keyboard_runs_track_modifiers scs w :
  kbd_inv (fun _ => True) w -> Forall (fits 8) scs ->
  exists w', handle_scancodes scs w = Ret tt w' /\ kbd_inv (fun _ => True) w' /\
    CTRL_HELD (w_kbd w') = fold_left ctrl_after scs (CTRL_HELD (w_kbd w)) /\
    SHIFT_HELD (w_kbd w') = fold_left shift_after scs (SHIFT_HELD (w_kbd w)).
Proof.
  intros Hw Hs. pose proof (handle_scancodes_inv (fun _ => True) scs w Hw Hs) as H.
  apply wp_iff in H as ([] & w' & E & H); [by exists w' | ].
  intros shift code. by apply Forall_true.
Qed.

(** The keys X and C type nothing: the arms of the match for the shutdown combos
    shadow the map entries of both keys, with or without Ctrl, so after any sequence of
    scancodes none of the characters x, X, c, C is waiting in the ring (the shell's
    commands that contain these letters cannot be typed). *)
Theorem keyboard_never_types_x_or_c scs w :
  kbd_inv not_x_or_c w -> Forall (fits 8) scs ->
  exists w', handle_scancodes scs w = Ret tt w' /\
    Forall not_x_or_c (kqueue (w_kbd w')).
Proof.
  intros Hw Hs. pose proof (handle_scancodes_inv not_x_or_c scs w Hw Hs typed_not_x_or_c) as H.
  apply wp_iff in H as ([] & w' & E & (_ & _ & _ & H) & _). by exists w'.
Qed.
End KeyboardProps.

(** *** Witnesses *)

Lemma sim_boot_kbd_inv P : kbd_inv P sim_boot.
Proof.
  split; [reflexivity | ]. split; [repeat split; discriminate || reflexivity | ].
  split; [repeat split; discriminate || reflexivity | constructor].
Qed.

#[local] Existing Instance plain_build.

Lemma keyboard_ring_linearizable_witness :
  let r := poll_char_with (pushes [104; 105]) (pushes [33]) (pushes [10]) (w_kbd sim_boot) in
  kbd_ok (snd r) /\ fst r = Some 104 /\ kqueue (snd r) = [105; 33; 10].
Proof.
  pose proof (keyboard_ring_linearizable [104; 105] [33] [10] (w_kbd sim_boot)
                (proj1 (proj2 (proj2 (sim_boot_kbd_inv (fun _ => True)))))) as H.
  split; [exact (proj1 H) | split; vm_compute; reflexivity].
Defined.

Lemma keyboard_handle_scancode_witness :
  exists w', handle_scancode 0x1E sim_boot = Ret None w' /\
             types false false [97] sim_boot w'.
Proof.
  apply (keyboard_handle_scancode 0x1E sim_boot).
  - split; [discriminate | reflexivity].
  - reflexivity.
  - repeat split; discriminate || reflexivity.
Defined.

Lemma keyboard_runs_track_modifiers_witness :
  exists w', handle_scancodes [0x1D; 0x2A; 0x1E; 0x9D] sim_boot = Ret tt w' /\
    kbd_inv (fun _ => True) w' /\ CTRL_HELD (w_kbd w') = false /\ SHIFT_HELD (w_kbd w') = true.
Proof.
  apply (keyboard_runs_track_modifiers [0x1D; 0x2A; 0x1E; 0x9D] sim_boot).
  - apply sim_boot_kbd_inv.
  - repeat constructor; discriminate || reflexivity.
Defined.

Lemma keyboard_never_types_x_or_c_witness :
  exists w', handle_scancodes [0x2D; 0x2E; 0x1E] sim_boot = Ret tt w' /\
    Forall not_x_or_c (kqueue (w_kbd w')).
Proof.
  apply (keyboard_never_types_x_or_c [0x2D; 0x2E; 0x1E] sim_boot).
  - apply sim_boot_kbd_inv.
  - repeat constructor; discriminate || reflexivity.
Defined.

(** *** The unit tests of keyboard.rs *)

Definition answer_to {D} (m : K (World D) (option (list Z))) (w : World D) : option (option (list Z)) :=
  match m w with Ret r _ => Some r | _ => None end.

Example ctrl_x_triggers_shutdown :
  answer_to (handle_scancode 0x1D) sim_boot = Some None /\
  answer_to (handle_scancode 0x1D ;; handle_scancode 0x2D) sim_boot = Some (Some (bytes_of "Ctrl+X")).
Proof. split; vm_compute; reflexivity. Qed.

Example ctrl_c_triggers_shutdown :
  answer_to (handle_scancode 0x1D ;; handle_scancode 0x2E) sim_boot = Some (Some (bytes_of "Ctrl+C")).
Proof. vm_compute; reflexivity. Qed.

Example release_clears_ctrl_state :
  answer_to (handle_scancode 0x1D ;; handle_scancode 0x9D ;; handle_scancode 0x2D) sim_boot = Some None.
Proof. vm_compute; reflexivity. Qed.
