(* ===== verification/Pic.v ===== *)
(** * The interrupt controllers (kernel/src/pic.rs)

    The two 8259 chips behind the crate [pic8259], programmed at boot and acknowledged
    by every interrupt handler, under one lock. *)

From S2P Require Import Prelude XhciData State.
From stdpp Require Import gmap list.
From Stdlib Require Import ZArith Lia.

Open Scope Z_scope.

Definition PIC_1_OFFSET : Z := 32.
Definition PIC_2_OFFSET : Z := u8 (PIC_1_OFFSET + 8).

Section Pic.
Context {D : Type} {HW : Hardware D} {CR : Crates D}.
Abbreviation KW := (K (World D)).

Definition pic_init : KW unit :=
  with_lock PICS
    (modify (fun w => emit (EvPicInit PIC_1_OFFSET PIC_2_OFFSET)
                        (set_dev (pic_initialize PIC_1_OFFSET PIC_2_OFFSET (w_dev w)) w)) ;;
     modify (fun w => emit (EvPicMasks 252 0xFF)
                        (set_dev (pic_write_masks 252 0xFF (w_dev w)) w))).

Definition notify_end_of_interrupt (irq : Z) : KW unit :=
  with_lock PICS
    (modify (fun w => emit (EvEoi irq) (set_dev (pic_notify_eoi irq (w_dev w)) w))).

End Pic.

(** The vectors acknowledged so far, oldest first. *)
Definition eoi_log {D} (w : World D) : list Z :=
  omap (fun e => match e with EvEoi v => Some v | _ => None end) (rev (w_trace w)).

Section PicProps.
Context {D : Type} {HW : Hardware D} {CR : Crates D} {CL : CratesLaws D}.

Lemma wp_pic_init (w : World D) :
  locked PICS w = false ->
  wp pic_init w (fun _ w' =>
    io_step w w' /\ (forall p, port_log p w' = port_log p w) /\
    EvPicInit 32 40 ∈ w_trace w' /\ EvPicMasks 252 255 ∈ w_trace w').
Proof.
  intros Hl. apply wp_with_lock_io; [done | ]. apply wp_bind, wp_modify, wp_modify. split.
  - eexists _, [_; _]. by destruct w.
  - split; [ | split; [by right; left | by left]].
    intros p. unfold port_log. cbn. rewrite !omap_app. cbn. by rewrite !app_nil_r.
Qed.

Lemma wp_notify v (w : World D) :
  locked PICS w = false ->
  wp (notify_end_of_interrupt v) w (fun _ w' =>
    io_step w w' /\ eoi_log w' = eoi_log w ++ [v] /\ w_dev w' = pic_notify_eoi v (w_dev w) /\
    forall p, port_log p w' = port_log p w).
Proof.
  intros Hl. apply wp_with_lock_io; [done | ]. apply wp_modify. split.
  - eexists _, [_]. by destruct w.
  - unfold eoi_log, port_log. cbn. split; [by rewrite omap_app | split; [done | ]].
    intros p. rewrite omap_app. cbn. by rewrite app_nil_r.
Qed.

Lemma eoi_log_port p v d (w : World D) :
  eoi_log (emit (EvOut p v) (set_dev d w)) = eoi_log w.
Proof. unfold eoi_log. cbn. rewrite omap_app. cbn. by rewrite app_nil_r. Qed.

Lemma wp_port_write_eoi p v (w : World D) :
  wp (port_write p v) w (fun _ w' => eoi_log w' = eoi_log w).
Proof. apply wp_modify, eoi_log_port. Qed.

Lemma wp_port_writes_eoi p l (w : World D) :
  wp (kfor l (port_write p)) w (fun _ w' => eoi_log w' = eoi_log w).
Proof.
  eapply wp_mono; [apply (wp_kfor l _ (fun _ w' => eoi_log w' = eoi_log w)); [done | ] | done].
  intros i x w' _ E. eapply wp_mono; [apply wp_port_write_eoi | ]. cbn. congruence.
Qed.
End PicProps.
