(* ===== verification/Idt.v ===== *)
(** * Interrupts and exceptions (kernel/src/idt.rs, kernel/src/syscall.rs)

    The descriptor table as it is filled at boot, the handlers, and their delivery:
    [deliver] runs the handler of a request line with interrupts disabled, [preempt]
    delivers what the hardware has raised when interrupts are enabled. *)

From S2P Require Import Prelude XhciData State Sim Fmt Serial Vga Debug Keyboard Pic.
From stdpp Require Import gmap list strings.
From Stdlib Require Import ZArith Lia.

Open Scope Z_scope.

(** ** Vectors *)

Inductive InterruptIndex : Type :=
| Timer | KeyboardIrq | Cascade | Serial2 | Serial1 | Lpt2 | Floppy | Lpt1
| Rtc | Acpi | Available1 | Available2 | Mouse | Coprocessor | PrimaryAta | SecondaryAta.

#[export] Instance InterruptIndex_eq_dec : EqDecision InterruptIndex.
Proof. solve_decision. Defined.

(** The discriminants: two are given, the others count up from them. *)
Definition as_u8 (i : InterruptIndex) : Z :=
  match i with
  | Timer => PIC_1_OFFSET | KeyboardIrq => PIC_1_OFFSET + 1 | Cascade => PIC_1_OFFSET + 2
  | Serial2 => PIC_1_OFFSET + 3 | Serial1 => PIC_1_OFFSET + 4 | Lpt2 => PIC_1_OFFSET + 5
  | Floppy => PIC_1_OFFSET + 6 | Lpt1 => PIC_1_OFFSET + 7
  | Rtc => PIC_2_OFFSET | Acpi => PIC_2_OFFSET + 1 | Available1 => PIC_2_OFFSET + 2
  | Available2 => PIC_2_OFFSET + 3 | Mouse => PIC_2_OFFSET + 4
  | Coprocessor => PIC_2_OFFSET + 5 | PrimaryAta => PIC_2_OFFSET + 6
  | SecondaryAta => PIC_2_OFFSET + 7
  end.

Definition as_usize (i : InterruptIndex) : Z := as_u8 i.

Definition SYSCALL_VECTOR : Z := 0x80.
Definition DOUBLE_FAULT_IST_INDEX : Z := 0.

(** ** The table *)

(** The handler functions; the macros of the source are the constructors with
    arguments. *)
Inductive Handler : Type :=
| simple_handler (label : string)
| error_handler (label : string)
| page_fault_handler
| timer_handler
| keyboard_handler
| irq_handler (index : InterruptIndex)
| syscall_entry_handler.

(** The entries of the crate's [InterruptDescriptorTable]: its named fields, and those
    reached by indexing. *)
Inductive Slot : Type :=
| divide_error | debug | non_maskable_interrupt | breakpoint | overflow
| bound_range_exceeded | invalid_opcode | device_not_available | double_fault
| invalid_tss | segment_not_present | stack_segment_fault | general_protection_fault
| page_fault | x87_floating_point | alignment_check | machine_check
| simd_floating_point | virtualization | cp_protection_exception
| hv_injection_exception | vmm_communication_exception | security_exception
| Index (vector : Z).

#[export] Instance Slot_eq_dec : EqDecision Slot.
Proof. solve_decision. Defined.

Record Gate : Type := mkGate {
  g_handler : Handler; g_stack_index : option Z; g_privilege : Z
}.

Abbreviation Table := (list (Slot * Gate)).

Definition set_handler_fn (s : Slot) (h : Handler) (t : Table) : Table :=
  (s, mkGate h None 0) :: t.

Definition irq_gate (i : InterruptIndex) (h : Handler) (t : Table) : Table :=
  set_handler_fn (Index (as_usize i)) h t.

(** syscall.rs: [configure_idt]. *)
Definition configure_idt (t : Table) (user_level : Z) : Table :=
  (Index SYSCALL_VECTOR, mkGate syscall_entry_handler None user_level) :: t.

Definition exception_gates (t : Table) : Table :=
  let t := set_handler_fn divide_error (simple_handler "Divide Error") t in
  let t := set_handler_fn debug (simple_handler "Debug") t in
  let t := set_handler_fn non_maskable_interrupt (simple_handler "Non Maskable Interrupt") t in
  let t := set_handler_fn breakpoint (simple_handler "Breakpoint") t in
  let t := set_handler_fn overflow (simple_handler "Overflow") t in
  let t := set_handler_fn bound_range_exceeded (simple_handler "Bound Range Exceeded") t in
  let t := set_handler_fn invalid_opcode (simple_handler "Invalid Opcode") t in
  let t := set_handler_fn device_not_available (simple_handler "Device Not Available") t in
  let t := (double_fault, mkGate (error_handler "Double Fault")
                                 (Some DOUBLE_FAULT_IST_INDEX) 0) :: t in
  let t := set_handler_fn invalid_tss (error_handler "Invalid TSS") t in
  let t := set_handler_fn segment_not_present (error_handler "Segment Not Present") t in
  let t := set_handler_fn stack_segment_fault (error_handler "Stack Segment Fault") t in
  let t := set_handler_fn general_protection_fault
                          (error_handler "General Protection Fault") t in
  let t := set_handler_fn page_fault page_fault_handler t in
  let t := set_handler_fn x87_floating_point (simple_handler "x87 Floating Point") t in
  let t := set_handler_fn alignment_check (error_handler "Alignment Check") t in
  let t := set_handler_fn machine_check (simple_handler "Machine Check") t in
  let t := set_handler_fn simd_floating_point (simple_handler "SIMD Floating Point") t in
  let t := set_handler_fn virtualization (simple_handler "Virtualization") t in
  let t := set_handler_fn cp_protection_exception (error_handler "Control Protection") t in
  let t := set_handler_fn hv_injection_exception (simple_handler "Hypervisor Injection") t in
  let t := set_handler_fn vmm_communication_exception (error_handler "VMM Communication") t in
  set_handler_fn security_exception (error_handler "Security") t.

Definition irq_gates (t : Table) : Table :=
  let t := irq_gate Timer timer_handler t in
  let t := irq_gate KeyboardIrq keyboard_handler t in
  let t := irq_gate Cascade (irq_handler Cascade) t in
  let t := irq_gate Serial2 (irq_handler Serial2) t in
  let t := irq_gate Serial1 (irq_handler Serial1) t in
  let t := irq_gate Lpt2 (irq_handler Lpt2) t in
  let t := irq_gate Floppy (irq_handler Floppy) t in
  let t := irq_gate Lpt1 (irq_handler Lpt1) t in
  let t := irq_gate Rtc (irq_handler Rtc) t in
  let t := irq_gate Acpi (irq_handler Acpi) t in
  let t := irq_gate Available1 (irq_handler Available1) t in
  let t := irq_gate Available2 (irq_handler Available2) t in
  let t := irq_gate Mouse (irq_handler Mouse) t in
  let t := irq_gate Coprocessor (irq_handler Coprocessor) t in
  let t := irq_gate PrimaryAta (irq_handler PrimaryAta) t in
  irq_gate SecondaryAta (irq_handler SecondaryAta) t.

(** The value of the static [IDT]; privilege level 3 is [PrivilegeLevel::Ring3]. *)
Definition idt_table : Table := configure_idt (irq_gates (exception_gates [])) 3.

Fixpoint gate_at (s : Slot) (t : Table) : option Gate :=
  match t with
  | [] => None
  | (s', g) :: t' => if decide (s = s') then Some g else gate_at s t'
  end.

(** What the handlers read of the interrupt frame: its [{:#?}] text (formatted by the
    crate [x86_64]) and the stack pointer.  For a page fault also the texts of [CR2] and
    of the flags. *)
Record Frame : Type := mkFrame {
  f_debug : list Z; f_stack_pointer : Z; f_error_code : Z;
  f_cr2 : list Z; f_error_debug : list Z
}.

Section Handlers.
Context {D : Type} {HW : Hardware D} {CR : Crates D}.
Abbreviation KW := (K (World D)).

(** [loop { hlt(); }] with interrupts disabled. *)
Definition halt_loop {A} : KW A := khalt.

Definition report {A} (label : list Z) (stack : Frame) (error : option Z) : KW A :=
  Serial.write_fmt (bytes_of "[EXCEPTION] " ++ label ++ [13; 10]) ;;
  match error with
  | Some code => Serial.write_fmt (bytes_of "  code: 0x" ++ fmt_hexw 16 code ++ [13; 10])
  | None => mret tt
  end ;;
  Serial.write_fmt (f_debug stack ++ [13; 10]) ;;
  halt_loop.

Definition on_counters (f : IdtCounters -> IdtCounters) : KW unit :=
  modify (fun w => set_idt (f (w_idt w)) w).

Definition IRQ_COUNT_fetch_add : KW unit :=
  on_counters (fun c => mkIdt (IDT c) (u64 (IRQ_COUNT c + 1)) (PAGE_FAULTS c) (TIMER_TICKS c)).
Definition PAGE_FAULTS_fetch_add : KW unit :=
  on_counters (fun c => mkIdt (IDT c) (IRQ_COUNT c) (u64 (PAGE_FAULTS c + 1)) (TIMER_TICKS c)).
Definition TIMER_TICKS_fetch_add : KW Z :=
  old ← gets (fun w => TIMER_TICKS (w_idt w));
  on_counters (fun c => mkIdt (IDT c) (IRQ_COUNT c) (PAGE_FAULTS c) (u64 (TIMER_TICKS c + 1))) ;;
  mret old.

Definition page_fault_fn {A} (stack : Frame) : KW A :=
  PAGE_FAULTS_fetch_add ;;
  Serial.write_fmt (bytes_of "[EXCEPTION] Page Fault" ++ [13; 10] ++
    bytes_of "  address: " ++ f_cr2 stack ++ [13; 10] ++
    bytes_of "  error: " ++ f_error_debug stack ++ [13; 10] ++
    bytes_of "  bits: " ++ fmt_xbinw 6 (f_error_code stack) ++ [13; 10]) ;;
  Serial.write_fmt (f_debug stack ++ [13; 10]) ;;
  halt_loop.

Definition debug_line (message : list Z) : KW unit := kfor message (port_write 0xE9).

Definition timer : KW unit :=
  old ← TIMER_TICKS_fetch_add;
  let ticks := u64 (old + 1) in
  IRQ_COUNT_fetch_add ;;
  (if ticks mod 1000 =? 0 then debug_line (bytes_of "[irq] timer" ++ [10]) else mret tt) ;;
  notify_end_of_interrupt (as_u8 Timer).

Definition keyboard : KW unit :=
  scancode ← port_read 8 0x60;
  trigger ← handle_scancode scancode;
  notify_end_of_interrupt (as_u8 KeyboardIrq) ;;
  match trigger with
  | Some combo => shutdown_via_keyboard combo
  | None => mret tt
  end.

Definition irq_handler_fn (index : InterruptIndex) : KW unit :=
  IRQ_COUNT_fetch_add ;; notify_end_of_interrupt (as_u8 index).

(** syscall.rs. *)
Definition syscall_entry (stack : Frame) : KW unit :=
  Serial.write_str (bytes_of "[syscall] entry" ++ [13; 10]) ;;
  Serial.write_fmt (bytes_of "  user_stack: " ++ fmt_xhexw 18 (f_stack_pointer stack) ++ [13; 10]).

Definition syscall_init : KW unit := Serial.write_str (bytes_of "syscall: ready" ++ [13; 10]).

Definition run_handler (h : Handler) (stack : Frame) : KW unit :=
  match h with
  | simple_handler label => report (bytes_of label) stack None
  | error_handler label => report (bytes_of label) stack (Some (f_error_code stack))
  | page_fault_handler => page_fault_fn stack
  | timer_handler => timer
  | keyboard_handler => keyboard
  | irq_handler index => irq_handler_fn index
  | syscall_entry_handler => syscall_entry stack
  end.

(** [call_once] fills the table the first time; [load] makes it the processor's. *)
Definition idt_init : KW unit :=
  on_counters (fun c => mkIdt (once_call unit (IDT c) tt) (IRQ_COUNT c) (PAGE_FAULTS c)
                              (TIMER_TICKS c)).

Definition timer_ticks : KW Z := gets (fun w => TIMER_TICKS (w_idt w)).
Definition irq_count : KW Z := gets (fun w => IRQ_COUNT (w_idt w)).
Definition page_faults : KW Z := gets (fun w => PAGE_FAULTS (w_idt w)).

(** *** Delivery

    An interrupt gate clears IF, [iretq] restores it.  Without a loaded table or a
    present gate the machine resets, which ends the run. *)
Definition deliver (s : Slot) (stack : Frame) : KW unit :=
  c ← gets w_idt;
  match IDT c, gate_at s idt_table with
  | Some _, Some g =>
      flag ← gets w_if;
      modify (set_if false) ;;
      run_handler (g_handler g) stack ;;
      modify (set_if flag)
  | _, _ => khalt
  end.

Definition no_frame : Frame := mkFrame [] 0 0 [] [].

(** Request line [l] of the chained controllers raises the vector offset + [l]; the
    handlers of these vectors do not read their frame. *)
Definition deliver_line (l : Z) : KW unit :=
  deliver (Index (if l mod 16 <? 8 then PIC_1_OFFSET + l mod 16
                  else PIC_2_OFFSET + (l mod 16 - 8))) no_frame.

(** A point of the running code at which pending interrupts are taken. *)
Definition preempt : KW unit := fun w =>
  if w_if w then
    let '(ls, d) := hw_irqs (w_dev w) in kfor ls deliver_line (set_dev d w)
  else Ret tt w.

End Handlers.

(** ** What an interrupt may change

    A handler that returns has talked to devices and updated the keyboard, the console,
    the text buffer and the counters; everything else is as before. *)

Record isr_step {D} (w w' : World D) : Prop := mk_isr_step {
  is_if : w_if w' = w_if w;
  is_locks : w_locks w' = w_locks w;
  is_serial : w_serial_init w' = w_serial_init w;
  is_pmm : w_pmm w' = w_pmm w;
  is_apply : w_apply w' = w_apply w;
  is_tasks : w_tasks w' = w_tasks w;
  is_link : w_link w' = w_link w;
  is_agent : w_agent w' = w_agent w;
  is_shell : w_shell w' = w_shell w;
  is_xhci : w_xhci w' = w_xhci w;
  is_seg : w_seg w' = w_seg w;
  is_trace : exists t, w_trace w' = t ++ w_trace w;
  is_mem : same_outside (w_mem w) (w_mem w');
  is_idt : IDT (w_idt w') = IDT (w_idt w);
  is_faults : PAGE_FAULTS (w_idt w') = PAGE_FAULTS (w_idt w)
}.

#[export] Instance isr_step_preorder {D} : PreOrder (@isr_step D).
Proof.
  split; [intros w; constructor; try done; by exists [] | ]. intros w1 w2 w3 H1 H2. destruct H1, H2.
  constructor; try congruence; [ | by transitivity (w_mem w2)].
  destruct is_trace0 as [t1 E1], is_trace1 as [t2 E2]. exists (t2 ++ t1).
  by rewrite E2, E1, app_assoc.
Qed.

(** What delivery needs: the table is loaded and the locks the handlers take are free. *)
Record isr_ready {D} (w : World D) : Prop := mk_isr_ready {
  ir_idt : IDT (w_idt w) = Some tt;
  ir_pics : locked PICS w = false;
  ir_console : locked CONSOLE w = false;
  ir_serial : locked SERIAL w = false;
  ir_cursor : console_ok (w_console w);
  ir_kbd : kbd_ok (w_kbd w)
}.

Definition isr_keeps {D} (w w' : World D) : Prop := isr_step w w' /\ isr_ready w'.

(** The exit device has been told to power off with code 0. *)
Definition powered_off {D} (w : World D) : Prop := last (port_log 0xF4 w) = Some 1.

(** What handlers that return write to the debug port: a line every thousand ticks. *)
Definition tick_lines (n : nat) : list Z := concat (replicate n (bytes_of "[irq] timer" ++ [10])).

Definition irq_said {D} (w w' : World D) : Prop :=
  exists n, port_log 0xE9 w' = port_log 0xE9 w ++ tick_lines n.

#[export] Instance irq_said_preorder {D} : PreOrder (@irq_said D).
Proof.
  split; [intros w; exists 0%nat; by rewrite app_nil_r | ]. intros w1 w2 w3 [n H1] [k H2]. exists (n + k)%nat.
  unfold tick_lines in *. by rewrite H2, H1, replicate_add, concat_app, app_assoc.
Qed.

Lemma irq_said_same {D} (w w' : World D) : w_trace w' = w_trace w -> irq_said w w'.
Proof. intros E. exists 0%nat. unfold port_log. by rewrite E, app_nil_r. Qed.

Section IdtProps.
Context {D : Type} {HW : Hardware D} {CR : Crates D} {CL : CratesLaws D}.
Implicit Types w : World D.

Lemma isr_keeps_io w w' : isr_ready w -> io_step w w' -> isr_keeps w w'.
Proof.
  intros [] (d & t & ->). split; [destruct w; constructor; try done; by exists t | by destruct w; constructor].
Qed.

Lemma isr_keeps_trans w1 w2 w3 : isr_keeps w1 w2 -> isr_keeps w2 w3 -> isr_keeps w1 w3.
Proof. intros [H1 _] [H2 R2]. split; [by transitivity w2 | done]. Qed.

Lemma isr_keeps_types c s bs w w' : isr_ready w -> types c s bs w w' -> isr_keeps w w'.
Proof.
  intros [? ? ? ? ? Hk] [(co & m & -> & Hc & Hm) _]. destruct w; cbn in *.
  destruct (pushes_spec bs _ Hk) as (Hk' & _). split; constructor; try done. by exists [].
Qed.

Lemma isr_keeps_counters w c :
  isr_ready w -> IDT c = IDT (w_idt w) -> PAGE_FAULTS c = PAGE_FAULTS (w_idt w) ->
  isr_keeps w (set_idt c w).
Proof. intros [] H1 H2. destruct w; cbn in *. split; constructor; cbn; try congruence. by exists [].
Qed.

Lemma isr_ready_if b w : isr_ready w -> isr_ready (set_if b w).
Proof. intros []. by destruct w; constructor. Qed.

Lemma isr_keeps_if b w w' :
  isr_keeps (set_if b w) w' -> isr_keeps w (set_if (w_if w) w').
Proof.
  intros [[] R]. split; [ | by apply isr_ready_if]. by destruct w, w'; cbn in *; constructor.
Qed.

(** The vector a request line raises, and the ticks it counts. *)
Definition line_vector (l : Z) : Z := 32 + l mod 16.

Definition ticks_after (v : Z) (c : IdtCounters) : Z :=
  if v =? 32 then u64 (TIMER_TICKS c + 1) else TIMER_TICKS c.

(** All the counters after the handler of a vector: the keyboard's counts nothing. *)
Definition counted (v : Z) (c : IdtCounters) : IdtCounters :=
  if v =? 33 then c
  else mkIdt (IDT c) (u64 (IRQ_COUNT c + 1)) (PAGE_FAULTS c) (ticks_after v c).

Lemma ticks_counted v c : TIMER_TICKS (counted v c) = ticks_after v c.
Proof. unfold counted, ticks_after. destruct (Z.eqb_spec v 33) as [-> | ?]; [done | ]. by destruct (v =? 32). Qed.

(** What the keyboard handler does with the scancode the port gives. *)
Definition keyed w w' : Prop :=
  let '(v, d) := hw_in 0x60 (w_dev w) in
  let sc := u8 v in
  let k := w_kbd w in
  let bs := if sc <? 128 then typed (SHIFT_HELD k) sc else [] in
  w_kbd w' = set_mods (ctrl_after (CTRL_HELD k) sc) (shift_after (SHIFT_HELD k) sc) (pushes bs k) /\
  screen_of w' = fold_left echo bs (screen_of w) /\
  w_dev w' = pic_notify_eoi 33 d.

Lemma wp_notify_isr v w :
  isr_ready w ->
  wp (notify_end_of_interrupt v) w (fun _ w' =>
    isr_keeps w w' /\ eoi_log w' = eoi_log w ++ [v] /\
    io_step w w' /\ w_dev w' = pic_notify_eoi v (w_dev w) /\ irq_said w w').
Proof.
  intros R. eapply wp_mono; [apply wp_notify, R | ]. intros [] w' (H & E & Ed & L).
  split; [by apply isr_keeps_io | ]. do 3 (split; [done | ]). exists 0%nat. by rewrite L, app_nil_r.
Qed.

Lemma wp_irq_handler i w :
  isr_ready w ->
  wp (irq_handler_fn i) w (fun _ w' =>
    isr_keeps w w' /\ eoi_log w' = eoi_log w ++ [as_u8 i] /\
    w_idt w' = mkIdt (IDT (w_idt w)) (u64 (IRQ_COUNT (w_idt w) + 1)) (PAGE_FAULTS (w_idt w))
                     (TIMER_TICKS (w_idt w)) /\ irq_said w w').
Proof.
  intros R. apply wp_bind, wp_modify. set (w1 := set_idt _ w).
  assert (isr_keeps w w1) as K1 by (by apply isr_keeps_counters).
  eapply wp_mono; [apply wp_notify_isr, K1 | ]. intros [] w2 (K2 & E2 & I2 & _ & L2).
  split; [by eapply isr_keeps_trans | ]. split; [exact E2 | ].
  destruct (io_step_fields _ _ I2) as (_ & _ & _ & _ & _ & _ & _ & -> & _). split; [done | ].
  transitivity w1; [by apply irq_said_same | done].
Qed.

Lemma wp_timer w :
  isr_ready w ->
  wp timer w (fun _ w' =>
    isr_keeps w w' /\ eoi_log w' = eoi_log w ++ [32] /\
    w_idt w' = counted 32 (w_idt w) /\ irq_said w w').
Proof.
  intros R. apply wp_bind, wp_bind, wp_gets, wp_bind, wp_modify, wp_ret.
  apply wp_bind, wp_modify. set (w1 := set_idt _ _).
  assert (isr_keeps w w1) as K1.
  { eapply isr_keeps_trans; apply isr_keeps_counters; try done. by apply isr_keeps_counters. }
  apply wp_bind. eapply wp_mono with (Q := fun _ w' => io_step w1 w' /\ eoi_log w' = eoi_log w1 /\ irq_said w1 w').
  - case_match; [ | by apply wp_ret].
    eapply wp_mono; [apply wp_and; [apply wp_port_write_list | apply wp_port_writes_eoi] | ].
    intros [] w2 [[H2 [L2 _]] E2]. do 2 (split; [done | ]). by exists 1%nat.
  - intros [] w2 (H2 & E2 & L2). assert (isr_keeps w1 w2) as K2 by (apply isr_keeps_io; [apply K1 | done]).
    eapply wp_mono; [apply wp_notify_isr, K2 | ]. intros [] w3 (K3 & E3 & I3 & _ & L3).
    split; [by do 2 (eapply isr_keeps_trans; [eassumption | ]) | ].
    split; [by rewrite E3, E2 | ].
    destruct (io_step_fields _ _ I3) as (_ & _ & _ & _ & _ & _ & _ & -> & _).
    destruct (io_step_fields _ _ H2) as (_ & _ & _ & _ & _ & _ & _ & -> & _). split; [done | ].
    transitivity w2; [ | done]. transitivity w1; [by apply irq_said_same | done].
Qed.

Lemma wph_exit_qemu {A} w (Q : A -> World D -> Prop) :
  wph (exit_qemu 0) w Q (fun w' => io_step w w' /\ powered_off w').
Proof.
  apply wph_bind, wph_wp. eapply wp_mono; [apply wp_port_write | ].
  intros [] w2 (S & L & _). unfold wph, khalt, powered_off. by rewrite L, last_snoc.
Qed.

Lemma wph_shutdown {A} combo w (Q : A -> World D -> Prop) :
  Forall (fits 8) combo -> locked SERIAL w = false ->
  wph (shutdown_via_keyboard combo) w Q powered_off.
Proof.
  intros Hb Hl. apply wph_bind, wph_wp.
  eapply wp_mono; [apply wp_serial_write_fmt; [solve_bytes | done] | ]. intros [] w1 _.
  eapply wph_mono; [apply (wph_exit_qemu w1 Q) | done | by intros w2 [_ H]].
Qed.

Lemma shutdown_combo_bytes ctrl sc combo :
  shutdown_combo ctrl sc = Some combo -> Forall (fits 8) combo /\ ctrl = true.
Proof.
  unfold shutdown_combo. destruct ctrl; [ | done].
  repeat case_match; intros [= <-]; auto with bytes.
Qed.

Lemma wph_keyboard w :
  isr_ready w ->
  wph keyboard w (fun _ w' =>
      isr_keeps w w' /\ eoi_log w' = eoi_log w ++ [33] /\ w_idt w' = w_idt w /\ keyed w w' /\ irq_said w w')
    (fun w' => CTRL_HELD (w_kbd w) = true /\ powered_off w').
Proof.
  intros R. unfold keyed. apply wph_bind, wph_wp. unfold port_read, wp.
  destruct (hw_in 0x60 (w_dev w)) as [v d]. set (w1 := set_dev d w).
  assert (isr_keeps w w1) as K1.
  { apply isr_keeps_io; [done | ]. exists d, []. by destruct w. }
  apply wph_bind, wph_wp.
  eapply wp_mono; [apply wp_handle_scancode; [by apply wrap_fits | apply K1..] | ].
  intros r w2 [-> T]. pose proof (isr_keeps_types _ _ _ _ _ (proj2 K1) T) as K2.
  apply wph_bind, wph_wp. eapply wp_mono; [apply wp_notify_isr, K2 | ].
  intros [] w3 (K3 & E3 & I3 & D3 & L3).
  destruct (shutdown_combo _ _) as [combo | ] eqn:Ec.
  - apply shutdown_combo_bytes in Ec as [Hb Hc].
    apply wph_mono with (Q := fun _ _ => False) (H := powered_off); [ | done | ].
    + apply wph_shutdown; [done | apply K3].
    + intros w4 H4. split; [exact Hc | exact H4].
  - apply wph_wp, wp_ret. split; [by do 2 (eapply isr_keeps_trans; [eassumption | ]) | ].
    destruct (io_step_fields _ _ I3) as (M3 & _ & _ & _ & C3 & B3 & _ & N3 & _).
    unfold screen_of, con_state. rewrite E3, N3, B3, M3, C3, D3.
    destruct T as [(c & m & -> & _) T2]. unfold screen_of, con_state in T2.
    split; [by destruct w | split; [by destruct w | ]].
    split; [split; [by destruct w | split; [exact T2 | by destruct w]] | ].
    eapply transitivity; [by apply irq_said_same | exact L3].
Qed.

(** The gate of every request line. *)
Lemma line_gate l :
  exists g,
    gate_at (Index (if l mod 16 <? 8 then PIC_1_OFFSET + l mod 16
                    else PIC_2_OFFSET + (l mod 16 - 8))) idt_table = Some g /\
    ((l mod 16 = 0 /\ g_handler g = timer_handler) \/
     (l mod 16 = 1 /\ g_handler g = keyboard_handler) \/
     (2 <= l mod 16 /\
      exists i, g_handler g = irq_handler i /\ as_u8 i = line_vector l)).
Proof.
  unfold line_vector. pose proof (Z.mod_pos_bound l 16 eq_refl) as H.
  assert (exists n : nat, l mod 16 = Z.of_nat n /\ (n < 16)%nat) as (n & -> & Hn)
    by (exists (Z.to_nat (l mod 16)); lia).
  do 16 (destruct n as [ | n]; [eexists; split; [reflexivity | ];
    first [left; by split | right; left; by split
          | right; right; split; [lia | eexists; split; [reflexivity | reflexivity]]] | ]).
  lia.
Qed.

Lemma keyed_if b w w' : keyed (set_if b w) w' -> keyed w (set_if (w_if w) w').
Proof. unfold keyed. by destruct w, w'. Qed.

Lemma wph_deliver_line l w :
  isr_ready w ->
  wph (deliver_line l) w (fun _ w' =>
      isr_keeps w w' /\ eoi_log w' = eoi_log w ++ [line_vector l] /\
      w_idt w' = counted (line_vector l) (w_idt w) /\ (l mod 16 = 1 -> keyed w w') /\ irq_said w w')
    (fun w' => line_vector l = 33 /\ CTRL_HELD (w_kbd w) = true /\ powered_off w').
Proof.
  intros R. unfold deliver_line, deliver. destruct (line_gate l) as (g & -> & Hg).
  apply wph_bind, wph_wp, wp_gets. rewrite (ir_idt _ R).
  apply wph_bind, wph_wp, wp_gets, wph_bind, wph_wp, wp_modify.
  pose proof (isr_ready_if false w R) as R1. unfold line_vector in *.
  destruct Hg as [[E ->] | [[E ->] | [E (i & -> & Ei)]]]; rewrite ?E; apply wph_bind; cbn.
  - apply wph_wp. eapply wp_mono; [by apply wp_timer | ]. intros [] w1 (K1 & E1 & I1).
    apply wph_wp, wp_modify. split; [by eapply isr_keeps_if | ]. split; [exact E1 | ].
    destruct I1 as [I1 L1]. by split.
  - eapply wph_mono; [by apply wph_keyboard | | done]. intros [] w1 (K1 & E1 & I1 & Y1 & L1).
    apply wph_wp, wp_modify. split; [by eapply isr_keeps_if | ].
    split; [exact E1 | split; [exact I1 | split; [intros _; by eapply keyed_if | done]]].
  - apply wph_wp. eapply wp_mono; [by apply wp_irq_handler | ]. intros [] w1 (K1 & E1 & I1).
    apply wph_wp, wp_modify. split; [by eapply isr_keeps_if | ].
    unfold counted, ticks_after. replace (32 + l mod 16 =? 32) with false by lia.
    replace (32 + l mod 16 =? 33) with false by lia. rewrite <- Ei.
    destruct I1 as [I1 L1]. split; [exact E1 | split; [exact I1 | split; [lia | done]]].
Qed.

(** At an interruptible point: the running code finds what [isr_keeps] says. *)
Lemma wph_preempt_said w :
  isr_ready w -> wph preempt w (fun _ w' => isr_keeps w w' /\ irq_said w w') powered_off.
Proof.
  intros R. unfold preempt, wph. destruct (w_if w).
  2:{ split; [by split | reflexivity]. }
  destruct (hw_irqs (w_dev w)) as [ls d]. fold (wph (kfor ls deliver_line) (set_dev d w)
    (fun _ w' => isr_keeps w w' /\ irq_said w w') powered_off).
  apply (wph_kfor ls deliver_line (fun w' => isr_keeps w w' /\ irq_said w w')).
  - split; [apply isr_keeps_io; [done | ]; exists d, []; by destruct w | by apply irq_said_same].
  - intros l w' _ [K L]. eapply wph_mono; [apply wph_deliver_line, K | | by intros w2 (_ & _ & H2)].
    intros [] w2 (K2 & _ & _ & _ & L2). split; [by eapply isr_keeps_trans | by transitivity w'].
Qed.

(** [C15] Every hardware interrupt is dispatched and acknowledged: with the handlers'
    locks free, each of the 16 request lines reaches the handler registered at its
    vector; that handler returns, acknowledges exactly its own vector exactly once,
    counts a tick exactly for the timer, and restores the interrupt flag and every static
    the interrupted code may be using.  The only other end is a power-off by the keyboard
    line with Ctrl held. *)
Theorem irq_dispatched_and_acknowledged l w :
  isr_ready w ->
  match deliver_line l w with
  | Ret _ w' =>
      isr_step w w' /\ isr_ready w' /\ eoi_log w' = eoi_log w ++ [line_vector l] /\
      TIMER_TICKS (w_idt w') = ticks_after (line_vector l) (w_idt w)
  | Halt w' => line_vector l = 33 /\ CTRL_HELD (w_kbd w) = true /\ powered_off w'
  | _ => False
  end.
Proof.
  intros R. pose proof (wph_deliver_line l w R) as H. unfold wph in H.
  destruct (deliver_line l w); try done. destruct H as ([] & ? & E & _). by rewrite E, ticks_counted.
Qed.

(** Running a handler under a held lock. *)
Lemma deliver_deadlock s g w w1 :
  IDT (w_idt w) = Some tt -> gate_at s idt_table = Some g ->
  run_handler (g_handler g) no_frame (set_if false w) = Deadlock w1 ->
  deliver s no_frame w = Deadlock w1.
Proof.
  intros Hi Hg Hr. unfold deliver, gets, modify, mbind, K_bind, kbind.
  by rewrite Hi, Hg, Hr.
Qed.

Lemma handle_scancode_console_held sc w :
  0 <= sc < 0x80 -> typed (SHIFT_HELD (w_kbd w)) sc <> [] -> locked CONSOLE w = true ->
  handle_scancode sc w = Deadlock w.
Proof.
  intros Hs Ht Hl. unfold handle_scancode.
  rewrite release_bit, code_bits by zlia. replace (sc <? 128) with true by lia.
  replace (sc =? 0xE0) with false by lia. unfold typed in Ht. cbn [negb].
  destruct (Z.eqb_spec sc 0x2A) as [-> | ?]; [done | ].
  destruct (Z.eqb_spec sc 0x36) as [-> | ?]; [done | ].
  destruct (Z.eqb_spec sc 0x1D) as [-> | ?]; [done | ].
  destruct (Z.eqb_spec sc 0x2D) as [-> | ?]; [done | ].
  destruct (Z.eqb_spec sc 0x2E) as [-> | ?]; [done | ].
  rewrite bool_decide_eq_false_2 in Ht by (rewrite !elem_of_cons, elem_of_nil; lia).
  cbn [orb]. unfold mbind, K_bind, kbind.
  unfold Vga.backspace, Vga.write_str, Vga.put_char.
  destruct (sc =? 0x0E); [by rewrite with_lock_held | ].
  destruct (sc =? 0x0F); [by rewrite with_lock_held | ].
  destruct (sc =? 0x1C); [by rewrite with_lock_held | ].
  unfold gets. destruct (SHIFT_HELD (w_kbd w));
    (destruct (map_get _ sc); [by rewrite with_lock_held | done]).
Qed.

(** [C40] Printing is not interrupt safe: if a key that types a character is pressed while
    the interrupted code holds the console lock (every print of the shell takes it with
    interrupts enabled), the keyboard handler spins for ever on that lock, so the
    interrupt is never acknowledged and the holder never runs again. *)
Theorem keyboard_irq_deadlocks_on_console w sc d :
  IDT (w_idt w) = Some tt -> locked CONSOLE w = true ->
  hw_in 0x60 (w_dev w) = (sc, d) -> 0 <= sc < 0x80 ->
  typed (SHIFT_HELD (w_kbd w)) sc <> [] ->
  exists w', deliver_line 1 w = Deadlock w' /\ eoi_log w' = eoi_log w.
Proof.
  intros Hi Hl Hp Hs Ht. exists (set_dev d (set_if false w)).
  split; [ | by destruct w].
  eapply deliver_deadlock; [done | reflexivity | ]. cbn. unfold keyboard.
  unfold mbind, K_bind, kbind, port_read. cbn. rewrite Hp.
  rewrite wrap_small by (pow2; lia).
  rewrite handle_scancode_console_held; [done | done | by destruct w | by destruct w].
Qed.

(** Output on the serial port that begins with [pre]. *)
Definition says (pre : list Z) (w w' : World D) : Prop :=
  io_step w w' /\
  (w_serial_init w = true ->
   exists rest, port_log COM1_BASE w' = port_log COM1_BASE w ++ crlf pre ++ rest).

Lemma says_prints pre s w w' : prints (pre ++ s) w w' -> says pre w w'.
Proof.
  intros (H & L & _). split; [done | ]. intros Hi. exists (crlf s).
  change COM1_BASE with Serial.data. rewrite (L Hi), crlf_app. done.
Qed.

Lemma says_more pre s w w1 w2 : says pre w w1 -> prints s w1 w2 -> says pre w w2.
Proof.
  intros [H1 L1] (H2 & L2 & _). split; [by transitivity w1 | ]. intros Hi.
  destruct (L1 Hi) as [rest E]. exists (rest ++ crlf s).
  destruct (io_step_fields _ _ H1) as (_ & _ & _ & Ei & _). rewrite Ei in L2.
  change COM1_BASE with Serial.data in *. rewrite (L2 Hi), E, <- !app_assoc. done.
Qed.

Lemma says_serial pre w w' : locked SERIAL w = false -> says pre w w' -> locked SERIAL w' = false.
Proof. intros Hl [H _]. destruct (io_step_fields _ _ H) as (_ & _ & -> & _). done. Qed.

(** Continues a run of [report] past one more print. *)
Ltac next_print :=
  apply wph_bind, wph_wp; eapply wp_mono;
  [apply wp_serial_write_fmt; [solve_bytes | by eauto using says_serial] | ];
  intros [] ? ?.

Lemma wph_report {A} label stack error w (Q : A -> World D -> Prop) :
  Forall (fits 8) label -> Forall (fits 8) (f_debug stack) -> locked SERIAL w = false ->
  wph (report label stack error) w Q (says (bytes_of "[EXCEPTION] ") w).
Proof.
  intros Hb Hd Hl. unfold report. next_print. apply says_prints in H.
  apply wph_bind, wph_wp.
  eapply wp_mono with (Q := fun _ => says (bytes_of "[EXCEPTION] ") w).
  { destruct error; [ | by apply wp_ret].
    eapply wp_mono; [apply wp_serial_write_fmt; [solve_bytes | by eauto using says_serial] | ].
    intros [] w2 H2. by eapply says_more. }
  intros [] w2 H2. next_print. by eapply says_more.
Qed.

Lemma wph_page_fault {A} stack w (Q : A -> World D -> Prop) :
  Forall (fits 8) (f_debug stack) -> Forall (fits 8) (f_cr2 stack) ->
  Forall (fits 8) (f_error_debug stack) -> locked SERIAL w = false ->
  wph (page_fault_fn stack) w Q (says (bytes_of "[EXCEPTION] ")
    (set_idt (mkIdt (IDT (w_idt w)) (IRQ_COUNT (w_idt w)) (u64 (PAGE_FAULTS (w_idt w) + 1))
                    (TIMER_TICKS (w_idt w))) w)).
Proof.
  intros Hd Hc He Hl. unfold page_fault_fn. apply wph_bind, wph_wp, wp_modify.
  set (w1 := set_idt _ w).
  assert (locked SERIAL w1 = false) by (by destruct w). next_print.
  change (bytes_of "[EXCEPTION] Page Fault")
    with (bytes_of "[EXCEPTION] " ++ bytes_of "Page Fault") in H0.
  rewrite <- !app_assoc in H0. apply says_prints in H0.
  next_print. by eapply says_more.
Qed.

(** The exception gates run one of three handlers. *)
Definition is_exception (s : Slot) (h : Handler) : Prop :=
  match h with
  | simple_handler _ | error_handler _ => s <> page_fault
  | page_fault_handler => s = page_fault
  | _ => exists v, s = Index v
  end.

Lemma table_exceptions s g : gate_at s idt_table = Some g -> is_exception s (g_handler g).
Proof.
  assert (Forall (fun p => is_exception (fst p) (g_handler (snd p))) idt_table) as H
    by (repeat constructor; try discriminate; by eexists).
  induction idt_table as [ | [s' g'] t IH]; [done | ]. apply Forall_cons in H as [H1 H2].
  cbn. destruct (decide (s = s')) as [-> | ]; [by intros [= <-] | by apply IH].
Qed.

(** An exception gate reports and stops, the page fault counted first. *)
Lemma wph_exception s g stack w :
  gate_at s idt_table = Some g -> (forall v, s <> Index v) ->
  IDT (w_idt w) = Some tt -> locked SERIAL w = false ->
  Forall (fits 8) (f_debug stack ++ f_cr2 stack ++ f_error_debug stack) ->
  wph (deliver s stack) w (fun _ _ => False) (fun w' =>
    exists c, PAGE_FAULTS c = (if decide (s = page_fault) then u64 (PAGE_FAULTS (w_idt w) + 1)
                              else PAGE_FAULTS (w_idt w)) /\
    says (bytes_of "[EXCEPTION] ") (set_idt c (set_if false w)) w').
Proof.
  intros Hg Hs Hi Hl Hf. rewrite !Forall_app in Hf. destruct Hf as (Hd & Hc & He).
  pose proof (table_exceptions _ _ Hg) as Hx.
  assert (locked SERIAL (set_if false w) = false) as Hl' by (by destruct w).
  unfold deliver. apply wph_bind, wph_wp, wp_gets. rewrite Hi, Hg.
    apply wph_bind, wph_wp, wp_gets, wph_bind, wph_wp, wp_modify, wph_bind.
    destruct (g_handler g) as [label | label | | | | i | ]; cbn in Hx |- *.
    4-7: destruct Hx as [v ->]; by destruct (Hs v).
    1, 2: rewrite decide_False by done;
      eapply wph_mono with (Q := fun _ _ => False);
      [apply wph_report; auto with bytes | done | ];
      intros w' H; exists (w_idt w); split; [done | ]; by destruct w.
    rewrite decide_True by done.
    eapply wph_mono with (Q := fun _ _ => False); [by apply wph_page_fault | done | ].
    intros w' H. eexists. split; [ | exact H]. by destruct w.
Qed.

(** [C36] Exceptions never return: every exception gate of the table that runs with the
    serial port free prints its report and stops the machine, so no code observes the
    state after a fault; a page fault is counted first. *)
Theorem exceptions_stop_the_machine s g stack w :
  gate_at s idt_table = Some g -> (forall v, s <> Index v) ->
  IDT (w_idt w) = Some tt -> locked SERIAL w = false ->
  Forall (fits 8) (f_debug stack ++ f_cr2 stack ++ f_error_debug stack) ->
  exists w', deliver s stack w = Halt w' /\
    PAGE_FAULTS (w_idt w') = (if decide (s = page_fault)
                              then u64 (PAGE_FAULTS (w_idt w) + 1)
                              else PAGE_FAULTS (w_idt w)) /\
    (w_serial_init w = true ->
     exists rest, port_log COM1_BASE w' =
       port_log COM1_BASE w ++ crlf (bytes_of "[EXCEPTION] ") ++ rest).
Proof.
  intros Hg Hs Hi Hl Hf. pose proof (wph_exception s g stack w Hg Hs Hi Hl Hf) as H.
  unfold wph in H. destruct (deliver s stack w) as [ | | | w' | ] eqn:E; try done.
  destruct H as (c & Hc' & (d & t & ->) & HL). exists (set_trace (t ++ w_trace (set_idt c (set_if false w)))
    (set_dev d (set_idt c (set_if false w)))). split; [done | split; [by destruct w | ]].
  intros Hw. destruct HL as [rest HL]; [by destruct w | ]. exists rest. rewrite HL. by destruct w.
Qed.
End IdtProps.

(** *** Witnesses *)

Definition sim_irq : World Sim :=
  set_if true (set_idt (mkIdt (Some tt) 0 0 0) (set_serial_init true
    (boot_world (mkSim 0x1E []) ∅))).

Lemma sim_irq_ready : isr_ready sim_irq.
Proof. constructor; repeat split; discriminate || reflexivity. Qed.

Lemma irq_dispatched_and_acknowledged_witness :
  match deliver_line 0 sim_irq with
  | Ret _ w' =>
      isr_step sim_irq w' /\ isr_ready w' /\ eoi_log w' = [32] /\ TIMER_TICKS (w_idt w') = 1
  | Halt w' => line_vector 0 = 33 /\ CTRL_HELD (w_kbd sim_irq) = true /\ powered_off w'
  | _ => False
  end.
Proof. apply (irq_dispatched_and_acknowledged 0 sim_irq), sim_irq_ready. Defined.

Definition sim_printing : World Sim := set_locks (set_lock CONSOLE true (w_locks sim_irq)) sim_irq.

Lemma keyboard_irq_deadlocks_on_console_witness :
  exists w', deliver_line 1 sim_printing = Deadlock w' /\ eoi_log w' = [].
Proof.
  apply (keyboard_irq_deadlocks_on_console sim_printing 0x1E (mkSim 0x1E [])).
  - reflexivity.
  - reflexivity.
  - reflexivity.
  - split; discriminate || reflexivity.
  - discriminate.
Defined.

Lemma exceptions_stop_the_machine_witness :
  exists w', deliver page_fault no_frame sim_irq = Halt w' /\
    PAGE_FAULTS (w_idt w') = 1 /\
    (w_serial_init sim_irq = true ->
     exists rest, port_log COM1_BASE w' = crlf (bytes_of "[EXCEPTION] ") ++ rest).
Proof.
  apply (exceptions_stop_the_machine page_fault (mkGate page_fault_handler None 0)
           no_frame sim_irq).
  - reflexivity.
  - discriminate.
  - reflexivity.
  - reflexivity.
  - constructor.
Defined.
