(* ===== verification/Gdt.v ===== *)
(** * Segments and the task state segment (kernel/src/gdt.rs)

    The table is built by the crate [x86_64], which is not part of the repository: the class
    [Segmentation] has the operations the code calls, [SegmentationLaws] what their
    documentation says.  The processor's busy mark in the descriptor of a loaded task state
    segment is not modelled. *)

From S2P Require Import Prelude XhciData State Sim Fmt Serial Vga Debug Keyboard Pic Idt.
From stdpp Require Import gmap list strings.
From Stdlib Require Import ZArith Lia.

Open Scope Z_scope.

(** ** The crate, and the linker *)

(** [gdt_add_entry] is [None] when the table is full and the call panics; [virt_addr] is
    [None] when the address is not canonical and [VirtAddr::new] panics.  The two last fields are
    where the linker put the statics of that name. *)
Class Segmentation : Type := {
  gdt_new : list Z;
  gdt_add_entry : Descriptor -> list Z -> option (Z * list Z);
  kernel_code_segment : Descriptor;
  kernel_data_segment : Descriptor;
  user_code_segment : Descriptor;
  user_data_segment : Descriptor;
  tss_segment : TaskStateSegment -> Descriptor;
  tss_new : TaskStateSegment;
  selector_new : Z -> Z -> Z;
  selector_index : Z -> Z;
  virt_addr : Z -> option Z;
  DOUBLE_FAULT_STACK : Z;
  KERNEL_STACK : Z
}.

(** The table entries a descriptor takes. *)
Definition words (d : Descriptor) : list Z :=
  match d with UserSegment bits => [bits] | SystemSegment low high => [low; high] end.

(** The privilege level in the descriptor (bits 45 and 46); a system segment's selector has
    the level of the kernel. *)
Definition level (d : Descriptor) : Z :=
  match d with UserSegment bits => Z.land (Z.shiftr bits 45) 3 | SystemSegment _ _ => 0 end.

Class SegmentationLaws {S : Segmentation} : Prop := {
  gdt_new_null : length gdt_new = 1%nat;
  gdt_add_entry_appends : forall d t, Z.of_nat (length t + length (words d)) <= 8 ->
    gdt_add_entry d t = Some (selector_new (zlen t) (level d), t ++ words d);
  kernel_segments : (exists c, kernel_code_segment = UserSegment c) /\ level kernel_code_segment = 0 /\
                    (exists c, kernel_data_segment = UserSegment c) /\ level kernel_data_segment = 0;
  user_segments : (exists c, user_code_segment = UserSegment c) /\
                  (exists c, user_data_segment = UserSegment c);
  tss_segment_system : forall t, exists low high, tss_segment t = SystemSegment low high;
  tss_new_tables : length (privilege_stack_table tss_new) = 3%nat /\
                   length (interrupt_stack_table tss_new) = 7%nat;
  selector_layout : forall i p, 0 <= i < 8192 -> 0 <= p < 4 -> selector_new i p = 8 * i + p;
  selector_index_new : forall i p, 0 <= i < 8192 -> 0 <= p < 4 -> selector_index (8 * i + p) = i;
  virt_addr_canonical : forall a, 0 <= a < 2 ^ 47 -> virt_addr a = Some a;
  stacks_linked : 0 < DOUBLE_FAULT_STACK /\ DOUBLE_FAULT_STACK + 4096 < 2 ^ 47 /\
                  0 < KERNEL_STACK /\ KERNEL_STACK + 16384 < 2 ^ 47 /\
                  DOUBLE_FAULT_STACK mod 16 = 0 /\ KERNEL_STACK mod 16 = 0
}.

(** ** The code *)

Definition DOUBLE_FAULT_STACK_SIZE : Z := 4096.
Definition KERNEL_STACK_SIZE : Z := 4096 * 4.

Section Gdt.
Context {D : Type} {HW : Hardware D} {CR : Crates D} {SG : Segmentation}.
Abbreviation KW := (K (World D)).

(** [VirtAddr::from_ptr(base) + size]. *)
Definition stack_end (base size : Z) : option Z :=
  match virt_addr base with Some a => virt_addr (a + size) | None => None end.

Definition init_tss : option TaskStateSegment :=
  match stack_end DOUBLE_FAULT_STACK DOUBLE_FAULT_STACK_SIZE with
  | None => None
  | Some df_stack_end =>
      let ist := <[Z.to_nat DOUBLE_FAULT_IST_INDEX := df_stack_end]> (interrupt_stack_table tss_new) in
      match stack_end KERNEL_STACK KERNEL_STACK_SIZE with
      | None => None
      | Some kernel_stack_end =>
          Some (mkTss (<[0%nat := kernel_stack_end]> (privilege_stack_table tss_new)) ist)
      end
  end.

(** The closure of [GDT.call_once]. *)
Definition build_gdt (tss : TaskStateSegment) : option (list Z * Selectors) :=
  match gdt_add_entry kernel_code_segment gdt_new with None => None | Some (code, gdt) =>
  match gdt_add_entry kernel_data_segment gdt with None => None | Some (data, gdt) =>
  match gdt_add_entry user_code_segment gdt with None => None | Some (user_code_sel, gdt) =>
  match gdt_add_entry user_data_segment gdt with None => None | Some (user_data_sel, gdt) =>
  match gdt_add_entry (tss_segment tss) gdt with None => None | Some (tss_sel, gdt) =>
    let user_code := selector_new (selector_index user_code_sel) 3 in
    let user_data := selector_new (selector_index user_data_sel) 3 in
    Some (gdt, mkSelectors code data user_code user_data tss_sel)
  end end end end end.

(** What a static has after [call_once]; [None] when the closure panics. *)
Definition call_once {A} (o : option A) (f : option A) : option A :=
  match o with
  | Some a => Some a
  | None => match f with Some a => once_call (D := D) A None a | None => None end
  end.

Definition set_once (g : option (list Z * Selectors)) (t : option TaskStateSegment) : KW unit :=
  modify (fun w => let s := w_seg w in
    set_seg (mkSegments g t (reg_gdt s) (reg_CS s) (reg_SS s) (reg_DS s) (reg_ES s) (reg_FS s)
                        (reg_GS s) (reg_TR s)) w).

(** [gdt.0.load()], the six [set_reg] and [load_tss]. *)
Definition load_segments (gdt : list Z) (s : Selectors) : KW unit :=
  modify (fun w => set_seg (mkSegments (GDT (w_seg w)) (TSS (w_seg w)) gdt (sel_code s) (sel_data s)
    (sel_data s) (sel_data s) (sel_data s) (sel_data s) (sel_tss s)) w).

Definition gdt_init : KW unit :=
  seg ← gets w_seg;
  match call_once (TSS seg) init_tss with
  | None => kpanic
  | Some tss =>
      set_once (GDT seg) (Some tss) ;;
      match call_once (GDT seg) (build_gdt tss) with
      | None => kpanic
      | Some (gdt, sel) => set_once (Some (gdt, sel)) (Some tss) ;; load_segments gdt sel
      end
  end.

Definition selectors : KW Selectors :=
  seg ← gets w_seg;
  match GDT seg with Some (_, s) => mret s | None => kpanic end.

Definition kernel_stack_top : KW Z :=
  selectors ;;
  match stack_end KERNEL_STACK KERNEL_STACK_SIZE with Some a => mret a | None => kpanic end.

End Gdt.

(** ** What [init] establishes *)

Section GdtProps.
Context {D : Type} {HW : Hardware D} {CR : Crates D} {CL : CratesLaws D}.
Context {SG : Segmentation} {SL : SegmentationLaws}.
Implicit Types w : World D.

Lemma call_once_first {A} (a : A) : call_once (D := D) None (Some a) = Some a.
Proof. apply once_call_first. Qed.

Lemma stack_end_spec base size :
  0 < base -> 0 <= size -> base + size < 2 ^ 47 -> stack_end base size = Some (base + size).
Proof. intros H1 H2 H3. unfold stack_end. rewrite !virt_addr_canonical by lia. done. Qed.

(** The stacks of the task state segment. *)
Definition kernel_tss : TaskStateSegment :=
  mkTss (<[0%nat := KERNEL_STACK + KERNEL_STACK_SIZE]> (privilege_stack_table tss_new))
        (<[0%nat := DOUBLE_FAULT_STACK + DOUBLE_FAULT_STACK_SIZE]> (interrupt_stack_table tss_new)).

Lemma init_tss_spec : init_tss = Some kernel_tss.
Proof using SL.
  destruct stacks_linked as (H1 & H2 & H3 & H4 & _). unfold init_tss, DOUBLE_FAULT_STACK_SIZE, KERNEL_STACK_SIZE.
  by rewrite !stack_end_spec by lia.
Qed.

(** Null, kernel code and data, user code and data, task state. *)
Definition kernel_gdt (tss : TaskStateSegment) : list Z :=
  gdt_new ++ words kernel_code_segment ++ words kernel_data_segment ++
  words user_code_segment ++ words user_data_segment ++ words (tss_segment tss).

Definition kernel_selectors : Selectors := mkSelectors 8 16 27 35 40.

Lemma level_range d : 0 <= level d < 4.
Proof.
  destruct d as [b | l h]; [ | done]. cbn [level]. rewrite (land_ones_mod _ 2) by done.
  by apply Z.mod_pos_bound.
Qed.

Lemma build_gdt_spec tss : build_gdt tss = Some (kernel_gdt tss, kernel_selectors).
Proof using SL.
  pose proof gdt_new_null as H0. destruct kernel_segments as ([c Ec] & Lc & [d Ed] & Ld).
  destruct user_segments as ([uc Euc] & [ud Eud]). destruct (tss_segment_system tss) as (lo & hi & Et).
  pose proof (level_range user_code_segment) as R1. pose proof (level_range user_data_segment) as R2.
  unfold build_gdt, kernel_gdt, kernel_selectors. destruct gdt_new as [ | n []]; try done.
  rewrite Ec in *. rewrite gdt_add_entry_appends by (cbn; lia). rewrite Ed in *.
  rewrite gdt_add_entry_appends by (cbn; lia). rewrite gdt_add_entry_appends by (rewrite Euc; cbn; lia).
  rewrite gdt_add_entry_appends by (rewrite Euc, Eud; cbn; lia).
  rewrite gdt_add_entry_appends by (rewrite Euc, Eud, Et; cbn; lia).
  rewrite Lc, Ld, Et, !Euc, !Eud in *. unfold zlen.
  change (level (SystemSegment lo hi)) with 0. cbn [length app words].
  rewrite (selector_layout (Z.of_nat 3)), (selector_layout (Z.of_nat 4)) by lia.
  rewrite !selector_index_new by lia. by rewrite !selector_layout by lia.
Qed.

(** [C18] Segments at boot: [init] returns, loads a table whose entries are the null
    descriptor, the kernel's and the user's code and data segments and the task state
    segment, and selectors that point at exactly these entries, the user's with privilege
    3; the double-fault gate of the interrupt table names the stack slot that holds the top
    of the double-fault stack, and the ring-0 stack is the top of the kernel stack, both
    16-byte aligned. [kernel_stack_top] panics before [init] and returns that address after. *)
Theorem gdt_init_segments w :
  GDT (w_seg w) = None -> TSS (w_seg w) = None ->
  exists w', gdt_init w = Ret tt w' /\
    w' = set_seg (mkSegments (Some (kernel_gdt kernel_tss, kernel_selectors)) (Some kernel_tss)
                    (kernel_gdt kernel_tss) 8 16 16 16 16 16 40) w /\
    length (kernel_gdt kernel_tss) = 7%nat /\
    Forall (fun '(sel, rpl, d) => exists i, sel = 8 * i + rpl /\
              kernel_gdt kernel_tss !! Z.to_nat i = head (words d))
      [(8, 0, kernel_code_segment); (16, 0, kernel_data_segment); (27, 3, user_code_segment);
       (35, 3, user_data_segment); (40, 0, tss_segment kernel_tss)] /\
    (exists g i, gate_at double_fault idt_table = Some g /\ g_stack_index g = Some i /\
       interrupt_stack_table kernel_tss !! Z.to_nat i = Some (DOUBLE_FAULT_STACK + 4096)) /\
    privilege_stack_table kernel_tss !! 0%nat = Some (KERNEL_STACK + 16384) /\
    (DOUBLE_FAULT_STACK + 4096) mod 16 = 0 /\ (KERNEL_STACK + 16384) mod 16 = 0 /\
    kernel_stack_top w = Panic w /\ kernel_stack_top w' = Ret (KERNEL_STACK + 16384) w'.
Proof.
  intros EG ET. eexists. split; [ | split; [reflexivity | ]].
  { unfold gdt_init, mbind, K_bind, kbind, gets. rewrite ET, init_tss_spec, call_once_first, EG.
    by rewrite build_gdt_spec, call_once_first. }
  pose proof gdt_new_null as H0. destruct kernel_segments as ([c Ec] & Lc & [d Ed] & Ld).
  destruct user_segments as ([uc Euc] & [ud Eud]). destruct (tss_segment_system kernel_tss) as (lo & hi & Et).
  destruct tss_new_tables as [T1 T2]. destruct stacks_linked as (S1 & S2 & S3 & S4 & S5 & S6).
  unfold kernel_gdt. rewrite Ec, Ed, Euc, Eud, Et. destruct gdt_new as [ | n []]; try done.
  split; [done | ]. split.
  { repeat constructor; [exists 1 | exists 2 | exists 3 | exists 4 | exists 5]; done. }
  split.
  { eexists _, _. split; [reflexivity | ]. split; [reflexivity | ]. cbn. by rewrite list_lookup_insert_eq by lia. }
  split; [cbn; by rewrite list_lookup_insert_eq by lia | ].
  split; [Z.div_mod_to_equations; lia | ]. split; [Z.div_mod_to_equations; lia | ].
  unfold kernel_stack_top, selectors, mbind, K_bind, kbind, gets. rewrite EG. split; [done | ].
  cbn. by rewrite stack_end_spec by (unfold KERNEL_STACK_SIZE; lia).
Qed.
End GdtProps.

(** *** Witnesses: the crate as documented *)

#[export] Instance plain_segmentation : Segmentation := {
  gdt_new := [0];
  gdt_add_entry d t :=
    if Z.of_nat (length t + length (words d)) <=? 8
    then Some (8 * zlen t + level d, t ++ words d) else None;
  kernel_code_segment := UserSegment 0x00af9b000000ffff;
  kernel_data_segment := UserSegment 0x00cf93000000ffff;
  user_code_segment := UserSegment 0x00affb000000ffff;
  user_data_segment := UserSegment 0x00cff3000000ffff;
  tss_segment _ := SystemSegment 0x0000890000000067 0;
  tss_new := mkTss (replicate 3 0) (replicate 7 0);
  selector_new i p := 8 * i + p;
  selector_index s := s / 8;
  virt_addr a := if a <? 2 ^ 47 then Some a else None;
  DOUBLE_FAULT_STACK := 0x110000;
  KERNEL_STACK := 0x111000
}.

#[export] Instance plain_segmentation_laws : SegmentationLaws.
Proof.
  split; cbn [gdt_new gdt_add_entry kernel_code_segment kernel_data_segment user_code_segment
    user_data_segment tss_segment tss_new selector_new selector_index virt_addr DOUBLE_FAULT_STACK
    KERNEL_STACK plain_segmentation].
  - done.
  - intros d t H. by destruct (Z.leb_spec (Z.of_nat (length t + length (words d))) 8); [ | lia].
  - repeat split; by eexists.
  - split; by eexists.
  - by do 2 eexists.
  - done.
  - done.
  - intros i p Hi Hp. symmetry. apply Z.div_unique with p; lia.
  - intros a Ha. destruct (Z.ltb_spec a (2 ^ 47)); [done | lia].
  - done.
Qed.

Lemma gdt_init_segments_witness :
  exists w', gdt_init sim_boot = Ret tt w' /\
    reg_CS (w_seg w') = 8 /\ reg_TR (w_seg w') = 40 /\ kernel_stack_top w' = Ret 0x115000 w'.
Proof.
  destruct (gdt_init_segments sim_boot eq_refl eq_refl) as (w' & E & -> & _ & _ & _ & _ & _ & _ & _ & K).
  eexists. split; [exact E | ]. split; [reflexivity | ]. split; [reflexivity | exact K].
Defined.
