(* ===== verification/Journal.v ===== *)
(** * Actions and their journal (kernel/src/ai_action.rs, kernel/src/journal.rs)

    The proposals of the AI agent, and the lines written to the debug port about each. *)

From S2P Require Import Prelude XhciData State Fmt.
From stdpp Require Import gmap list strings.
From Stdlib Require Import ZArith Lia.

Open Scope Z_scope.

Record Action : Type := mkAction {
  kind : Z; flags : Z; _r : list Z; param1 : Z; param2 : Z; param3 : Z
}.

(** [#[repr(C)]]: four bytes, four of padding, three words of eight bytes. *)
Definition load_action (m : memory) (p : Z) : Action :=
  mkAction (ld8 m p) (ld8 m (p + 1)) (ld_bytes m (p + 2) 2)
           (ld 8 m (p + 8)) (ld 8 m (p + 16)) (ld 8 m (p + 24)).

Definition REQUIRES_SNAPSHOT : Z := Z.shiftl 1 0.
Definition HIGH_RISK : Z := Z.shiftl 1 1.
Definition NEEDS_MANUAL_CONFIRM : Z := Z.shiftl 1 2.

Inductive ActionType : Type :=
| ANone | SetQuantum | SetAffinity | MigrateTask | TrimCache | Reboot | AHalt.

Definition ActionType_as_u8 (t : ActionType) : Z :=
  match t with
  | ANone => 0 | SetQuantum => 1 | SetAffinity => 2 | MigrateTask => 3 | TrimCache => 4
  | Reboot => 254 | AHalt => 255
  end.

(** [ActionOutcome]: a result byte, three of padding, two more fields. *)
Definition store_outcome_result (p res : Z) (m : memory) : memory := st 1 p res m.

Section Journal.
Context {D : Type} {HW : Hardware D} {CR : Crates D}.
Abbreviation KW := (K (World D)).

Definition e9 (b : Z) : KW unit := port_write 0xE9 b.

Definition w_ (s : list Z) : KW unit := kfor s e9.

Definition w_u64 (v : Z) : KW unit :=
  if v =? 0 then e9 48
  else match render_u64 v with
       | Some bs => kfor bs e9
       | None => kpanic
       end.

Definition sp : KW unit := e9 32.
Definition nl : KW unit := e9 10.

Definition journal_intent (seq : Z) (a : Action) : KW unit :=
  w_ (bytes_of "seq=") ;; w_u64 seq ;; sp ;;
  w_ (bytes_of "INTENT kind=") ;; w_u64 (kind a) ;; nl.

Definition journal_commit (seq : Z) (a : Action) : KW unit :=
  w_ (bytes_of "seq=") ;; w_u64 seq ;; sp ;;
  w_ (bytes_of "APPLY_OK kind=") ;; w_u64 (kind a) ;; nl.

Definition journal_fail (seq : Z) (_a : Action) (code : Z) : KW unit :=
  w_ (bytes_of "seq=") ;; w_u64 seq ;; sp ;;
  w_ (bytes_of "APPLY_FAIL code=") ;; w_u64 code ;; nl.

Definition journal_reject (seq : Z) (a : Action) : KW unit :=
  w_ (bytes_of "seq=") ;; w_u64 seq ;; sp ;;
  w_ (bytes_of "REJECT kind=") ;; w_u64 (kind a) ;; nl.

End Journal.

(** ** The lines of the journal *)

Definition journal_line (seq : Z) (word : string) (n : Z) : list Z :=
  bytes_of "seq=" ++ fmt_dec seq ++ [32] ++ bytes_of word ++ fmt_dec n ++ [10].

Section JournalProps.
Context {D : Type} {HW : Hardware D} {CR : Crates D} {CL : CratesLaws D}.
Implicit Types w : World D.

(** Output of [l] on the debug port and nothing else. *)
Definition logs (l : list Z) (w w' : World D) : Prop :=
  io_step w w' /\ port_log 0xE9 w' = port_log 0xE9 w ++ l.

Lemma logs_trans l1 l2 w1 w2 w3 : logs l1 w1 w2 -> logs l2 w2 w3 -> logs (l1 ++ l2) w1 w3.
Proof.
  intros [H1 L1] [H2 L2]. split; [by transitivity w2 | ]. by rewrite L2, L1, app_assoc.
Qed.

Lemma wp_w_ s w : wp (w_ s) w (fun _ => logs s w).
Proof. eapply wp_mono; [apply wp_port_write_list | ]. by intros [] w' (H & L & _). Qed.

Lemma wp_e9 b w : wp (e9 b) w (fun _ => logs [b] w).
Proof. eapply wp_mono; [apply wp_port_write | ]. by intros [] w' (H & L & _). Qed.

(** The digit loop prints the number as [core::fmt] would. *)
Lemma wp_w_u64 v w : fits 64 v -> wp (w_u64 v) w (fun _ => logs (fmt_dec v) w).
Proof.
  intros Hv. unfold w_u64. destruct (Z.eqb_spec v 0) as [-> | Hn]; [apply wp_e9 | ].
  rewrite render_u64_spec; [apply wp_w_ | done | destruct Hv; lia].
Qed.

Lemma wp_then_logs {A} (m : K (World D) unit) (k : K (World D) A) l1 l2 w :
  wp m w (fun _ => logs l1 w) ->
  (forall w1, wp k w1 (fun _ => logs l2 w1)) ->
  wp (m ;; k) w (fun _ => logs (l1 ++ l2) w).
Proof.
  intros H1 H2. apply wp_bind. eapply wp_mono; [exact H1 | ]. intros [] w1 L1.
  eapply wp_mono; [apply H2 | ]. intros a w2 L2. by eapply logs_trans.
Qed.

Lemma wp_journal_line seq word n w :
  fits 64 seq -> fits 64 n ->
  wp (w_ (bytes_of "seq=") ;; w_u64 seq ;; sp ;; w_ (bytes_of word) ;; w_u64 n ;; nl) w
     (fun _ => logs (journal_line seq word n) w).
Proof.
  intros Hs Hn. unfold journal_line.
  repeat (apply wp_then_logs; [first [apply wp_w_ | by apply wp_w_u64 | apply wp_e9] | intros ?]).
  apply wp_e9.
Qed.
End JournalProps.
