(* ===== verification/ApplyAction.v ===== *)
(** * Applying actions (kernel/src/apply_action.rs)

    The gate between the AI agent and the kernel: an action is checked, journalled,
    executed, and rolled back when the machine does not stay alive afterwards. *)

From S2P Require Import Prelude XhciData State Sim Fmt Serial Vga Debug Keyboard Pic Idt Journal.
From stdpp Require Import gmap list strings relations.
From Stdlib Require Import ZArith Lia.

Open Scope Z_scope.

Inductive ApplyError : Type := NotAllowed | InvalidParams | ExecuteFailed | SelfTestFailed.

Definition ApplyError_as_u32 (e : ApplyError) : Z :=
  match e with NotAllowed => 1 | InvalidParams => 3 | ExecuteFailed => 4 | SelfTestFailed => 5 end.

(** [Result<(), ApplyError>]. *)
Abbreviation ApplyResult := (unit + ApplyError)%type.
Abbreviation Ok := (inl tt : ApplyResult).
Abbreviation Err e := (inr e : ApplyResult).

Definition is_allowed (kind : Z) : bool :=
  if kind =? ActionType_as_u8 SetQuantum then true
  else if kind =? ActionType_as_u8 TrimCache then true
  else false.

Definition validate_params (a : Action) : bool :=
  if kind a =? ActionType_as_u8 SetQuantum then
    let us := u32 (param1 a) in (100 <=? us) && (us <=? 50000)
  else if kind a =? ActionType_as_u8 TrimCache then
    let bytes := param1 a in (0 <? bytes) && (bytes <=? 16 * 1024 * 1024)
  else false.

Section ApplyAction.
Context {D : Type} {HW : Hardware D} {CR : Crates D}.
Abbreviation KW := (K (World D)).

Definition read_before_state : KW Z := gets (fun w => QUANTUM_US (w_apply w)).

Definition write_quantum (us : Z) : KW bool :=
  modify (fun w => set_apply (mkApply us (SEQ (w_apply w)) (SYSTEM_READY (w_apply w))) w) ;;
  mret true.

(** The busy wait is interruptible: pending interrupts are taken in every round. *)
Definition self_test_ok : KW bool :=
  start_ticks ← timer_ticks;
  start_pf ← page_faults;
  ktry 50000 (preempt ;;
              t ← timer_ticks;
              mret (if 1 <=? sat_sub t start_ticks then Some tt else None)) ;;
  t ← timer_ticks;
  p ← page_faults;
  let dt := sat_sub t start_ticks in
  let dp := sat_sub p start_pf in
  mret ((1 <=? dt) && (dp =? 0)).

Definition trim_cache (bytes : Z) : KW bool := mret true.

Definition apply_action_atomic (seq : Z) (a : Action) : KW ApplyResult :=
  ready ← gets (fun w => SYSTEM_READY (w_apply w));
  if negb ready then journal_reject seq a ;; mret (Err NotAllowed)
  else if negb (is_allowed (kind a)) || negb (validate_params a) then
    journal_reject seq a ;; mret (Err NotAllowed)
  else
    with_lock APPLY_LOCK (
      before ← read_before_state;
      journal_intent seq a ;;
      ok ← (if kind a =? ActionType_as_u8 SetQuantum then write_quantum (u32 (param1 a))
            else if kind a =? ActionType_as_u8 TrimCache then trim_cache (param1 a)
            else mret false);
      if negb ok then
        journal_fail seq a (ApplyError_as_u32 ExecuteFailed) ;; mret (Err ExecuteFailed)
      else
        alive ← self_test_ok;
        if (alive : bool) then journal_commit seq a ;; mret Ok
        else
          write_quantum before ;;
          journal_fail seq a (ApplyError_as_u32 SelfTestFailed) ;; mret (Err SelfTestFailed)).

Definition next_seq : KW Z :=
  s ← gets (fun w => SEQ (w_apply w));
  modify (fun w => set_apply (mkApply (QUANTUM_US (w_apply w)) (u64 (SEQ (w_apply w) + 1))
                                      (SYSTEM_READY (w_apply w))) w) ;;
  mret s.

Definition result_code (r : ApplyResult) : Z :=
  match r with
  | inl _ => 0
  | inr NotAllowed => 1
  | inr InvalidParams => 3
  | inr ExecuteFailed => 4
  | inr SelfTestFailed => 5
  end.

Definition ai_propose_action (action outcome : Z) : KW Z :=
  if (action =? 0) || (outcome =? 0) then mret (-1)
  else
    a ← gets (fun w => load_action (w_mem w) action);
    seq ← next_seq;
    r ← apply_action_atomic seq a;
    modify (fun w => set_mem (store_outcome_result outcome (result_code r) (w_mem w)) w) ;;
    mret 0.

Definition set_system_ready : KW unit :=
  modify (fun w => set_apply (mkApply (QUANTUM_US (w_apply w)) (SEQ (w_apply w)) true) w).

Definition is_system_ready : KW bool := gets (fun w => SYSTEM_READY (w_apply w)).
Definition get_quantum_us : KW Z := gets (fun w => QUANTUM_US (w_apply w)).

End ApplyAction.

(** ** Properties *)

Section ApplyProps.
Context {D : Type} {HW : Hardware D} {CR : Crates D} {CL : CratesLaws D}.
Implicit Types w : World D.

Definition accepted (w : World D) (a : Action) : bool :=
  SYSTEM_READY (w_apply w) && is_allowed (kind a) && validate_params a.

(** The quantum an executed action asks for. *)
Definition quantum_of (a : Action) (old : Z) : Z :=
  if kind a =? 1 then u32 (param1 a) else old.

(** Steps of code that runs with interrupts on and leaves the quantum at [q]. *)
Definition app_keeps (q : Z) (w w' : World D) : Prop :=
  isr_step (set_apply (mkApply q (SEQ (w_apply w)) (SYSTEM_READY (w_apply w))) w) w' /\
  isr_ready w'.

Lemma app_keeps_refl q w : QUANTUM_US (w_apply w) = q -> isr_ready w -> app_keeps q w w.
Proof.
  intros <- R. split; [ | done]. destruct w as [? ? ? ? ? ? ? ? ? ? [? ? ?]]. reflexivity.
Qed.

Lemma app_keeps_isr q w w1 w2 : app_keeps q w w1 -> isr_keeps w1 w2 -> app_keeps q w w2.
Proof. intros [H1 _] [H2 R2]. split; [ | done]. by transitivity w1. Qed.

Lemma app_keeps_set q q' w w1 :
  app_keeps q w w1 ->
  app_keeps q' w
    (set_apply (mkApply q' (SEQ (w_apply w1)) (SYSTEM_READY (w_apply w1))) w1).
Proof.
  intros [H R]. pose proof (is_apply _ _ H) as E. destruct H, R. split.
  - destruct w, w1; cbn in *. constructor; cbn; try done. by rewrite E.
  - destruct w1; cbn in *. by constructor.
Qed.

Lemma isr_ready_apply_lock b w :
  isr_ready w -> isr_ready (set_locks (set_lock APPLY_LOCK b (w_locks w)) w).
Proof. intros []. constructor; cbn [set_locks w_locks]; by rewrite ?get_set_lock_ne. Qed.

Lemma app_keeps_unlock q w w1 :
  locked APPLY_LOCK w = false ->
  app_keeps q (set_locks (set_lock APPLY_LOCK true (w_locks w)) w) w1 ->
  locked APPLY_LOCK w1 = true /\
  app_keeps q w (set_locks (set_lock APPLY_LOCK false (w_locks w1)) w1).
Proof.
  intros Hl [H R]. pose proof (is_locks _ _ H) as E.
  assert (w_locks w1 = set_lock APPLY_LOCK true (w_locks w)) as E' by (by destruct w).
  split; [by rewrite E', get_set_lock | ]. split; [ | by apply isr_ready_apply_lock].
  rewrite E', set_set_lock, <- Hl, set_get_lock. destruct H. by destruct w, w1; constructor.
Qed.

Lemma wp_journal_isr (m : K (World D) unit) l w :
  wp m w (fun _ => logs l w) -> isr_ready w ->
  wp m w (fun _ w' => isr_keeps w w' /\ w_idt w' = w_idt w /\
                      port_log 0xE9 w' = port_log 0xE9 w ++ l).
Proof.
  intros H R. eapply wp_mono; [exact H | ]. intros [] w' [S L].
  split; [by apply isr_keeps_io | ]. split; [ | done]. apply (io_step_fields _ _ S).
Qed.

(** The self test: it ends, it sees no page fault, and it succeeds exactly when a timer
    tick was counted. *)
Lemma wph_self_test w :
  isr_ready w ->
  wph self_test_ok w (fun b w' =>
      isr_keeps w w' /\ irq_said w w' /\
      b = (1 <=? sat_sub (TIMER_TICKS (w_idt w')) (TIMER_TICKS (w_idt w))))
    powered_off.
Proof.
  intros R. unfold self_test_ok. apply wph_bind, wph_wp, wp_gets, wph_bind, wph_wp, wp_gets.
  apply wph_bind.
  set (I := fun w' => isr_keeps w w' /\ irq_said w w').
  eapply wph_mono with (Q := fun _ => I) (H := powered_off); [ | | done].
  - eapply wph_mono; [apply (wph_ktry _ _ I (fun _ => I) powered_off);
      [split; [by split | reflexivity] | ] | by intros [] | done].
    intros w1 [K1 L1]. apply wph_bind. eapply wph_mono; [apply wph_preempt_said, K1 | | done].
    intros [] w2 [K2 L2]. apply wph_bind, wph_wp, wp_gets, wph_wp, wp_ret.
    case_match; (split; [by eapply isr_keeps_trans | by transitivity w1]).
  - intros o w1 [K1 L1]. apply wph_bind, wph_wp, wp_gets, wph_bind, wph_wp, wp_gets, wph_wp, wp_ret.
    do 2 (split; [done | ]). rewrite (is_faults _ _ (proj1 K1)).
    unfold sat_sub at 2. rewrite Z.sub_diag. by rewrite andb_true_r.
Qed.

(** With interrupts disabled nothing advances the ticks. *)
Lemma preempt_masked w : w_if w = false -> preempt w = Ret tt w.
Proof. unfold preempt. by intros ->. Qed.

Lemma self_test_masked w : w_if w = false -> self_test_ok w = Ret false w.
Proof.
  intros Hi. assert (wp self_test_ok w (fun b w' => b = false /\ w' = w)) as H.
  { unfold self_test_ok. apply wp_bind, wp_gets, wp_bind, wp_gets, wp_bind.
    eapply wp_mono with (Q := fun _ w' => w' = w).
    - eapply wp_mono; [apply (wp_ktry _ _ (fun w' => w' = w) (fun _ w' => w' = w)); [done | ] | by intros []].
      intros w1 ->. apply wp_bind. eapply wp_eq; [by apply preempt_masked | ].
      apply wp_bind, wp_gets, wp_ret. unfold sat_sub. rewrite Z.sub_diag. done.
    - intros o w1 ->. apply wp_bind, wp_gets, wp_bind, wp_gets, wp_ret.
      unfold sat_sub. by rewrite Z.sub_diag. }
  apply wp_iff in H as (b & w' & E & -> & ->). done.
Qed.

Abbreviation ticks w := (TIMER_TICKS (w_idt w)).

(** What an attempt to execute ends in: [alive], the answer of the self test, run with the
    action's quantum in force, decides everything, and it is whether a tick was counted
    meanwhile. [q] is the quantum left in force. *)
Definition attempt (seq : Z) (a : Action) (w : World D) (r : ApplyResult) (q : Z) (w' : World D)
  : Prop :=
  let old := QUANTUM_US (w_apply w) in
  let alive := 1 <=? sat_sub (ticks w') (ticks w) in
  (exists w1 w2, self_test_ok w1 = Ret alive w2 /\
     QUANTUM_US (w_apply w1) = quantum_of a old /\ w_idt w1 = w_idt w /\ w_idt w2 = w_idt w') /\
  r = (if alive then Ok else Err SelfTestFailed) /\
  q = (if alive then quantum_of a old else old) /\
  exists n, port_log 0xE9 w' = port_log 0xE9 w ++
    journal_line seq "INTENT kind=" (kind a) ++ tick_lines n ++
    (if alive then journal_line seq "APPLY_OK kind=" (kind a)
     else journal_line seq "APPLY_FAIL code=" 5).

(** Runs a journal call from a state reached by [app_keeps]. *)
Lemma app_journal q (m : K (World D) unit) l w w1 :
  (forall w', wp m w' (fun _ => logs l w')) -> app_keeps q w w1 ->
  wp m w1 (fun _ w2 => app_keeps q w w2 /\ w_idt w2 = w_idt w1 /\
                       w_apply w2 = w_apply w1 /\
                       port_log 0xE9 w2 = port_log 0xE9 w1 ++ l).
Proof.
  intros Hm K. eapply wp_mono; [apply wp_journal_isr; [apply Hm | apply K] | ].
  intros [] w2 (K2 & I2 & L2). split; [by eapply app_keeps_isr | ].
  split; [done | split; [apply (is_apply _ _ (proj1 K2)) | done]].
Qed.

Lemma apply_execute a w w1 :
  is_allowed (kind a) = true -> app_keeps (QUANTUM_US (w_apply w)) w w1 ->
  wp (if kind a =? ActionType_as_u8 SetQuantum then write_quantum (u32 (param1 a))
      else if kind a =? ActionType_as_u8 TrimCache then trim_cache (param1 a)
      else mret false) w1
     (fun ok w2 => ok = true /\
        app_keeps (quantum_of a (QUANTUM_US (w_apply w))) w w2 /\ w_idt w2 = w_idt w1 /\
        port_log 0xE9 w2 = port_log 0xE9 w1).
Proof.
  unfold is_allowed, quantum_of. cbn [ActionType_as_u8]. intros Ha K.
  destruct (kind a =? 1).
  - apply wp_bind, wp_modify, wp_ret. split; [done | ].
    split; [by eapply app_keeps_set | by destruct w1].
  - destruct (kind a =? 4); [ | done]. by apply wp_ret.
Qed.

Lemma wph_apply_body seq a w :
  isr_ready w -> is_allowed (kind a) = true -> fits 64 seq -> fits 64 (kind a) ->
  wph (before ← read_before_state;
      journal_intent seq a ;;
      ok ← (if kind a =? ActionType_as_u8 SetQuantum then write_quantum (u32 (param1 a))
            else if kind a =? ActionType_as_u8 TrimCache then trim_cache (param1 a)
            else mret false);
      if negb ok then
        journal_fail seq a (ApplyError_as_u32 ExecuteFailed) ;; mret (Err ExecuteFailed)
      else
        alive ← self_test_ok;
        if (alive : bool) then journal_commit seq a ;; mret Ok
        else
          write_quantum before ;;
          journal_fail seq a (ApplyError_as_u32 SelfTestFailed) ;; mret (Err SelfTestFailed)) w
    (fun r w' => exists q, app_keeps q w w' /\
       attempt seq a w r q w')
    powered_off.
Proof.
  intros R Ha Hs Hk. set (old := QUANTUM_US (w_apply w)).
  apply wph_bind, wph_wp, wp_gets, wph_bind, wph_wp.
  eapply wp_mono; [apply (app_journal old _ (journal_line seq "INTENT kind=" (kind a)));
    [intros; by apply wp_journal_line | by apply app_keeps_refl] | ].
  intros [] w1 (K1 & I1 & _ & L1). apply wph_bind, wph_wp.
  eapply wp_mono; [by apply apply_execute | ]. intros ok w2 (-> & K2 & I2 & L2). cbn [negb].
  apply wph_bind. eapply wph_mono; [by apply wph_self, wph_self_test, K2 | | done].
  intros alive w3 [(K3 & [n L3] & Eb) Er]. pose proof (app_keeps_isr _ _ _ _ K2 K3) as K3'.
  assert (QUANTUM_US (w_apply w2) = quantum_of a old) as Q2 by (rewrite (is_apply _ _ (proj1 K2)); by destruct w).
  assert (forall r q w4, app_keeps q w w4 -> w_idt w4 = w_idt w3 ->
    r = (if alive then Ok else Err SelfTestFailed) -> q = (if alive then quantum_of a old else old) ->
    port_log 0xE9 w4 = port_log 0xE9 w3 ++ (if alive then journal_line seq "APPLY_OK kind=" (kind a)
                                            else journal_line seq "APPLY_FAIL code=" 5) ->
    exists q, app_keeps q w w4 /\ attempt seq a w r q w4) as Hend.
  { intros r q w4 K4 I4 -> -> L4. exists (if alive then quantum_of a old else old). split; [done | ].
    unfold attempt. rewrite I4, <- I1, <- I2, <- Eb. split; [by exists w2, w3 | ]. do 2 (split; [done | ]).
    exists n. by rewrite L4, L3, L2, L1, <- !app_assoc. }
  destruct alive; apply wph_wp.
  - apply wp_bind.
    eapply wp_mono; [eapply (app_journal _ _ (journal_line seq "APPLY_OK kind=" (kind a)));
      [intros; by apply wp_journal_line | exact K3'] | ].
    intros [] w4 (K4 & I4 & _ & L4). apply wp_ret. by eapply Hend.
  - apply wp_bind, wp_bind, wp_modify, wp_ret, wp_bind.
    eapply wp_mono; [eapply (app_journal _ _ (journal_line seq "APPLY_FAIL code=" 5));
      [intros; apply wp_journal_line; [done | zlia] | by eapply app_keeps_set, K3'] | ].
    intros [] w4 (K4 & I4 & _ & L4). apply wp_ret. eapply Hend; [exact K4 | by destruct w3 | done | done | ].
    rewrite L4. by destruct w3.
Qed.

(** The outcome of [apply_action_atomic] on every branch. *)
Definition apply_post (seq : Z) (a : Action) (w : World D) (r : ApplyResult) (w' : World D)
  : Prop :=
  if accepted w a then
    exists q, app_keeps q w w' /\ attempt seq a w r q w'
  else
    r = Err NotAllowed /\ app_keeps (QUANTUM_US (w_apply w)) w w' /\
    port_log 0xE9 w' = port_log 0xE9 w ++ journal_line seq "REJECT kind=" (kind a).

Lemma wph_apply seq a w :
  isr_ready w -> locked APPLY_LOCK w = false -> fits 64 seq -> fits 64 (kind a) ->
  wph (apply_action_atomic seq a) w (apply_post seq a w) powered_off.
Proof.
  intros R Hl Hs Hk. unfold apply_action_atomic, apply_post, accepted.
  assert (Hrej : wph (journal_reject seq a ;; mret (Err NotAllowed)) w (fun r w' =>
    r = Err NotAllowed /\ app_keeps (QUANTUM_US (w_apply w)) w w' /\
    port_log 0xE9 w' = port_log 0xE9 w ++ journal_line seq "REJECT kind=" (kind a)) powered_off).
  { apply wph_wp, wp_bind. eapply wp_mono; [eapply (app_journal _ _ (journal_line seq "REJECT kind=" (kind a)));
      [intros; by apply wp_journal_line | by apply app_keeps_refl] | ].
    intros [] w1 (K1 & _ & _ & L1). by apply wp_ret. }
  apply wph_bind, wph_wp, wp_gets.
  destruct (SYSTEM_READY (w_apply w)) eqn:ER; cbn [negb andb]; [ | done].
  destruct (is_allowed (kind a)) eqn:Ea; cbn [negb andb orb]; [ | done].
  destruct (validate_params a); cbn [negb]; [ | done].
  apply wph_with_lock; [done | ].
  eapply wph_mono; [apply wph_apply_body; [by apply isr_ready_apply_lock | done..] | | done].
  intros r w1 (q & K1 & A1). apply app_keeps_unlock in K1 as [El K1]; [ | done].
  split; [done | ]. exists q. split; [done | ].
  by destruct w, w1.
Qed.


(** The self test is a liveness test of the timer: it ends within its 50000 rounds
    whatever interrupts arrive, answers true exactly when the tick counter went up since
    it started, and never sees a page fault, because a page fault stops the machine.
    With interrupts disabled it always answers false, so every accepted action is then
    rolled back. *)
Theorem self_test_measures_ticks w :
  isr_ready w ->
  match self_test_ok w with
  | Ret b w' =>
      isr_keeps w w' /\
      b = (1 <=? sat_sub (TIMER_TICKS (w_idt w')) (TIMER_TICKS (w_idt w))) /\
      (w_if w = false -> b = false /\ w' = w)
  | Halt w' => powered_off w'
  | _ => False
  end.
Proof.
  intros R. pose proof (wph_self_test w R) as H. unfold wph in H.
  destruct (self_test_ok w) as [b w' | | | | ] eqn:E; try done. destruct H as (K & _ & Hb).
  split; [done | split; [done | ]]. intros Hi. rewrite self_test_masked in E by done.
  by injection E as <- <-.
Qed.

(** *** Proposals *)

Lemma load_action_kind m p : fits 8 (kind (load_action m p)).
Proof. apply ld8_range. Qed.

Definition bump_seq (w : World D) : World D :=
  set_apply (mkApply (QUANTUM_US (w_apply w)) (u64 (SEQ (w_apply w) + 1))
                     (SYSTEM_READY (w_apply w))) w.

Definition propose_post (action outcome : Z) (w : World D) (r : Z) (w' : World D) : Prop :=
  r = 0 /\
  exists res w1,
    apply_post (SEQ (w_apply w)) (load_action (w_mem w) action) (bump_seq w) res w1 /\
    w' = set_mem (store_outcome_result outcome (result_code res) (w_mem w1)) w1.

Lemma isr_ready_apply ap w : isr_ready w -> isr_ready (set_apply ap w).
Proof. intros []. destruct w. by constructor. Qed.

Lemma wph_propose action outcome w :
  isr_ready w -> locked APPLY_LOCK w = false -> fits 64 (SEQ (w_apply w)) ->
  action <> 0 -> outcome <> 0 ->
  wph (ai_propose_action action outcome) w (propose_post action outcome w) powered_off.
Proof.
  intros R Hl Hs Ha Ho. unfold ai_propose_action.
  rewrite (proj2 (Z.eqb_neq action 0)), (proj2 (Z.eqb_neq outcome 0)) by done. cbn [orb].
  apply wph_bind, wph_wp, wp_gets, wph_bind, wph_wp, wp_bind, wp_gets, wp_bind, wp_modify, wp_ret.
  apply wph_bind. eapply wph_mono; [apply wph_apply | | done].
  - by apply isr_ready_apply.
  - by destruct w.
  - done.
  - pose proof (load_action_kind (w_mem w) action). zlia.
  - intros res w1 H1. apply wph_wp, wp_bind, wp_modify, wp_ret. split; [done | ].
    exists res, w1. by split.
Qed.

Lemma apply_post_result seq a w r w' :
  apply_post seq a w r w' ->
  result_code r ∈ [0; 1; 5] /\ isr_ready w' /\ SEQ (w_apply w') = SEQ (w_apply w) /\
  w_locks w' = w_locks w /\
  exists q, QUANTUM_US (w_apply w') = q /\
            (q = QUANTUM_US (w_apply w) \/
             (accepted w a = true /\ q = quantum_of a (QUANTUM_US (w_apply w)))).
Proof.
  unfold apply_post. destruct (accepted w a).
  - intros (q & [H R] & _ & Er & Eq & _).
    split; [ | split; [done | ]].
    { rewrite Er. case_match; by repeat constructor. }
    rewrite (is_apply _ _ H), (is_locks _ _ H). destruct w; cbn. split; [done | split; [done | ]].
    exists q. split; [done | ]. rewrite Eq. case_match; auto.
  - intros (-> & [H R] & L). split; [by repeat constructor | split; [done | ]].
    rewrite (is_apply _ _ H), (is_locks _ _ H). destruct w; cbn. split; [done | split; [done | ]].
    eexists. split; [done | ]. by left.
Qed.

(** A proposal through the C interface: null pointers are refused with -1 and no
    effect; otherwise the action is read at its address, the sequence number is used up,
    the action is applied under that number, and the outcome's first byte is 0
    (applied), 1 (rejected) or 5 (rolled back): the codes 2 and 3 of the comment in
    ai_action.rs never appear. *)
Theorem propose_action_outcome action outcome w :
  isr_ready w -> locked APPLY_LOCK w = false -> fits 64 (SEQ (w_apply w)) ->
  match ai_propose_action action outcome w with
  | Ret r w' =>
      if (action =? 0) || (outcome =? 0) then r = -1 /\ w' = w
      else propose_post action outcome w r w' /\
           SEQ (w_apply w') = u64 (SEQ (w_apply w) + 1) /\
           ld8 (w_mem w') outcome ∈ [0; 1; 5]
  | Halt w' => powered_off w'
  | _ => False
  end.
Proof.
  intros R Hl Hs. destruct ((action =? 0) || (outcome =? 0)) eqn:E.
  { unfold ai_propose_action. by rewrite E. }
  apply orb_false_iff in E as [Ea Eo]. apply Z.eqb_neq in Ea, Eo.
  pose proof (wph_propose action outcome w R Hl Hs Ea Eo) as H. unfold wph in H.
  destruct (ai_propose_action action outcome w) as [r w' | | | | ]; try done.
  split; [done | ]. destruct H as (_ & res & w1 & H & ->).
  destruct (apply_post_result _ _ _ _ _ H) as (Hc & _ & Hq & _).
  split; [destruct w1; cbn in *; by rewrite Hq; destruct w | ].
  assert (ld8 (store_outcome_result outcome (result_code res) (w_mem w1)) outcome
          = result_code res) as E.
  { unfold ld8, store_outcome_result, st. rewrite lookup_insert_eq. by destruct res as [[] | []]. }
  destruct w1; cbn in *. by rewrite E.
Qed.

(** *** The quantum over the life of the system *)

(** Proposals by the agent, interrupts, and the end of the boot, in any order. *)
Inductive sys_step : World D -> World D -> Prop :=
| step_propose action outcome r w w' :
    ai_propose_action action outcome w = Ret r w' -> sys_step w w'
| step_irq l w w' : deliver_line l w = Ret tt w' -> sys_step w w'
| step_ready w w' : set_system_ready w = Ret tt w' -> sys_step w w'.

Definition quantum_ok (w : World D) : Prop := 100 <= QUANTUM_US (w_apply w) <= 50000.

Definition sys_inv (w : World D) : Prop :=
  isr_ready w /\ locked APPLY_LOCK w = false /\ fits 64 (SEQ (w_apply w)) /\ quantum_ok w.

Lemma accepted_quantum w a old :
  accepted w a = true -> 100 <= old <= 50000 -> 100 <= quantum_of a old <= 50000.
Proof.
  unfold accepted, validate_params, quantum_of. cbn [ActionType_as_u8]. intros H Ho.
  rewrite !andb_true_iff in H. destruct (kind a =? 1); lia.
Qed.

Lemma sys_step_inv w w' : sys_step w w' -> sys_inv w -> sys_inv w'.
Proof.
  intros St (R & Hl & Hs & Hq). destruct St as [ac ou r w w' E | l w w' E | w w' E].
  - destruct ((ac =? 0) || (ou =? 0)) eqn:En.
    { unfold ai_propose_action in E. rewrite En in E. by injection E as _ <-. }
    apply orb_false_iff in En as [Ea Eo]. apply Z.eqb_neq in Ea, Eo.
    pose proof (wph_propose ac ou w R Hl Hs Ea Eo) as H. unfold wph in H. rewrite E in H.
    destruct H as (_ & res & w1 & H & ->).
    destruct (apply_post_result _ _ _ _ _ H) as (_ & R1 & S1 & L1 & q & Q1 & Hq1).
    split; [destruct R1; by destruct w1; constructor | ].
    split; [destruct w1; cbn in *; rewrite L1; by destruct w | ].
    split; [destruct w1; cbn in *; rewrite S1; by apply wrap_fits | ].
    unfold quantum_ok in *. destruct w1; cbn in *. rewrite Q1.
    destruct Hq1 as [-> | [Ha ->]]; [by destruct w | by eapply accepted_quantum; destruct w].
  - pose proof (wph_deliver_line l w R) as H. unfold wph in H. rewrite E in H.
    destruct H as ([H R'] & _). split; [done | ]. unfold quantum_ok.
    by rewrite (is_locks _ _ H), (is_apply _ _ H).
  - injection E as <-. split; [by apply isr_ready_apply | by destruct w].
Qed.

(** [C27] The quantum stays within bounds for ever: through any sequence of proposals
    (whatever bytes the action record holds), interrupts and the end of the boot, the
    scheduling quantum is between 100 and 50000 microseconds, interrupts can be served
    and the apply lock is free. *)
Theorem quantum_always_in_bounds w w' :
  sys_inv w -> rtc sys_step w w' -> sys_inv w'.
Proof. intros Hw. induction 1 as [ | w1 w2 w3 S _ IH]; eauto using sys_step_inv. Qed.
End ApplyProps.

(** *** Witnesses *)

(** A machine whose timer ticks at the first interruptible point, ready, with a
    SetQuantum action of 2000 us stored at address 4096. *)
Definition sim_action : World Sim :=
  set_mem (st_bytes 4096 [1; 0; 0; 0; 0; 0; 0; 0; 0xD0; 0x07] ∅)
    (set_apply (mkApply 1000 7 true) (set_dev (mkSim 0x1E [[]; [0]]) sim_irq)).

Lemma sim_action_ready : isr_ready sim_action.
Proof. constructor; repeat split; discriminate || reflexivity. Qed.


Lemma self_test_measures_ticks_witness :
  match self_test_ok sim_action with
  | Ret b w' =>
      isr_keeps sim_action w' /\
      b = (1 <=? sat_sub (TIMER_TICKS (w_idt w')) (TIMER_TICKS (w_idt sim_action))) /\
      (w_if sim_action = false -> b = false /\ w' = sim_action)
  | Halt w' => powered_off w'
  | _ => False
  end.
Proof. apply (self_test_measures_ticks sim_action), sim_action_ready. Defined.

(** The action is applied: the outcome byte is 0 and the quantum is 2000. *)
Example propose_runs :
  match ai_propose_action 4096 8192 sim_action with
  | Ret r w' => r = 0 /\ ld8 (w_mem w') 8192 = 0 /\ QUANTUM_US (w_apply w') = 2000 /\
                SEQ (w_apply w') = 8
  | _ => False
  end.
Proof. vm_compute. repeat split. Qed.

Lemma propose_action_outcome_witness :
  match ai_propose_action 4096 8192 sim_action with
  | Ret r w' =>
      if (4096 =? 0) || (8192 =? 0) then r = -1 /\ w' = sim_action
      else propose_post 4096 8192 sim_action r w' /\
           SEQ (w_apply w') = 8 /\ ld8 (w_mem w') 8192 ∈ [0; 1; 5]
  | Halt w' => powered_off w'
  | _ => False
  end.
Proof.
  apply (propose_action_outcome 4096 8192 sim_action).
  - exact sim_action_ready.
  - reflexivity.
  - split; discriminate || reflexivity.
Defined.

Lemma quantum_always_in_bounds_witness :
  exists w', rtc sys_step sim_action w' /\ sys_inv w' /\ SYSTEM_READY (w_apply w') = true.
Proof.
  eexists. split; [eapply rtc_once, step_ready; reflexivity | ]. split; [ | reflexivity].
  eapply (quantum_always_in_bounds sim_action); [ | eapply rtc_once, step_ready; reflexivity].
  split; [exact sim_action_ready | ]. split; [reflexivity | ].
  split; split; discriminate || reflexivity.
Defined.
