(* ===== verification/AiModel.v ===== *)
(** * Model files (kernel/src/ai_model.rs)

    The header of a model image and the layout of its weights: layer after layer, an
    int8 matrix followed by one i32 bias per output. *)

From S2P Require Import Prelude XhciData State.
From stdpp Require Import gmap list strings.
From Stdlib Require Import ZArith Lia.

Open Scope Z_scope.

Definition MAGIC : list Z := bytes_of "AIMD".
Definition ModelHeader_SIZE : Z := 16.
Definition PAYLOAD_OFFSET : Z := 0x10.

Definition valid (h : ModelHeader) : bool :=
  bool_decide (magic h = MAGIC) && (1 <=? n_layers h) && (1 <=? hidden h)
  && ((dtype h =? 0) || (dtype h =? 1)).

(** [#[repr(C)]]: the fields in order, without padding. *)
Definition read_unaligned (m : memory) (ptr len : Z) : option ModelHeader :=
  if (ptr =? 0) || (len <? 16) then None
  else Some (mkHeader (ld_bytes m ptr 4) (ld 2 m (ptr + 4)) (ld 2 m (ptr + 6))
                      (ld 4 m (ptr + 8)) (ld8 m (ptr + 12)) (ld_bytes m (ptr + 13) 3)).

(** The bounds the field types give. *)
Definition header_ok (h : ModelHeader) : Prop :=
  fits 16 (n_layers h) /\ fits 16 (hidden h) /\ fits 32 (vocab h) /\ fits 8 (dtype h).

Definition last_out (h : ModelHeader) : Z := if negb (vocab h =? 0) then vocab h else hidden h.

Definition out_dim_of (h : ModelHeader) (l : Z) : Z :=
  if l + 1 =? n_layers h then last_out h else hidden h.

(** One round of the loop over layers that [compute], [layer_ptr_int8] and
    [bias_ptr_i32] share: weights, then biases. *)
Definition add_layer (h : ModelHeader) (total l : Z) : Z :=
  let in_dim := hidden h in
  let out_dim := out_dim_of h l in
  let total := sat_add64 total (sat_mul64 in_dim out_dim) in
  sat_add64 total (sat_mul64 out_dim 4).

(** [WeightsLayout::compute], its [total_bytes]. *)
Definition compute (h : ModelHeader) : option Z :=
  if negb (dtype h =? 0) then None
  else if n_layers h =? 0 then None
  else Some (fold_left (add_layer h) (seqZ 0 (n_layers h)) 0).

Definition layer_ptr_int8 (base : Z) (h : ModelHeader) (layer : Z) : option Z :=
  if negb (dtype h =? 0) then None
  else if n_layers h <=? layer then None
  else
    let offset := fold_left (add_layer h) (seqZ 0 layer) 0 in
    Some (base + (u64 (PAYLOAD_OFFSET + offset))).

Definition layer_dims (h : ModelHeader) (layer : Z) : option (Z * Z) :=
  if n_layers h <=? layer then None else Some (hidden h, out_dim_of h layer).

Definition bias_ptr_i32 (base : Z) (h : ModelHeader) (layer : Z) : option Z :=
  if negb (dtype h =? 0) then None
  else if n_layers h <=? layer then None
  else
    let offset := fold_left (add_layer h) (seqZ 0 layer) 0 in
    match layer_dims h layer with
    | None => None
    | Some (in_dim, out_dim) =>
        let offset := sat_add64 offset (sat_mul64 in_dim out_dim) in
        Some (base + (u64 (PAYLOAD_OFFSET + offset)))
    end.

(** ** The layout in exact arithmetic *)

Definition layer_bytes (h : ModelHeader) (l : Z) : Z :=
  hidden h * out_dim_of h l + 4 * out_dim_of h l.

(** Where layer [l] begins, counted from the payload. *)
Definition layer_start (h : ModelHeader) (l : Z) : Z :=
  fold_left (fun t i => t + layer_bytes h i) (seqZ 0 l) 0.

Lemma read_unaligned_ok m p n h : read_unaligned m p n = Some h -> header_ok h.
Proof.
  unfold read_unaligned. case_match; [done | ]. intros [= <-].
  pose proof (ld8_range m (p + 12)). repeat split; cbn; try apply (ld_range 2);
    try apply (ld_range 4); zlia.
Qed.

Lemma out_dim_range h l : header_ok h -> 0 <= out_dim_of h l < 2 ^ 32.
Proof. intros (? & ? & ? & ?). unfold out_dim_of, last_out. repeat case_match; zlia. Qed.

Lemma layer_start_succ h l : 0 <= l -> layer_start h (l + 1) = layer_start h l + layer_bytes h l.
Proof. intros H. unfold layer_start. rewrite seqZ_snoc, fold_left_app by done. done. Qed.

Lemma layer_bytes_range h l : header_ok h -> 0 <= layer_bytes h l < 2 ^ 49.
Proof.
  intros Hh. pose proof (out_dim_range h l Hh). destruct Hh as (? & ? & ? & ?).
  unfold layer_bytes. split; [zlia | ].
  assert (hidden h * out_dim_of h l <= 65535 * 2 ^ 32) by (apply Z.mul_le_mono_nonneg; zlia). zlia.
Qed.

Lemma inner_layer_bytes h l : header_ok h -> l + 1 <> n_layers h -> layer_bytes h l < 2 ^ 33.
Proof.
  intros (? & ? & ? & ?) Hl. unfold layer_bytes, out_dim_of.
  rewrite (proj2 (Z.eqb_neq _ _) Hl).
  assert (hidden h * hidden h <= 65535 * 65535) by (apply Z.mul_le_mono_nonneg; zlia). zlia.
Qed.

Lemma fold_add_layer h l :
  header_ok h -> 0 <= l <= n_layers h ->
  fold_left (add_layer h) (seqZ 0 l) 0 = layer_start h l /\
  0 <= layer_start h l <= l * 2 ^ 33 + (if l =? n_layers h then 2 ^ 49 else 0).
Proof.
  intros Hh Hl. assert (n_layers h < 2 ^ 16) by apply Hh.
  destruct Hl as [H0 Hl]. revert Hl. pattern l. apply natlike_ind; [ | | done].
  { intros _. split; [done | ]. change (layer_start h 0) with 0. case_match; zlia. }
  intros x Hx IH Hl. destruct IH as [E B]; [lia | ].
  replace (x =? n_layers h) with false in B by lia.
  pose proof (layer_bytes_range h x Hh). pose proof (out_dim_range h x Hh).
  pose proof (inner_layer_bytes h x Hh).
  assert (0 <= hidden h * out_dim_of h x) by (apply Z.mul_nonneg_nonneg; [apply Hh | lia]).
  change (Z.succ x) with (x + 1). rewrite layer_start_succ by done.
  rewrite seqZ_snoc, fold_left_app, E by done. cbn [fold_left]. split; [ | destruct (Z.eqb_spec (x + 1) (n_layers h)); zlia].
  unfold add_layer, sat_add64, sat_mul64. unfold layer_bytes in *. rewrite !Z.min_l; zlia.
Qed.

(** The region of layer [l]: its matrix, then its biases. *)
Lemma layer_pointers base h l :
  header_ok h -> dtype h = 0 -> 0 <= l < n_layers h ->
  layer_ptr_int8 base h l = Some (base + PAYLOAD_OFFSET + layer_start h l) /\
  bias_ptr_i32 base h l =
    Some (base + PAYLOAD_OFFSET + layer_start h l + hidden h * out_dim_of h l) /\
  layer_dims h l = Some (hidden h, out_dim_of h l).
Proof.
  intros Hh Hd Hl. unfold layer_ptr_int8, bias_ptr_i32, layer_dims.
  rewrite Hd. cbn [Z.eqb negb]. replace (n_layers h <=? l) with false by lia.
  destruct (fold_add_layer h l Hh) as [-> B]; [lia | ].
  replace (l =? n_layers h) with false in B by lia.
  assert (n_layers h < 2 ^ 16) by apply Hh.
  pose proof (out_dim_range h l Hh). pose proof (layer_bytes_range h l Hh) as LB.
  assert (0 <= hidden h * out_dim_of h l) by (apply Z.mul_nonneg_nonneg; [apply Hh | lia]).
  unfold layer_bytes in LB. unfold sat_add64, sat_mul64, PAYLOAD_OFFSET.
  rewrite !Z.min_l by zlia. rewrite !wrap_small by zlia.
  repeat split; f_equal; lia.
Qed.

Lemma compute_total h :
  header_ok h -> dtype h = 0 -> n_layers h <> 0 ->
  compute h = Some (layer_start h (n_layers h)) /\ 0 <= layer_start h (n_layers h) < 2 ^ 50.
Proof.
  intros Hh Hd Hn. unfold compute. rewrite Hd, (proj2 (Z.eqb_neq _ _) Hn).
  assert (fits 16 (n_layers h)) by apply Hh.
  destruct (fold_add_layer h (n_layers h) Hh) as [-> B]; [zlia | ].
  rewrite Z.eqb_refl in B. split; [done | zlia].
Qed.

Lemma layer_start_mono h l l' :
  header_ok h -> 0 <= l <= l' -> layer_start h l <= layer_start h l'.
Proof.
  intros Hh [H0 Hl]. replace l' with (l + (l' - l)) by lia.
  pattern (l' - l). apply natlike_ind; [ | | lia].
  - by rewrite Z.add_0_r.
  - intros x Hx IH. replace (l + Z.succ x) with (l + x + 1) by lia.
    rewrite layer_start_succ by lia. pose proof (layer_bytes_range h (l + x) Hh). lia.
Qed.

(** [C26] The pointers into a model tile its payload exactly: for every int8 header, the
    matrix of layer [l] starts right after the biases of layer [l - 1], its biases right
    after the matrix, layer 0 at the payload offset, and the last bias ends at the total
    [WeightsLayout::compute] reports; no saturation and no wrap-around ever happens, so
    an image of [total + 16] bytes contains every weight and bias that is addressed. *)
Theorem model_layout_exact base h l :
  header_ok h -> dtype h = 0 -> 0 <= l < n_layers h ->
  exists total wp bp,
    compute h = Some total /\ layer_ptr_int8 base h l = Some wp /\
    bias_ptr_i32 base h l = Some bp /\
    layer_dims h l = Some (hidden h, out_dim_of h l) /\
    bp = wp + hidden h * out_dim_of h l /\
    (l = 0 -> wp = base + 16) /\
    (l + 1 < n_layers h -> layer_ptr_int8 base h (l + 1) = Some (bp + 4 * out_dim_of h l)) /\
    (l + 1 = n_layers h -> bp + 4 * out_dim_of h l = base + 16 + total) /\
    base + 16 <= wp /\ bp + 4 * out_dim_of h l <= base + 16 + total.
Proof.
  intros Hh Hd Hl. destruct (compute_total h Hh Hd) as [Hc _]; [lia | ].
  destruct (layer_pointers base h l Hh Hd Hl) as (Hw & Hb & Hdim).
  exists (layer_start h (n_layers h)), (base + PAYLOAD_OFFSET + layer_start h l),
    (base + PAYLOAD_OFFSET + layer_start h l + hidden h * out_dim_of h l).
  pose proof (layer_start_succ h l ltac:(lia)) as Hs. unfold layer_bytes in Hs.
  do 5 (split; [done | ]). unfold PAYLOAD_OFFSET.
  split; [intros ->; change (layer_start h 0) with 0; lia | ]. split.
  { intros Hn. destruct (layer_pointers base h (l + 1) Hh Hd) as (-> & _); [lia | ].
    rewrite Hs. unfold PAYLOAD_OFFSET. f_equal. lia. }
  split; [intros <-; lia | ].
  pose proof (layer_start_mono h 0 l Hh ltac:(lia)).
  pose proof (layer_start_mono h (l + 1) (n_layers h) Hh ltac:(lia)). change (layer_start h 0) with 0 in *. lia.
Qed.

(** *** Witness: two layers of 4, a vocabulary of 2 *)

Definition sample_header : ModelHeader := mkHeader (bytes_of "AIMD") 2 4 2 0 [0; 0; 0].

Lemma model_layout_exact_witness :
  exists total wp bp,
    compute sample_header = Some total /\ layer_ptr_int8 4096 sample_header 1 = Some wp /\
    bias_ptr_i32 4096 sample_header 1 = Some bp /\
    layer_dims sample_header 1 = Some (4, 2) /\
    bp = wp + 4 * 2 /\ (1 = 0 -> wp = 4096 + 16) /\
    (1 + 1 < 2 -> layer_ptr_int8 4096 sample_header (1 + 1) = Some (bp + 4 * 2)) /\
    (1 + 1 = 2 -> bp + 4 * 2 = 4096 + 16 + total) /\
    4096 + 16 <= wp /\ bp + 4 * 2 <= 4096 + 16 + total.
Proof.
  apply (model_layout_exact 4096 sample_header 1).
  - repeat split; discriminate || reflexivity.
  - reflexivity.
  - split; discriminate || reflexivity.
Defined.
