(* ===== verification/Initrd.v ===== *)
(** * The initial ramdisk (kernel/src/ai_initrd.rs, kernel/src/ramfs.rs)

    Two readers of a cpio "newc" archive in memory: [cpio_find] locates the AI model,
    [for_each] and [find] are the file system of the shell. *)

From S2P Require Import Prelude XhciData State Sim AiModel.
From stdpp Require Import gmap list strings.
From Stdlib Require Import ZArith Lia.

Open Scope Z_scope.

(** ** Fields *)

Definition hex_value (c : Z) : option Z :=
  if (48 <=? c) && (c <=? 57) then Some (c - 48)
  else if (97 <=? c) && (c <=? 102) then Some (10 + (c - 97))
  else if (65 <=? c) && (c <=? 70) then Some (10 + (c - 65))
  else None.

(** [for &c in s { .. v = (v << 4) | d }] on [u32]. *)
Fixpoint hex_loop (s : list Z) (v : Z) : option Z :=
  match s with
  | [] => Some v
  | c :: s' => match hex_value c with
               | Some d => hex_loop s' (Z.lor (u32 (Z.shiftl v 4)) d)
               | None => None
               end
  end.

(** The closure [read_hex], at absolute address [a]. *)
Definition read_hex (m : memory) (a : Z) : option Z := hex_loop (ld_bytes m a 8) 0.

Definition CPIO_MAGIC : list Z := bytes_of "070701".
Definition TRAILER : list Z := bytes_of "TRAILER!!!".

(** [(x + 3) & !3] on [usize]. *)
Definition align4 (x : Z) : Z := Z.land (u64 (x + 3)) (bnot 64 3).

(** ** ai_initrd.rs *)

(** A round of the loop of [cpio_find]: it returns ([inl]), or goes on at the next
    offset ([inr]). *)
Definition cpio_round (m : memory) (base len : Z) (want : list Z) (off : Z)
  : option Z + Z :=
  if negb (bool_decide (ld_bytes m (base + off) 6 = CPIO_MAGIC)) then inl None
  else
  match read_hex m (base + u64 (off + 94)) with
  | None => inl None
  | Some namesize =>
  match read_hex m (base + u64 (off + 54)) with
  | None => inl None
  | Some filesize =>
    let name_off := u64 (off + 110) in
    if len <? u64 (name_off + namesize) then inl None
    else
      let name_bytes := ld_bytes m (base + name_off) namesize in
      let fname := if 0 <? namesize then take (Z.to_nat (sat_sub namesize 1)) name_bytes
                   else name_bytes in
      let data_off := align4 (u64 (name_off + namesize)) in
      if bool_decide (fname = TRAILER) then inl None
      else
        let is_exact := bool_decide (fname = want) in
        let is_dot_slash :=
          (Z.of_nat (length fname) =? u64 (Z.of_nat (length want) + 2))
          && bool_decide (fname !! 0%nat = Some 46) && bool_decide (fname !! 1%nat = Some 47)
          && bool_decide (drop 2 fname = want) in
        if is_exact || is_dot_slash then
          if u64 (data_off + filesize) <=? len then inl (Some (base + data_off)) else inl None
        else inr (align4 (u64 (data_off + filesize)))
  end end.

(** The outer option is the budget: [None] when it runs out. *)
Fixpoint cpio_loop (fuel : nat) (m : memory) (base len : Z) (want : list Z) (off : Z)
  : option (option Z) :=
  match fuel with
  | O => None
  | S f =>
      if u64 (off + 110) <=? len then
        match cpio_round m base len want off with
        | inl r => Some r
        | inr next => cpio_loop f m base len want next
        end
      else Some None
  end.

(** A header takes 110 bytes: [len / 110 + 1] rounds see the end of any archive. *)
Definition rounds (len : Z) : nat := S (Z.to_nat (len / 110)).

Definition cpio_find (m : memory) (base len : Z) (name : list Z) : option (option Z) :=
  if (base =? 0) || (len <? 110) then Some None
  else cpio_loop (rounds len) m base len name 0.

(** ** ramfs.rs *)

Record Entry : Type := mkEntry { name : list Z; data : Z; size : Z }.

(** A round of the loop of [for_each]: the entry its callback gets and the next offset,
    or [None] for [break]. *)
Definition ramfs_round (m : memory) (base len off : Z) : option (Entry * Z) :=
  if negb (bool_decide (ld_bytes m (base + off) 6 = CPIO_MAGIC)) then None
  else
  match read_hex m (base + u64 (off + 94)) with
  | None => None
  | Some namesize =>
  match read_hex m (base + u64 (off + 54)) with
  | None => None
  | Some filesize =>
    let name_off := u64 (off + 110) in
    if len <? u64 (name_off + namesize) then None
    else
      let name_bytes := ld_bytes m (base + name_off) namesize in
      let fname := if 0 <? namesize then take (Z.to_nat (namesize - 1)) name_bytes
                   else name_bytes in
      let data_off := align4 (u64 (name_off + namesize)) in
      if bool_decide (fname = TRAILER) then None
      else if len <? u64 (data_off + filesize) then None
      else Some (mkEntry fname (base + data_off) filesize,
                 align4 (u64 (data_off + filesize)))
  end end.

(** The entries the callback is called with, in order; [None] when the budget runs out. *)
Fixpoint entries_loop (fuel : nat) (m : memory) (base len off : Z) : option (list Entry) :=
  match fuel with
  | O => None
  | S f =>
      if u64 (off + 110) <=? len then
        match ramfs_round m base len off with
        | None => Some []
        | Some (e, next) =>
            match entries_loop f m base len next with
            | Some es => Some (e :: es)
            | None => None
            end
        end
      else Some []
  end.

Definition entries (m : memory) (base len : Z) : option (list Entry) :=
  if (base =? 0) || (len <? 110) then Some []
  else entries_loop (rounds len) m base len 0.

(** [find]: the closure keeps the first match. *)
Definition find_closure (want : list Z) (out : option (Z * Z)) (e : Entry)
  : option (Z * Z) :=
  match out with
  | Some _ => out
  | None => if bool_decide (name e = want) then Some (data e, size e) else out
  end.

Section Initrd.
Context {D : Type} {HW : Hardware D} {CR : Crates D}.
Abbreviation KW := (K (World D)).

(** [for_each] with a callback that has effects; memory is read again every round. *)
Fixpoint for_each_loop (fuel : nat) (base len off : Z) (f : Entry -> KW unit) : KW unit :=
  match fuel with
  | O => kfuel
  | S n =>
      if u64 (off + 110) <=? len then
        m ← gets w_mem;
        match ramfs_round m base len off with
        | None => mret tt
        | Some (e, next) => f e ;; for_each_loop n base len next f
        end
      else mret tt
  end.

Definition for_each (f : Entry -> KW unit) : KW unit :=
  link ← gets w_link;
  let base := INITRD_BASE link in
  let len := INITRD_LEN link in
  if (base =? 0) || (len <? 110) then mret tt
  else for_each_loop (rounds len) base len 0 f.

Definition find (path : list Z) : KW (option (Z * Z)) :=
  link ← gets w_link;
  m ← gets w_mem;
  match entries m (INITRD_BASE link) (INITRD_LEN link) with
  | Some es => mret (fold_left (find_closure path) es None)
  | None => kfuel
  end.

(** ai_initrd.rs: the model is taken from the file "ai.mod". *)
Definition try_set_model_from_initrd : KW unit :=
  link ← gets w_link;
  m ← gets w_mem;
  if (AI_MODEL_ADDR link =? 0) && negb (INITRD_BASE link =? 0)
     && (ModelHeader_SIZE <=? INITRD_LEN link) then
    match cpio_find m (INITRD_BASE link) (INITRD_LEN link) (bytes_of "ai.mod") with
    | None => kfuel
    | Some None => mret tt
    | Some (Some ptr) =>
        match read_unaligned m ptr ModelHeader_SIZE with
        | Some h =>
            if valid h then
              let off := sat_sub ptr (INITRD_BASE link) in
              modify (set_link (mkLink ptr (sat_sub (INITRD_LEN link) off)
                                       (INITRD_BASE link) (INITRD_LEN link)))
            else mret tt
        | None => mret tt
        end
    end
  else mret tt.

End Initrd.

(** ** Bounds and termination *)

Lemma hex_value_range c d : hex_value c = Some d -> 0 <= d < 16.
Proof. unfold hex_value. repeat case_match; intros [= <-]; lia. Qed.

Lemma hex_loop_fits s v n : fits 32 v -> hex_loop s v = Some n -> fits 32 n.
Proof.
  revert v. induction s as [ | c s IH]; intros v Hv; cbn; [by intros [= <-] | ].
  destruct (hex_value c) as [d | ] eqn:E; [ | done]. apply IH, lor_fits; [done | | ].
  - by apply wrap_fits.
  - apply hex_value_range in E. zlia.
Qed.

Lemma read_hex_fits m a n : read_hex m a = Some n -> fits 32 n.
Proof. by apply hex_loop_fits. Qed.

Lemma align4_spec x : 0 <= x < 2 ^ 63 -> align4 x = x + (- x) mod 4 /\ align4 x mod 4 = 0.
Proof.
  intros Hx. unfold align4. rewrite wrap_small by zlia.
  change (bnot 64 3) with (bnot 64 (2 ^ 2 - 1)). rewrite land_not_low by zlia.
  change (2 ^ 2) with 4. clear Hx. split; Z.div_mod_to_equations; lia.
Qed.

(** Archives are smaller than 2^62 bytes: no offset wraps around. *)
Definition archive_ok (base len : Z) : Prop := 0 < base /\ 0 <= len < 2 ^ 62.

(** An accepted header: where its parts lie. *)
Lemma ramfs_round_spec m base len off e next :
  archive_ok base len -> 0 <= off -> off + 110 <= len ->
  ramfs_round m base len off = Some (e, next) ->
  off + 110 <= next < 2 ^ 63 /\
  base + off + 110 <= data e /\ data e + size e <= base + len /\ 0 <= size e /\
  data e + size e <= base + next.
Proof.
  intros [Hb Hl] Ho Hol. unfold ramfs_round.
  destruct (bool_decide (ld_bytes _ _ _ = _)); cbn [negb]; [ | done].
  destruct (read_hex m (base + u64 (off + 94))) as [ns | ] eqn:E1; [ | done].
  destruct (read_hex m (base + u64 (off + 54))) as [fs | ] eqn:E2; [ | done].
  apply read_hex_fits in E1, E2.
  rewrite (wrap_small 64 (off + 110)) by zlia.
  rewrite (wrap_small 64 (off + 110 + ns)) by zlia.
  destruct (Z.ltb_spec len (off + 110 + ns)) as [ | Hns]; [done | ].
  destruct (align4_spec (off + 110 + ns)) as [A1 _]; [zlia | ].
  pose proof (Z.mod_pos_bound (- (off + 110 + ns)) 4 eq_refl).
  rewrite (wrap_small 64 (align4 _ + fs)) by zlia.
  destruct (bool_decide (_ = TRAILER)); [done | ].
  destruct (Z.ltb_spec len (align4 (off + 110 + ns) + fs)) as [ | Hfs]; [done | ].
  destruct (align4_spec (align4 (off + 110 + ns) + fs)) as [A2 _]; [zlia | ].
  pose proof (Z.mod_pos_bound (- (align4 (off + 110 + ns) + fs)) 4 eq_refl).
  intros [= <- <-]. cbn [data size]. zlia.
Qed.

Definition inside (base len : Z) (e : Entry) : Prop :=
  base + 110 <= data e /\ 0 <= size e /\ data e + size e <= base + len.

(** File contents that do not overlap and come in the order of the archive. *)
Definition ascending (es : list Entry) : Prop :=
  forall i j e f, (i < j)%nat -> es !! i = Some e -> es !! j = Some f ->
                  data e + size e <= data f.

Lemma ascending_cons e es :
  Forall (fun f => data e + size e <= data f) es -> ascending es -> ascending (e :: es).
Proof.
  intros He Hs i j x y Hij Hi Hj. destruct j as [ | j]; [lia | ]. cbn in Hj.
  destruct i as [ | i]; [ | by eapply (Hs i j); [lia | ..]].
  injection Hi as <-. rewrite Forall_forall in He. by eapply He, list_elem_of_lookup_2.
Qed.

Lemma entries_loop_total fuel m base len off :
  archive_ok base len -> 0 <= off < 2 ^ 63 -> (0 < fuel)%nat -> len - off < 110 * Z.of_nat fuel ->
  exists es, entries_loop fuel m base len off = Some es /\
    Forall (fun e => inside base len e /\ base + off <= data e) es /\ ascending es.
Proof.
  intros Ha. revert off. induction fuel as [ | f IH]; intros off Ho H1 Hf; [lia | ]. cbn [entries_loop].
  rewrite ?wrap_small by zlia.
  - destruct (Z.leb_spec (off + 110) len) as [Hl | Hl].
    2:{ exists []. split; [done | split; [constructor | by intros ? ? ? ? ? ?]]. }
    destruct (ramfs_round m base len off) as [[e next] | ] eqn:E.
    2:{ exists []. split; [done | split; [constructor | by intros ? ? ? ? ? ?]]. }
    destruct (ramfs_round_spec _ _ _ _ _ _ Ha (proj1 Ho) Hl E) as (Hn & Hd & Hs & H0 & Hx).
    destruct (IH next) as (es & -> & Hes & Hasc); [lia.. | ]. exists (e :: es).
    split; [done | split].
    + constructor; [unfold inside; lia | ]. eapply Forall_impl; [done | ].
      intros y [Hy Hy']. split; [done | lia].
    + apply ascending_cons; [ | done]. eapply Forall_impl; [done | ]. cbn. lia.
Qed.

Lemma rounds_enough len : 0 <= len -> len < 110 * Z.of_nat (rounds len).
Proof.
  intros H. unfold rounds. pose proof (Z.div_pos len 110 H ltac:(lia)).
  rewrite Nat2Z.inj_succ, Z2Nat.id by done. pose proof (Z.div_mod len 110 ltac:(lia)).
  pose proof (Z.mod_pos_bound len 110 ltac:(lia)). lia.
Qed.

(** [C17] The file system never leaves its image: whatever bytes the ramdisk holds, the
    walk over its headers ends (the budget is never used up), every entry handed to the
    shell lies inside the image, and the entries are disjoint and in order. *)
Theorem ramfs_entries_in_bounds m base len :
  archive_ok base len ->
  exists es, entries m base len = Some es /\ Forall (inside base len) es /\ ascending es.
Proof.
  intros Ha. unfold entries. case_match.
  - exists []. split; [done | split; [constructor | by intros ? ? ? ? ? ?]].
  - destruct (entries_loop_total (rounds len) m base len 0 Ha) as (es & -> & He & Hs).
    + zlia.
    + unfold rounds. lia.
    + rewrite Z.sub_0_r. apply rounds_enough, Ha.
    + exists es. split; [done | split; [ | done]]. eapply Forall_impl; [done | ]. by intros e [].
Qed.

Lemma cpio_round_spec m base len want off :
  archive_ok base len -> 0 <= off -> off + 110 <= len ->
  match cpio_round m base len want off with
  | inl (Some p) => base + 110 <= p <= base + len
  | inl None => True
  | inr next => off + 110 <= next < 2 ^ 63
  end.
Proof.
  intros [Hb Hl] Ho Hol. unfold cpio_round.
  destruct (bool_decide (ld_bytes _ _ _ = _)); cbn [negb]; [ | done].
  destruct (read_hex m (base + u64 (off + 94))) as [ns | ] eqn:E1; [ | done].
  destruct (read_hex m (base + u64 (off + 54))) as [fs | ] eqn:E2; [ | done].
  apply read_hex_fits in E1, E2.
  rewrite (wrap_small 64 (off + 110)) by zlia.
  rewrite (wrap_small 64 (off + 110 + ns)) by zlia.
  destruct (Z.ltb_spec len (off + 110 + ns)) as [ | Hns]; [done | ].
  destruct (align4_spec (off + 110 + ns)) as [A1 _]; [zlia | ].
  pose proof (Z.mod_pos_bound (- (off + 110 + ns)) 4 eq_refl).
  rewrite (wrap_small 64 (align4 _ + fs)) by zlia.
  destruct (bool_decide (_ = TRAILER)); [done | ].
  destruct (align4_spec (align4 (off + 110 + ns) + fs)) as [A2 _]; [zlia | ].
  pose proof (Z.mod_pos_bound (- (align4 (off + 110 + ns) + fs)) 4 eq_refl).
  destruct (_ || _); [ | zlia].
  destruct (Z.leb_spec (align4 (off + 110 + ns) + fs) len) as [Hfs | ]; [zlia | done].
Qed.

Lemma cpio_loop_total fuel m base len want off :
  archive_ok base len -> 0 <= off < 2 ^ 63 -> (0 < fuel)%nat -> len - off < 110 * Z.of_nat fuel ->
  exists r, cpio_loop fuel m base len want off = Some r /\
            (forall p, r = Some p -> base + 110 <= p <= base + len).
Proof.
  intros Ha. revert off. induction fuel as [ | f IH]; intros off Ho H1 Hf; [lia | ]. cbn [cpio_loop].
  rewrite ?wrap_small by zlia.
  - destruct (Z.leb_spec (off + 110) len) as [Hl | Hl]; [ | by exists None].
    pose proof (cpio_round_spec m base len want off Ha (proj1 Ho) Hl) as H.
    destruct (cpio_round m base len want off) as [[p | ] | next].
    + exists (Some p). split; [done | ]. by intros q [= <-].
    + by exists None.
    + apply IH; lia.
Qed.

Lemma cpio_find_total m base len want :
  archive_ok base len ->
  exists r, cpio_find m base len want = Some r /\
            (forall p, r = Some p -> base + 110 <= p <= base + len).
Proof.
  intros Ha. unfold cpio_find. case_match; [by exists None | ].
  apply cpio_loop_total; [done | zlia | unfold rounds; lia | ].
  rewrite Z.sub_0_r. apply rounds_enough, Ha.
Qed.

(** ** Locality *)

Section Locality.
Variables (base len : Z) (m m' : memory).
Hypothesis Ha : archive_ok base len.
Hypothesis Hm : agree base len m m'.

(** The header fields are read inside the image. *)
Lemma header_local off :
  0 <= off -> off + 110 <= len ->
  ld_bytes m (base + off) 6 = ld_bytes m' (base + off) 6 /\
  read_hex m (base + u64 (off + 94)) = read_hex m' (base + u64 (off + 94)) /\
  read_hex m (base + u64 (off + 54)) = read_hex m' (base + u64 (off + 54)).
Proof using Ha Hm.
  intros Ho Hl. destruct Ha as [Hb Hlen]. unfold read_hex. rewrite !wrap_small by zlia.
  split; [eapply ld_bytes_agree; [done | lia | lia] | ].
  split; f_equal; eapply ld_bytes_agree; [done | lia | lia | done | lia | lia].
Qed.

Lemma name_local off ns :
  0 <= off -> off + 110 <= len -> fits 32 ns -> (len <? u64 (u64 (off + 110) + ns)) = false ->
  ld_bytes m (base + u64 (off + 110)) ns = ld_bytes m' (base + u64 (off + 110)) ns.
Proof using Ha Hm.
  intros Ho Hl Hn Hlt. destruct Ha as [Hb Hlen].
  rewrite (wrap_small 64 (off + 110)) in * by zlia.
  rewrite (wrap_small 64 (off + 110 + ns)) in Hlt by zlia.
  eapply ld_bytes_agree; [done | lia | lia].
Qed.

Lemma ramfs_round_local off :
  0 <= off -> off + 110 <= len -> ramfs_round m base len off = ramfs_round m' base len off.
Proof using Ha Hm.
  intros Ho Hl. unfold ramfs_round. destruct (header_local off Ho Hl) as (-> & -> & ->).
  destruct (read_hex m' (base + u64 (off + 94))) as [ns | ] eqn:E; [ | done].
  apply read_hex_fits in E. destruct (len <? _) eqn:El; [done | ].
  by rewrite (name_local off ns).
Qed.

Lemma cpio_round_local want off :
  0 <= off -> off + 110 <= len ->
  cpio_round m base len want off = cpio_round m' base len want off.
Proof using Ha Hm.
  intros Ho Hl. unfold cpio_round. destruct (header_local off Ho Hl) as (-> & -> & ->).
  destruct (read_hex m' (base + u64 (off + 94))) as [ns | ] eqn:E; [ | done].
  apply read_hex_fits in E. destruct (len <? u64 _) eqn:El; [done | ].
  by rewrite (name_local off ns).
Qed.

Lemma entries_loop_local fuel off :
  0 <= off < 2 ^ 63 -> entries_loop fuel m base len off = entries_loop fuel m' base len off.
Proof using Ha Hm.
  revert off. induction fuel as [ | f IH]; intros off Ho; [done | ]. cbn [entries_loop].
  rewrite wrap_small by zlia. destruct (Z.leb_spec (off + 110) len) as [Hl | ]; [ | done].
  rewrite ramfs_round_local by lia.
  destruct (ramfs_round m' base len off) as [[e next] | ] eqn:E; [ | done].
  apply ramfs_round_spec in E; [ | done | lia | done]. by rewrite IH by lia.
Qed.

Lemma cpio_loop_local fuel want off :
  0 <= off < 2 ^ 63 ->
  cpio_loop fuel m base len want off = cpio_loop fuel m' base len want off.
Proof using Ha Hm.
  revert off. induction fuel as [ | f IH]; intros off Ho; [done | ]. cbn [cpio_loop].
  rewrite wrap_small by zlia. destruct (Z.leb_spec (off + 110) len) as [Hl | ]; [ | done].
  rewrite cpio_round_local by lia.
  pose proof (cpio_round_spec m' base len want off Ha (proj1 Ho) Hl).
  destruct (cpio_round m' base len want off) as [r | next]; [done | ]. by rewrite IH by lia.
Qed.
End Locality.

Lemma entries_local m m' base len :
  archive_ok base len -> agree base len m m' -> entries m base len = entries m' base len.
Proof.
  intros Ha Hm. unfold entries. case_match; [done | ]. apply entries_loop_local; [done | done | zlia].
Qed.

(** [C33] Both archive readers read the image and nothing else: two memories that agree
    on the [len] bytes from [base] give the same directory and the same answer to every
    search, whatever those bytes are; the search for a file ends, and the address it
    returns lies in the image behind the first header. *)
Theorem initrd_reads_only_image m m' base len want :
  archive_ok base len -> agree base len m m' ->
  entries m base len = entries m' base len /\
  cpio_find m base len want = cpio_find m' base len want /\
  exists r, cpio_find m base len want = Some r /\
            (forall p, r = Some p -> base + 110 <= p <= base + len).
Proof.
  intros Ha Hm. split; [ | split; [ | by apply cpio_find_total]].
  - by apply entries_local.
  - unfold cpio_find. case_match; [done | ]. apply cpio_loop_local; [done | done | zlia].
Qed.

(** ** Round trip with the newc format *)

Record File : Type := mkFile { f_name : list Z; f_data : list Z }.

(** [k] hexadecimal digits of [n]. *)
Fixpoint hex_field (k : nat) (n : Z) : list Z :=
  match k with
  | O => []
  | S k' => hex_field k' (n / 16) ++
            [if n mod 16 <? 10 then 48 + n mod 16 else 87 + n mod 16]
  end.

Definition pad4 (n : Z) : list Z := replicate (Z.to_nat ((- n) mod 4)) 0.

(** A newc header: magic, six fields, the file size, four fields, the name size, the
    checksum; then the name with its NUL and the data, both padded to four bytes. *)
Definition newc_header (namesize filesize : Z) : list Z :=
  CPIO_MAGIC ++ replicate 48 48 ++ hex_field 8 filesize ++ replicate 32 48 ++
  hex_field 8 namesize ++ replicate 8 48.

Definition newc (f : File) : list Z :=
  newc_header (zlen (f_name f) + 1) (zlen (f_data f)) ++
  (f_name f ++ [0]) ++ pad4 (110 + (zlen (f_name f) + 1)) ++ f_data f ++ pad4 (zlen (f_data f)).

Definition archive (fs : list File) : list Z := (fs ≫= newc) ++ newc (mkFile TRAILER []).

Definition file_ok (f : File) : Prop :=
  f_name f <> TRAILER /\ zlen (f_name f) + 1 < 2 ^ 32 /\ zlen (f_data f) < 2 ^ 32.

Lemma length_hex_field k n : length (hex_field k n) = k.
Proof. revert n. induction k as [ | k IH]; intros n; cbn; [done | ]. rewrite length_app, IH. cbn. lia. Qed.

Lemma hex_loop_app s1 s2 v :
  hex_loop (s1 ++ s2) v = match hex_loop s1 v with Some v' => hex_loop s2 v' | None => None end.
Proof.
  revert v. induction s1 as [ | c s1 IH]; intros v; cbn; [done | ]. by destruct (hex_value c).
Qed.

Lemma hex_digit_value d :
  0 <= d < 16 -> hex_value (if d <? 10 then 48 + d else 87 + d) = Some d.
Proof.
  intros Hd. unfold hex_value. destruct (Z.ltb_spec d 10).
  - replace ((48 <=? 48 + d) && (48 + d <=? 57)) with true by lia. f_equal. lia.
  - replace ((48 <=? 87 + d) && (87 + d <=? 57)) with false by lia.
    replace ((97 <=? 87 + d) && (87 + d <=? 102)) with true by lia. f_equal. lia.
Qed.

Lemma hex_loop_field k n :
  (k <= 8)%nat -> 0 <= n < 16 ^ Z.of_nat k -> hex_loop (hex_field k n) 0 = Some n.
Proof.
  revert n. induction k as [ | k IH]; intros n Hk Hn.
  - cbn in *. f_equal. lia.
  - rewrite Nat2Z.inj_succ, Z.pow_succ_r in Hn by lia. cbn [hex_field].
    rewrite hex_loop_app, IH; [ | lia | ].
    2:{ split; [apply Z.div_pos | apply Z.div_lt_upper_bound]; lia. }
    pose proof (Z.mod_pos_bound n 16 eq_refl). cbn [hex_loop].
    rewrite hex_digit_value by done. f_equal.
    assert (16 ^ Z.of_nat k <= 16 ^ 7) by (apply Z.pow_le_mono_r; lia).
    rewrite Z.shiftl_mul_pow2 by lia. rewrite wrap_small.
    + rewrite lor_add by (change (2 ^ 4) with 16; lia).
      change (2 ^ 4) with 16. pose proof (Z.div_mod n 16). lia.
    + pose proof (Z.div_mod n 16). change (2 ^ 4) with 16. change (16 ^ 7) with (2 ^ 28) in *.
      zlia.
Qed.

Lemma read_hex_field m a n : fits 32 n -> holds m a (hex_field 8 n) -> read_hex m a = Some n.
Proof.
  unfold holds, zlen. rewrite length_hex_field. intros Hn H. unfold read_hex.
  change 8 with (Z.of_nat 8). rewrite H. by apply hex_loop_field.
Qed.

Lemma zlen_header ns fs : zlen (newc_header ns fs) = 110.
Proof. unfold newc_header, zlen. rewrite !length_app, !length_hex_field, !length_replicate. done. Qed.

Lemma zlen_pad4 n : zlen (pad4 n) = (- n) mod 4.
Proof.
  unfold zlen, pad4. rewrite length_replicate, Z2Nat.id; [done | ].
  apply Z.mod_pos_bound. lia.
Qed.

(** The offset of the data in the encoding of a file, and its whole length. *)
Definition data_start (f : File) : Z :=
  110 + (zlen (f_name f) + 1) + (- (110 + (zlen (f_name f) + 1))) mod 4.

Lemma zlen_newc f :
  zlen (newc f) = data_start f + zlen (f_data f) + (- zlen (f_data f)) mod 4.
Proof.
  unfold newc, data_start. rewrite !zlen_app, zlen_header, !zlen_pad4. change (zlen [0]) with 1. lia.
Qed.

Lemma newc_aligned f : data_start f mod 4 = 0 /\ zlen (newc f) mod 4 = 0 /\ 110 <= data_start f.
Proof.
  rewrite zlen_newc. unfold data_start. pose proof (zlen_nonneg (f_name f)).
  Z.div_mod_to_equations. lia.
Qed.

Lemma newc_parts m a f :
  holds m a (newc f) ->
  holds m a (newc_header (zlen (f_name f) + 1) (zlen (f_data f))) /\
  holds m (a + 110) (f_name f ++ [0]) /\ holds m (a + data_start f) (f_data f).
Proof.
  unfold newc. rewrite !holds_app. rewrite zlen_header, zlen_pad4, zlen_app. change (zlen [0]) with 1.
  intros (Hh & [Hn Hz] & _ & Hd & _). split; [done | split].
  - by split.
  - eapply holds_eq; [ | exact Hd]. unfold data_start. lia.
Qed.

Lemma header_fields m base off ns fs :
  0 <= off -> off + 110 < 2 ^ 63 -> fits 32 ns -> fits 32 fs ->
  holds m (base + off) (newc_header ns fs) ->
  ld_bytes m (base + off) 6 = CPIO_MAGIC /\
  read_hex m (base + u64 (off + 94)) = Some ns /\
  read_hex m (base + u64 (off + 54)) = Some fs.
Proof.
  intros Ho Hl Hn Hf. unfold newc_header. rewrite !holds_app.
  unfold zlen. rewrite !length_replicate, !length_hex_field. rewrite !wrap_small by zlia.
  change (length CPIO_MAGIC) with 6%nat.
  intros (Hm & _ & Hfs & _ & Hns & _). split; [by apply holds_ld | split].
  - apply read_hex_field; [done | ]. eapply holds_eq; [ | exact Hns]. cbn. lia.
  - apply read_hex_field; [done | ]. eapply holds_eq; [ | exact Hfs]. cbn. lia.
Qed.

(** The two spellings [cpio_find] accepts. *)
Definition spelled (want fname : list Z) : bool :=
  bool_decide (fname = want \/ fname = [46; 47] ++ want).

Lemma spelled_spec want fname :
  zlen want < 2 ^ 32 ->
  bool_decide (fname = want) ||
  ((Z.of_nat (length fname) =? u64 (Z.of_nat (length want) + 2))
   && bool_decide (fname !! 0%nat = Some 46) && bool_decide (fname !! 1%nat = Some 47)
   && bool_decide (drop 2 fname = want)) = spelled want fname.
Proof.
  unfold spelled, zlen. intros Hw. rewrite wrap_small by zlia. apply eq_true_iff_eq.
  rewrite orb_true_iff, !andb_true_iff, !bool_decide_eq_true, Z.eqb_eq.
  destruct fname as [ | x [ | y r]]; cbn.
  - intuition congruence.
  - intuition congruence.
  - rewrite drop_0. split; [intuition congruence | ]. intros [-> | [= -> -> ->]]; [by left | right].
    repeat split. lia.
Qed.

Section RoundTrip.
Variables (m : memory) (base len : Z).
Hypothesis Ha : archive_ok base len.

(** What both readers compute from the encoding of a file at an aligned offset. *)
Lemma newc_layout off f :
  0 <= off -> off mod 4 = 0 -> off + zlen (newc f) <= len ->
  zlen (f_name f) + 1 < 2 ^ 32 -> zlen (f_data f) < 2 ^ 32 ->
  holds m (base + off) (newc f) ->
  let ns := zlen (f_name f) + 1 in
  ld_bytes m (base + off) 6 = CPIO_MAGIC /\
  read_hex m (base + u64 (off + 94)) = Some ns /\
  read_hex m (base + u64 (off + 54)) = Some (zlen (f_data f)) /\
  u64 (off + 110) = off + 110 /\ u64 (off + 110 + ns) = off + 110 + ns /\
  (len <? off + 110 + ns) = false /\
  take (Z.to_nat (ns - 1)) (ld_bytes m (base + (off + 110)) ns) = f_name f /\
  align4 (off + 110 + ns) = off + data_start f /\
  u64 (off + data_start f + zlen (f_data f)) = off + data_start f + zlen (f_data f) /\
  off + data_start f + zlen (f_data f) <= len /\
  align4 (off + data_start f + zlen (f_data f)) = off + zlen (newc f).
Proof using Ha.
  intros Ho Hal Hl Hn Hd Hh ns. destruct Ha as [Hb Hlen]. rewrite zlen_newc in Hl.
  pose proof (zlen_nonneg (f_name f)). pose proof (zlen_nonneg (f_data f)).
  destruct (newc_parts _ _ _ Hh) as (Hhd & Hnm & _).
  pose proof (Z.mod_pos_bound (- zlen (f_data f)) 4 eq_refl).
  pose proof (Z.mod_pos_bound (- (110 + (zlen (f_name f) + 1))) 4 eq_refl).
  assert (Hds : 110 + ns <= data_start f) by (unfold data_start, ns; lia).
  destruct (header_fields m base off ns (zlen (f_data f))) as (F1 & F2 & F3);
    [done | zlia | subst ns; zlia | zlia | done | ].
  split; [done | split; [done | split; [done | ]]].
  split; [apply wrap_small; zlia | split; [apply wrap_small; subst ns; zlia | ]].
  split; [lia | split].
  { replace (base + (off + 110)) with (base + off + 110) by lia.
    rewrite (holds_ld _ _ _ (f_name f ++ [0])); [ | subst ns; rewrite zlen_app; done | done].
    replace (Z.to_nat (ns - 1)) with (length (f_name f)) by (subst ns; unfold zlen; lia).
    by rewrite take_app_length. }
  split; [ | split; [apply wrap_small; zlia | split; [lia | ]]].
  - destruct (align4_spec (off + 110 + ns)) as [-> _]; [subst ns; zlia | ].
    unfold data_start, ns. clear - Hal. Z.div_mod_to_equations. lia.
  - destruct (align4_spec (off + data_start f + zlen (f_data f))) as [-> _]; [zlia | ].
    rewrite zlen_newc. destruct (newc_aligned f) as (Hal2 & _). clear - Hal Hal2.
    Z.div_mod_to_equations. lia.
Qed.

Definition entry_of (off : Z) (f : File) : Entry :=
  mkEntry (f_name f) (base + off + data_start f) (zlen (f_data f)).

Lemma ramfs_round_newc off f :
  0 <= off -> off mod 4 = 0 -> off + zlen (newc f) <= len ->
  zlen (f_name f) + 1 < 2 ^ 32 -> zlen (f_data f) < 2 ^ 32 ->
  holds m (base + off) (newc f) ->
  ramfs_round m base len off =
    if bool_decide (f_name f = TRAILER) then None
    else Some (entry_of off f, off + zlen (newc f)).
Proof using Ha.
  intros Ho Hal Hl Hn Hd Hh.
  destruct (newc_layout off f Ho Hal Hl Hn Hd Hh)
    as (E1 & E2 & E3 & E4 & E5 & E6 & E7 & E8 & E9 & E10 & E11).
  unfold ramfs_round. rewrite E1, E2, E3, bool_decide_eq_true_2 by done. cbn [negb].
  rewrite E4, E5, E6, E8, E9, E11. pose proof (zlen_nonneg (f_name f)).
  replace (0 <? zlen (f_name f) + 1) with true by lia. rewrite E7.
  destruct (bool_decide (f_name f = TRAILER)); [done | ].
  rewrite (proj2 (Z.ltb_ge _ _) E10). unfold entry_of. by rewrite Z.add_assoc.
Qed.

Lemma cpio_round_newc want off f :
  0 <= off -> off mod 4 = 0 -> off + zlen (newc f) <= len ->
  zlen (f_name f) + 1 < 2 ^ 32 -> zlen (f_data f) < 2 ^ 32 -> zlen want < 2 ^ 32 ->
  holds m (base + off) (newc f) ->
  cpio_round m base len want off =
    if bool_decide (f_name f = TRAILER) then inl None
    else if spelled want (f_name f)
         then inl (Some (base + off + data_start f))
         else inr (off + zlen (newc f)).
Proof using Ha.
  intros Ho Hal Hl Hn Hd Hw Hh.
  destruct (newc_layout off f Ho Hal Hl Hn Hd Hh)
    as (E1 & E2 & E3 & E4 & E5 & E6 & E7 & E8 & E9 & E10 & E11).
  unfold cpio_round. rewrite E1, E2, E3, bool_decide_eq_true_2 by done. cbn [negb].
  rewrite E4, E5, E6, E8, E9, E11. pose proof (zlen_nonneg (f_name f)).
  replace (0 <? zlen (f_name f) + 1) with true by lia.
  replace (sat_sub (zlen (f_name f) + 1) 1) with (zlen (f_name f) + 1 - 1) by (unfold sat_sub; lia).
  rewrite E7. destruct (bool_decide (f_name f = TRAILER)); [done | ].
  rewrite (proj2 (Z.leb_le _ _) E10), Z.add_assoc.
  by rewrite spelled_spec.
Qed.

(** Where the files of an archive lie. *)
Fixpoint layout (off : Z) (fs : list File) : list Entry :=
  match fs with
  | [] => []
  | f :: fs' => entry_of off f :: layout (off + zlen (newc f)) fs'
  end.

Lemma holds_archive_cons off f fs :
  holds m (base + off) (archive (f :: fs)) ->
  holds m (base + off) (newc f) /\ holds m (base + (off + zlen (newc f))) (archive fs).
Proof using Type.
  unfold archive. cbn [mbind list_bind]. rewrite <- app_assoc, holds_app, Z.add_assoc. done.
Qed.

Lemma zlen_archive_cons f fs : zlen (archive (f :: fs)) = zlen (newc f) + zlen (archive fs).
Proof using Type. unfold archive. cbn [mbind list_bind]. by rewrite <- app_assoc, zlen_app. Qed.

Lemma trailer_small : zlen TRAILER + 1 < 2 ^ 32 /\ zlen (@nil Z) < 2 ^ 32.
Proof using Type. done. Qed.

Lemma zlen_newc_min f : 110 <= zlen (newc f).
Proof using Type.
  destruct (newc_aligned f) as (_ & _ & H). rewrite zlen_newc.
  pose proof (zlen_nonneg (f_data f)). pose proof (Z.mod_pos_bound (- zlen (f_data f)) 4 eq_refl). lia.
Qed.

Lemma zlen_archive_min fs : 110 <= zlen (archive fs).
Proof using Type.
  unfold archive. rewrite zlen_app. pose proof (zlen_newc_min (mkFile TRAILER [])).
  pose proof (zlen_nonneg (fs ≫= newc)). lia.
Qed.

(** One induction for both readers: a loop that at each header either stops or goes on
    behind the file is a recursion over the files. *)
Lemma entries_loop_archive fuel off fs :
  Forall file_ok fs -> 0 <= off -> off mod 4 = 0 ->
  holds m (base + off) (archive fs) -> off + zlen (archive fs) <= len ->
  (0 < fuel)%nat -> len - off < 110 * Z.of_nat fuel ->
  entries_loop fuel m base len off = Some (layout off fs).
Proof using Ha.
  destruct Ha as [Hb Hlen]. intros Hok. revert fuel off.
  induction Hok as [ | f fs (Hf1 & Hf2 & Hf3) Hok IH];
    intros fuel off Ho Hal Hh Hl H0 Hfu; (destruct fuel as [ | fuel]; [lia | ]); cbn [entries_loop].
  - unfold archive in Hh, Hl. cbn in Hh, Hl. pose proof (zlen_newc_min (mkFile TRAILER [])).
    destruct trailer_small. rewrite wrap_small by zlia. rewrite (proj2 (Z.leb_le _ _)) by lia.
    by rewrite (ramfs_round_newc off (mkFile TRAILER [])).
  - rewrite zlen_archive_cons in Hl. apply holds_archive_cons in Hh as [Hh1 Hh2].
    pose proof (zlen_newc_min f). pose proof (zlen_nonneg (archive fs)).
    rewrite wrap_small by zlia. rewrite (proj2 (Z.leb_le _ _)) by lia.
    rewrite (ramfs_round_newc off f), bool_decide_eq_false_2 by (done || lia).
    rewrite IH; [done | lia | | done | lia | lia | lia].
    destruct (newc_aligned f) as (_ & Hz & _). by rewrite Z.add_mod, Hal, Hz.
Qed.

Lemma cpio_loop_archive fuel want off fs :
  Forall file_ok fs -> zlen want < 2 ^ 32 -> 0 <= off -> off mod 4 = 0 ->
  holds m (base + off) (archive fs) -> off + zlen (archive fs) <= len ->
  (0 < fuel)%nat -> len - off < 110 * Z.of_nat fuel ->
  cpio_loop fuel m base len want off =
    Some (data ∘ snd <$> list_find (fun e => spelled want (name e)) (layout off fs)).
Proof using Ha.
  destruct Ha as [Hb Hlen]. intros Hok Hw. revert fuel off.
  induction Hok as [ | f fs (Hf1 & Hf2 & Hf3) Hok IH];
    intros fuel off Ho Hal Hh Hl H0 Hfu; (destruct fuel as [ | fuel]; [lia | ]); cbn [cpio_loop].
  - unfold archive in Hh, Hl. cbn in Hh, Hl. pose proof (zlen_newc_min (mkFile TRAILER [])).
    destruct trailer_small. rewrite wrap_small by zlia. rewrite (proj2 (Z.leb_le _ _)) by lia.
    by rewrite (cpio_round_newc want off (mkFile TRAILER [])).
  - rewrite zlen_archive_cons in Hl. apply holds_archive_cons in Hh as [Hh1 Hh2].
    pose proof (zlen_newc_min f). pose proof (zlen_nonneg (archive fs)).
    rewrite wrap_small by zlia. rewrite (proj2 (Z.leb_le _ _)) by lia.
    rewrite (cpio_round_newc want off f), bool_decide_eq_false_2 by (done || lia).
    cbn [layout list_find]. change (name (entry_of off f)) with (f_name f).
    destruct (spelled want (f_name f)) eqn:Es.
    { by rewrite decide_True. }
    rewrite decide_False by (by intros []). cbn. rewrite IH; [ | lia | | done | lia | lia | lia].
    + by destruct (list_find _ _) as [[] | ].
    + destruct (newc_aligned f) as (_ & Hz & _). by rewrite Z.add_mod, Hal, Hz.
Qed.

(** The entry that stands for a file. *)
Definition stands_for (f : File) (e : Entry) : Prop :=
  name e = f_name f /\ size e = zlen (f_data f) /\ ld_bytes m (data e) (size e) = f_data f.

Lemma layout_stands_for off fs :
  holds m (base + off) (archive fs) -> Forall2 stands_for fs (layout off fs).
Proof using Type.
  revert off. induction fs as [ | f fs IH]; intros off Hh; [constructor | ].
  apply holds_archive_cons in Hh as [Hh1 Hh2]. cbn. constructor; [ | by apply IH].
  split; [done | split; [done | ]]. by destruct (newc_parts _ _ _ Hh1) as (_ & _ & Hd).
Qed.
End RoundTrip.

Lemma entries_archive m base len fs :
  archive_ok base len -> Forall file_ok fs -> holds m base (archive fs) ->
  zlen (archive fs) <= len -> entries m base len = Some (layout base 0 fs).
Proof.
  intros Ha Hok Hh Hl. pose proof (zlen_archive_min fs) as Hmin.
  unfold entries. destruct Ha as [Hb Hlen].
  replace (base =? 0) with false by lia. replace (len <? 110) with false by lia. cbn [orb].
  apply entries_loop_archive; [done | done | lia | done | by rewrite Z.add_0_r | lia |
    unfold rounds; lia | rewrite Z.sub_0_r; apply rounds_enough; lia].
Qed.

Lemma cpio_find_archive m base len want fs :
  archive_ok base len -> Forall file_ok fs -> zlen want < 2 ^ 32 -> holds m base (archive fs) ->
  zlen (archive fs) <= len ->
  cpio_find m base len want =
    Some (data ∘ snd <$> list_find (fun e => spelled want (name e)) (layout base 0 fs)).
Proof.
  intros Ha Hok Hw Hh Hl. pose proof (zlen_archive_min fs) as Hmin.
  unfold cpio_find. destruct Ha as [Hb Hlen].
  replace (base =? 0) with false by lia. replace (len <? 110) with false by lia. cbn [orb].
  apply cpio_loop_archive; [done | done | done | lia | done | by rewrite Z.add_0_r | lia |
    unfold rounds; lia | rewrite Z.sub_0_r; apply rounds_enough; lia].
Qed.

(** [C16] Reading back what was packed: if the image holds a newc archive of the files
    [fs] (names other than TRAILER!!!, sizes that fit the 32-bit fields), the ramdisk
    lists exactly these files, in order, under their names, with their sizes, and the
    bytes at each entry's address are the contents of the file. *)
Theorem ramfs_round_trip m base len fs :
  archive_ok base len -> Forall file_ok fs -> holds m base (archive fs) ->
  zlen (archive fs) <= len ->
  exists es, entries m base len = Some es /\ Forall2 (stands_for m) fs es.
Proof.
  intros Ha Hok Hh Hl. exists (layout base 0 fs).
  split; [by apply entries_archive | ]. apply layout_stands_for. by rewrite Z.add_0_r.
Qed.

(** ** The operations on the kernel's ramdisk *)

Lemma list_find_stands m (P : list Z -> bool) fs es :
  Forall2 (stands_for m) fs es ->
  match list_find (fun f => P (f_name f)) fs with
  | None => list_find (fun e => P (name e)) es = None
  | Some (i, f) => exists e, list_find (fun e => P (name e)) es = Some (i, e) /\ stands_for m f e
  end.
Proof.
  induction 1 as [ | f e fs es Hs HF IH]; [done | ]. destruct Hs as (Hn & Hsz & Hd).
  cbn. rewrite Hn. destruct (decide (P (f_name f))).
  - by exists e.
  - destruct (list_find _ fs) as [[i g] | ]; cbn.
    + destruct IH as (x & -> & Hx). by exists x.
    + by rewrite IH.
Qed.

Lemma find_closure_some want r es : fold_left (find_closure want) es (Some r) = Some r.
Proof. by induction es. Qed.

Lemma find_closure_first want es :
  fold_left (find_closure want) es None =
    (fun p => (data (snd p), size (snd p))) <$> list_find (fun e => bool_decide (name e = want)) es.
Proof.
  induction es as [ | e es IH]; [done | ]. cbn. case_bool_decide as E.
  - rewrite find_closure_some, decide_True by done. done.
  - rewrite IH, decide_False by (by intros []). by destruct (list_find _ es) as [[] | ].
Qed.

Section InitrdProps.
Context {D : Type} {HW : Hardware D} {CR : Crates D}.
Implicit Types w : World D.

(** The ramdisk of [w] holds an archive of [fs]. *)
Definition packed (fs : list File) (w : World D) : Prop :=
  archive_ok (INITRD_BASE (w_link w)) (INITRD_LEN (w_link w)) /\ Forall file_ok fs /\
  holds (w_mem w) (INITRD_BASE (w_link w)) (archive fs) /\
  zlen (archive fs) <= INITRD_LEN (w_link w).

Lemma packed_entries fs w :
  packed fs w ->
  exists es, entries (w_mem w) (INITRD_BASE (w_link w)) (INITRD_LEN (w_link w)) = Some es /\
    es = layout (INITRD_BASE (w_link w)) 0 fs /\ Forall2 (stands_for (w_mem w)) fs es.
Proof.
  intros (Ha & Hok & Hh & Hl). exists (layout (INITRD_BASE (w_link w)) 0 fs).
  split; [by apply entries_archive | split; [done | ]].
  apply layout_stands_for. by rewrite Z.add_0_r.
Qed.

(** Looking a file up: on a packed ramdisk, [find] returns the address and the size
    of the first file with exactly the given name, with the file's contents at that
    address, and [None] when there is no such file; it changes nothing. *)
Theorem ramfs_find_first fs path w :
  packed fs w ->
  exists r, find path w = Ret r w /\
  match list_find (fun f => bool_decide (f_name f = path)) fs with
  | None => r = None
  | Some (_, f) => exists p, r = Some (p, zlen (f_data f)) /\ holds (w_mem w) p (f_data f)
  end.
Proof.
  intros Hp. destruct (packed_entries fs w Hp) as (es & E & _ & HF).
  unfold find, gets, mbind, K_bind, kbind. rewrite E.
  eexists. split; [reflexivity | ]. rewrite find_closure_first.
  pose proof (list_find_stands _ (fun n => bool_decide (n = path)) _ _ HF) as H. cbn in H.
  destruct (list_find (fun f => bool_decide (f_name f = path)) fs) as [[i f] | ].
  - destruct H as (e & -> & Hn & Hs & Hd). exists (data e). cbn. rewrite Hs in *. done.
  - by rewrite H.
Qed.

Lemma layout_bounds base off fs e :
  0 <= off -> e ∈ layout base off fs ->
  base + off <= data e /\ data e + size e + 110 <= base + off + zlen (archive fs).
Proof.
  revert off. induction fs as [ | f fs IH]; intros off Ho; cbn [layout]; [by rewrite elem_of_nil | ].
  rewrite zlen_archive_cons, zlen_newc, elem_of_cons.
  pose proof (zlen_nonneg (f_data f)). pose proof (Z.mod_pos_bound (- zlen (f_data f)) 4 eq_refl).
  destruct (newc_aligned f) as (_ & _ & Hm).
  pose proof (zlen_archive_min fs) as Hmin.
  intros [-> | He]; [cbn; lia | ]. apply IH in He; lia.
Qed.

(** [C34] Finding the model: on a packed ramdisk and with no model set, the loader takes the
    first file named "ai.mod" or "./ai.mod"; if the 16 bytes there are a valid header it
    becomes the model, otherwise (and when there is no such file) nothing changes.  The
    recorded length is the rest of the image from there on, which is always more than
    the size of the file. *)
Theorem model_from_initrd fs w :
  packed fs w -> AI_MODEL_ADDR (w_link w) = 0 ->
  let base := INITRD_BASE (w_link w) in
  let len := INITRD_LEN (w_link w) in
  exists w', try_set_model_from_initrd w = Ret tt w' /\
  match list_find (fun f => spelled (bytes_of "ai.mod") (f_name f)) fs with
  | None => w' = w
  | Some (_, f) => exists p h,
      holds (w_mem w) p (f_data f) /\ read_unaligned (w_mem w) p 16 = Some h /\
      zlen (f_data f) < base + len - p /\
      w' = if valid h then set_link (mkLink p (base + len - p) base len) w else w
  end.
Proof.
  intros Hp H0 base len. destruct (packed_entries fs w Hp) as (es & E & -> & HF).
  destruct Hp as (Ha & Hok & Hh & Hl). fold base len in Ha, Hh, Hl, HF.
  unfold try_set_model_from_initrd, gets, mbind, K_bind, kbind. fold base len.
  pose proof (zlen_archive_min fs) as Hmin.
  rewrite H0. unfold ModelHeader_SIZE. destruct Ha as [Hb Hlen].
  replace (base =? 0) with false by lia. replace (16 <=? len) with true by lia. cbn [Z.eqb negb andb].
  rewrite (cpio_find_archive _ _ _ _ fs) by done.
  pose proof (list_find_stands _ (spelled (bytes_of "ai.mod")) _ _ HF) as H.
  destruct (list_find (fun f => spelled _ (f_name f)) fs) as [[i f] | ]; cbn.
  2:{ rewrite H. cbn. by exists w. }
  destruct H as (e & He & Hn & Hs & Hd). rewrite He. cbn.
  apply list_find_Some in He as (He & _ & _). apply list_elem_of_lookup_2 in He.
  apply layout_bounds in He as [Hlo Hhi]; [ | lia]. rewrite Z.add_0_r in *.
  assert (exists h, read_unaligned (w_mem w) (data e) 16 = Some h) as [h ER].
  { unfold read_unaligned. replace (data e =? 0) with false by lia. by eexists. }
  rewrite ER. rewrite Hs in *. pose proof (zlen_nonneg (f_data f)).
  replace (sat_sub len (sat_sub (data e) base)) with (base + len - data e) by (unfold sat_sub; lia).
  destruct (valid h) eqn:Hv; eexists; (split; [reflexivity | ]); exists (data e), h;
    rewrite Hv; (split; [exact Hd | split; [exact ER | split; [lia | done]]]).
Qed.
End InitrdProps.

(** *** Witnesses: an archive of two files at address 0x200000 *)

Definition sample_files : list File :=
  [mkFile (bytes_of "readme") (bytes_of "hello");
   mkFile (bytes_of "./ai.mod") (bytes_of "AIMD" ++ [1; 0; 4; 0; 0; 0; 0; 0; 0; 0; 0; 0] ++ replicate 32 1)].

Definition sample_base : Z := 0x200000.
Definition sample_len : Z := zlen (archive sample_files).
Definition sample_mem : memory := st_bytes sample_base (archive sample_files) ∅.

Lemma sample_archive_ok : archive_ok sample_base sample_len.
Proof. split; [reflexivity | ]. split; [discriminate | reflexivity]. Qed.

Lemma sample_files_ok : Forall file_ok sample_files.
Proof. repeat constructor; discriminate || reflexivity. Qed.

Lemma sample_holds : holds sample_mem sample_base (archive sample_files).
Proof. vm_compute. reflexivity. Qed.

Lemma ramfs_entries_in_bounds_witness :
  exists es, entries sample_mem sample_base sample_len = Some es /\
             Forall (inside sample_base sample_len) es /\ ascending es.
Proof. apply (ramfs_entries_in_bounds sample_mem sample_base sample_len), sample_archive_ok. Defined.

Lemma initrd_reads_only_image_witness :
  entries sample_mem sample_base sample_len = entries (<[0 := 7]> sample_mem) sample_base sample_len /\
  cpio_find sample_mem sample_base sample_len (bytes_of "readme") =
    cpio_find (<[0 := 7]> sample_mem) sample_base sample_len (bytes_of "readme") /\
  exists r, cpio_find sample_mem sample_base sample_len (bytes_of "readme") = Some r /\
            (forall p, r = Some p -> sample_base + 110 <= p <= sample_base + sample_len).
Proof.
  apply (initrd_reads_only_image sample_mem (<[0 := 7]> sample_mem) sample_base sample_len).
  - apply sample_archive_ok.
  - intros a Ha. unfold ld8. rewrite lookup_insert_ne; [reflexivity | ].
    unfold sample_base in Ha. lia.
Defined.

Lemma ramfs_round_trip_witness :
  exists es, entries sample_mem sample_base sample_len = Some es /\
             Forall2 (stands_for sample_mem) sample_files es.
Proof.
  apply (ramfs_round_trip sample_mem sample_base sample_len sample_files).
  - apply sample_archive_ok.
  - apply sample_files_ok.
  - apply sample_holds.
  - unfold sample_len. lia.
Defined.

Definition sample_world : World Sim :=
  set_mem sample_mem (set_link (mkLink 0 0 sample_base sample_len) sim_boot).

Lemma sample_packed : packed sample_files sample_world.
Proof.
  split; [apply sample_archive_ok | ]. split; [apply sample_files_ok | ].
  split; [apply sample_holds | exact (Z.le_refl sample_len)].
Qed.

Lemma ramfs_find_first_witness :
  exists r, find (bytes_of "readme") sample_world = Ret r sample_world /\
  exists p, r = Some (p, zlen (bytes_of "hello")) /\ holds sample_mem p (bytes_of "hello").
Proof. apply (ramfs_find_first sample_files (bytes_of "readme") sample_world), sample_packed. Defined.

Lemma model_from_initrd_witness :
  exists w', try_set_model_from_initrd sample_world = Ret tt w' /\
  exists p h,
    holds sample_mem p (f_data (nth 1 sample_files (mkFile [] []))) /\
    read_unaligned sample_mem p 16 = Some h /\
    zlen (f_data (nth 1 sample_files (mkFile [] []))) < sample_base + sample_len - p /\
    w' = if valid h then set_link (mkLink p (sample_base + sample_len - p) sample_base sample_len)
                                  sample_world else sample_world.
Proof.
  apply (model_from_initrd sample_files sample_world).
  - apply sample_packed.
  - reflexivity.
Defined.
