(* ===== verification/AiAgent.v ===== *)
(** * The AI agent (kernel/src/ai_agent.rs)

    A small quantised network, or a heuristic when there are no weights, turns
    telemetry into an action that is proposed to [ApplyAction]. *)

From S2P Require Import Prelude XhciData State Sim Fmt Serial Vga Keyboard Pic Idt Pmm Task.
From S2P Require Import Journal ApplyAction AiModel.
From stdpp Require Import gmap list strings.
From Stdlib Require Import ZArith Lia.

Open Scope Z_scope.

(** ** Configuration

    The constants the cargo features [ai_cfg_aggr] and [ai_cfg_conservative] select. *)

Record Config : Type := mkConfig {
  REQUANT_SHIFT : Z; QUANTUM_BASE_US : Z; QUANTUM_SCALE : Z;
  MEM_LOW_KB : Z; PF_RATE_THRESH : Z
}.

Definition cfg_default : Config := mkConfig 6 1000 20 (8 * 1024) 0.
Definition cfg_aggr : Config := mkConfig 5 800 30 (8 * 1024) 0.
Definition cfg_conservative : Config := mkConfig 6 1500 10 (16 * 1024) 1.

Definition configs : list Config := [cfg_default; cfg_aggr; cfg_conservative].

Definition TRIM_BYTES : Z := 1 * 1024 * 1024.

Record Telemetry : Type := mkTelemetry {
  irq_errors : Z; runq : Z; irq_rate : Z; free_kb : Z; pf_rate : Z
}.

(** ** Inference *)

(** [acc += a * b] over a row of the matrix; an index out of [xbuf] would panic. *)
Definition dot_step (m : memory) (w_row : Z) (xbuf : list Z) (acc : option Z) (p : Z)
  : option Z :=
  match acc, xbuf !! Z.to_nat p with
  | Some acc, Some b => Some (i32 (acc + i32 (i8 (ld8 m (w_row + p)) * b)))
  | _, _ => None
  end.

Definition dot (m : memory) (w_row in_dim : Z) (xbuf : list Z) : option Z :=
  fold_left (dot_step m w_row xbuf) (seqZ 0 in_dim) (Some 0).

(** [for oi in 0..out_dim]: one output neuron per round, written through [out_ptr]. *)
Definition neuron (m : memory) (w_ptr b_ptr in_dim : Z) (xbuf : list Z)
    (scratch : option (list Z)) (oi : Z) : option (list Z) :=
  match scratch, dot m (w_ptr + oi * in_dim) in_dim xbuf with
  | Some scratch, Some acc =>
      let acc := if negb (b_ptr =? 0)
                 then sat_add_i32 acc (i32 (ld 4 m (b_ptr + 4 * oi))) else acc in
      Some (<[Z.to_nat oi := acc]> scratch)
  | _, _ => None
  end.

(** ReLU and requantisation of one neuron. *)
Definition requant (cfg : Config) (scratch : list Z) (xbuf : option (list Z)) (oi : Z)
  : option (list Z) :=
  match xbuf, scratch !! Z.to_nat oi with
  | Some xbuf, Some v =>
      let v := if v <? 0 then 0 else v in
      let v := Z.shiftr v (REQUANT_SHIFT cfg) in
      let v := if v >? 127 then 127 else v in
      if oi <? 256 then Some (<[Z.to_nat oi := i8 v]> xbuf) else None
  | _, _ => None
  end.

Inductive LayerStep : Type :=
| LBreak
| LNext (xbuf : list Z) (x_len : Z) (scratch : list Z)
| LPanic.

Definition layer (cfg : Config) (m : memory) (h : ModelHeader) (model_addr l : Z)
    (xbuf : list Z) (x_len : Z) (scratch : list Z) : LayerStep :=
  match layer_dims h l with
  | None => LBreak
  | Some (in_dim, out_dim) =>
    if (x_len <? in_dim) || (256 <? out_dim) || (in_dim =? 0) || (out_dim =? 0) then LBreak
    else
      let w_ptr := default 0 (layer_ptr_int8 model_addr h l) in
      let b_ptr := default 0 (bias_ptr_i32 model_addr h l) in
      if w_ptr =? 0 then LBreak
      else
        match fold_left (neuron m w_ptr b_ptr in_dim xbuf) (seqZ 0 out_dim) (Some scratch) with
        | None => LPanic
        | Some scratch' =>
            match fold_left (requant cfg scratch') (seqZ 0 out_dim) (Some xbuf) with
            | None => LPanic
            | Some xbuf' => LNext xbuf' out_dim scratch'
            end
        end
  end.

(** [for l in 0..nl]; [None] is a panic. *)
Fixpoint layers (cfg : Config) (m : memory) (h : ModelHeader) (model_addr : Z) (ls : list Z)
    (xbuf : list Z) (x_len : Z) (scratch : list Z) : option (list Z * Z * list Z) :=
  match ls with
  | [] => Some (xbuf, x_len, scratch)
  | l :: ls' =>
      match layer cfg m h model_addr l xbuf x_len scratch with
      | LBreak => Some (xbuf, x_len, scratch)
      | LNext xbuf' x_len' scratch' => layers cfg m h model_addr ls' xbuf' x_len' scratch'
      | LPanic => None
      end
  end.

(** The input features. *)
Definition features (h : ModelHeader) (tel : Telemetry) : list Z :=
  let slice_len := Z.min (hidden h) 256 in
  let in_slice := replicate (Z.to_nat slice_len) 0 in
  let put i v s := if i <? slice_len then <[Z.to_nat i := i8 v]> s else s in
  put 3 (Z.min (pf_rate tel) 127)
    (put 2 (Z.min (free_kb tel / 1024) 127)
       (put 1 (Z.min (irq_rate tel) 127)
          (put 0 (Z.min (runq tel) 127) in_slice))).

Definition heuristic_score (tel : Telemetry) : Z :=
  let free_mb := i32 (free_kb tel / 1024) in
  let score := i32 (i32 (i32 (i32 (runq tel) + Z.quot (i32 (irq_rate tel)) 2)
                         - i32 (pf_rate tel)) - Z.quot free_mb 8) in
  let score := if score <? -127 then -127 else score in
  if score >? 127 then 127 else score.

Definition quantum_of_score (cfg : Config) (score : Z) : Z :=
  let quantum := i32 (QUANTUM_BASE_US cfg + i32 (score * QUANTUM_SCALE cfg)) in
  let quantum := if quantum <? 100 then 100 else quantum in
  if quantum >? 50000 then 50000 else quantum.

Definition has_weights (h : ModelHeader) (model_len : Z) : bool :=
  let need := match compute h with
              | Some total => u64 (total + PAYLOAD_OFFSET) | None => 0 end in
  (PAYLOAD_OFFSET <? need) && (need <=? model_len).

Definition infer_and_propose (cfg : Config) (m : memory) (model_len : Z) (h : ModelHeader)
    (tel : Telemetry) (scratch : list Z) (model_addr : Z) : option (Action * list Z) :=
  let in_slice := features h tel in
  let hw := has_weights h model_len in
  let xbuf := in_slice ++ drop (length in_slice) (replicate 256 0) in
  let x_len := Z.of_nat (length in_slice) in
  match
    (if hw && (dtype h =? 0)
     then layers cfg m h model_addr (seqZ 0 (n_layers h)) xbuf x_len scratch
     else Some (xbuf, x_len, scratch))
  with
  | None => None
  | Some (xbuf, x_len, scratch) =>
      match (if 0 <? x_len then xbuf !! 0%nat else Some 0) with
      | None => None
      | Some score =>
          let score := if negb hw then heuristic_score tel else score in
          if (free_kb tel <? MEM_LOW_KB cfg) || (PF_RATE_THRESH cfg <? pf_rate tel) then
            Some (mkAction (ActionType_as_u8 TrimCache) REQUIRES_SNAPSHOT [0; 0] TRIM_BYTES 0 0,
                  scratch)
          else
            Some (mkAction (ActionType_as_u8 SetQuantum) REQUIRES_SNAPSHOT [0; 0]
                           (u64 (quantum_of_score cfg score)) 0 0, scratch)
      end
  end.

(** The reference multiplication kernel, [out = a * b] with [a] of [m x k] and [b] of
    [k x n] bytes, [out] of 32-bit words. *)
Definition matmul_acc (mem : memory) (a_row b n j acc p : Z) : Z :=
  i32 (acc + i32 (i8 (ld8 mem (a_row + p)) * i8 (ld8 mem (b + u64 (u64 (p * n) + j))))).

Definition matmul_cell (a b out n k i : Z) (mem : memory) (j : Z) : memory :=
  let a_row := a + u64 (i * k) in
  let acc := fold_left (matmul_acc mem a_row b n j) (seqZ 0 k) 0 in
  st 4 (out + 4 * u64 (u64 (i * n) + j)) acc mem.

Definition matmul_int8 (a b out m n k : Z) (mem : memory) : memory :=
  fold_left (fun mem i => fold_left (matmul_cell a b out n k i) (seqZ 0 n) mem) (seqZ 0 m) mem.

(** ** The agent's steps *)

(** [#[repr(C)]] stores of an action, and of a default [ActionOutcome]. *)
Definition store_action (p : Z) (a : Action) (m : memory) : memory :=
  st 8 (p + 24) (param3 a) (st 8 (p + 16) (param2 a) (st 8 (p + 8) (param1 a)
    (st_bytes (p + 2) (_r a) (st 1 (p + 1) (flags a) (st 1 p (kind a) m))))).

Definition store_default_outcome (p : Z) (m : memory) : memory :=
  st_bytes p (replicate 16 0) m.

Section Agent.
Context {D : Type} {HW : Hardware D} {CR : Crates D}.
Abbreviation KW := (K (World D)).
Variable cfg : Config.

(** [loop { hlt }]: interrupts are still served, the code does nothing more. *)
Definition idle_hlt {A} : KW A := khalt.

Definition load_model (addr : Z) : KW (option Z) :=
  m ← gets w_mem;
  mret (match read_unaligned m addr 16 with
        | None => None
        | Some hdr => if negb (valid hdr) then None
                      else if addr =? 0 then None else Some addr
        end).

(** Returns the telemetry and the new values of [prev_ticks] and [prev_pf]. *)
Definition gather_telemetry (prev_ticks prev_pf : Z) : KW (Telemetry * Z * Z) :=
  ticks ← timer_ticks;
  let rate := u32 (sat_sub ticks prev_ticks) in
  pf ← page_faults;
  let pf_rate := u32 (sat_sub pf prev_pf) in
  kib ← free_kib;
  n ← runqueue_len;
  mret (mkTelemetry 0 (u32 n) rate (u32 kib) pf_rate, ticks, pf).

Definition set_agent_state (s : AgentState) : KW unit :=
  modify (fun w => set_agent (mkAgentStatics (AI_RUNNING (w_agent w)) (Some s)) w).

Definition ensure_init : KW bool :=
  ag ← gets w_agent;
  match AGENT_STATE ag with
  | Some _ => mret true
  | None =>
      link ← gets w_link;
      model ← load_model (AI_MODEL_ADDR link);
      match model with
      | None => mret false
      | Some p =>
          m ← gets w_mem;
          match read_unaligned m p 16 with
          | None => mret false
          | Some h =>
              t ← timer_ticks;
              pf ← page_faults;
              set_agent_state (mkAgent h p t pf (replicate 1024 0)) ;;
              mret true
          end
      end
  end.

(** [step], whose locals [action] and [outcome] live at the addresses [sa] and [so]. *)
Definition step (sa so : Z) : KW unit :=
  ok ← ensure_init;
  if negb ok then mret tt
  else
    ag ← gets w_agent;
    if negb (AI_RUNNING ag) then mret tt
    else
      match AGENT_STATE ag with
      | None => kpanic
      | Some s =>
          '(tel, ticks, pf) ← gather_telemetry (prev_ticks s) (prev_pf s);
          m ← gets w_mem;
          link ← gets w_link;
          match infer_and_propose cfg m (AI_MODEL_LEN link) (hdr s) tel (scratch s) (model_ptr s) with
          | None => kpanic
          | Some (action, scratch') =>
              set_agent_state (mkAgent (hdr s) (model_ptr s) ticks pf scratch') ;;
              if has (flags action) NEEDS_MANUAL_CONFIRM then mret tt
              else
                modify (fun w => set_mem (store_default_outcome so
                                            (store_action sa action (w_mem w))) w) ;;
                ai_propose_action sa so ;; mret tt
          end
      end.

(** A round of the loop of [ai_agent_main]: it proposes an action, then halts until an
    interrupt.  The state is that of the function's locals. *)
Definition agent_round (h : ModelHeader) (model_addr sa so : Z) (ticks pf : Z) (scr : list Z)
  : KW (Z * Z * list Z) :=
  '(tel, ticks, pf) ← gather_telemetry ticks pf;
  m ← gets w_mem;
  link ← gets w_link;
  match infer_and_propose cfg m (AI_MODEL_LEN link) h tel scr model_addr with
  | None => kpanic
  | Some (action, scr) =>
      (if has (flags action) NEEDS_MANUAL_CONFIRM then mret tt
       else
         modify (fun w => set_mem (store_default_outcome so
                                     (store_action sa action (w_mem w))) w) ;;
         ai_propose_action sa so ;; mret tt) ;;
      preempt ;;
      mret (ticks, pf, scr)
  end.

Fixpoint agent_loop (fuel : nat) (h : ModelHeader) (model_addr sa so : Z) (ticks pf : Z)
    (scr : list Z) : KW unit :=
  ag ← gets w_agent;
  if negb (AI_RUNNING ag) then idle_hlt
  else
    match fuel with
    | O => kfuel
    | S f =>
        '(ticks, pf, scr) ← agent_round h model_addr sa so ticks pf scr;
        agent_loop f h model_addr sa so ticks pf scr
    end.

Definition ai_agent_main (fuel : nat) (model_addr sa so : Z) : KW unit :=
  model ← load_model model_addr;
  match model with
  | None => idle_hlt
  | Some p =>
      m ← gets w_mem;
      match read_unaligned m p 16 with
      | None => idle_hlt
      | Some h =>
          t ← timer_ticks;
          pf ← page_faults;
          agent_loop fuel h p sa so t pf (replicate 1024 0)
      end
  end.

End Agent.

(** ** The arithmetic of the network is exact *)

Definition i8_range (x : Z) : Prop := -128 <= x <= 127.

(** The rows of the matrix times the input, in unbounded integers. *)
Definition dot_ref (m : memory) (w_row in_dim : Z) (xbuf : list Z) : Z :=
  fold_left (fun acc p => acc + i8 (ld8 m (w_row + p)) * default 0 (xbuf !! Z.to_nat p))
            (seqZ 0 in_dim) 0.

Lemma i8_is_i8 z : i8_range (i8 z).
Proof. pose proof (swrap_range 8 z ltac:(lia)). unfold i8_range. zlia. Qed.

Lemma i8_mul_bound a b : i8_range a -> i8_range b -> - 16384 <= a * b <= 16384.
Proof. unfold i8_range. nia. Qed.

Lemma dot_exact m w_row in_dim xbuf :
  0 <= in_dim <= 256 -> in_dim <= Z.of_nat (length xbuf) -> Forall i8_range xbuf ->
  dot m w_row in_dim xbuf = Some (dot_ref m w_row in_dim xbuf) /\
  - in_dim * 16384 <= dot_ref m w_row in_dim xbuf <= in_dim * 16384.
Proof.
  intros Hd Hl Hx. destruct Hd as [H0 Hd]. revert Hd Hl.
  pattern in_dim. apply natlike_ind; [done | | done].
  intros k Hk IH Hd Hl. change (Z.succ k) with (k + 1) in *.
  destruct IH as [IH IB]; [lia | lia | ]. unfold dot, dot_ref in *.
  rewrite seqZ_snoc, !fold_left_app, IH by done. cbn [fold_left].
  set (acc := fold_left _ _ 0) in *.
  destruct (lookup_lt_is_Some_2 xbuf (Z.to_nat k)) as [b Hb]; [lia | ].
  cbn [dot_step]. rewrite Hb. cbn [default from_option id].
  assert (i8_range b) as Hbr by (by eapply Forall_lookup_1).
  pose proof (i8_mul_bound _ _ (i8_is_i8 (ld8 m (w_row + k))) Hbr).
  rewrite !swrap_small by (try lia; rewrite ?swrap_small by (try lia; zlia); zlia). split; [done | lia].
Qed.

(** The i32 before activation of neuron [oi]. *)
Definition pre_act (m : memory) (w_ptr b_ptr in_dim : Z) (xbuf : list Z) (oi : Z) : Z :=
  sat_add_i32 (dot_ref m (w_ptr + oi * in_dim) in_dim xbuf) (i32 (ld 4 m (b_ptr + 4 * oi))).

Definition activation (cfg : Config) (v : Z) : Z :=
  Z.min 127 (Z.shiftr (Z.max 0 v) (REQUANT_SHIFT cfg)).

(** A loop that overwrites the first [n] cells of a list, cell by cell. *)
Lemma fill_loop (step : option (list Z) -> Z -> option (list Z)) (g : Z -> Z) n l :
  0 <= n <= Z.of_nat (length l) ->
  (forall l' i, 0 <= i < n -> length l' = length l ->
                step (Some l') i = Some (<[Z.to_nat i := g i]> l')) ->
  exists l', fold_left step (seqZ 0 n) (Some l) = Some l' /\ length l' = length l /\
    (forall i, 0 <= i < n -> l' !! Z.to_nat i = Some (g i)) /\
    (forall i, n <= i -> l' !! Z.to_nat i = l !! Z.to_nat i).
Proof.
  intros [H0 Hn] Hs. revert Hn Hs. pattern n. apply natlike_ind; [ | | done].
  - intros _ _. exists l. split; [done | split; [done | split; [lia | done]]].
  - intros k Hk IH Hn Hs. change (Z.succ k) with (k + 1) in *.
    destruct IH as (l' & E & Hl & Hlo & Hhi); [lia | intros; apply Hs; [lia | done] | ].
    exists (<[Z.to_nat k := g k]> l'). rewrite seqZ_snoc, fold_left_app, E by done. cbn [fold_left].
    split; [apply Hs; [lia | done] | ]. split; [by rewrite length_insert | ]. split.
    + intros i Hi. destruct (decide (i = k)) as [-> | Hne].
      * rewrite list_lookup_insert_eq by lia. done.
      * rewrite list_lookup_insert_ne by lia. apply Hlo. lia.
    + intros i Hi. rewrite list_lookup_insert_ne by lia. apply Hhi. lia.
Qed.

Lemma activation_range cfg v : 0 <= REQUANT_SHIFT cfg -> 0 <= activation cfg v <= 127.
Proof.
  intros Hs. unfold activation. pose proof (Z.shiftr_nonneg (Z.max 0 v) (REQUANT_SHIFT cfg)). lia.
Qed.

Lemma requant_step cfg (scratch l : list Z) v oi :
  0 <= REQUANT_SHIFT cfg -> 0 <= oi < 256 -> scratch !! Z.to_nat oi = Some v ->
  requant cfg scratch (Some l) oi = Some (<[Z.to_nat oi := activation cfg v]> l).
Proof.
  intros Hs Hoi Hv. cbn. rewrite Hv. replace (oi <? 256) with true by lia. do 2 f_equal.
  pose proof (activation_range cfg v Hs) as Ha. unfold activation in *.
  replace (if v <? 0 then 0 else v) with (Z.max 0 v) by (destruct (Z.ltb_spec v 0); lia).
  set (x := Z.shiftr _ _) in *.
  replace (if x >? 127 then 127 else x) with (Z.min 127 x)
    by (destruct (Z.gtb_spec x 127); lia).
  rewrite swrap_small; [done | done | ]. zlia.
Qed.

(** The buffers between layers. *)
Definition bufs_ok (xbuf : list Z) (x_len : Z) (scr : list Z) : Prop :=
  length xbuf = 256%nat /\ Forall i8_range xbuf /\ 0 <= x_len <= 256 /\ length scr = 1024%nat.

(** The guard of a layer. *)
Definition layer_runs (h : ModelHeader) (l x_len : Z) : bool :=
  (l <? n_layers h) && (hidden h <=? x_len) && (out_dim_of h l <=? 256)
  && negb (hidden h =? 0) && negb (out_dim_of h l =? 0).

Lemma layer_spec cfg m h base l xbuf x_len scr :
  0 <= REQUANT_SHIFT cfg -> header_ok h -> dtype h = 0 -> 0 < base -> 0 <= l ->
  bufs_ok xbuf x_len scr ->
  if layer_runs h l x_len then
    exists xbuf' scr' w b,
      layer_ptr_int8 base h l = Some w /\ bias_ptr_i32 base h l = Some b /\
      layer cfg m h base l xbuf x_len scr = LNext xbuf' (out_dim_of h l) scr' /\
      bufs_ok xbuf' (out_dim_of h l) scr' /\
      (forall oi, 0 <= oi < out_dim_of h l ->
         xbuf' !! Z.to_nat oi = Some (activation cfg (pre_act m w b (hidden h) xbuf oi)))
  else layer cfg m h base l xbuf x_len scr = LBreak.
Proof.
  intros Hs Hh Hd Hb Hl (Hx1 & Hx2 & Hx3 & Hsc). unfold layer_runs, layer.
  destruct (Z.ltb_spec l (n_layers h)) as [Hln | Hln]; cbn [andb].
  2:{ unfold layer_dims. by replace (n_layers h <=? l) with true by lia. }
  destruct (layer_pointers base h l Hh Hd) as (Hw & Hbp & Hdim); [lia | ]. rewrite Hdim.
  pose proof (out_dim_range h l Hh). assert (0 <= hidden h) by apply Hh.
  destruct (Z.leb_spec (hidden h) x_len); cbn [andb].
  2:{ by replace (x_len <? hidden h) with true by lia. }
  replace (x_len <? hidden h) with false by lia. cbn [orb].
  destruct (Z.leb_spec (out_dim_of h l) 256); cbn [andb].
  2:{ by replace (256 <? out_dim_of h l) with true by lia. }
  replace (256 <? out_dim_of h l) with false by lia. cbn [orb].
  destruct (hidden h =? 0); cbn [negb andb orb]; [done | ].
  destruct (out_dim_of h l =? 0); cbn [negb orb]; [done | ].
  set (w := base + PAYLOAD_OFFSET + layer_start h l) in *.
  set (b := w + hidden h * out_dim_of h l) in *.
  rewrite Hw, Hbp. cbn [default from_option id].
  assert (0 < w /\ 0 < b) as [Hw0 Hb0].
  { pose proof (layer_start_mono h 0 l Hh ltac:(lia)) as Hm. change (layer_start h 0) with 0 in Hm.
    subst w b. unfold PAYLOAD_OFFSET. nia. }
  replace (w =? 0) with false by lia.
  destruct (fill_loop (neuron m w b (hidden h) xbuf) (pre_act m w b (hidden h) xbuf)
              (out_dim_of h l) scr) as (scr' & -> & Hsl & Hsv & _); [lia | | ].
  { intros l' i Hi _. cbn [neuron].
    destruct (dot_exact m (w + i * hidden h) (hidden h) xbuf) as [-> _]; [lia | lia | done | ].
    by replace (b =? 0) with false by lia. }
  destruct (fill_loop (requant cfg scr')
              (fun oi => activation cfg (pre_act m w b (hidden h) xbuf oi))
              (out_dim_of h l) xbuf) as (xbuf' & -> & Hxl & Hxv & Hxh); [lia | | ].
  { intros l' i Hi _. apply requant_step; [done | lia | by apply Hsv]. }
  exists xbuf', scr', w, b. do 3 (split; [done | ]). split; [ | done].
  split; [congruence | split; [ | split; [lia | congruence]]].
  apply Forall_lookup_2. intros i x Hi.
  destruct (Z.lt_ge_cases (Z.of_nat i) (out_dim_of h l)) as [Hlt | Hge].
  - specialize (Hxv (Z.of_nat i) ltac:(lia)). rewrite Nat2Z.id, Hi in Hxv. injection Hxv as ->.
    pose proof (activation_range cfg (pre_act m w b (hidden h) xbuf (Z.of_nat i)) Hs).
    unfold i8_range. lia.
  - specialize (Hxh (Z.of_nat i) Hge). rewrite Nat2Z.id, Hi in Hxh. symmetry in Hxh.
    by eapply Forall_lookup_1.
Qed.

Lemma configs_shift cfg : cfg ∈ configs -> 0 <= REQUANT_SHIFT cfg.
Proof.
  unfold configs. rewrite !elem_of_cons, elem_of_nil. by intros [-> | [-> | [-> | []]]].
Qed.

(** [C6] A layer of the network computes what it means to: whenever its guard lets it run,
    the 32-bit accumulators never wrap, no buffer index is out of range, and output
    [oi] is the exact product of row [oi] of the int8 matrix with the input, plus its
    bias (saturating), clipped below at 0, shifted right and clipped above at 127; a
    layer whose guard fails leaves the loop. *)
Theorem ai_layer_exact cfg m h base l xbuf x_len scr :
  cfg ∈ configs -> header_ok h -> dtype h = 0 -> 0 < base -> 0 <= l ->
  bufs_ok xbuf x_len scr ->
  if layer_runs h l x_len then
    exists xbuf' scr' w b,
      layer_ptr_int8 base h l = Some w /\ bias_ptr_i32 base h l = Some b /\
      layer cfg m h base l xbuf x_len scr = LNext xbuf' (out_dim_of h l) scr' /\
      bufs_ok xbuf' (out_dim_of h l) scr' /\
      (forall oi, 0 <= oi < out_dim_of h l ->
         xbuf' !! Z.to_nat oi = Some (activation cfg (pre_act m w b (hidden h) xbuf oi)))
  else layer cfg m h base l xbuf x_len scr = LBreak.
Proof.
  intros Hc. by apply layer_spec, configs_shift.
Qed.

Lemma layers_spec cfg m h base ls xbuf x_len scr :
  0 <= REQUANT_SHIFT cfg -> header_ok h -> dtype h = 0 -> 0 < base ->
  Forall (Z.le 0) ls -> bufs_ok xbuf x_len scr ->
  exists xbuf' x_len' scr',
    layers cfg m h base ls xbuf x_len scr = Some (xbuf', x_len', scr') /\
    bufs_ok xbuf' x_len' scr'.
Proof.
  intros Hs Hh Hd Hb Hls. revert xbuf x_len scr.
  induction Hls as [ | l ls Hl Hls IH]; intros xbuf x_len scr Hok; cbn [layers].
  - by exists xbuf, x_len, scr.
  - pose proof (layer_spec cfg m h base l xbuf x_len scr Hs Hh Hd Hb Hl Hok) as H.
    destruct (layer_runs h l x_len).
    + destruct H as (xbuf' & scr' & w & b & _ & _ & -> & Hok' & _). by apply IH.
    + rewrite H. by exists xbuf, x_len, scr.
Qed.

(** The features are a vector of at most 256 small integers. *)
Lemma features_ok h tel :
  header_ok h ->
  Z.of_nat (length (features h tel)) = Z.min (hidden h) 256 /\
  Forall i8_range (features h tel).
Proof.
  intros Hh. assert (0 <= hidden h) by apply Hh. unfold features.
  assert (Hput : forall i v s, Forall i8_range s ->
    let s' := if i <? Z.min (hidden h) 256 then <[Z.to_nat i := i8 v]> s else s in
    length s' = length s /\ Forall i8_range s').
  { intros i v s Hs. cbn. case_match; [ | done]. rewrite length_insert. split; [done | ].
    apply Forall_insert; [done | apply i8_is_i8]. }
  set (s0 := replicate _ 0).
  assert (Forall i8_range s0) as H0 by (by apply Forall_replicate).
  destruct (Hput 0 (Z.min (runq tel) 127) s0 H0) as [L1 H1]. cbv zeta in L1, H1.
  destruct (Hput 1 (Z.min (irq_rate tel) 127) _ H1) as [L2 H2]. cbv zeta in L2, H2.
  destruct (Hput 2 (Z.min (free_kb tel / 1024) 127) _ H2) as [L3 H3]. cbv zeta in L3, H3.
  destruct (Hput 3 (Z.min (pf_rate tel) 127) _ H3) as [L4 H4]. cbv zeta in L4, H4.
  split; [ | exact H4]. rewrite L4, L3, L2, L1. unfold s0. rewrite length_replicate. lia.
Qed.

Lemma quantum_of_score_range cfg score :
  100 <= quantum_of_score cfg score <= 50000.
Proof. unfold quantum_of_score. repeat case_match; lia. Qed.

(** What an action of the agent looks like. *)
Definition agent_action (a : Action) : Prop :=
  is_allowed (kind a) = true /\ validate_params a = true /\
  flags a = REQUIRES_SNAPSHOT /\ fits 8 (kind a) /\ fits 64 (param1 a) /\
  _r a = [0; 0] /\ param2 a = 0 /\ param3 a = 0.

Lemma infer_spec cfg m model_len h tel scr base :
  0 <= REQUANT_SHIFT cfg -> header_ok h -> 0 < base -> length scr = 1024%nat ->
  exists a scr', infer_and_propose cfg m model_len h tel scr base = Some (a, scr') /\
    length scr' = 1024%nat /\ agent_action a.
Proof.
  intros Hs Hh Hb Hsc. unfold infer_and_propose.
  destruct (features_ok h tel Hh) as [Fl Fr].
  set (xbuf := features h tel ++ _).
  assert (bufs_ok xbuf (Z.of_nat (length (features h tel))) scr) as Hok.
  { unfold bufs_ok, xbuf. rewrite length_app, length_drop, length_replicate.
    split; [lia | split; [ | split; [destruct Hh as (_ & [] & _); lia | done]]].
    apply Forall_app. split; [done | ]. rewrite drop_replicate. by apply Forall_replicate. }
  assert (exists xbuf' x_len' scr',
    (if has_weights h model_len && (dtype h =? 0)
     then layers cfg m h base (seqZ 0 (n_layers h)) xbuf
            (Z.of_nat (length (features h tel))) scr
     else Some (xbuf, Z.of_nat (length (features h tel)), scr)) = Some (xbuf', x_len', scr') /\
    bufs_ok xbuf' x_len' scr') as (xbuf' & x_len' & scr' & -> & Hok').
  { destruct (has_weights h model_len); cbn [andb]; [ | by eauto].
    destruct (Z.eqb_spec (dtype h) 0) as [Hd | ]; [ | by eauto].
    apply layers_spec; [done | done | done | done | | done].
    apply Forall_forall. intros l Hl. apply elem_of_seqZ in Hl. lia. }
  destruct Hok' as (Hx1 & _ & _ & Hsc').
  destruct (lookup_lt_is_Some_2 xbuf' 0%nat) as [x0 Hx0]; [lia | ].
  assert (exists s0, (if 0 <? x_len' then xbuf' !! 0%nat else Some 0) = Some s0) as [s0 ->]
    by (rewrite Hx0; case_match; eauto).
  cbv zeta. case_match; eexists _, _; (split; [reflexivity | split; [done | ]]).
  - repeat split; done || discriminate.
  - set (q := quantum_of_score _ _). assert (100 <= q <= 50000) as Hq by apply quantum_of_score_range.
    unfold agent_action, validate_params. cbn [kind param1 flags _r param2 param3].
    rewrite (wrap_small 64 q), (wrap_small 32 q) by zlia.
    repeat split; try done; [ | zlia..]. cbn. lia.
Qed.

(** [C24] The agent only proposes what the kernel accepts: for every header, every telemetry
    and whatever bytes the model holds, inference terminates without a panic and its
    action is of an allowed kind with parameters in bounds, and asks for no manual
    confirmation, in all three configurations. *)
Theorem ai_inference_valid cfg m model_len h tel scr base :
  cfg ∈ configs -> header_ok h -> 0 < base -> length scr = 1024%nat ->
  exists a scr', infer_and_propose cfg m model_len h tel scr base = Some (a, scr') /\
    length scr' = 1024%nat /\ is_allowed (kind a) = true /\ validate_params a = true /\
    has (flags a) NEEDS_MANUAL_CONFIRM = false.
Proof.
  intros Hc Hh Hb Hs. destruct (infer_spec cfg m model_len h tel scr base)
    as (a & scr' & E & Hl & H1 & H2 & H3 & _); [ | done.. | ].
  - by apply configs_shift.
  - exists a, scr'. by rewrite H3.
Qed.

(** *** Which memory inference reads *)

Section WeightsLocality.
Variables (m m' : memory) (base model_len : Z) (h : ModelHeader).
Hypothesis Hh : header_ok h.
Hypothesis Hb : 0 < base.
Hypothesis Hd : dtype h = 0.
Hypothesis Hw : has_weights h model_len = true.
Hypothesis Hm : agree base model_len m m'.

Lemma has_weights_total :
  n_layers h <> 0 -> layer_start h (n_layers h) + 16 <= model_len.
Proof using Hh Hd Hw.
  intros Hn. destruct (compute_total h Hh Hd Hn) as [E B]. unfold has_weights in Hw.
  rewrite E in Hw. unfold PAYLOAD_OFFSET in Hw. rewrite wrap_small in Hw by zlia. lia.
Qed.

Lemma dot_local w_row in_dim xbuf :
  0 <= in_dim -> base <= w_row -> w_row + in_dim <= base + model_len ->
  dot m w_row in_dim xbuf = dot m' w_row in_dim xbuf.
Proof using Hm.
  intros H0 H1 H2. apply fold_seqZ_ext. intros acc p Hp. unfold dot_step.
  rewrite (Hm (w_row + p)) by lia. done.
Qed.

Lemma layer_local cfg l xbuf x_len scr :
  0 <= l < n_layers h ->
  layer cfg m h base l xbuf x_len scr = layer cfg m' h base l xbuf x_len scr.
Proof using Hh Hb Hd Hw Hm.
  intros Hl. destruct (layer_pointers base h l Hh Hd Hl) as (E1 & E2 & E3).
  pose proof (has_weights_total ltac:(lia)) as Ht.
  pose proof (layer_start_mono h 0 l Hh ltac:(lia)) as M0. change (layer_start h 0) with 0 in M0.
  pose proof (layer_start_mono h (l + 1) (n_layers h) Hh ltac:(lia)) as M1.
  rewrite layer_start_succ in M1 by lia. unfold layer_bytes in M1.
  pose proof (out_dim_range h l Hh). assert (0 <= hidden h) by apply Hh.
  unfold layer. rewrite E1, E2, E3. cbn [default from_option id]. unfold PAYLOAD_OFFSET.
  case_match; [done | ]. case_match; [done | ].
  replace (fold_left (neuron m _ _ _ _) _ _) with
    (fold_left (neuron m' (base + 16 + layer_start h l)
       (base + 16 + layer_start h l + hidden h * out_dim_of h l) (hidden h) xbuf)
       (seqZ 0 (out_dim_of h l)) (Some scr)); [done | ].
  symmetry. apply fold_seqZ_ext. intros s i Hi. unfold neuron.
  assert ((i + 1) * hidden h <= out_dim_of h l * hidden h) by (apply Z.mul_le_mono_nonneg_r; lia).
  assert (0 <= i * hidden h) by nia.
  rewrite dot_local by lia. rewrite (ld_agree base model_len m m') by (done || lia). done.
Qed.

Lemma layers_local cfg ls xbuf x_len scr :
  Forall (fun l => 0 <= l < n_layers h) ls ->
  layers cfg m h base ls xbuf x_len scr = layers cfg m' h base ls xbuf x_len scr.
Proof using Hh Hb Hd Hw Hm.
  intros Hls. revert xbuf x_len scr. induction Hls as [ | l ls Hl Hls IH]; intros; [done | ].
  cbn [layers]. rewrite layer_local by done. by case_match.
Qed.
End WeightsLocality.

(** [C25] Inference stays inside the model: two memories that agree on the [model_len] bytes
    from the model's address lead to the same action and the same scratch buffer; in
    particular a model that is too short for its header's weights is not read at all. *)
Theorem ai_inference_reads_only_model cfg m m' model_len h tel scr base :
  header_ok h -> 0 < base -> agree base model_len m m' ->
  infer_and_propose cfg m model_len h tel scr base =
  infer_and_propose cfg m' model_len h tel scr base.
Proof.
  intros Hh Hb Hm. unfold infer_and_propose.
  destruct (has_weights h model_len) eqn:Hw; cbn [andb]; [ | done].
  destruct (Z.eqb_spec (dtype h) 0) as [Hd | ]; [ | done].
  rewrite (layers_local m m' base model_len h) by
    (done || (apply Forall_forall; intros l Hl; apply elem_of_seqZ in Hl; lia)). done.
Qed.

(** ** A step of the agent *)

Lemma ld8_st_bytes_other a bs m x :
  x < a \/ a + Z.of_nat (length bs) <= x -> ld8 (st_bytes a bs m) x = ld8 m x.
Proof. intros H. unfold ld8. by rewrite st_bytes_frame. Qed.

Lemma ld8_st_other n a v m x :
  x < a \/ a + Z.of_nat n <= x -> ld8 (st n a v m) x = ld8 m x.
Proof. intros H. unfold ld8. by rewrite st_frame. Qed.

Lemma ld8_st1_same a v m : fits 8 v -> ld8 (st 1 a v m) a = v.
Proof.
  intros H. unfold ld8, st. rewrite lookup_insert_eq. cbn. rewrite Z.mod_small by zlia.
  by apply wrap_small.
Qed.

(** What the agent stores on its stack is what the kernel reads. *)
Lemma load_store_action sa so a m :
  agent_action a -> so + 16 <= sa \/ sa + 32 <= so ->
  load_action (store_default_outcome so (store_action sa a m)) sa = a.
Proof.
  intros (_ & _ & Hf & Hk & Hp1 & Hr & Hp2 & Hp3) Hdis.
  set (m1 := store_action sa a m).
  assert (forall x, sa <= x < sa + 32 -> ld8 (store_default_outcome so m1) x = ld8 m1 x) as Hx.
  { intros x Hx. apply ld8_st_bytes_other. rewrite length_replicate. lia. }
  assert (agree sa 32 (store_default_outcome so m1) m1) as Hag by exact Hx.
  unfold load_action. rewrite !Hx by lia.
  rewrite !(ld_agree sa 32 _ _ 8 _ Hag) by lia.
  rewrite (ld_bytes_agree sa 32 _ m1 _ _ Hag) by lia. clear Hx Hag.
  assert (ld_bytes m1 (sa + 2) 2 = [0; 0]) as ->.
  { unfold ld_bytes. change (seqZ 0 2) with [0; 1]. cbn [fmap list_fmap].
    subst m1. unfold store_action. rewrite Hr, !ld8_st_other by lia.
    unfold ld8. cbn [st_bytes]. rewrite Z.add_0_r, lookup_insert_eq.
    replace (sa + 2 + 1) with (sa + 3) by lia.
    rewrite lookup_insert_ne, lookup_insert_eq by lia. done. }
  subst m1. unfold store_action. rewrite Hr in *.
  rewrite (ld_st_same 8 (sa + 24)).
  rewrite (ld_st_disjoint 8 8 (sa + 24) (sa + 16)), (ld_st_same 8 (sa + 16)) by lia.
  rewrite (ld_st_disjoint 8 8 (sa + 24) (sa + 8)), (ld_st_disjoint 8 8 (sa + 16) (sa + 8)),
    (ld_st_same 8 (sa + 8)) by lia.
  rewrite !(ld8_st_other 8) by lia. rewrite !ld8_st_bytes_other by (cbn; lia).
  rewrite ld8_st1_same by (rewrite Hf; split; discriminate || reflexivity).
  rewrite ld8_st_other by lia. rewrite ld8_st1_same by done.
  rewrite Hp2, Hp3, (Z.mod_small (param1 a)) by zlia. destruct a; cbn in *. by subst.
Qed.

Section AgentProps.
Context {D : Type} {HW : Hardware D} {CR : Crates D} {CL : CratesLaws D}.
Implicit Types w : World D.

Definition agent_ok (s : AgentState) : Prop :=
  header_ok (hdr s) /\ 0 < model_ptr s /\ length (scratch s) = 1024%nat.

(** The agent can run: it has been initialised, or there is a valid model to start from. *)
Definition agent_ready (w : World D) : Prop :=
  AI_RUNNING (w_agent w) = true /\
  match AGENT_STATE (w_agent w) with
  | Some s => agent_ok s
  | None => 0 < AI_MODEL_ADDR (w_link w) /\
            exists h, read_unaligned (w_mem w) (AI_MODEL_ADDR (w_link w)) 16 = Some h /\ valid h = true
  end.

Lemma wp_ensure_init w :
  agent_ready w ->
  wp ensure_init w (fun b w' => b = true /\
    exists s, w' = set_agent (mkAgentStatics true (Some s)) w /\ agent_ok s).
Proof.
  intros [Hr Ha]. unfold ensure_init. apply wp_bind, wp_gets.
  destruct (AGENT_STATE (w_agent w)) as [s | ] eqn:Es.
  - apply wp_ret. split; [done | ]. exists s. split; [ | done].
    destruct w as [? ? ? ? ? ? ? ? ? ? ? ? ? [] ]; cbn in *. by subst.
  - destruct Ha as (Hp & h & Eh & Hv). apply wp_bind, wp_gets, wp_bind, wp_bind, wp_gets, wp_ret.
    rewrite Eh, Hv. cbn [negb]. rewrite (proj2 (Z.eqb_neq _ 0)) by lia.
    apply wp_bind, wp_gets. rewrite Eh. apply wp_bind, wp_gets, wp_bind, wp_gets.
    apply wp_bind, wp_modify, wp_ret. split; [done | ].
    eexists. split; [by rewrite Hr | ]. split; [by eapply read_unaligned_ok | by split].
Qed.

Lemma wp_gather t p w :
  locked TASKS_LOCK w = false ->
  wp (gather_telemetry t p) w (fun _ w' => w' = w).
Proof.
  intros Hl. unfold gather_telemetry. apply wp_bind, wp_gets, wp_bind, wp_gets, wp_bind.
  unfold free_kib. apply wp_bind, wp_gets, wp_bind, wp_gets, wp_ret, wp_bind.
  eapply wp_eq; [ | by apply wp_ret].
  unfold runqueue_len. erewrite with_lock_run; [ | done | reflexivity | done]. by destruct w.
Qed.

Lemma apply_post_accepted seq a w r w' :
  apply_post seq a w r w' -> accepted w a = true -> result_code r ∈ [0; 5].
Proof.
  unfold apply_post. intros H Ha. rewrite Ha in H. destruct H as (q & _ & _ & -> & _).
  case_match; by repeat constructor.
Qed.

Lemma apply_post_agent seq a w r w' :
  apply_post seq a w r w' -> w_agent w' = w_agent w.
Proof.
  unfold apply_post. destruct (accepted w a).
  - intros (q & [H _] & _). rewrite (is_agent _ _ H). by destruct w.
  - intros (_ & [H _] & _). rewrite (is_agent _ _ H). by destruct w.
Qed.

Lemma ld8_outcome p r m : ld8 (store_outcome_result p (result_code r) m) p = result_code r.
Proof. apply ld8_st1_same. destruct r as [[] | []]; split; discriminate || reflexivity. Qed.

(** The second half of [step]: the proposal of an action the agent made. *)
Lemma wph_propose_agent sa so a w :
  isr_ready w -> locked APPLY_LOCK w = false -> fits 64 (SEQ (w_apply w)) ->
  SYSTEM_READY (w_apply w) = true -> agent_action a ->
  0 < sa -> 0 < so -> so + 16 <= sa \/ sa + 32 <= so ->
  let w1 := set_mem (store_default_outcome so (store_action sa a (w_mem w))) w in
  wph (ai_propose_action sa so ;; mret tt) w1 (fun _ w' =>
      isr_ready w' /\ w_agent w' = w_agent w /\
      SEQ (w_apply w') = u64 (SEQ (w_apply w) + 1) /\ ld8 (w_mem w') so ∈ [0; 5] /\
      (quantum_ok w -> quantum_ok w'))
    powered_off.
Proof.
  intros R Hl Hs Hr Ha Hsa Hso Hdis w1. apply wph_bind.
  assert (isr_ready w1) as R1 by (destruct R; by destruct w; constructor).
  eapply wph_mono; [apply wph_propose; [done | by destruct w | by destruct w | lia | lia] | | done].
  intros r w' (_ & res & w2 & H & ->). apply wph_wp, wp_ret.
  replace (load_action (w_mem w1) sa) with a in H
    by (subst w1; symmetry; destruct w; cbn; by apply load_store_action).
  destruct (apply_post_result _ _ _ _ _ H) as (_ & R2 & S2 & _ & q & Q2 & Hq).
  assert (accepted (bump_seq w1) a = true) as Hacc.
  { unfold accepted. destruct Ha as (-> & -> & _). subst w1. destruct w; cbn in *. by rewrite Hr. }
  pose proof (apply_post_accepted _ _ _ _ _ H Hacc) as Hc.
  pose proof (apply_post_agent _ _ _ _ _ H) as Hag.
  split; [destruct R2; by destruct w2; constructor | ].
  split; [transitivity (w_agent w2); [by destruct w2 | rewrite Hag; by destruct w] | ].
  split; [transitivity (SEQ (w_apply w2)); [by destruct w2 | rewrite S2; by destruct w] | ].
  split; [destruct w2; cbn; by rewrite ld8_outcome | ].
  intros Hqo. unfold quantum_ok. replace (w_apply (set_mem _ w2)) with (w_apply w2) by (by destruct w2).
  rewrite Q2. destruct Hq as [-> | [_ ->]]; [by destruct w | ].
  by eapply accepted_quantum; [exact Hacc | destruct w].
Qed.

(** [C5] The whole path from telemetry to the quantum: once the system is ready, a step of
    the agent (initialised, or with a valid model to start from) never panics and never
    deadlocks; the action it makes reaches the kernel through memory unchanged, is never
    rejected (the outcome byte is 0, applied, or 5, rolled back), uses up one sequence
    number, keeps the quantum in bounds, and leaves the agent ready for the next step.
    The only other end is a power-off from the keyboard. *)
Theorem agent_step_accepted cfg sa so w :
  cfg ∈ configs -> isr_ready w -> agent_ready w ->
  locked TASKS_LOCK w = false -> locked APPLY_LOCK w = false ->
  fits 64 (SEQ (w_apply w)) -> SYSTEM_READY (w_apply w) = true ->
  0 < sa -> 0 < so -> so + 16 <= sa \/ sa + 32 <= so ->
  match step cfg sa so w with
  | Ret _ w' =>
      isr_ready w' /\ agent_ready w' /\ SEQ (w_apply w') = u64 (SEQ (w_apply w) + 1) /\
      ld8 (w_mem w') so ∈ [0; 5] /\ (quantum_ok w -> quantum_ok w')
  | Halt w' => powered_off w'
  | _ => False
  end.
Proof.
  intros Hc R Ha Ht Hl Hs Hr Hsa Hso Hdis.
  assert (wph (step cfg sa so) w (fun _ w' =>
      isr_ready w' /\ agent_ready w' /\ SEQ (w_apply w') = u64 (SEQ (w_apply w) + 1) /\
      ld8 (w_mem w') so ∈ [0; 5] /\ (quantum_ok w -> quantum_ok w')) powered_off) as H; [ | exact H].
  unfold step. apply wph_bind, wph_wp. eapply wp_mono; [by apply wp_ensure_init | ].
  intros b w1 (-> & s & -> & Hok). cbn [negb]. set (w1 := set_agent _ w).
  apply wph_bind, wph_wp, wp_gets. subst w1. cbn [w_agent set_agent AI_RUNNING negb AGENT_STATE].
  apply wph_bind, wph_wp. eapply wp_mono; [apply wp_gather; by destruct w | ].
  intros [[tel ticks] pf] w1 ->. apply wph_bind, wph_wp, wp_gets, wph_bind, wph_wp, wp_gets.
  destruct Hok as (Hh & Hm & Hsc).
  destruct (infer_spec cfg (w_mem (set_agent (mkAgentStatics true (Some s)) w))
              (AI_MODEL_LEN (w_link (set_agent (mkAgentStatics true (Some s)) w)))
              (hdr s) tel (scratch s) (model_ptr s)) as (a & scr' & -> & Hsl & Hact);
    [by apply configs_shift | done | done | done | ].
  apply wph_bind, wph_wp, wp_modify. set (w2 := set_agent _ _).
  replace (has (flags a) NEEDS_MANUAL_CONFIRM) with false by (by destruct Hact as (_ & _ & -> & _)).
  apply wph_bind, wph_wp, wp_modify.
  eapply wph_mono; [apply wph_propose_agent; try done | | done].
  - destruct R. by destruct w; constructor.
  - intros [] w3 (R3 & A3 & S3 & L3 & Q3). split; [done | split].
    + unfold agent_ready. rewrite A3. subst w2. by destruct w.
    + rewrite S3. split; [by destruct w | ]. split; [done | ]. intros Hq. apply Q3. by destruct w.
Qed.
End AgentProps.

(** *** Witnesses *)

(** A model of one layer, 4 inputs and 2 outputs, at 0x200000. *)
Definition demo_header : ModelHeader := mkHeader (bytes_of "AIMD") 1 4 2 0 [0; 0; 0].
Definition demo_model : memory :=
  st_bytes 0x200000 (bytes_of "AIMD" ++ [1; 0; 4; 0; 2; 0; 0; 0; 0; 0; 0; 0] ++
                     [2; 3; 255; 1; 4; 4; 4; 4] ++ [64; 0; 0; 0; 0; 0; 0; 0]) ∅.
Definition demo_tel : Telemetry := mkTelemetry 0 3 40 100000 0.

Lemma demo_header_ok : header_ok demo_header.
Proof. repeat split; discriminate || reflexivity. Qed.

Lemma demo_bufs_ok : bufs_ok (replicate 256 5) 4 (replicate 1024 0).
Proof.
  split; [reflexivity | ]. split; [ | by split].
  apply Forall_replicate. split; discriminate.
Qed.

Lemma ai_layer_exact_witness :
  exists xbuf' scr' w b,
    layer_ptr_int8 0x200000 demo_header 0 = Some w /\ bias_ptr_i32 0x200000 demo_header 0 = Some b /\
    layer cfg_default demo_model demo_header 0x200000 0 (replicate 256 5) 4 (replicate 1024 0) =
      LNext xbuf' 2 scr' /\
    bufs_ok xbuf' 2 scr' /\
    (forall oi, 0 <= oi < 2 ->
       xbuf' !! Z.to_nat oi =
         Some (activation cfg_default (pre_act demo_model w b 4 (replicate 256 5) oi))).
Proof.
  apply (ai_layer_exact cfg_default demo_model demo_header 0x200000 0 (replicate 256 5) 4
           (replicate 1024 0)).
  - left.
  - apply demo_header_ok.
  - reflexivity.
  - reflexivity.
  - discriminate.
  - apply demo_bufs_ok.
Defined.

(** The network runs: its first output is min 127 ((2*3 + 3*40 - 97 + 0 + 64) >> 6). *)
Example demo_inference :
  infer_and_propose cfg_default demo_model 40 demo_header demo_tel (replicate 1024 0) 0x200000
  = Some (mkAction 1 1 [0; 0] (1000 + 1 * 20) 0 0,
          [93; 560] ++ replicate 1022 0).
Proof. vm_compute. reflexivity. Qed.

Lemma ai_inference_valid_witness :
  exists a scr', infer_and_propose cfg_default demo_model 40 demo_header demo_tel
                   (replicate 1024 0) 0x200000 = Some (a, scr') /\
    length scr' = 1024%nat /\ is_allowed (kind a) = true /\ validate_params a = true /\
    has (flags a) NEEDS_MANUAL_CONFIRM = false.
Proof.
  apply (ai_inference_valid cfg_default demo_model 40 demo_header demo_tel (replicate 1024 0) 0x200000).
  - left.
  - apply demo_header_ok.
  - reflexivity.
  - reflexivity.
Defined.

Lemma ai_inference_reads_only_model_witness :
  infer_and_propose cfg_default demo_model 32 demo_header demo_tel (replicate 1024 0) 0x200000 =
  infer_and_propose cfg_default (<[0 := 1]> demo_model) 32 demo_header demo_tel
    (replicate 1024 0) 0x200000.
Proof.
  apply (ai_inference_reads_only_model cfg_default demo_model (<[0 := 1]> demo_model) 32
           demo_header demo_tel (replicate 1024 0) 0x200000).
  - apply demo_header_ok.
  - reflexivity.
  - intros a Ha. unfold ld8. rewrite lookup_insert_ne; [reflexivity | lia].
Defined.

Definition demo_world : World Sim :=
  set_link (mkLink 0x200000 40 0 0) (set_mem demo_model
    (set_pmm (mkPmm 0x400000 0x40000000) sim_action)).

Lemma agent_step_accepted_witness :
  match step cfg_default 0x9000 0x9100 demo_world with
  | Ret _ w' =>
      isr_ready w' /\ agent_ready w' /\ SEQ (w_apply w') = 8 /\
      ld8 (w_mem w') 0x9100 ∈ [0; 5] /\ (quantum_ok demo_world -> quantum_ok w')
  | Halt w' => powered_off w'
  | _ => False
  end.
Proof.
  apply (agent_step_accepted cfg_default 0x9000 0x9100 demo_world).
  - left.
  - constructor; repeat split; discriminate || reflexivity.
  - split; [reflexivity | ]. split; [reflexivity | ]. eexists. split; vm_compute; reflexivity.
  - reflexivity.
  - reflexivity.
  - split; discriminate || reflexivity.
  - reflexivity.
  - reflexivity.
  - reflexivity.
  - right. discriminate.
Defined.
