(* ===== verification/Pci.v ===== *)
(** * PCI configuration space (kernel/src/pci.rs)

    Configuration mechanism 1: an address register and a data register, the scan over
    all buses, and the decoding of base address registers. *)

From S2P Require Import Prelude XhciData State Sim Fmt.
From stdpp Require Import gmap list strings.
From Stdlib Require Import ZArith Lia.

Open Scope Z_scope.

Record PciAddress : Type := mkPci { bus : Z; device : Z; function : Z }.

(** [Display]: {:02x}:{:02x}.{} *)
Definition fmt_addr (a : PciAddress) : list Z :=
  fmt_hexw 2 (bus a) ++ [58] ++ fmt_hexw 2 (device a) ++ [46] ++ fmt_dec (function a).

Record Bar : Type := mkBar {
  bar_base : Z; is_memory : bool; is_64bit : bool; prefetchable : bool
}.

Definition CONFIG_ADDRESS : Z := 0xCF8.
Definition CONFIG_DATA : Z := 0xCFC.

(** The value written to [CONFIG_ADDRESS]. *)
Definition config_address (addr : PciAddress) (offset : Z) : Z :=
  let aligned_offset := Z.land offset (bnot 8 0x03) in
  Z.lor (Z.lor (Z.lor (Z.lor (Z.shiftl 1 31) (u32 (Z.shiftl (bus addr) 16)))
                      (u32 (Z.shiftl (device addr) 11)))
               (u32 (Z.shiftl (function addr) 8)))
        aligned_offset.

Section Pci.
Context {D : Type} {HW : Hardware D} {CR : Crates D}.
Abbreviation KW := (K (World D)).

Definition read_u32 (addr : PciAddress) (offset : Z) : KW Z :=
  port_write CONFIG_ADDRESS (config_address addr offset) ;;
  port_read 32 CONFIG_DATA.

(** [(offset & 0x02) * 8] is a [u8] product, at most 24. *)
Definition read_u16 (addr : PciAddress) (offset : Z) : KW Z :=
  value ← read_u32 addr offset;
  let shift := u8 (Z.land offset 0x02 * 8) in
  mret (u16 (Z.land (Z.shiftr value shift) 0xFFFF)).

Definition read_u8 (addr : PciAddress) (offset : Z) : KW Z :=
  value ← read_u32 addr offset;
  let shift := u8 (Z.land offset 0x03 * 8) in
  mret (u8 (Z.land (Z.shiftr value shift) 0xFF)).

Definition vendor_id (addr : PciAddress) : KW Z := read_u16 addr 0x00.
Definition device_id (addr : PciAddress) : KW Z := read_u16 addr 0x02.
Definition class_code (addr : PciAddress) : KW Z := read_u8 addr 0x0B.
Definition subclass (addr : PciAddress) : KW Z := read_u8 addr 0x0A.
Definition prog_if (addr : PciAddress) : KW Z := read_u8 addr 0x09.
Definition header_type (addr : PciAddress) : KW Z := read_u8 addr 0x0E.

Definition has_function (addr : PciAddress) : KW bool :=
  v ← vendor_id addr; mret (negb (v =? 0xFFFF)).

(** [enumerate]; the callback threads the variables it captures. *)
Definition scan_function {A} (callback : PciAddress -> A -> KW A) (b d f : Z) (a : A) : KW A :=
  let addr := mkPci b d f in
  present ← has_function addr;
  if (present : bool) then callback addr a else mret a.

Definition scan_device {A} (callback : PciAddress -> A -> KW A) (b d : Z) (a : A) : KW A :=
  let addr := mkPci b d 0 in
  present ← has_function addr;
  if negb present then mret a
  else
    a ← callback addr a;
    header ← header_type addr;
    if has header 0x80 then kfold (seqZ 1 7) (scan_function callback b d) a
    else mret a.

Definition enumerate {A} (callback : PciAddress -> A -> KW A) (a : A) : KW A :=
  kfold (seqZ 0 256) (fun b a => kfold (seqZ 0 32) (scan_device callback b) a) a.

Definition find_usb_controllers {A} (callback : PciAddress -> A -> KW A) (a : A) : KW A :=
  enumerate (fun addr a =>
    class ← class_code addr;
    sub ← subclass addr;
    if (class =? 0x0C) && (sub =? 0x03) then callback addr a else mret a) a.

Definition pci_bar (addr : PciAddress) (index : Z) : KW (option Bar) :=
  if 6 <=? index then mret None
  else
    let offset := u8 (0x10 + u8 (index * 4)) in
    value ← read_u32 addr offset;
    if value =? 0 then mret None
    else if has value 0x01 then
      mret (Some (mkBar (Z.land value (bnot 32 0x3)) false false false))
    else
      let bar_type := Z.land (Z.shiftr value 1) 0x3 in
      let prefetchable := has value (Z.shiftl 1 3) in
      let base := Z.land value 0xFFFFFFF0 in
      let is_64bit := bar_type =? 0x2 in
      if is_64bit then
        high ← read_u32 addr (u8 (offset + 4));
        mret (Some (mkBar (Z.lor base (u64 (Z.shiftl high 32))) true is_64bit prefetchable))
      else mret (Some (mkBar base true is_64bit prefetchable)).

End Pci.

(** ** The address register *)

Definition address_ok (a : PciAddress) : Prop :=
  0 <= bus a < 256 /\ 0 <= device a < 32 /\ 0 <= function a < 8.

Lemma lor_disjoint n a b : 0 <= n -> a mod 2 ^ n = 0 -> 0 <= b < 2 ^ n -> Z.lor a b = a + b.
Proof.
  intros Hn Ha Hb. assert (0 < 2 ^ n) by (apply Z.pow_pos_nonneg; lia).
  rewrite (Z.div_mod a (2 ^ n)) by lia. rewrite Ha, Z.add_0_r, Z.mul_comm. by apply lor_add.
Qed.

(** The fields of the address register are where the specification of mechanism 1 puts
    them. *)
Lemma config_address_value a offset :
  address_ok a -> fits 8 offset ->
  config_address a offset =
    2 ^ 31 + bus a * 2 ^ 16 + device a * 2 ^ 11 + function a * 2 ^ 8 + (offset - offset mod 4).
Proof.
  intros (Hb & Hd & Hf) Ho. unfold config_address.
  change (bnot 8 0x03) with (bnot 8 (2 ^ 2 - 1)). rewrite land_not_low by zlia.
  change (2 ^ 2) with 4. rewrite !Z.shiftl_mul_pow2 by lia.
  rewrite !wrap_small by zlia. rewrite Z.mul_1_l.
  pose proof (Z.mod_pos_bound offset 4 eq_refl).
  pose proof (Z.mod_le offset 4 ltac:(destruct Ho; lia) eq_refl).
  rewrite (lor_disjoint 31 (2 ^ 31)); [ | lia | done | zlia].
  rewrite (lor_disjoint 16 (2 ^ 31 + bus a * 2 ^ 16)); [ | lia | | zlia].
  2:{ pow2. Z.div_mod_to_equations. lia. }
  rewrite (lor_disjoint 11 (2 ^ 31 + bus a * 2 ^ 16 + device a * 2 ^ 11)); [ | lia | | zlia].
  2:{ pow2. Z.div_mod_to_equations. lia. }
  rewrite (lor_disjoint 8); [lia | lia | | zlia].
  pow2. Z.div_mod_to_equations. lia.
Qed.

(** ** Functions on the bus *)

(** The bytes of every function's configuration space, and a dword of one. *)
Abbreviation ConfigSpace := (PciAddress -> Z -> Z).

Definition dword (c : Z -> Z) (off : Z) : Z :=
  c off + 256 * (c (off + 1) + 256 * (c (off + 2) + 256 * c (off + 3))).

(** What the code relies on (PCI local bus specification, mechanism 1): after the address
    register is written, the data register reads as the selected dword. *)
Class PciBus (D : Type) {HW : Hardware D} (space : ConfigSpace) : Prop := {
  pci_byte : forall a off, 0 <= space a off < 256;
  pci_select : forall a off d, address_ok a -> 0 <= off < 256 -> off mod 4 = 0 ->
    fst (hw_in CONFIG_DATA (hw_out CONFIG_ADDRESS
           (2 ^ 31 + bus a * 2 ^ 16 + device a * 2 ^ 11 + function a * 2 ^ 8 + off) d))
    = dword (space a) off
}.

Definition present (space : ConfigSpace) (a : PciAddress) : bool :=
  negb (space a 0 + 256 * space a 1 =? 0xFFFF).

(** The functions of one device, and of the machine, in the order of the scan. *)
Definition device_functions (space : ConfigSpace) (b d : Z) : list PciAddress :=
  if present space (mkPci b d 0) then
    mkPci b d 0 ::
    (if has (space (mkPci b d 0) 0x0E) 0x80
     then filter (fun a => present space a) (mkPci b d <$> seqZ 1 7) else [])
  else [].

Definition all_functions (space : ConfigSpace) : list PciAddress :=
  seqZ 0 256 ≫= fun b => seqZ 0 32 ≫= fun d => device_functions space b d.

(** A step that talked to devices and wrote to no port but [CONFIG_ADDRESS]. *)
Definition pci_step {D} (w w' : World D) : Prop :=
  io_step w w' /\ forall p, p <> CONFIG_ADDRESS -> port_log p w' = port_log p w.

#[export] Instance pci_step_preorder {D} : PreOrder (@pci_step D).
Proof.
  split; [done | ]. intros w1 w2 w3 [H1 L1] [H2 L2].
  split; [by transitivity w2 | ]. intros p Hp. by rewrite L2, L1.
Qed.

Section PciProps.
Context {D : Type} {HW : Hardware D} {CR : Crates D} {CL : CratesLaws D}.
Context (space : ConfigSpace) {PB : PciBus D space}.
Implicit Types w : World D.

Lemma dword_range a off : fits 32 (dword (space a) off).
Proof using PB.
  pose proof (pci_byte a off). pose proof (pci_byte a (off + 1)).
  pose proof (pci_byte a (off + 2)). pose proof (pci_byte a (off + 3)).
  unfold dword. zlia.
Qed.

Lemma wp_read_u32 a off w :
  address_ok a -> fits 8 off ->
  wp (read_u32 a off) w (fun v w' => v = dword (space a) (off - off mod 4) /\ pci_step w w').
Proof using PB.
  intros Ha Ho. unfold read_u32. apply wp_bind, wp_modify. unfold port_read, wp. cbn [w_dev emit set_trace set_dev].
  rewrite config_address_value by done.
  pose proof (Z.mod_pos_bound off 4 eq_refl).
  pose proof (Z.mod_le off 4 ltac:(destruct Ho; lia) eq_refl).
  pose proof (pci_select a (off - off mod 4) (w_dev w) Ha ltac:(zlia)
                ltac:(Z.div_mod_to_equations; lia)) as E.
  destruct (hw_in _ _) as [v d]. cbn in E. subst v.
  split; [apply wrap_small, dword_range | ]. split; [eexists d, [_]; by destruct w | ].
  intros p Hp. unfold port_log. cbn [w_trace set_dev set_trace emit rev]. rewrite omap_app. cbn [omap list_omap].
  rewrite (proj2 (Z.eqb_neq CONFIG_ADDRESS p)) by done. by rewrite app_nil_r.
Qed.

(** Shifting a dword down to one of its bytes, or to one of its halves. *)
Lemma dword_byte a off k :
  0 <= k < 4 -> Z.land (Z.shiftr (dword (space a) off) (8 * k)) 0xFF = space a (off + k).
Proof using PB.
  intros Hk. rewrite (land_ones_mod _ 8) by done. change (2 ^ 8) with 256.
  pose proof (pci_byte a off). pose proof (pci_byte a (off + 1)).
  pose proof (pci_byte a (off + 2)). pose proof (pci_byte a (off + 3)). unfold dword.
  assert (k = 0 \/ k = 1 \/ k = 2 \/ k = 3) as [-> | [-> | [-> | ->]]] by lia.
  - rewrite Z.add_0_r. cbn [Z.mul]. rewrite Z.shiftr_0_r. Z.div_mod_to_equations. lia.
  - rewrite shiftr_byte by done. Z.div_mod_to_equations. lia.
  - change (8 * 2) with (8 + 8). rewrite <- Z.shiftr_shiftr, !shiftr_byte by done.
    Z.div_mod_to_equations. lia.
  - change (8 * 3) with (8 + (8 + 8)). rewrite <- !Z.shiftr_shiftr, !shiftr_byte by done.
    by apply Z.mod_small.
Qed.

Lemma dword_word a off k :
  k = 0 \/ k = 1 ->
  Z.land (Z.shiftr (dword (space a) off) (16 * k)) 0xFFFF
  = space a (off + 2 * k) + 256 * space a (off + 2 * k + 1).
Proof using PB.
  intros Hk. rewrite (land_ones_mod _ 16) by done. change (2 ^ 16) with 65536.
  pose proof (pci_byte a off). pose proof (pci_byte a (off + 1)).
  pose proof (pci_byte a (off + 2)). pose proof (pci_byte a (off + 3)). unfold dword.
  destruct Hk as [-> | ->].
  - cbn [Z.mul]. rewrite Z.shiftr_0_r, Z.add_0_r. Z.div_mod_to_equations. lia.
  - change (16 * 1) with (8 + 8). rewrite <- Z.shiftr_shiftr, !shiftr_byte by done.
    replace (off + 2 * 1 + 1) with (off + 3) by lia. change (2 * 1) with 2.
    rewrite Z.mod_small; [done | lia].
Qed.

Lemma wp_read_u8 a off w :
  address_ok a -> fits 8 off ->
  wp (read_u8 a off) w (fun v w' => v = space a off /\ pci_step w w').
Proof using PB.
  intros Ha Ho. unfold read_u8. apply wp_bind. eapply wp_mono; [by apply wp_read_u32 | ].
  intros v w' [-> Hio]. apply wp_ret. split; [ | done].
  rewrite (land_ones_mod off 2) by done. change (2 ^ 2) with 4.
  pose proof (Z.mod_pos_bound off 4 eq_refl).
  rewrite (wrap_small 8 (off mod 4 * 8)) by zlia.
  replace (off mod 4 * 8) with (8 * (off mod 4)) by lia. rewrite dword_byte by done.
  replace (off - off mod 4 + off mod 4) with off by lia.
  apply wrap_small. pose proof (pci_byte a off). zlia.
Qed.

Lemma wp_read_u16 a off w :
  address_ok a -> fits 8 off ->
  wp (read_u16 a off) w (fun v w' =>
    v = space a (off - off mod 2) + 256 * space a (off - off mod 2 + 1) /\ pci_step w w').
Proof using PB.
  intros Ha Ho. unfold read_u16. apply wp_bind. eapply wp_mono; [by apply wp_read_u32 | ].
  intros v w' [-> Hio]. apply wp_ret. split; [ | done].
  assert (Z.land off 2 * 8 = 16 * (off mod 4 / 2)) as ->.
  { apply Z.eqb_eq. revert off Ho. apply byte_cases. vm_compute. reflexivity. }
  assert (off mod 4 / 2 = 0 \/ off mod 4 / 2 = 1) as Hk by (Z.div_mod_to_equations; lia).
  rewrite (wrap_small 8) by (destruct Hk as [-> | ->]; zlia). rewrite dword_word by done.
  replace (off - off mod 4 + 2 * (off mod 4 / 2)) with (off - off mod 2)
    by (Z.div_mod_to_equations; lia).
  apply wrap_small. pose proof (pci_byte a (off - off mod 2)).
  pose proof (pci_byte a (off - off mod 2 + 1)). zlia.
Qed.

(** Configuration reads return the right register: on every PCI bus that implements
    mechanism 1, for every function and every byte offset, [read_u32] returns the dword
    that contains the offset, [read_u16] the aligned half and [read_u8] the byte, and
    nothing but the two configuration ports is touched. *)
Theorem pci_config_reads a off w :
  address_ok a -> fits 8 off ->
  (exists w', read_u32 a off w = Ret (dword (space a) (off - off mod 4)) w' /\ pci_step w w') /\
  (exists w', read_u16 a off w =
     Ret (space a (off - off mod 2) + 256 * space a (off - off mod 2 + 1)) w' /\ pci_step w w') /\
  (exists w', read_u8 a off w = Ret (space a off) w' /\ pci_step w w').
Proof using PB.
  intros Ha Ho. split; [ | split].
  - pose proof (wp_read_u32 a off w Ha Ho) as H. apply wp_iff in H as (v & w' & E & -> & H). eauto.
  - pose proof (wp_read_u16 a off w Ha Ho) as H. apply wp_iff in H as (v & w' & E & -> & H). eauto.
  - pose proof (wp_read_u8 a off w Ha Ho) as H. apply wp_iff in H as (v & w' & E & -> & H). eauto.
Qed.

Lemma wp_has_function a w :
  address_ok a ->
  wp (has_function a) w (fun b w' => b = present space a /\ pci_step w w').
Proof using PB.
  intros Ha. unfold has_function, vendor_id. apply wp_bind.
  eapply wp_mono; [apply wp_read_u16; [done | zlia] | ]. intros v w' [-> H]. by apply wp_ret.
Qed.

(** The scan, for a callback described by an invariant over the functions visited; the
    invariant holds across the scan's own accesses. *)
Section Scan.
Context {A : Type} (cb : PciAddress -> A -> K (World D) A).
Context (I : list PciAddress -> A -> World D -> Prop).
Hypothesis Hio : forall l a w w', I l a w -> pci_step w w' -> I l a w'.
Hypothesis Hcb : forall l x a w, address_ok x -> present space x = true -> I l a w ->
  wp (cb x a) w (fun a' => I (l ++ [x]) a').

Lemma wp_scan_function l b d f a w :
  address_ok (mkPci b d f) -> I l a w ->
  wp (scan_function cb b d f a) w
     (fun a' => I (l ++ if present space (mkPci b d f) then [mkPci b d f] else []) a').
Proof using PB Hio Hcb.
  intros Ha H. unfold scan_function. apply wp_bind. eapply wp_mono; [by apply wp_has_function | ].
  intros p w1 [-> Hs]. destruct (present space (mkPci b d f)) eqn:E.
  - apply Hcb; [done | done | by eapply Hio].
  - apply wp_ret. rewrite app_nil_r. by eapply Hio.
Qed.

Lemma wp_scan_functions fs b d l a w :
  Forall (fun f => address_ok (mkPci b d f)) fs -> I l a w ->
  wp (kfold fs (scan_function cb b d) a) w
     (fun a' => I (l ++ filter (fun x => present space x) (mkPci b d <$> fs)) a').
Proof using PB Hio Hcb.
  intros Hf. revert l a w. induction Hf as [ | f fs Hf Hfs IH]; intros l a w H.
  - apply wp_ret. by rewrite app_nil_r.
  - apply wp_bind. eapply wp_mono; [by apply wp_scan_function | ]. intros a1 w1 H1.
    eapply wp_mono; [by apply IH | ]. intros a2 w2 H2. rewrite <- app_assoc in H2.
    cbn [fmap list_fmap]. rewrite filter_cons. destruct (present space (mkPci b d f)).
    + rewrite decide_True by done. exact H2.
    + rewrite decide_False by (by intros []). exact H2.
Qed.

Lemma wp_scan_device b d l a w :
  0 <= b < 256 -> 0 <= d < 32 -> I l a w ->
  wp (scan_device cb b d a) w (fun a' => I (l ++ device_functions space b d) a').
Proof using PB Hio Hcb.
  intros Hb Hd H. unfold scan_device, device_functions.
  assert (forall f, 0 <= f < 8 -> address_ok (mkPci b d f)) as Hok
    by (intros f Hf; repeat split; cbn; lia).
  apply wp_bind. eapply wp_mono; [by apply wp_has_function, Hok | ]. intros p w1 [-> H1].
  destruct (present space (mkPci b d 0)) eqn:E; cbn [negb].
  2:{ apply wp_ret. rewrite app_nil_r. by eapply Hio. }
  apply wp_bind. eapply wp_mono; [apply Hcb; [by apply Hok | done | by eapply Hio] | ].
  intros a2 w2 H2. apply wp_bind.
  eapply wp_mono; [apply wp_read_u8; [by apply Hok | zlia] | ]. intros v w3 [-> H3].
  rewrite (cons_middle (mkPci b d 0) l), app_assoc.
  destruct (has _ 0x80).
  - apply wp_scan_functions; [ | by eapply Hio]. apply Forall_forall. intros f Hf.
    apply elem_of_seqZ in Hf. apply Hok. lia.
  - apply wp_ret. rewrite app_nil_r. by eapply Hio.
Qed.

Lemma wp_enumerate a w :
  I [] a w -> wp (enumerate cb a) w (fun a' => I (all_functions space) a').
Proof using PB Hio Hcb.
  intros H. unfold enumerate, all_functions.
  apply (wp_kfold _ _ (fun bs => I (bs ≫= fun b => seqZ 0 32 ≫= fun d => device_functions space b d)));
    [done | ].
  intros bs b a1 w1 Hp H1.
  assert (0 <= b < 256) as Hb.
  { assert (b ∈ seqZ 0 256) as Hin; [ | apply elem_of_seqZ in Hin; lia].
    eapply elem_of_prefix; [ | exact Hp]. apply elem_of_app. right. left. }
  rewrite bind_app. cbn [mbind list_bind]. rewrite app_nil_r.
  apply (wp_kfold _ _ (fun ds => I (_ ++ (ds ≫= fun d => device_functions space b d)))).
  { cbn. by rewrite app_nil_r. }
  intros ds d a2 w2 Hq H2.
  assert (0 <= d < 32) as Hd.
  { assert (d ∈ seqZ 0 32) as Hin; [ | apply elem_of_seqZ in Hin; lia].
    eapply elem_of_prefix; [ | exact Hq]. apply elem_of_app. right. left. }
  rewrite bind_app. cbn [mbind list_bind]. rewrite app_nil_r, app_assoc.
  by apply wp_scan_device.
Qed.
End Scan.

(** [C28] The scan finds every function once: on every conforming bus, [enumerate] ends and
    calls its callback for exactly the functions that exist (function 0 of each device
    of the 256 buses, and functions 1 to 7 of the devices whose header says
    multi-function), in the order of bus, device and function. *)
Theorem pci_enumerate_complete w :
  exists w', enumerate (fun a l => mret (l ++ [a])) [] w = Ret (all_functions space) w' /\
             pci_step w w'.
Proof using PB.
  assert (wp (enumerate (fun a l => mret (l ++ [a])) []) w (fun l w' =>
    l = all_functions space /\ pci_step w w')) as H.
  { eapply (wp_enumerate _ (fun l r w' => r = l /\ pci_step w w')).
    - intros l a w1 w2 [-> H1] H2. split; [done | by transitivity w1].
    - intros l x a w1 _ _ [-> H1]. by apply wp_ret.
    - done. }
  apply wp_iff in H as (l & w' & E & -> & H). by exists w'.
Qed.

(** The value of a base address register, field by field. *)
Definition bar_spec (a : PciAddress) (index : Z) : option Bar :=
  let off := 0x10 + 4 * index in
  let v := dword (space a) off in
  if 6 <=? index then None
  else if v =? 0 then None
  else if Z.testbit v 0 then Some (mkBar (v - v mod 4) false false false)
  else
    let wide := v / 2 mod 4 =? 2 in
    Some (mkBar (v - v mod 16 + if wide then 2 ^ 32 * dword (space a) (off + 4) else 0)
                true wide (Z.testbit v 3)).

Lemma bar_offset index : 0 <= index < 6 ->
  u8 (0x10 + u8 (index * 4)) = 0x10 + 4 * index /\
  (0x10 + 4 * index) mod 4 = 0 /\ fits 8 (0x10 + 4 * index) /\
  u8 (0x10 + 4 * index + 4) = 0x10 + 4 * index + 4 /\
  (0x10 + 4 * index + 4) mod 4 = 0 /\ fits 8 (0x10 + 4 * index + 4).
Proof.
  intros H. rewrite (wrap_small 8 (index * 4)) by zlia.
  rewrite (wrap_small 8 (0x10 + index * 4)), wrap_small by zlia.
  repeat split; try zlia; Z.div_mod_to_equations; lia.
Qed.

(** Base address registers: on every conforming bus, [bar] returns [None] for an index
    past 5 or an empty register, an I/O base with its two flag bits cleared, and a
    memory base with its four flag bits cleared, extended by the next register as the
    upper half exactly when the type field says 64 bit; the prefetchable flag is bit 3. *)
Theorem pci_bar_decodes a index w :
  address_ok a -> 0 <= index < 256 ->
  exists w', pci_bar a index w = Ret (bar_spec a index) w' /\ pci_step w w'.
Proof using PB.
  intros Ha Hi. assert (wp (pci_bar a index) w (fun r w' => r = bar_spec a index /\ pci_step w w')) as H.
  2:{ apply wp_iff in H as (r & w' & E & -> & H). by exists w'. }
  unfold pci_bar, bar_spec. destruct (Z.leb_spec 6 index); [by apply wp_ret | ].
  destruct (bar_offset index) as (-> & Hm & Hf & -> & Hm' & Hf'); [lia | ].
  apply wp_bind. eapply wp_mono; [by apply wp_read_u32 | ]. intros v w1 [-> H1].
  rewrite Hm, Z.sub_0_r. set (v := dword (space a) (0x10 + 4 * index)).
  assert (fits 32 v) as Hv by apply dword_range.
  destruct (v =? 0); [by apply wp_ret | ].
  change (has v 1) with (has v (2 ^ 0)). rewrite (has_testbit v 0) by done. destruct (Z.testbit v 0).
  { apply wp_ret. change (bnot 32 3) with (bnot 32 (2 ^ 2 - 1)).
    rewrite (land_not_low v 2 32) by (done || lia). done. }
  change (Z.shiftl 1 3) with (2 ^ 3). rewrite (has_testbit v 3) by done.
  rewrite (land_ones_mod (Z.shiftr v 1) 2), Z.shiftr_div_pow2 by done.
  change (2 ^ 2) with 4. change (2 ^ 1) with 2.
  change 0xFFFFFFF0 with (bnot 32 (2 ^ 4 - 1)). rewrite (land_not_low v 4 32) by (done || lia).
  change (2 ^ 4) with 16. destruct (v / 2 mod 4 =? 2).
  - apply wp_bind. eapply wp_mono; [by apply wp_read_u32 | ]. intros hi w2 [-> H2].
    rewrite Hm', Z.sub_0_r. apply wp_ret. split; [ | by transitivity w1]. do 2 f_equal.
    pose proof (dword_range a (0x10 + 4 * index + 4)) as Hh.
    set (hi := dword (space a) (0x10 + 4 * index + 4)) in *.
    rewrite Z.shiftl_mul_pow2 by done. rewrite wrap_small by zlia.
    pose proof (Z.mod_pos_bound v 16 eq_refl). rewrite Z.lor_comm, lor_add; [lia | lia | ].
    pose proof (Z.mod_le v 16 ltac:(destruct Hv; lia) eq_refl). zlia.
  - apply wp_ret. rewrite Z.add_0_r. done.
Qed.
End PciProps.

(** *** Witness: a bus with one USB controller, at 00:03.0, of a given interface *)

Record PciSim (prog : Z) : Type := mkPciSim { selected : Z }.
Arguments mkPciSim {prog} _.
Arguments selected {prog} _.

Definition usb_function : PciAddress := mkPci 0 3 0.
Definition usb_space (prog : Z) (a : PciAddress) (off : Z) : Z :=
  if bool_decide (bus a = 0 /\ device a = 3 /\ function a = 0) then
    nth (Z.to_nat off) [0x33; 0x10; 0x94; 0x01; 0; 0; 0; 0; 0; prog; 3; 0x0C; 0; 0; 0; 0;
                        0x04; 0; 0; 0xFE; 1; 0; 0; 0] 0
  else 255.

Definition select_address (v : Z) : PciAddress :=
  mkPci (v / 2 ^ 16 mod 2 ^ 8) (v / 2 ^ 11 mod 2 ^ 5) (v / 2 ^ 8 mod 2 ^ 3).

#[export] Instance pcisim_hardware prog : Hardware (PciSim prog) := {
  hw_in p d := (dword (usb_space prog (select_address (selected d))) (selected d mod 2 ^ 8), d);
  hw_out p v d := if p =? CONFIG_ADDRESS then mkPciSim v else d;
  hw_mmio_read _ d m := (0, d, m);
  hw_mmio_write _ _ d m := (d, m);
  hw_dma d m := (d, m);
  hw_irqs d := ([], d)
}.

Lemma select_address_of a off :
  address_ok a -> 0 <= off < 256 ->
  let v := 2 ^ 31 + bus a * 2 ^ 16 + device a * 2 ^ 11 + function a * 2 ^ 8 + off in
  select_address v = a /\ v mod 2 ^ 8 = off.
Proof.
  intros (Hb & Hd & Hf) Ho v. unfold select_address. destruct a as [b d f]; cbn in *.
  assert (v / 2 ^ 16 = 2 ^ 15 + b) as E1.
  { symmetry. apply (Z.div_unique _ _ _ (d * 2 ^ 11 + f * 2 ^ 8 + off)); subst v; zlia. }
  assert (v / 2 ^ 11 = 2 ^ 20 + b * 2 ^ 5 + d) as E2.
  { symmetry. apply (Z.div_unique _ _ _ (f * 2 ^ 8 + off)); subst v; zlia. }
  assert (v / 2 ^ 8 = 2 ^ 23 + b * 2 ^ 8 + d * 2 ^ 3 + f) as E3.
  { symmetry. apply (Z.div_unique _ _ _ off); subst v; zlia. }
  rewrite E1, E2, E3. clear E1 E2 E3. split.
  - f_equal; symmetry; [apply (Z.mod_unique _ _ (2 ^ 7)) | apply (Z.mod_unique _ _ (2 ^ 15 + b))
                       | apply (Z.mod_unique _ _ (2 ^ 20 + b * 2 ^ 5 + d))]; zlia.
  - subst v. symmetry. apply (Z.mod_unique _ _ (2 ^ 23 + b * 2 ^ 8 + d * 2 ^ 3 + f)); zlia.
Qed.

Lemma usb_space_byte prog a off : fits 8 prog -> 0 <= usb_space prog a off < 256.
Proof.
  intros Hp. unfold usb_space. case_bool_decide; [ | lia].
  assert (forall l n, Forall (fits 8) l -> fits 8 (nth n l 0)) as Hn.
  { induction l as [ | x l IH]; intros [ | n] Hl; try (split; done).
    - by inversion Hl.
    - apply IH. by inversion Hl. }
  apply Hn. repeat (apply Forall_cons; split); done || by apply Forall_nil.
Qed.

#[export] Instance pcisim_bus prog : TCEq (bool_decide (fits 8 prog)) true -> PciBus (PciSim prog) (usb_space prog).
Proof.
  intros Hp%TCEq_eq%bool_decide_eq_true. split; [intros a off; by apply usb_space_byte | ]. intros a off d Ha Ho Hm.
  cbn [hw_in hw_out pcisim_hardware fst]. rewrite Z.eqb_refl. cbn [selected].
  by destruct (select_address_of a off Ha Ho) as [-> ->].
Qed.

#[export] Instance pcisim_crates prog : Crates (PciSim prog) := plain_crates _.
#[export] Instance pcisim_crates_laws prog : CratesLaws (PciSim prog) := plain_crates_laws _.

Definition pcisim_boot : World (PciSim 0x30) := boot_world (mkPciSim 0) ∅.

Lemma pci_config_reads_witness :
  (exists w', read_u32 usb_function 0x0A pcisim_boot = Ret 0x0C033000 w' /\ pci_step pcisim_boot w') /\
  (exists w', read_u16 usb_function 0x0A pcisim_boot = Ret 0x0C03 w' /\ pci_step pcisim_boot w') /\
  (exists w', read_u8 usb_function 0x0A pcisim_boot = Ret 3 w' /\ pci_step pcisim_boot w').
Proof.
  apply (pci_config_reads (usb_space 0x30) usb_function 0x0A pcisim_boot).
  - repeat split; discriminate || reflexivity.
  - split; discriminate || reflexivity.
Defined.

Lemma pci_enumerate_complete_witness :
  exists w', enumerate (fun a l => mret (l ++ [a])) [] pcisim_boot = Ret [usb_function] w' /\
             pci_step pcisim_boot w'.
Proof.
  replace [usb_function] with (all_functions (usb_space 0x30)) by (vm_compute; reflexivity).
  apply (pci_enumerate_complete (usb_space 0x30) pcisim_boot).
Defined.

Lemma pci_bar_decodes_witness :
  exists w', pci_bar usb_function 0 pcisim_boot
             = Ret (Some (mkBar 0x1FE000000 true true false)) w' /\ pci_step pcisim_boot w'.
Proof.
  apply (pci_bar_decodes (usb_space 0x30) usb_function 0 pcisim_boot).
  - repeat split; discriminate || reflexivity.
  - split; discriminate || reflexivity.
Defined.
