(* ===== verification/XhciRegs.v ===== *)
(** * Registers of the xHCI controller (kernel/src/xhci.rs)

    The capability, operational, runtime, doorbell and port registers, each a memory
    mapped word at an offset of its block. *)

From S2P Require Import Prelude XhciData State Sim.
From stdpp Require Import gmap list.
From Stdlib Require Import ZArith Lia.

Open Scope Z_scope.

(** The flag sets [UsbCmd] and [UsbSts]. *)
Definition RUN_STOP : Z := Z.shiftl 1 0.
Definition HOST_CONTROLLER_RESET : Z := Z.shiftl 1 1.
Definition INTERRUPTER_ENABLE : Z := Z.shiftl 1 2.
Definition HOST_SYSTEM_ERROR_ENABLE : Z := Z.shiftl 1 3.
Definition LIGHT_HOST_CONTROLLER_RESET : Z := Z.shiftl 1 7.
Definition UsbCmd_all : Z :=
  Z.lor RUN_STOP (Z.lor HOST_CONTROLLER_RESET (Z.lor INTERRUPTER_ENABLE
    (Z.lor HOST_SYSTEM_ERROR_ENABLE LIGHT_HOST_CONTROLLER_RESET))).

Definition HOST_CONTROLLER_HALTED : Z := Z.shiftl 1 0.
Definition HOST_SYSTEM_ERROR : Z := Z.shiftl 1 2.
Definition EVENT_INTERRUPT : Z := Z.shiftl 1 3.
Definition PORT_CHANGE_DETECT : Z := Z.shiftl 1 4.
Definition UsbSts_all : Z :=
  Z.lor HOST_CONTROLLER_HALTED (Z.lor HOST_SYSTEM_ERROR
    (Z.lor EVENT_INTERRUPT PORT_CHANGE_DETECT)).

(** [Xhci]: the capabilities and a non-null base. *)
Record Xhci : Type := mkXhci { cap : XhciInfo; xbase : Z }.

Definition Xhci_new (info : XhciInfo) : option Xhci :=
  if xi_base info =? 0 then None else Some (mkXhci info (xi_base info)).

(** The base addresses of the register blocks. *)
Definition operational (x : Xhci) : Z := xbase x + xi_cap_length (cap x).
Definition runtime (x : Xhci) : Z := xbase x + xi_rtsoff (cap x).
Definition doorbells (x : Xhci) : Z := xbase x + xi_dboff (cap x).
Definition port_regs (op index : Z) : Z := op + u64 (0x400 + u64 (index * 0x10)).
Definition interrupter_register_set (rt index : Z) : Z := rt + u64 (0x20 + u64 (index * 32)).

Section Regs.
Context {D : Type} {HW : Hardware D} {CR : Crates D}.
Abbreviation KW := (K (World D)).

(** Volatile accesses to 32-bit registers; the device may act on memory meanwhile. *)
Definition read_volatile (a : Z) : KW Z := fun w =>
  let '(v, d, m) := hw_mmio_read a (w_dev w) (w_mem w) in
  Ret (u32 v) (set_mem m (set_dev d w)).

Definition write_volatile (a v : Z) : KW unit := fun w =>
  let '(d, m) := hw_mmio_write a v (w_dev w) (w_mem w) in
  Ret tt (emit (EvMmio a v) (set_mem m (set_dev d w))).

(** A 64-bit register written as two words, low word first. *)
Definition write_pair (a value : Z) : KW unit :=
  write_volatile a (u32 value) ;; write_volatile (a + 4) (u32 (Z.shiftr value 32)).

Definition read_pair (a mask : Z) : KW Z :=
  low ← read_volatile a;
  high ← read_volatile (a + 4);
  mret (Z.lor (u64 (Z.shiftl high 32)) (Z.land low (bnot 64 mask))).

(** *** [OperationalRegs] *)
Definition usbcmd (op : Z) : KW Z :=
  v ← read_volatile op; mret (flags_from_bits_truncate UsbCmd_all v).
Definition set_usbcmd (op value : Z) : KW unit := write_volatile op value.
Definition usbsts (op : Z) : KW Z :=
  v ← read_volatile (op + 0x04); mret (flags_from_bits_truncate UsbSts_all v).
Definition clear_usbsts (op value : Z) : KW unit := write_volatile (op + 0x04) value.
Definition crcr (op : Z) : KW Z := read_pair (op + 0x18) 0xF.
Definition set_crcr (op value : Z) : KW unit := write_pair (op + 0x18) value.
Definition dcbaap (op : Z) : KW Z := read_pair (op + 0x30) 0x3F.
Definition set_dcbaap (op value : Z) : KW unit := write_pair (op + 0x30) value.
Definition config (op : Z) : KW Z := read_volatile (op + 0x38).
Definition set_config (op value : Z) : KW unit := write_volatile (op + 0x38) value.

(** *** [InterrupterRegs] *)
Definition iman (ir : Z) : KW Z := read_volatile ir.
Definition set_iman (ir value : Z) : KW unit := write_volatile ir value.
Definition imod (ir : Z) : KW Z := read_volatile (ir + 0x04).
Definition set_imod (ir value : Z) : KW unit := write_volatile (ir + 0x04) value.
Definition erstsz (ir : Z) : KW Z := v ← read_volatile (ir + 0x08); mret (u16 v).
Definition set_erstsz (ir value : Z) : KW unit :=
  current ← read_volatile (ir + 0x08);
  write_volatile (ir + 0x08) (Z.lor (Z.land current (bnot 32 0xFFFF)) value).
Definition erstba (ir : Z) : KW Z := read_pair (ir + 0x10) 0x3.
Definition set_erstba (ir value : Z) : KW unit := write_pair (ir + 0x10) value.
Definition erdp (ir : Z) : KW Z := read_pair (ir + 0x18) 0.
Definition set_erdp (ir value : Z) : KW unit := write_pair (ir + 0x18) value.

(** *** [DoorbellRegs] and [PortRegs] *)
Definition ring (db index target : Z) : KW unit := write_volatile (db + u64 (index * 4)) target.
Definition portsc (port : Z) : KW Z := read_volatile port.
Definition write_portsc (port value : Z) : KW unit := write_volatile port value.

(** [inspect] and its helper [read]. *)
Definition read_cap (ptr index : Z) : KW Z := read_volatile (ptr + 4 * index).

Definition inspect (base : Z) : KW (option XhciInfo) :=
  if base =? 0 then mret None
  else
    c ← read_cap base 0;
    let cap_length := u8 (Z.land c 0xFF) in
    let hci_version := u16 (Z.land (Z.shiftr c 16) 0xFFFF) in
    hcsparams1 ← read_cap base 1;
    hcsparams2 ← read_cap base 2;
    hcsparams3 ← read_cap base 3;
    hccparams1 ← read_cap base 4;
    dboff ← read_cap base 5;
    rtsoff ← read_cap base 6;
    mret (Some (mkXhciInfo base cap_length hci_version hcsparams1 hcsparams2 hcsparams3
                           hccparams1 dboff rtsoff)).

(** [wait_for]: a million looks at a predicate. *)
Definition wait_for (predicate : KW bool) : KW bool :=
  r ← ktry 1000000 (b ← predicate; mret (if (b : bool) then Some tt else None));
  mret (match r with Some _ => true | None => false end).

End Regs.
