(* ===== verification/XhciRings.v ===== *)
(** * Rings and events of the xHCI driver (kernel/src/xhci.rs)

    The command, endpoint-0 and interrupt rings the driver fills, the event ring it
    drains, and the handling of each event, under the lock of [CONTROLLER_STATE]. *)

From S2P Require Import Prelude XhciData State Sim Fmt Serial Vga XhciRegs.
From stdpp Require Import gmap list strings.
From Stdlib Require Import ZArith Lia.

Open Scope Z_scope.

Definition CMD_RING_TRBS : Z := 256.
Definition EVENT_RING_TRBS : Z := 256.

Definition TRB_TYPE_LINK : Z := 6.
Definition TRB_TYPE_COMMAND_COMPLETION : Z := 0x21.
Definition TRB_TYPE_TRANSFER_EVENT : Z := 0x20.
Definition TRB_TYPE_PORT_STATUS_CHANGE : Z := 0x22.
Definition TRB_TYPE_NO_OP_COMMAND : Z := 23.
Definition TRB_TYPE_NORMAL : Z := 1.
Definition TRB_TYPE_CONFIGURE_ENDPOINT : Z := 12.
Definition TRB_TYPE_ENABLE_SLOT : Z := 9.
Definition TRB_TYPE_ADDRESS_DEVICE : Z := 11.
Definition TRB_TYPE_SETUP_STAGE : Z := 2.
Definition TRB_TYPE_DATA_STAGE : Z := 3.
Definition TRB_TYPE_STATUS_STAGE : Z := 4.

(** ** Request blocks in memory

    [#[repr(C, align(16))]]: eight, four and four bytes. *)

Definition load_trb (m : memory) (a : Z) : Trb :=
  mkTrb (ld 8 m a) (ld 4 m (a + 8)) (ld 4 m (a + 12)).

Definition store_trb (a : Z) (t : Trb) (m : memory) : memory :=
  st 4 (a + 12) (control t) (st 4 (a + 8) (status t) (st 8 a (parameter t) m)).

(** The slice [phys_to_slice_mut(phys, n)] is the memory at [phys + 16 * i], [i < n]. *)
Definition trb_addr (phys i : Z) : Z := phys + 16 * i.

Definition zero_trbs (phys n : Z) (m : memory) : memory :=
  fold_left (fun m i => store_trb (trb_addr phys i) Trb_default m) (seqZ 0 n) m.

Definition zero_phys (phys size : Z) (m : memory) : memory :=
  st_bytes phys (replicate (Z.to_nat size) 0) m.

(** The control word of the driver's TRBs: type, one flag, cycle bit. *)
Definition trb_control (trb_type extra cycle_bit : Z) : Z :=
  Z.lor (Z.lor (u32 (Z.shiftl (Z.land trb_type 0x3F) 10)) extra) cycle_bit.

(** [init_link_trb] writes two fields of the last TRB and leaves its status alone. *)
Definition init_link_trb (phys n base_phys : Z) (toggle : bool) (m : memory) : memory :=
  if n =? 0 then m
  else
    let link := trb_addr phys (n - 1) in
    let control := Z.lor (u32 (Z.shiftl (Z.land TRB_TYPE_LINK 0x3F) 10)) 1 in
    let control := if toggle then Z.lor control (Z.shiftl 1 1) else control in
    st 4 (link + 12) control (st 8 link base_phys m).

(** ** A transfer ring as the enqueue functions see it *)

Record Ring : Type := mkRing { r_phys : Z; r_len : Z; r_enqueue : Z; r_cycle : bool }.

Definition bit_of (b : bool) : Z := if b then 1 else 0.

(** [index = enqueue % usable; trbs[index] = trb], for a ring with [usable > 0]. *)
Definition ring_store (t : Trb) (r : Ring) (m : memory) : memory :=
  let usable := sat_sub (r_len r) 1 in
  store_trb (trb_addr (r_phys r) (r_enqueue r mod usable)) t m.

(** [enqueue = (enqueue + 1) % usable; if enqueue == 0 { cycle = !cycle }]. *)
Definition ring_advance (r : Ring) : Ring :=
  let usable := sat_sub (r_len r) 1 in
  let enqueue := u64 (r_enqueue r + 1) mod usable in
  mkRing (r_phys r) (r_len r) enqueue
         (if enqueue =? 0 then negb (r_cycle r) else r_cycle r).

Definition command_ring (s : ControllerState) : Ring :=
  mkRing (command_ring_phys s) (command_ring_len s) (command_ring_enqueue s) (command_ring_cycle s).
Definition ep0_ring (s : ControllerState) : Ring :=
  mkRing (ep0_ring_phys s) (ep0_ring_len s) (ep0_enqueue s) (ep0_cycle s).
Definition intr_ring (s : ControllerState) : Ring :=
  mkRing (intr_ring_phys s) (intr_ring_len s) (intr_enqueue s) (intr_cycle s).

(** Updates of groups of fields. *)
Definition set_command_ring (enq : Z) (cyc : bool) (s : ControllerState) : ControllerState :=
  let '(mkController i cp cl _ _ ep el ed ec db er lc ls tc tl te ts ac zp zl ze zc ia ii ip il ie ic hp hl) := s in
  mkController i cp cl enq cyc ep el ed ec db er lc ls tc tl te ts ac zp zl ze zc ia ii ip il ie ic hp hl.
Definition set_event_ring (deq : Z) (cyc : bool) (s : ControllerState) : ControllerState :=
  let '(mkController i cp cl ce cc ep el _ _ db er lc ls tc tl te ts ac zp zl ze zc ia ii ip il ie ic hp hl) := s in
  mkController i cp cl ce cc ep el deq cyc db er lc ls tc tl te ts ac zp zl ze zc ia ii ip il ie ic hp hl.
Definition set_completion (code slot : option Z) (s : ControllerState) : ControllerState :=
  let '(mkController i cp cl ce cc ep el ed ec db er _ _ tc tl te ts ac zp zl ze zc ia ii ip il ie ic hp hl) := s in
  mkController i cp cl ce cc ep el ed ec db er code slot tc tl te ts ac zp zl ze zc ia ii ip il ie ic hp hl.
Definition set_transfer (code len ep_ slot : option Z) (s : ControllerState) : ControllerState :=
  let '(mkController i cp cl ce cc ep el ed ec db er lc ls _ _ _ _ ac zp zl ze zc ia ii ip il ie ic hp hl) := s in
  mkController i cp cl ce cc ep el ed ec db er lc ls code len ep_ slot ac zp zl ze zc ia ii ip il ie ic hp hl.
Definition set_ep0 (act : option Z) (phys len enq : Z) (cyc : bool) (s : ControllerState)
  : ControllerState :=
  let '(mkController i cp cl ce cc ep el ed ec db er lc ls tc tl te ts _ _ _ _ _ ia ii ip il ie ic hp hl) := s in
  mkController i cp cl ce cc ep el ed ec db er lc ls tc tl te ts act phys len enq cyc ia ii ip il ie ic hp hl.
Definition set_intr (addr id phys len enq : Z) (cyc : bool) (s : ControllerState)
  : ControllerState :=
  let '(mkController i cp cl ce cc ep el ed ec db er lc ls tc tl te ts ac zp zl ze zc _ _ _ _ _ _ hp hl) := s in
  mkController i cp cl ce cc ep el ed ec db er lc ls tc tl te ts ac zp zl ze zc addr id phys len enq cyc hp hl.
Definition set_hid_buf (phys len : Z) (s : ControllerState) : ControllerState :=
  let '(mkController i cp cl ce cc ep el ed ec db er lc ls tc tl te ts ac zp zl ze zc ia ii ip il ie ic _ _) := s in
  mkController i cp cl ce cc ep el ed ec db er lc ls tc tl te ts ac zp zl ze zc ia ii ip il ie ic phys len.

Definition put_command_ring (r : Ring) : ControllerState -> ControllerState :=
  set_command_ring (r_enqueue r) (r_cycle r).
Definition put_ep0_ring (r : Ring) (s : ControllerState) : ControllerState :=
  set_ep0 (active_slot s) (ep0_ring_phys s) (ep0_ring_len s) (r_enqueue r) (r_cycle r) s.
Definition put_intr_ring (r : Ring) (s : ControllerState) : ControllerState :=
  set_intr (intr_ep_addr s) (intr_ep_id s) (intr_ring_phys s) (intr_ring_len s)
           (r_enqueue r) (r_cycle r) s.

(** ** Keyboard reports *)

(** [hid_usage_to_ascii]: the character, and the console action of two of the usages. *)
Inductive HidKey : Type := HidChar (c : Z) | HidEnter | HidBackspace | HidNone.

Definition hid_key (usage : Z) (shift : bool) : HidKey :=
  if (0x04 <=? usage) && (usage <=? 0x1d) then
    HidChar (u8 ((if shift then 65 else 97) + (usage - 0x04)))
  else if (0x1e <=? usage) && (usage <=? 0x26) then
    HidChar (nth (Z.to_nat (usage - 0x1e)) (bytes_of "123456789") 0)
  else if usage =? 0x27 then HidChar 48
  else if usage =? 0x28 then HidEnter
  else if usage =? 0x2a then HidBackspace
  else if usage =? 0x2c then HidChar 32
  else if usage =? 0x2d then HidChar (if shift then 95 else 45)
  else if usage =? 0x2e then HidChar (if shift then 43 else 61)
  else if usage =? 0x2f then HidChar (if shift then 123 else 91)
  else if usage =? 0x30 then HidChar (if shift then 125 else 93)
  else if usage =? 0x31 then HidChar (if shift then 124 else 92)
  else if usage =? 0x33 then HidChar (if shift then 58 else 59)
  else if usage =? 0x34 then HidChar (if shift then 34 else 39)
  else if usage =? 0x36 then HidChar (if shift then 60 else 44)
  else if usage =? 0x37 then HidChar (if shift then 62 else 46)
  else if usage =? 0x38 then HidChar (if shift then 63 else 47)
  else HidNone.

Section Rings.
Context {D : Type} {HW : Hardware D} {CR : Crates D}.
Abbreviation KW := (K (World D)).

(** [CONTROLLER_STATE.get()], and the contents of the mutex. *)
Definition if_controller {A} (none some : KW A) : KW A :=
  s ← gets w_xhci; match s with None => none | Some _ => some end.

Definition with_state {A} (m : KW A) : KW A := with_lock CONTROLLER_LOCK m.

(** Reads of the guarded state; the [Once] is initialised where they are used. *)
Definition get_st : KW ControllerState := fun w =>
  match w_xhci w with Some s => Ret s w | None => Panic w end.
Definition upd_st (f : ControllerState -> ControllerState) : KW unit :=
  modify (fun w => set_xhci (f <$> w_xhci w) w).
Definition upd_mem (f : memory -> memory) : KW unit :=
  modify (fun w => set_mem (f (w_mem w)) w).

(** The controller writes to memory on its own. *)
Definition dma : KW unit := fun w =>
  let '(d, m) := hw_dma (w_dev w) (w_mem w) in Ret tt (set_mem m (set_dev d w)).

Definition ring_doorbell (slot_id target : Z) : KW unit :=
  if_controller (mret tt)
    (with_state (
       s ← get_st;
       match Xhci_new (info s) with
       | Some x => ring (doorbells x) slot_id target
       | None => mret tt
       end)).

(** Puts a TRB on one of the three rings; [usable > 0] is checked by the callers. *)
Definition put_on (get : ControllerState -> Ring) (put : Ring -> ControllerState -> ControllerState)
    (t : Trb) : KW unit :=
  s ← get_st;
  upd_mem (ring_store t (get s)) ;;
  upd_st (put (ring_advance (get s))).

(** *** The command ring *)

Definition command_unusable : KW unit :=
  Serial.write_str (bytes_of "[xhci] command ring unusable" ++ [13; 10]).

Definition enqueue_noop_command : KW unit :=
  if_controller (mret tt)
    (with_state (
       s ← get_st;
       let usable := sat_sub (command_ring_len s) 1 in
       if usable =? 0 then command_unusable
       else
         let index := command_ring_enqueue s mod usable in
         let cycle_bit := bit_of (command_ring_cycle s) in
         upd_mem (ring_store
           (mkTrb 0 0 (trb_control TRB_TYPE_NO_OP_COMMAND (Z.shiftl 1 5) cycle_bit))
           (command_ring s)) ;;
         Serial.write_fmt (bytes_of "[xhci] queued noop index=" ++ fmt_dec index ++
                           bytes_of " cycle=" ++ fmt_dec cycle_bit ++ [13; 10]) ;;
         upd_st (put_command_ring (ring_advance (command_ring s))))).

Definition enqueue_command_trb (trb_type parameter status : Z) : KW unit :=
  if_controller (mret tt)
    (with_state (
       s ← get_st;
       let usable := sat_sub (command_ring_len s) 1 in
       if usable =? 0 then command_unusable
       else put_on command_ring put_command_ring
              (mkTrb parameter status
                 (trb_control trb_type (Z.shiftl 1 5) (bit_of (command_ring_cycle s)))))).

Definition enqueue_command_trb_slot (trb_type parameter status slot_id : Z) : KW unit :=
  if_controller (mret tt)
    (with_state (
       s ← get_st;
       let usable := sat_sub (command_ring_len s) 1 in
       if usable =? 0 then command_unusable
       else
         let control := trb_control trb_type (Z.shiftl 1 5) (bit_of (command_ring_cycle s)) in
         let control := Z.lor control (u32 (Z.shiftl slot_id 16)) in
         put_on command_ring put_command_ring (mkTrb parameter status control))).

(** *** The rings of endpoint 0 and of the interrupt endpoint *)

Definition ep0_enqueue_trb (t : Trb) : KW unit :=
  if_controller (mret tt)
    (with_state (
       s ← get_st;
       if ep0_ring_len s =? 0 then
         Serial.write_str (bytes_of "[xhci] ep0 ring not ready" ++ [13; 10])
       else if sat_sub (ep0_ring_len s) 1 =? 0 then mret tt
       else put_on ep0_ring put_ep0_ring t)).

Definition ep0_cycle_bit : KW Z :=
  if_controller (mret 1) (with_state (s ← get_st; mret (bit_of (ep0_cycle s)))).

Definition ring_ep0 (slot_id : Z) : KW unit := ring_doorbell slot_id 1.

Definition intr_cycle_bit : KW Z :=
  if_controller (mret 1) (with_state (s ← get_st; mret (bit_of (intr_cycle s)))).

Definition intr_enqueue_trb (t : Trb) : KW unit :=
  if_controller (mret tt)
    (with_state (
       s ← get_st;
       if sat_sub (intr_ring_len s) 1 =? 0 then mret tt
       else put_on intr_ring put_intr_ring t)).

(** *** Reports *)

Definition hid_usage_to_ascii (usage : Z) (shift : bool) : KW (option Z) :=
  match hid_key usage shift with
  | HidChar c => mret (Some c)
  | HidEnter => Vga.put_char 10 ;; mret None
  | HidBackspace => Vga.backspace ;; mret None
  | HidNone => mret None
  end.

(** [data[i]] of a slice of [len] bytes panics past its end. *)
Definition byte_at (phys len i : Z) : KW Z :=
  if i <? len then gets (fun w => ld8 (w_mem w) (phys + i)) else kpanic.

Definition decode_hid_report (buf_phys len : Z) : KW unit :=
  Serial.write_fmt (bytes_of "[hid] data: ") ;;
  kfor (seqZ 0 len) (fun i =>
    b ← byte_at buf_phys len i; Serial.write_fmt (fmt_hexw 2 b ++ [32])) ;;
  Serial.write_str [13; 10] ;;
  modifiers ← byte_at buf_phys len 0;
  let shift := has modifiers 0x22 in
  key ← byte_at buf_phys len 2;
  ch ← hid_usage_to_ascii key shift;
  match ch with
  | Some c => Vga.put_char c
  | None => mret tt
  end.

(** *** Events *)

(** The text of a port's status, shared by two reports of the source. *)
Definition port_line (port sc : Z) : list Z :=
  bytes_of "[xhci] port" ++ fmt_dec port ++ bytes_of " sc=" ++ fmt_xhexw 10 sc ++
  bytes_of " ccs=" ++ fmt_bool (has sc 0x1) ++ bytes_of " ped=" ++ fmt_bool (has sc 0x2) ++
  bytes_of " speed=" ++ fmt_dec (Z.land (Z.shiftr sc 10) 0xF) ++
  bytes_of " pls=" ++ fmt_dec (Z.land (Z.shiftr sc 5) 0xF) ++ [13; 10].

Definition on_command_completion (t : Trb) : KW unit :=
  let completion_code := u8 (Z.land (Z.shiftr (status t) 24) 0xFF) in
  let slot_id := u8 (Z.land (parameter t) 0xFF) in
  upd_st (set_completion (Some completion_code) (Some slot_id)) ;;
  Serial.write_fmt (bytes_of "[xhci] command completion code=" ++ fmt_xhex completion_code ++
                    bytes_of " slot=" ++ fmt_dec slot_id ++ [13; 10]).

(** The re-posting of the report buffer, with the state's guard alive. *)
Definition repost_report : KW unit :=
  s ← get_st;
  let cycle := bit_of (intr_cycle s) in
  let t := mkTrb (hid_buf_phys s) (u32 (hid_buf_len s))
                 (trb_control TRB_TYPE_NORMAL (Z.shiftl 1 5) cycle) in
  if 0 <? sat_sub (intr_ring_len s) 1 then
    put_on intr_ring put_intr_ring t ;;
    match active_slot s with
    | Some slot => ring_doorbell slot (intr_ep_id s)
    | None => mret tt
    end
  else mret tt.

Definition on_transfer_event (t : Trb) : KW unit :=
  let completion_code := u8 (Z.land (Z.shiftr (status t) 24) 0xFF) in
  let trb_len := Z.land (status t) 0x00FFFFFF in
  let ep_id := u8 (Z.land (Z.shiftr (control t) 16) 0x1F) in
  upd_st (fun s => set_transfer (Some completion_code) (Some trb_len) (Some ep_id)
                                (active_slot s) s) ;;
  Serial.write_fmt (bytes_of "[xhci] transfer event ep=" ++ fmt_dec ep_id ++
                    bytes_of " code=" ++ fmt_xhex completion_code ++
                    bytes_of " len=" ++ fmt_dec trb_len ++
                    bytes_of " param=" ++ fmt_xhex (parameter t) ++ [13; 10]) ;;
  s ← get_st;
  if (completion_code =? 1) && (0 <? intr_ring_len s) && (ep_id =? intr_ep_id s)
     && negb (hid_buf_phys s =? 0)
  then
    decode_hid_report (hid_buf_phys s) (Z.min trb_len (hid_buf_len s)) ;;
    repost_report
  else mret tt.

Definition on_port_status_change (t : Trb) : KW unit :=
  let port_id := u8 (Z.land (Z.shiftr (parameter t) 24) 0xFF) in
  Serial.write_fmt (bytes_of "[xhci] port status change: port=" ++ fmt_dec port_id ++
                    bytes_of " status=" ++ fmt_xhex (status t) ++ [13; 10]) ;;
  s ← get_st;
  match Xhci_new (info s) with
  | Some x =>
      sc ← portsc (port_regs (operational x) (sat_sub port_id 1));
      Serial.write_fmt (port_line port_id sc)
  | None => mret tt
  end.

Definition handle_event (trb_type : Z) (t : Trb) : KW unit :=
  if trb_type =? TRB_TYPE_COMMAND_COMPLETION then on_command_completion t
  else if trb_type =? TRB_TYPE_TRANSFER_EVENT then on_transfer_event t
  else if trb_type =? TRB_TYPE_PORT_STATUS_CHANGE then on_port_status_change t
  else Serial.write_fmt (bytes_of "[xhci] event type=" ++ fmt_dec trb_type ++
                         bytes_of " status=" ++ fmt_xhex (status t) ++
                         bytes_of " param=" ++ fmt_xhex (parameter t) ++ [13; 10]).

(** A round of the loop of [poll_events]: whether an event was processed. *)
Definition poll_round (ir0 : Z) : KW bool :=
  dma ;;
  s ← get_st;
  let index := event_ring_dequeue s in
  if negb (index <? event_ring_len s) then kpanic
  else
    t ← gets (fun w => load_trb (w_mem w) (trb_addr (event_ring_phys s) index));
    let cycle := has (control t) 1 in
    if negb (Bool.eqb cycle (event_ring_cycle s)) then mret false
    else
      let trb_type := u8 (Z.land (Z.shiftr (control t) 10) 0x3F) in
      handle_event trb_type t ;;
      s ← get_st;
      let deq := u64 (event_ring_dequeue s + 1) mod event_ring_len s in
      upd_st (set_event_ring deq (if deq =? 0 then negb (event_ring_cycle s)
                                  else event_ring_cycle s)) ;;
      let new_erdp := u64 (event_ring_phys s + u64 (deq * 16)) in
      set_erdp ir0 (Z.lor new_erdp (Z.shiftl 1 3)) ;;
      mret true.

(** [loop]: the controller may produce events for as long as the driver drains them;
    [fuel] bounds the events of one call. *)
Fixpoint poll_loop (fuel : nat) (ir0 : Z) (processed : bool) : KW bool :=
  match fuel with
  | O => kfuel
  | S f =>
      more ← poll_round ir0;
      if (more : bool) then poll_loop f ir0 true else mret processed
  end.

Definition poll_events (fuel : nat) : KW bool :=
  if_controller (mret false)
    (with_state (
       s ← get_st;
       match Xhci_new (info s) with
       | Some x => poll_loop fuel (interrupter_register_set (runtime x) 0) false
       | None => mret false
       end)).

(** A round of the waiting loops: [poll_events], then a look at the state. *)
Definition take_completion : KW (option (Z * Z)) :=
  with_state (
    s ← get_st;
    match last_completion_code s with
    | Some code =>
        upd_st (set_completion None None) ;;
        mret (Some (code, default 0 (last_completed_slot s)))
    | None => mret None
    end).

Definition wait_for_command_completion (fuel : nat) (iterations : positive)
  : KW (option (Z * Z)) :=
  if_controller (mret None)
    (ktry iterations (
       poll_events fuel ;;
       if_controller (mret None) take_completion)).

End Rings.

(** ** The producer side of a ring *)

Definition trb_ok (t : Trb) : Prop := fits 64 (parameter t) /\ fits 32 (status t) /\ fits 32 (control t).

(** At least one usable slot and the link TRB behind it. *)
Definition ring_ok (r : Ring) : Prop :=
  2 <= r_len r < 2 ^ 32 /\ 0 <= r_enqueue r < r_len r - 1.

Lemma load_store_trb a t m : trb_ok t -> load_trb (store_trb a t m) a = t.
Proof.
  intros (Hp & Hs & Hc). unfold load_trb, store_trb.
  rewrite !(ld_st_disjoint 4 8), ld_st_same by lia.
  rewrite (ld_st_disjoint 4 4 (a + 12)), !ld_st_same by lia.
  rewrite !Z.mod_small by zlia. by destruct t.
Qed.

Lemma load_store_trb_other a b t m :
  b + 16 <= a \/ a + 16 <= b -> load_trb (store_trb a t m) b = load_trb m b.
Proof. intros H. unfold load_trb, store_trb. by rewrite !ld_st_disjoint by lia. Qed.

Lemma store_trb_frame a t m x : x < a \/ a + 16 <= x -> store_trb a t m !! x = m !! x.
Proof. intros H. unfold store_trb. by rewrite !st_frame by lia. Qed.

Lemma usable_eq r : ring_ok r -> sat_sub (r_len r) 1 = r_len r - 1.
Proof. intros [H _]. unfold sat_sub. lia. Qed.

Lemma ring_advance_spec r :
  ring_ok r ->
  ring_ok (ring_advance r) /\ r_phys (ring_advance r) = r_phys r /\
  r_len (ring_advance r) = r_len r /\
  r_enqueue (ring_advance r) = (if r_enqueue r =? r_len r - 2 then 0 else r_enqueue r + 1) /\
  r_cycle (ring_advance r) = xorb (r_cycle r) (r_enqueue r =? r_len r - 2).
Proof.
  intros H. pose proof (usable_eq r H) as Eu. destruct H as [Hl He].
  unfold ring_advance. rewrite Eu. rewrite wrap_small by zlia.
  destruct (Z.eqb_spec (r_enqueue r) (r_len r - 2)) as [E | E].
  - rewrite E. replace (r_len r - 2 + 1) with (r_len r - 1) by lia.
    rewrite Z.mod_same by lia. cbn. unfold ring_ok. cbn. rewrite xorb_true_r. repeat split; lia.
  - rewrite Z.mod_small by lia. cbn. unfold ring_ok. cbn.
    replace (r_enqueue r + 1 =? 0) with false by lia. rewrite xorb_false_r. repeat split; lia.
Qed.

(** [C23] Putting a TRB on a ring: it lands in the slot of the enqueue index, every other
    slot of the ring and the link TRB keep their contents, memory outside the ring is
    untouched, the index moves on by one and skips the link slot, and the producer's
    cycle state flips exactly when the index wraps. *)
Theorem xhci_ring_put t r m :
  ring_ok r -> trb_ok t ->
  let m' := ring_store t r m in
  let r' := ring_advance r in
  ring_ok r' /\ load_trb m' (trb_addr (r_phys r) (r_enqueue r)) = t /\
  (forall i, 0 <= i < r_len r -> i <> r_enqueue r ->
     load_trb m' (trb_addr (r_phys r) i) = load_trb m (trb_addr (r_phys r) i)) /\
  (forall x, x < r_phys r \/ trb_addr (r_phys r) (r_len r - 1) <= x -> m' !! x = m !! x) /\
  r_enqueue r' = (if r_enqueue r =? r_len r - 2 then 0 else r_enqueue r + 1) /\
  r_cycle r' = xorb (r_cycle r) (r_enqueue r =? r_len r - 2).
Proof.
  intros H Ht m' r'. destruct (ring_advance_spec r H) as (H1 & _ & _ & H4 & H5).
  subst m' r'. unfold ring_store. rewrite (usable_eq r H).
  rewrite (Z.mod_small (r_enqueue r)) by (destruct H; lia).
  split; [done | ]. split; [by apply load_store_trb | ].
  destruct H as [Hl He]. unfold trb_addr. split; [ | split; [ | done]].
  - intros i Hi Hne. apply load_store_trb_other. lia.
  - intros x Hx. apply store_trb_frame. lia.
Qed.

(** A sequence of puts. *)
Definition ring_puts (ts : list Trb) (rm : Ring * memory) : Ring * memory :=
  fold_left (fun '(r, m) t => (ring_advance r, ring_store t r m)) ts rm.

(** The link TRB of a ring. *)
Definition link_trb (r : Ring) (m : memory) : Trb := load_trb m (trb_addr (r_phys r) (r_len r - 1)).

Lemma ring_puts_state ts r m :
  ring_ok r ->
  let '(r', m') := ring_puts ts (r, m) in
  ring_ok r' /\ r_phys r' = r_phys r /\ r_len r' = r_len r /\
  r_enqueue r' = (r_enqueue r + Z.of_nat (length ts)) mod (r_len r - 1) /\
  r_cycle r' = xorb (r_cycle r)
                    (Z.odd ((r_enqueue r + Z.of_nat (length ts)) / (r_len r - 1))) /\
  link_trb r' m' = link_trb r m.
Proof.
  intros H. induction ts as [ | t ts IH] using rev_ind.
  - cbn [ring_puts fold_left length]. rewrite Z.add_0_r.
    rewrite Z.mod_small, Z.div_small by (destruct H; lia). rewrite xorb_false_r. done.
  - unfold ring_puts in *. rewrite fold_left_app. cbn [fold_left].
    destruct (fold_left _ ts (r, m)) as [r1 m1]. destruct IH as (H1 & Hp & Hl & He & Hc & Hk).
    destruct (ring_advance_spec r1 H1) as (H2 & Hp2 & Hl2 & He2 & Hc2).
    split; [done | ]. split; [congruence | ]. split; [congruence | ].
    rewrite He2, Hc2, Hl. rewrite length_app. cbn [length].
    set (n := r_enqueue r + Z.of_nat (length ts)) in *.
    replace (r_enqueue r + Z.of_nat (length ts + 1)) with (n + 1) by lia.
    set (u := r_len r - 1) in *. assert (0 < u) by (destruct H; lia).
    replace (r_len r - 2) with (u - 1) by lia. rewrite He, Hc.
    pose proof (Z.div_mod n u ltac:(lia)) as Dn. pose proof (Z.mod_pos_bound n u ltac:(lia)) as Bn.
    split; [ | split].
    + destruct (Z.eqb_spec (n mod u) (u - 1)).
      * apply Z.mod_unique with (n / u + 1); lia.
      * apply Z.mod_unique with (n / u); lia.
    + destruct (Z.eqb_spec (n mod u) (u - 1)).
      * replace ((n + 1) / u) with (n / u + 1) by (apply Z.div_unique with 0; lia).
        rewrite Z.odd_add, xorb_assoc. done.
      * replace ((n + 1) / u) with (n / u) by (apply Z.div_unique with (n mod u + 1); lia).
        by rewrite xorb_false_r.
    + rewrite <- Hk. unfold link_trb, ring_store. rewrite Hp2, Hl2.
      rewrite (usable_eq r1 H1), (Z.mod_small (r_enqueue r1)) by (destruct H1; lia).
      apply load_store_trb_other. unfold trb_addr. destruct H1. lia.
Qed.

Lemma link_trb_init r m :
  2 <= r_len r -> fits 64 (r_phys r) ->
  has (control (link_trb r (init_link_trb (r_phys r) (r_len r) (r_phys r) true m))) 1 = true.
Proof.
  intros Hl Hp. unfold link_trb, init_link_trb, load_trb. cbn [control].
  replace (r_len r =? 0) with false by lia. rewrite ld_st_same. vm_compute. reflexivity.
Qed.

(** The link TRB goes stale: the driver writes the cycle bit of a ring's link TRB once,
    at initialisation, and no number of puts changes it, while the producer's cycle
    state flips on every lap; on each odd lap the two differ, so a controller whose
    consumer cycle state has toggled does not follow the link any more. *)
Theorem xhci_link_cycle_stale ts r m :
  ring_ok r -> r_enqueue r = 0 -> r_cycle r = true -> fits 64 (r_phys r) ->
  let '(r', m') := ring_puts ts (r, init_link_trb (r_phys r) (r_len r) (r_phys r) true m) in
  has (control (link_trb r' m')) 1 = true /\
  r_cycle r' = negb (Z.odd (Z.of_nat (length ts) / (r_len r - 1))).
Proof.
  intros H He Hc Hp.
  pose proof (ring_puts_state ts r (init_link_trb (r_phys r) (r_len r) (r_phys r) true m) H) as HS.
  destruct (ring_puts ts _) as [r' m']. destruct HS as (_ & _ & _ & _ & Hc' & ->).
  split; [apply link_trb_init; [destruct H; lia | done] | ]. by rewrite Hc', Hc, He.
Qed.

(** ** Keyboard reports under the lock *)

Section HidProps.
Context {D : Type} {HW : Hardware D} {CR : Crates D} {CL : CratesLaws D}.
Implicit Types w : World D.

(** A step that prints and draws: locks and controller state are as before. *)
Record shows (w w' : World D) : Prop := mk_shows {
  sh_locks : w_locks w' = w_locks w;
  sh_xhci : w_xhci w' = w_xhci w;
  sh_console : console_ok (w_console w')
}.

Lemma shows_trans w1 w2 w3 : shows w1 w2 -> shows w2 w3 -> shows w1 w3.
Proof. intros [] []. constructor; congruence. Qed.

Lemma prints_shows (s : list Z) w w' : console_ok (w_console w) -> prints s w w' -> shows w w'.
Proof.
  intros Hc (Hio & _). destruct (io_step_fields _ _ Hio) as (_ & _ & H1 & _ & H2 & _).
  constructor; [done | apply (io_step_fields _ _ Hio) | by rewrite H2].
Qed.

Lemma wp_fmt_shows (s : list Z) w :
  Forall (fits 8) s -> locked SERIAL w = false -> console_ok (w_console w) ->
  wp (Serial.write_fmt s) w (fun _ => shows w).
Proof.
  intros Hs Hl Hc. eapply wp_mono; [by apply wp_serial_write_fmt | ].
  intros [] w'. by apply prints_shows.
Qed.

Lemma wp_str_shows (s : list Z) w :
  Forall (fits 8) s -> locked SERIAL w = false -> console_ok (w_console w) ->
  wp (Serial.write_str s) w (fun _ => shows w).
Proof.
  intros Hs Hl Hc. eapply wp_mono; [by apply wp_serial_write_str | ].
  intros [] w'. by apply prints_shows.
Qed.

Lemma hid_key_ascii usage shift c : fits 8 usage -> hid_key usage shift = HidChar c -> 32 <= c < 127.
Proof.
  intros Hu. assert (forall b, fits 8 b ->
    match hid_key b shift with HidChar c => (32 <=? c) && (c <? 127) | _ => true end = true) as H.
  { apply (byte_cases (fun b => match hid_key b shift with
                                | HidChar c => (32 <=? c) && (c <? 127) | _ => true end)).
    destruct shift; vm_compute; reflexivity. }
  intros E. specialize (H usage Hu). rewrite E in H. lia.
Qed.

(** The dump of the report that comes before its decoding. *)
Definition dump_report (buf_phys len : Z) : K (World D) unit :=
  Serial.write_fmt (bytes_of "[hid] data: ") ;;
  kfor (seqZ 0 len) (fun i =>
    b ← byte_at buf_phys len i; Serial.write_fmt (fmt_hexw 2 b ++ [32])) ;;
  Serial.write_str [13; 10].

Lemma wp_dump_report phys len w :
  locked SERIAL w = false -> console_ok (w_console w) ->
  wp (dump_report phys len) w (fun _ => shows w).
Proof.
  intros Hl Hc. unfold dump_report. apply wp_bind.
  eapply wp_mono; [apply wp_fmt_shows; [auto with bytes | done | done] | ]. intros [] w1 S1.
  apply wp_bind. eapply wp_mono.
  - apply (wp_kfor _ _ (fun _ => shows w)); [done | ].
    intros k i w2 Hi S2. apply lookup_seqZ in Hi as [-> Hi]. apply wp_bind. unfold byte_at.
    replace (0 + Z.of_nat k <? len) with true by lia. apply wp_gets.
    eapply wp_mono; [apply wp_fmt_shows | ].
    + apply Forall_app. split; [auto with bytes | repeat constructor; done].
    + by rewrite (sh_locks _ _ S2).
    + apply S2.
    + intros [] w3 S3. by eapply shows_trans.
  - intros [] w2 S2. eapply wp_mono; [apply wp_str_shows | ].
    + auto with bytes.
    + by rewrite (sh_locks _ _ S2).
    + apply S2.
    + intros [] w3 S3. by eapply shows_trans.
Qed.

Lemma decode_dump phys len :
  decode_hid_report phys len =
  (Serial.write_fmt (bytes_of "[hid] data: ") ;;
   kfor (seqZ 0 len) (fun i =>
     b ← byte_at phys len i; Serial.write_fmt (fmt_hexw 2 b ++ [32])) ;;
   Serial.write_str [13; 10] ;;
   (modifiers ← byte_at phys len 0;
    key ← byte_at phys len 2;
    ch ← hid_usage_to_ascii key (has modifiers 0x22);
    match ch with Some c => Vga.put_char c | None => mret tt end) : K (World D) unit).
Proof. done. Qed.

Lemma decode_after_dump phys len w w1 :
  dump_report phys len w = Ret tt w1 ->
  decode_hid_report phys len w =
  (modifiers ← byte_at phys len 0;
   key ← byte_at phys len 2;
   ch ← hid_usage_to_ascii key (has modifiers 0x22);
   match ch with Some c => Vga.put_char c | None => mret tt end) w1.
Proof.
  rewrite decode_dump. unfold dump_report, mbind, K_bind, kbind.
  destruct (Serial.write_fmt _ w) as [[] wa | | | | ]; try done.
  destruct (kfor _ _ wa) as [[] wb | | | | ]; try done.
  destruct (Serial.write_str _ wb) as [[] wc | | | | ]; try done. by intros [= ->].
Qed.

Lemma decode_short phys len w :
  locked SERIAL w = false -> console_ok (w_console w) -> len < 3 ->
  exists w', decode_hid_report phys len w = Panic w'.
Proof.
  intros Hl Hc H3. pose proof (wp_dump_report phys len w Hl Hc) as H.
  apply wp_iff in H as ([] & w1 & E & _). rewrite (decode_after_dump _ _ _ _ E).
  exists w1. unfold byte_at, mbind, K_bind, kbind. destruct (0 <? len); [ | done].
  cbn. replace (2 <? len) with false by lia. done.
Qed.

Lemma wp_decode_long phys len w :
  locked SERIAL w = false -> locked CONSOLE w = false -> console_ok (w_console w) -> 3 <= len ->
  wp (decode_hid_report phys len) w (fun _ => shows w).
Proof.
  intros Hl Hv Hc H3. pose proof (wp_dump_report phys len w Hl Hc) as H.
  apply wp_iff in H as ([] & w1 & E & S1). unfold wp. rewrite (decode_after_dump _ _ _ _ E).
  match goal with |- match ?m w1 with _ => _ end => change (wp m w1 (fun _ => shows w)) end.
  assert (locked CONSOLE w1 = false) as Hv1 by (by rewrite (sh_locks _ _ S1)).
  assert (forall w2, draws w1 w2 -> shows w w2) as Hd.
  { intros w2 Hd. constructor.
    - by rewrite (draws_locks _ _ Hd), (sh_locks _ _ S1).
    - destruct Hd as (c & m & -> & _). rewrite <- (sh_xhci _ _ S1). by destruct w1.
    - by eapply draws_console_ok. }
  apply wp_bind. unfold byte_at at 1. replace (0 <? len) with true by lia. apply wp_gets, wp_bind.
  unfold byte_at. replace (2 <? len) with true by lia. apply wp_gets, wp_bind.
  set (key := ld8 _ _). unfold hid_usage_to_ascii.
  assert (fits 8 key) as Hk by apply ld8_range.
  destruct (hid_key key _) as [c | | | ] eqn:Ek.
  - apply wp_ret. apply hid_key_ascii in Ek; [ | done].
    eapply wp_mono; [apply wp_vga_put_char; [done | apply S1 | lia] | ]. intros [] w2 [H2 _]. auto.
  - apply wp_bind. eapply wp_mono; [apply wp_vga_put_char; [done | apply S1 | lia] | ].
    intros [] w2 [H2 _]. apply wp_ret, wp_ret. auto.
  - apply wp_bind. eapply wp_mono; [apply wp_vga_backspace; [done | apply S1] | ].
    intros [] w2 [H2 _]. apply wp_ret, wp_ret. auto.
  - by apply wp_ret, wp_ret.
Qed.

Lemma doorbell_deadlock slot target w :
  w_xhci w <> None -> locked CONTROLLER_LOCK w = true -> ring_doorbell slot target w = Deadlock w.
Proof.
  intros Hx Hl. unfold ring_doorbell, if_controller, gets, mbind, K_bind, kbind.
  destruct (w_xhci w); [ | done]. by apply with_lock_held.
Qed.

(** An interrupt-endpoint event of success for the keyboard that is being polled. *)
Definition report_event (s : ControllerState) (t : Trb) : Prop :=
  u8 (Z.land (Z.shiftr (status t) 24) 0xFF) = 1 /\
  u8 (Z.land (Z.shiftr (control t) 16) 0x1F) = intr_ep_id s /\
  hid_buf_phys s <> 0 /\ 2 <= intr_ring_len s /\ active_slot s <> None.

Lemma on_transfer_event_eq t s w w1 :
  w_xhci w = Some s -> report_event s t ->
  let s1 := set_transfer (Some 1) (Some (Z.land (status t) 0x00FFFFFF)) (Some (intr_ep_id s))
                         (active_slot s) s in
  Serial.write_fmt (bytes_of "[xhci] transfer event ep=" ++ fmt_dec (intr_ep_id s) ++
                    bytes_of " code=" ++ fmt_xhex 1 ++
                    bytes_of " len=" ++ fmt_dec (Z.land (status t) 0x00FFFFFF) ++
                    bytes_of " param=" ++ fmt_xhex (parameter t) ++ [13; 10])
    (set_xhci (Some s1) w) = Ret tt w1 ->
  w_xhci w1 = Some s1 ->
  on_transfer_event t w =
    (decode_hid_report (hid_buf_phys s) (Z.min (Z.land (status t) 0x00FFFFFF) (hid_buf_len s)) ;;
     repost_report) w1.
Proof.
  intros Hx (Hc & He & Hb & Hr & Ha) s1 E1 Ex. unfold on_transfer_event.
  rewrite Hc, He. unfold upd_st, modify, mbind at 1, K_bind, kbind at 1.
  rewrite Hx. cbn [fmap option_fmap option_map].
  unfold mbind at 1, K_bind, kbind at 1. subst s1. rewrite E1.
  unfold mbind at 1, K_bind, kbind at 1. unfold get_st at 1. rewrite Ex.
  destruct s; cbn in *. replace (0 <? intr_ring_len) with true by lia.
  rewrite Z.eqb_refl, (proj2 (Z.eqb_neq _ _) Hb). done.
Qed.

Lemma repost_deadlocks s slot w :
  w_xhci w = Some s -> active_slot s = Some slot -> 2 <= intr_ring_len s ->
  locked CONTROLLER_LOCK w = true -> exists w', repost_report w = Deadlock w'.
Proof.
  intros Hx Ha Hr Hl. unfold repost_report. erewrite kbind_eq; [ | by unfold get_st; rewrite Hx].
  replace (0 <? sat_sub (intr_ring_len s) 1) with true by (unfold sat_sub; lia). rewrite Ha.
  unfold put_on, upd_mem, upd_st, modify, mbind, K_bind, kbind, get_st. rewrite Hx.
  rewrite doorbell_deadlock; [by eexists | | by destruct w].
  destruct w; cbn in *. by subst.
Qed.

(** [C38] A report of the polled keyboard cannot be processed.  [poll_events] handles it with
    the controller's lock held: if the event's length field is below 3 (it counts the
    bytes that were not transferred, so it is 0 for a complete report) the decoder
    indexes past the end of the slice and panics, and otherwise the re-posting rings the
    doorbell, which takes the same lock again and spins for ever. *)
Theorem xhci_hid_report_never_handled t s w :
  w_xhci w = Some s -> report_event s t -> locked CONTROLLER_LOCK w = true ->
  locked SERIAL w = false -> locked CONSOLE w = false -> console_ok (w_console w) ->
  exists w', handle_event TRB_TYPE_TRANSFER_EVENT t w =
    if Z.min (Z.land (status t) 0x00FFFFFF) (hid_buf_len s) <? 3 then Panic w' else Deadlock w'.
Proof.
  intros Hx Hr Hl Hs Hv Hc. cbn [handle_event].
  set (s1 := set_transfer (Some 1) (Some (Z.land (status t) 0x00FFFFFF)) (Some (intr_ep_id s))
                          (active_slot s) s).
  set (w0 := set_xhci (Some s1) w).
  set (msg := bytes_of "[xhci] transfer event ep=" ++ fmt_dec (intr_ep_id s) ++
              bytes_of " code=" ++ fmt_xhex 1 ++
              bytes_of " len=" ++ fmt_dec (Z.land (status t) 0x00FFFFFF) ++
              bytes_of " param=" ++ fmt_xhex (parameter t) ++ [13; 10]).
  assert (wp (Serial.write_fmt msg) w0 (fun _ => shows w0)) as H.
  { apply wp_fmt_shows; [subst msg; solve_bytes | by destruct w | by destruct w]. }
  apply wp_iff in H as ([] & w1 & E1 & S1).
  assert (w_xhci w1 = Some s1) as X1 by (rewrite (sh_xhci _ _ S1); by destruct w).
  assert (w_locks w1 = w_locks w) as K1 by (rewrite (sh_locks _ _ S1); by destruct w).
  change (handle_event TRB_TYPE_TRANSFER_EVENT t w) with (on_transfer_event t w).
  rewrite (on_transfer_event_eq t s w w1) by done.
  destruct (Z.ltb_spec (Z.min (Z.land (status t) 0x00FFFFFF) (hid_buf_len s)) 3) as [H3 | H3].
  - destruct (decode_short (hid_buf_phys s) _ w1 ltac:(by rewrite K1) (sh_console _ _ S1) H3)
      as [w2 E2]. exists w2. unfold mbind, K_bind, kbind. by rewrite E2.
  - pose proof (wp_decode_long (hid_buf_phys s) _ w1 ltac:(by rewrite K1) ltac:(by rewrite K1)
                  (sh_console _ _ S1) H3) as H.
    apply wp_iff in H as ([] & w2 & E2 & S2). erewrite kbind_eq by exact E2.
    destruct Hr as (_ & _ & _ & Hr & Ha). destruct (active_slot s) as [slot | ] eqn:Es; [ | done].
    apply (repost_deadlocks s1 slot).
    + by rewrite (sh_xhci _ _ S2).
    + subst s1. by destruct s.
    + subst s1. by destruct s.
    + by rewrite (sh_locks _ _ S2), K1.
Qed.
End HidProps.

(** *** Witnesses *)

Definition demo_ring : Ring := mkRing 0x10000 4 0 true.

Lemma demo_ring_ok : ring_ok demo_ring.
Proof. repeat split; discriminate || reflexivity. Qed.

Lemma xhci_ring_put_witness :
  let t := mkTrb 7 8 9 in
  let m' := ring_store t demo_ring ∅ in
  let r' := ring_advance demo_ring in
  ring_ok r' /\ load_trb m' 0x10000 = t /\
  (forall i, 0 <= i < 4 -> i <> 0 ->
     load_trb m' (trb_addr 0x10000 i) = load_trb ∅ (trb_addr 0x10000 i)) /\
  (forall x, x < 0x10000 \/ 0x10030 <= x -> m' !! x = (∅ : memory) !! x) /\
  r_enqueue r' = 1 /\ r_cycle r' = true.
Proof.
  apply (xhci_ring_put (mkTrb 7 8 9) demo_ring ∅).
  - apply demo_ring_ok.
  - repeat split; discriminate || reflexivity.
Defined.

Lemma xhci_link_cycle_stale_witness :
  let '(r', m') := ring_puts (replicate 3 (mkTrb 0 0 1))
                     (demo_ring, init_link_trb 0x10000 4 0x10000 true ∅) in
  has (control (link_trb r' m')) 1 = true /\ r_cycle r' = false.
Proof.
  apply (xhci_link_cycle_stale (replicate 3 (mkTrb 0 0 1)) demo_ring ∅).
  - apply demo_ring_ok.
  - reflexivity.
  - reflexivity.
  - split; discriminate || reflexivity.
Defined.

(** A keyboard on slot 1, endpoint 3, with a report of 8 bytes complete. *)
Definition demo_info : XhciInfo := mkXhciInfo 0xFE000000 0x20 0x100 0x02000010 0 0 0 0x100 0x200.
Definition demo_controller : ControllerState :=
  mkController demo_info 0x10000 256 0 true 0x20000 256 0 true 0x30000 0x31000
    None None None None None None (Some 1) 0x40000 64 0 true 0x81 3 0x50000 128 0 true 0x60000 8.
Definition demo_polling : World Sim :=
  set_locks (set_lock CONTROLLER_LOCK true (w_locks sim_ready))
    (set_xhci (Some demo_controller) sim_ready).
Definition demo_event : Trb := mkTrb 0x50000 (Z.shiftl 1 24) 0x00038001.

Lemma xhci_hid_report_never_handled_witness :
  exists w', handle_event TRB_TYPE_TRANSFER_EVENT demo_event demo_polling = Panic w'.
Proof.
  apply (xhci_hid_report_never_handled demo_event demo_controller demo_polling).
  - reflexivity.
  - repeat split; discriminate || reflexivity.
  - reflexivity.
  - reflexivity.
  - reflexivity.
  - repeat split; discriminate || reflexivity.
Defined.
