(* ===== verification/XhciCtl.v ===== *)
(** * Bringing up the xHCI controller and a keyboard (kernel/src/xhci.rs)

    Initialisation of the controller, port reset, slots and contexts, control transfers,
    descriptors, and the polling of the keyboard's interrupt endpoint. *)

From S2P Require Import Prelude XhciData State Sim Fmt Serial Vga Pmm XhciRegs XhciRings.
From stdpp Require Import gmap list strings.
From Stdlib Require Import ZArith Lia.

Open Scope Z_scope.

(** [UsbSetupPacket] transmuted to a [u64]: packed, little endian. *)
Definition setup_param (request_type request value index length : Z) : Z :=
  request_type + 2 ^ 8 * request + 2 ^ 16 * value + 2 ^ 32 * index + 2 ^ 48 * length.

Definition endpoint_id_from_addr (addr : Z) : Z :=
  let ep := u8 (Z.land addr 0x0F) in
  u8 (u8 (ep * 2) + if has addr 0x80 then 1 else 0).

(** ** The configuration descriptor *)

(** A round of the loop of [parse_hid_keyboard_endpoint] at offset [i]: the result, or
    the next offset and flag.  Every index is below [i + b_len <= len]. *)
Definition parse_round (m : memory) (phys len i : Z) (in_hid : bool)
  : option (Z * Z * Z) + (Z * bool) :=
  let byte k := ld8 m (phys + k) in
  let b_len := byte i in
  if b_len =? 0 then inl None
  else if len <? i + b_len then inl None
  else
    let dtype := byte (i + 1) in
    if dtype =? 4 then
      inr (i + b_len,
           if 9 <=? b_len
           then (byte (i + 5) =? 3) && (byte (i + 6) =? 1) && (byte (i + 7) =? 1)
           else in_hid)
    else if dtype =? 5 then
      if in_hid && (7 <=? b_len) then
        let addr := byte (i + 2) in
        let attrs := Z.land (byte (i + 3)) 0x3 in
        let maxp := Z.lor (byte (i + 4)) (u16 (Z.shiftl (byte (i + 5)) 8)) in
        let interval := byte (i + 6) in
        if has addr 0x80 && (attrs =? 3) then inl (Some (addr, maxp, interval))
        else inr (i + b_len, in_hid)
      else inr (i + b_len, in_hid)
    else inr (i + b_len, in_hid).

(** Descriptors are at least one byte long: [len + 1] rounds are enough. *)
Fixpoint parse_loop (fuel : nat) (m : memory) (phys len i : Z) (in_hid : bool)
  : option (option (Z * Z * Z)) :=
  match fuel with
  | O => None
  | S f =>
      if i + 2 <=? len then
        match parse_round m phys len i in_hid with
        | inl r => Some r
        | inr (i', in_hid') => parse_loop f m phys len i' in_hid'
        end
      else Some None
  end.

Definition parse_hid_keyboard_endpoint (m : memory) (cfg_phys total_len : Z)
  : option (option (Z * Z * Z)) :=
  parse_loop (S (Z.to_nat total_len)) m cfg_phys total_len 0 false.

Section Ctl.
Context {D : Type} {HW : Hardware D} {CR : Crates D}.
Abbreviation KW := (K (World D)).

(** The budget of one call of [poll_events]. *)
Variable fuel : nat.

Definition say (s : string) : KW unit := Serial.write_str (bytes_of s ++ [13; 10]).

(** The state's [info], read under a short-lived guard. *)
Definition get_info : KW XhciInfo := with_state (s ← get_st; mret (info s)).

(** *** Initialisation *)

Definition store_erst (phys base size : Z) (m : memory) : memory :=
  st 4 (phys + 8) size (st 8 phys base (zero_phys phys 16 m)).

Definition fresh_state (i : XhciInfo) (cmd_ring dcbaa event_ring erst : Z) : ControllerState :=
  mkController i cmd_ring CMD_RING_TRBS 0 true event_ring EVENT_RING_TRBS 0 true dcbaa erst
    None None None None None None None 0 0 0 true 0 0 0 0 0 true 0 0.

(** Halt and reset; [inr] is the error string. *)
Definition reset_controller (op : Z) : KW (unit + list Z) :=
  cmd ← usbcmd op;
  stopped ← (if flags_contains cmd RUN_STOP then
               set_usbcmd op (flags_remove cmd RUN_STOP) ;;
               wait_for (s ← usbsts op; mret (flags_contains s HOST_CONTROLLER_HALTED))
             else mret true);
  if negb stopped then mret (inr (bytes_of "xhci: halt timeout"))
  else
    cmd ← usbcmd op;
    set_usbcmd op (flags_insert cmd HOST_CONTROLLER_RESET) ;;
    ok ← wait_for (c ← usbcmd op; mret (negb (flags_contains c HOST_CONTROLLER_RESET)));
    if negb ok then mret (inr (bytes_of "xhci: reset bit stuck"))
    else
      ok ← wait_for (s ← usbsts op; mret (flags_contains s HOST_CONTROLLER_HALTED));
      if negb ok then mret (inr (bytes_of "xhci: reset halt timeout")) else mret (inl tt).

(** The four allocations, each initialised before the next one is made: command ring,
    device context array, event ring, segment table. *)
Definition allocate_structures (i : XhciInfo) : KW ((Z * Z * Z * Z) + list Z) :=
  cmd_ring ← alloc_aligned (u64 (CMD_RING_TRBS * 16)) 64;
  match cmd_ring with
  | None => mret (inr (bytes_of "xhci: no memory for command ring"))
  | Some cmd_ring =>
  upd_mem (zero_trbs cmd_ring CMD_RING_TRBS) ;;
  upd_mem (init_link_trb cmd_ring CMD_RING_TRBS cmd_ring true) ;;
  let slots := max_slots i + 1 in
  let dcbaa_size := u64 (slots * 8) in
  dcbaa ← alloc_aligned dcbaa_size 64;
  match dcbaa with
  | None => mret (inr (bytes_of "xhci: no dcbaa"))
  | Some dcbaa =>
  upd_mem (zero_phys dcbaa dcbaa_size) ;;
  event_ring ← alloc_aligned (u64 (EVENT_RING_TRBS * 16)) 64;
  match event_ring with
  | None => mret (inr (bytes_of "xhci: no event ring"))
  | Some event_ring =>
  upd_mem (zero_trbs event_ring EVENT_RING_TRBS) ;;
  erst ← alloc_aligned 16 64;
  match erst with
  | None => mret (inr (bytes_of "xhci: no erst"))
  | Some erst =>
  upd_mem (store_erst erst event_ring (u32 EVENT_RING_TRBS)) ;;
  mret (inl (cmd_ring, dcbaa, event_ring, erst))
  end end end end.

Definition program_registers (x : Xhci) (cmd_ring dcbaa event_ring erst : Z) : KW unit :=
  let op := operational x in
  set_dcbaap op dcbaa ;;
  set_crcr op (Z.lor (Z.land cmd_ring (bnot 64 0xF)) 1) ;;
  set_config op (Z.land (max_slots (cap x)) 0xFF) ;;
  let ir0 := interrupter_register_set (runtime x) 0 in
  set_erstsz ir0 1 ;;
  set_erstba ir0 erst ;;
  set_erdp ir0 event_ring ;;
  v ← iman ir0;
  set_iman ir0 (Z.lor v 1) ;;
  set_imod ir0 0 ;;
  clear_usbsts op (Z.lor (Z.lor EVENT_INTERRUPT PORT_CHANGE_DETECT) HOST_SYSTEM_ERROR) ;;
  cmd ← usbcmd op;
  set_usbcmd op (flags_insert cmd (Z.lor RUN_STOP INTERRUPTER_ENABLE)).

Definition init_controller (i : XhciInfo) : KW (unit + list Z) :=
  match Xhci_new i with
  | None => mret (inr (bytes_of "xhci: null base"))
  | Some x =>
    let op := operational x in
    r ← reset_controller op;
    match r with
    | inr e => mret (inr e)
    | inl _ =>
    a ← allocate_structures i;
    match a with
    | inr e => mret (inr e)
    | inl (cmd_ring, dcbaa, event_ring, erst) =>
      program_registers x cmd_ring dcbaa event_ring erst ;;
      ok ← wait_for (s ← usbsts op; mret (negb (flags_contains s HOST_CONTROLLER_HALTED)));
      if negb ok then mret (inr (bytes_of "xhci: run timeout"))
      else
        modify (fun w => set_xhci
          (once_call ControllerState (w_xhci w) (fresh_state i cmd_ring dcbaa event_ring erst)) w) ;;
        cr ← crcr op;
        Serial.write_fmt (bytes_of "[xhci] runtime ready cr=" ++ fmt_xhex cr ++
                          bytes_of " erst=" ++ fmt_xhex erst ++
                          bytes_of " erdp=" ++ fmt_xhex event_ring ++ [13; 10]) ;;
        enqueue_noop_command ;;
        ring_doorbell 0 0 ;;
        c ← wait_for_command_completion fuel 1000000;
        match c with
        | Some (code, slot) =>
            Serial.write_fmt (bytes_of "[xhci] command completed code=" ++ fmt_xhex code ++
                              bytes_of " slot=" ++ fmt_dec slot ++ [13; 10])
        | None => say "[xhci] command timeout"
        end ;;
        s ← usbsts op;
        Serial.write_fmt (bytes_of "[xhci] usbsts=" ++ fmt_xhex s ++ [13; 10]) ;;
        mret (inl tt)
    end end
  end.

(** *** Ports *)

Definition report_ports : KW unit :=
  if_controller (mret tt) (
    i ← get_info;
    match Xhci_new i with
    | None => mret tt
    | Some x =>
        kfor (seqZ 0 (max_ports i)) (fun port =>
          sc ← portsc (port_regs (operational x) port);
          Serial.write_fmt (port_line (u8 (port + 1)) sc))
    end).

(** The first index of [l] whose port has a device: the loop with its early return. *)
Fixpoint connected (op : Z) (l : list Z) : KW (option Z) :=
  match l with
  | [] => mret None
  | i :: l' => sc ← portsc (port_regs op i);
               if has sc 0x1 then mret (Some i) else connected op l'
  end.

Definition find_first_connected_port : KW (option Z) :=
  if_controller (mret None) (
    i ← get_info;
    match Xhci_new i with
    | None => mret None
    | Some x => connected (operational x) (seqZ 0 (max_ports i))
    end).

Definition reset_port (index : Z) : KW bool :=
  if_controller (mret false) (
    i ← get_info;
    match Xhci_new i with
    | None => mret false
    | Some x =>
        let regs := port_regs (operational x) index in
        sc ← portsc regs;
        Serial.write_fmt (bytes_of "[xhci] resetting port" ++ fmt_dec (u64 (index + 1)) ++
                          bytes_of " sc=" ++ fmt_xhex sc ++ [13; 10]) ;;
        write_portsc regs (Z.lor sc (Z.shiftl 1 4)) ;;
        wait_for (now ← portsc regs; mret (negb (has now (Z.shiftl 1 4)))) ;;
        ok ← wait_for (now ← portsc regs; mret (has now 0x2));
        final_sc ← portsc regs;
        Serial.write_fmt (bytes_of "[xhci] port" ++ fmt_dec (u64 (index + 1)) ++
                          bytes_of " reset done ok=" ++ fmt_bool ok ++
                          bytes_of " sc=" ++ fmt_xhex final_sc ++ [13; 10]) ;;
        mret ok
    end).

Definition ensure_first_port_enabled : KW bool :=
  p ← find_first_connected_port;
  match p with
  | None => mret false
  | Some idx =>
      enabled ← if_controller (mret false) (
        i ← get_info;
        match Xhci_new i with
        | None => mret false
        | Some x => sc ← portsc (port_regs (operational x) idx); mret (has sc 0x2)
        end);
      if (enabled : bool) then mret true else reset_port idx
  end.

(** *** Slots *)

Definition enable_slot : KW (option Z) :=
  enqueue_command_trb TRB_TYPE_ENABLE_SLOT 0 0 ;;
  ring_doorbell 0 0 ;;
  c ← wait_for_command_completion fuel 1000000;
  match c with
  | Some (code, slot) =>
      Serial.write_fmt (bytes_of "[xhci] enable slot completion code=" ++ fmt_xhex code ++
                        bytes_of " slot=" ++ fmt_dec slot ++ [13; 10]) ;;
      if code =? 1 then mret (Some slot) else mret None
  | None => mret None
  end.

(** [match speed_code { 4 => 512, 3 => 64, 1 | 2 => 8, _ => 64 }]. *)
Definition max_packet (speed_code : Z) : Z :=
  if speed_code =? 4 then 512 else if speed_code =? 3 then 64
  else if (speed_code =? 1) || (speed_code =? 2) then 8 else 64.

Definition speed_of_first_port : KW Z :=
  p ← find_first_connected_port;
  match p with
  | None => mret 0
  | Some idx =>
      if_controller (mret 0) (
        i ← get_info;
        match Xhci_new i with
        | None => mret 0
        | Some x => sc ← portsc (port_regs (operational x) idx);
                    mret (Z.land (Z.shiftr sc 10) 0xF)
        end)
  end.

(** Dword [i] of the context at [p]. *)
Definition poke (p i v : Z) : KW unit := upd_mem (st 4 (p + 4 * i) v).

Definition address_device (slot_id : Z) : KW bool :=
  if_controller (mret false) (
    '(i, context_size, dcbaa) ← with_state (
        s ← get_st; mret (info s, context_size (info s), dcbaa_phys s));
    let dc_bytes := u64 (context_size * 32) in
    dc ← alloc_aligned dc_bytes 64;
    match dc with
    | None => say "[xhci] no memory for device context" ;; mret false
    | Some dc_phys =>
    upd_mem (zero_phys dc_phys dc_bytes) ;;
    let dcbaa_entries := max_slots i + 1 in
    (if slot_id <? dcbaa_entries then upd_mem (st 8 (dcbaa + 8 * slot_id) dc_phys) else kpanic) ;;
    let ep0_trbs := 64 in
    ep0 ← alloc_aligned (u64 (ep0_trbs * 16)) 64;
    match ep0 with
    | None => say "[xhci] no memory for ep0 ring" ;; mret false
    | Some ep0_phys =>
    upd_mem (zero_trbs ep0_phys ep0_trbs) ;;
    upd_mem (init_link_trb ep0_phys ep0_trbs ep0_phys true) ;;
    let ic_bytes := u64 (context_size * 3) in
    ic ← alloc_aligned ic_bytes 64;
    match ic with
    | None => say "[xhci] no memory for input context" ;; mret false
    | Some ic_phys =>
    upd_mem (zero_phys ic_phys ic_bytes) ;;
    poke ic_phys 1 3 ;;
    let dwords_per_ctx := context_size / 4 in
    let slot_ctx := ic_phys + 4 * dwords_per_ctx in
    let ep0_ctx := slot_ctx + 4 * dwords_per_ctx in
    poke slot_ctx 0 0 ;;
    speed_code ← speed_of_first_port;
    poke slot_ctx 1 (u32 (Z.shiftl speed_code 20)) ;;
    poke slot_ctx 2 (u32 (Z.shiftl 1 27)) ;;
    let mps := max_packet speed_code in
    poke ep0_ctx 1 (u32 (Z.shiftl mps 16)) ;;
    poke ep0_ctx 2 (Z.land (u32 ep0_phys) (bnot 32 0xF)) ;;
    poke ep0_ctx 3 (u32 (Z.shiftr ep0_phys 32)) ;;
    enqueue_command_trb_slot TRB_TYPE_ADDRESS_DEVICE ic_phys 0 slot_id ;;
    ring_doorbell 0 0 ;;
    c ← wait_for_command_completion fuel 1000000;
    match c with
    | None => mret false
    | Some (code, slot) =>
        Serial.write_fmt (bytes_of "[xhci] address device completion code=" ++ fmt_xhex code ++
                          bytes_of " slot=" ++ fmt_dec slot ++ [13; 10]) ;;
        if (code =? 1) && (slot =? slot_id) then
          if_controller (mret tt)
            (with_state (upd_st (set_ep0 (Some slot_id) ep0_phys ep0_trbs 0 true))) ;;
          mret true
        else mret false
    end end end end).

(** *** Control transfers *)

(** A look at the last transfer, as in the waiting loops: the code and the length. *)
Definition take_transfer (take_len : bool) : KW (option (Z * Z)) :=
  with_state (
    s ← get_st;
    match last_transfer_code s with
    | Some code =>
        let len := default 0 (last_transfer_len s) in
        upd_st (fun s => set_transfer None (if take_len then None else last_transfer_len s)
                                      (last_transfer_ep s) (last_transfer_slot s) s) ;;
        Serial.write_fmt (
          if take_len
          then bytes_of "[xhci] control_in done code=" ++ fmt_xhex code ++
               bytes_of " len=" ++ fmt_dec len ++ [13; 10]
          else bytes_of "[xhci] control_out(no-data) done code=" ++ fmt_xhex code ++ [13; 10]) ;;
        mret (Some (code, len))
    | None => mret None
    end).

Definition wait_transfer (take_len : bool) : KW bool :=
  r ← ktry 1000000 (poll_events fuel ;; if_controller (mret None) (take_transfer take_len));
  mret (match r with Some (code, _) => code =? 1 | None => false end).

Definition control_in (slot_id request_type request value index length data_phys : Z) : KW bool :=
  c ← ep0_cycle_bit;
  ep0_enqueue_trb (mkTrb (setup_param request_type request value index length) 8
                         (trb_control TRB_TYPE_SETUP_STAGE (Z.shiftl 1 5) c)) ;;
  c ← ep0_cycle_bit;
  ep0_enqueue_trb (mkTrb data_phys length
    (trb_control TRB_TYPE_DATA_STAGE (Z.lor (Z.shiftl 1 16) (Z.shiftl 1 5)) c)) ;;
  c ← ep0_cycle_bit;
  ep0_enqueue_trb (mkTrb 0 0
    (trb_control TRB_TYPE_STATUS_STAGE (Z.lor (Z.shiftl 0 16) (Z.shiftl 1 5)) c)) ;;
  ring_ep0 slot_id ;;
  wait_transfer true.

Definition control_no_data (slot_id request_type request value index : Z) : KW bool :=
  c ← ep0_cycle_bit;
  ep0_enqueue_trb (mkTrb (setup_param request_type request value index 0) 8
                         (trb_control TRB_TYPE_SETUP_STAGE (Z.shiftl 1 5) c)) ;;
  c ← ep0_cycle_bit;
  ep0_enqueue_trb (mkTrb 0 0
    (trb_control TRB_TYPE_STATUS_STAGE (Z.lor (Z.shiftl 1 16) (Z.shiftl 1 5)) c)) ;;
  ring_ep0 slot_id ;;
  wait_transfer false.

Definition get_device_descriptor (slot_id : Z) : KW (option Z) :=
  b ← alloc_aligned 256 64;
  match b with
  | None => say "[xhci] no mem for dev desc" ;; mret None
  | Some buf =>
      upd_mem (zero_phys buf 256) ;;
      ok ← control_in slot_id 0x80 6 (Z.lor (u16 (Z.shiftl 1 8)) 0) 0 18 buf;
      mret (if (ok : bool) then Some buf else None)
  end.

Definition get_configuration_descriptor_header (slot_id : Z) : KW (option (Z * Z * Z)) :=
  b ← alloc_aligned 64 64;
  match b with
  | None => say "[xhci] no mem for cfg head" ;; mret None
  | Some buf =>
      upd_mem (zero_phys buf 64) ;;
      ok ← control_in slot_id 0x80 6 (Z.lor (u16 (Z.shiftl 2 8)) 0) 0 9 buf;
      if negb ok then mret None
      else
        m ← gets w_mem;
        let total := Z.lor (ld8 m (buf + 2)) (u16 (Z.shiftl (ld8 m (buf + 3)) 8)) in
        mret (Some (buf, total, ld8 m (buf + 5)))
  end.

Definition get_configuration_descriptor (slot_id total_len : Z) : KW (option Z) :=
  b ← alloc_aligned total_len 64;
  match b with
  | None => say "[xhci] no mem for cfg desc" ;; mret None
  | Some buf =>
      upd_mem (zero_phys buf total_len) ;;
      ok ← control_in slot_id 0x80 6 (Z.lor (u16 (Z.shiftl 2 8)) 0) 0 total_len buf;
      mret (if (ok : bool) then Some buf else None)
  end.

Definition set_configuration (slot_id cfg_value : Z) : KW bool :=
  control_no_data slot_id 0x00 9 cfg_value 0.

(** *** The interrupt endpoint *)

Definition configure_interrupt_in_endpoint (slot_id ep_addr maxp interval : Z) : KW bool :=
  let ep_id := endpoint_id_from_addr ep_addr in
  if_controller (mret false) (
    i ← get_info;
    let ctx_size := context_size i in
    let ring_trbs := 128 in
    r ← alloc_aligned (u64 (ring_trbs * 16)) 64;
    match r with
    | None => say "[xhci] no memory for intr ring" ;; mret false
    | Some ring_phys =>
    upd_mem (zero_trbs ring_phys ring_trbs) ;;
    upd_mem (init_link_trb ring_phys ring_trbs ring_phys true) ;;
    let ic_entries := 1 + 1 + ep_id in
    let ic_bytes := u64 (ctx_size * ic_entries) in
    ic ← alloc_aligned ic_bytes 64;
    match ic with
    | None => say "[xhci] no memory for conf ic" ;; mret false
    | Some ic_phys =>
    upd_mem (zero_phys ic_phys ic_bytes) ;;
    poke ic_phys 1 (Z.lor (Z.shiftl 1 0) (u32 (Z.shiftl 1 (ep_id mod 32)))) ;;
    let dwords := ctx_size / 4 in
    let slot_ctx := ic_phys + 4 * dwords in
    poke slot_ctx 2 (u32 (Z.shiftl ep_id 27)) ;;
    let ep_ctx := slot_ctx + 4 * (u64 (dwords * ep_id)) in
    poke ep_ctx 1 (u32 (Z.shiftl maxp 16)) ;;
    poke ep_ctx 2 (Z.land (u32 ring_phys) (bnot 32 0xF)) ;;
    poke ep_ctx 3 (u32 (Z.shiftr ring_phys 32)) ;;
    enqueue_command_trb_slot TRB_TYPE_CONFIGURE_ENDPOINT ic_phys 0 slot_id ;;
    ring_doorbell 0 0 ;;
    c ← wait_for_command_completion fuel 1000000;
    match c with
    | None => mret false
    | Some (code, slot) =>
        Serial.write_fmt (bytes_of "[xhci] configure ep completion code=" ++ fmt_xhex code ++
                          bytes_of " slot=" ++ fmt_dec slot ++ [13; 10]) ;;
        if (code =? 1) && (slot =? slot_id) then
          if_controller (mret tt)
            (with_state (upd_st (set_intr ep_addr ep_id ring_phys ring_trbs 0 true))) ;;
          mret true
        else mret false
    end end end).

Definition take_report : KW (option Z) :=
  with_state (
    s ← get_st;
    match last_transfer_code s with
    | Some code =>
        let len := default 0 (last_transfer_len s) in
        upd_st (fun s => set_transfer None None (last_transfer_ep s) (last_transfer_slot s) s) ;;
        Serial.write_fmt (bytes_of "[hid] report event code=" ++ fmt_xhex code ++
                          bytes_of " len=" ++ fmt_dec len ++ [13; 10]) ;;
        mret (Some code)
    | None => mret None
    end).

Definition request_hid_report_once (slot_id ep_addr maxp : Z) : KW (option Z) :=
  let ep_id := endpoint_id_from_addr ep_addr in
  b ← alloc_aligned maxp 64;
  match b with
  | None => say "[xhci] no mem for hid buf" ;; mret None
  | Some buf =>
      upd_mem (zero_phys buf maxp) ;;
      c ← intr_cycle_bit;
      intr_enqueue_trb (mkTrb buf maxp (trb_control TRB_TYPE_NORMAL (Z.shiftl 1 5) c)) ;;
      ring_doorbell slot_id ep_id ;;
      r ← ktry 1000000 (poll_events fuel ;; if_controller (mret None) take_report);
      mret (match r with Some code => if code =? 1 then Some buf else None | None => None end)
  end.

(** The guard taken at the top lives until the return. *)
Definition start_hid_polling (slot_id ep_addr maxp : Z) : KW bool :=
  if_controller (mret false) (
    with_state (
      s ← get_st;
      if intr_ring_len s =? 0 then mret false
      else
        ready ← (if hid_buf_phys s =? 0 then
                   b ← alloc_aligned maxp 64;
                   match b with
                   | None => mret false
                   | Some buf =>
                       upd_mem (zero_phys buf maxp) ;;
                       upd_st (set_hid_buf buf maxp) ;; mret true
                   end
                 else mret true);
        if negb ready then mret false
        else
          s ← get_st;
          let t := mkTrb (hid_buf_phys s) maxp
                         (trb_control TRB_TYPE_NORMAL (Z.shiftl 1 5) (bit_of (intr_cycle s))) in
          if sat_sub (intr_ring_len s) 1 =? 0 then mret false
          else
            put_on intr_ring put_intr_ring t ;;
            ring_doorbell slot_id (endpoint_id_from_addr ep_addr) ;;
            mret true)).

End Ctl.

(** ** The configuration descriptor, against the USB descriptors it encodes *)

(** Descriptors as USB 2.0 defines them (tables 9-12 and 9-13), with any further bytes a
    device may append. *)
Inductive Descriptor : Type :=
| Interface (number alternate endpoints class subclass protocol name : Z) (extra : list Z)
| Endpoint (address attributes packet interval : Z) (extra : list Z)
| Other (dtype : Z) (payload : list Z).

Definition desc_body (d : Descriptor) : list Z :=
  match d with
  | Interface n a e c s p i x => [4; n; a; e; c; s; p; i] ++ x
  | Endpoint a t p i x => [5; a; t; p mod 256; p / 256; i] ++ x
  | Other t x => t :: x
  end.

(** The first byte of a descriptor is its length. *)
Definition desc_bytes (d : Descriptor) : list Z := 1 + zlen (desc_body d) :: desc_body d.

Definition desc_ok (d : Descriptor) : Prop :=
  Forall (fits 8) (desc_bytes d) /\
  match d with
  | Interface _ _ _ _ _ _ _ _ => True
  | Endpoint _ _ p _ _ => fits 16 p
  | Other t _ => t <> 4 /\ t <> 5
  end.

(** The first interrupt-IN endpoint of a boot-keyboard interface, in descriptor order. *)
Fixpoint keyboard_endpoint (in_keyboard : bool) (ds : list Descriptor) : option (Z * Z * Z) :=
  match ds with
  | [] => None
  | Interface _ _ _ c s p _ _ :: ds' =>
      keyboard_endpoint (bool_decide (c = 3 /\ s = 1 /\ p = 1)) ds'
  | Endpoint a t p i _ :: ds' =>
      if in_keyboard && Z.testbit a 7 && (t mod 4 =? 3) then Some (a, p, i)
      else keyboard_endpoint in_keyboard ds'
  | Other _ _ :: ds' => keyboard_endpoint in_keyboard ds'
  end.

Lemma zlen_desc d : zlen (desc_bytes d) = 1 + zlen (desc_body d).
Proof. unfold zlen. cbn [desc_bytes Datatypes.length]. lia. Qed.

Lemma parse_round_desc m phys len i b d rest :
  desc_ok d -> holds m (phys + i) (desc_bytes d ++ rest) -> i + zlen (desc_bytes d) <= len ->
  parse_round m phys len i b =
    match d with
    | Interface _ _ _ c s p _ _ => inr (i + zlen (desc_bytes d), (c =? 3) && (s =? 1) && (p =? 1))
    | Endpoint a t p iv _ =>
        if b && Z.testbit a 7 && (t mod 4 =? 3) then inl (Some (a, p, iv))
        else inr (i + zlen (desc_bytes d), b)
    | Other _ _ => inr (i + zlen (desc_bytes d), b)
    end.
Proof.
  intros [Hb Hd] Hm Hlen.
  assert (forall k x, 0 <= k -> (desc_bytes d ++ rest) !! Z.to_nat k = Some x ->
            ld8 m (phys + (i + k)) = x) as byte.
  { intros k x Hk Hx. rewrite Z.add_assoc. by eapply holds_byte. }
  assert (2 <= zlen (desc_bytes d)) as H2 by (destruct d; unfold zlen; cbn; lia).
  assert (ld8 m (phys + i) = zlen (desc_bytes d)) as El.
  { rewrite <- (Z.add_0_r i). apply byte; [done | ]. by rewrite zlen_desc. }
  unfold parse_round. rewrite El.
  replace (zlen (desc_bytes d) =? 0) with false by lia.
  replace (len <? i + zlen (desc_bytes d)) with false by lia.
  destruct d as [n a e c s p nm x | a t p iv x | t x].
  - rewrite (byte 1 4), (byte 5 c), (byte 6 s), (byte 7 p) by done. cbn [Z.eqb Pos.eqb].
    replace (9 <=? _) with true
      by (rewrite zlen_desc; cbn [desc_body]; rewrite zlen_app; change (zlen [_; _; _; _; _; _; _; _]) with 8;
          pose proof (zlen_nonneg x); lia). done.
  - rewrite (byte 1 5), (byte 2 a), (byte 3 t), (byte 4 (p mod 256)), (byte 5 (p / 256)),
      (byte 6 iv) by done. cbn [Z.eqb Pos.eqb].
    replace (7 <=? _) with true
      by (rewrite zlen_desc; cbn [desc_body]; rewrite zlen_app; change (zlen [_; _; _; _; _; _]) with 6;
          pose proof (zlen_nonneg x); lia).
    change 0x80 with (2 ^ 7). rewrite has_testbit, (land_ones_mod t 2) by done.
    change (2 ^ 2) with 4. change (u16 ?z) with (wrap 16 z). rewrite Z.shiftl_mul_pow2 by done.
    rewrite wrap_small by (Z.div_mod_to_equations; zlia).
    rewrite Z.lor_comm, lor_add by (done || (Z.div_mod_to_equations; lia)).
    replace (p / 256 * 2 ^ 8 + p mod 256) with p by (Z.div_mod_to_equations; lia).
    rewrite andb_true_r. by destruct b, (Z.testbit a 7), (t mod 4 =? 3).
  - rewrite (byte 1 t) by done. destruct Hd.
    replace (t =? 4) with false by lia. by replace (t =? 5) with false by lia.
Qed.

Lemma parse_loop_descs fuel m phys len i b ds :
  Forall desc_ok ds -> holds m (phys + i) (ds ≫= desc_bytes) ->
  len = i + zlen (ds ≫= desc_bytes) -> (length ds < fuel)%nat ->
  parse_loop fuel m phys len i b = Some (keyboard_endpoint b ds).
Proof.
  revert fuel i b. induction ds as [ | d ds IH]; intros [ | f] i b Hok Hm -> Hf;
    try (cbn in Hf; lia); cbn [parse_loop].
  - change (zlen ([] ≫= desc_bytes)) with 0. by replace (i + 2 <=? i + 0) with false by lia.
  - apply Forall_cons in Hok as [Hd Hok].
    change ((d :: ds) ≫= desc_bytes) with (desc_bytes d ++ (ds ≫= desc_bytes)) in *.
    rewrite zlen_app. pose proof (zlen_nonneg (ds ≫= desc_bytes)).
    assert (2 <= zlen (desc_bytes d)) by (destruct d; unfold zlen; cbn; lia).
    replace (i + 2 <=? _) with true by lia.
    rewrite (parse_round_desc m phys _ i b d _ Hd Hm) by lia. apply holds_app in Hm as [_ Hm].
    assert (forall b', parse_loop f m phys (i + (zlen (desc_bytes d) + zlen (ds ≫= desc_bytes)))
              (i + zlen (desc_bytes d)) b' = Some (keyboard_endpoint b' ds)) as IH'.
    { intros b'. rewrite <- zlen_app. apply IH; [done | | rewrite zlen_app; lia | cbn in Hf; lia].
      by rewrite Z.add_assoc. }
    destruct d as [n a e c s p nm x | a t p iv x | t x]; cbn [keyboard_endpoint].
    + rewrite IH'. do 2 f_equal. apply eq_true_iff_eq.
      rewrite !andb_true_iff, !Z.eqb_eq, bool_decide_eq_true. tauto.
    + by destruct (b && _ && _).
    + apply IH'.
Qed.

(** [C21] [parse_hid_keyboard_endpoint] finds the keyboard: on memory that holds any sequence
    of well-formed USB descriptors it terminates and returns address, packet size and
    interval of the first interrupt-IN endpoint that follows a boot-keyboard interface
    with no other interface between, or nothing when there is none. *)
Theorem xhci_parse_finds_keyboard m cfg_phys ds :
  Forall desc_ok ds -> holds m cfg_phys (ds ≫= desc_bytes) ->
  parse_hid_keyboard_endpoint m cfg_phys (zlen (ds ≫= desc_bytes)) =
    Some (keyboard_endpoint false ds).
Proof.
  intros Hok Hm. unfold parse_hid_keyboard_endpoint. apply parse_loop_descs; [done | | lia | ].
  - by rewrite Z.add_0_r.
  - unfold zlen. rewrite Nat2Z.id. clear. induction ds as [ | d ds IH]; cbn; [lia | ].
    rewrite length_app. cbn in IH. lia.
Qed.

(** *** Descriptors a device may send *)

Lemma parse_round_local m m' phys len i b :
  agree phys len m m' -> 0 <= i -> i + 2 <= len ->
  parse_round m phys len i b = parse_round m' phys len i b.
Proof.
  intros Ha Hi Hl. unfold parse_round.
  assert (forall k, 0 <= k < len -> ld8 m (phys + k) = ld8 m' (phys + k)) as E
    by (intros k Hk; apply Ha; lia).
  rewrite (E i), (E (i + 1)) by lia.
  destruct (ld8 m' (phys + i) =? 0); [done | ].
  destruct (Z.ltb_spec len (i + ld8 m' (phys + i))); [done | ].
  destruct (ld8 m' (phys + (i + 1)) =? 4).
  { destruct (Z.leb_spec 9 (ld8 m' (phys + i))); [ | done].
    by rewrite (E (i + 5)), (E (i + 6)), (E (i + 7)) by lia. }
  destruct (ld8 m' (phys + (i + 1)) =? 5); [ | done].
  destruct b; [ | done]. destruct (Z.leb_spec 7 (ld8 m' (phys + i))); [ | done].
  cbn [andb]. by rewrite (E (i + 2)), (E (i + 3)), (E (i + 4)), (E (i + 5)), (E (i + 6)) by lia.
Qed.

(** What a round that goes on, or finds an endpoint, has established. *)
Lemma parse_round_spec m phys len i b :
  match parse_round m phys len i b with
  | inr (i', _) => i < i' <= len
  | inl (Some (addr, maxp, interval)) =>
      fits 8 addr /\ Z.testbit addr 7 = true /\ fits 16 maxp /\ fits 8 interval /\ b = true
  | inl None => True
  end.
Proof.
  unfold parse_round. pose proof (ld8_range m (phys + i)).
  destruct (Z.eqb_spec (ld8 m (phys + i)) 0); [done | ].
  destruct (Z.ltb_spec len (i + ld8 m (phys + i))); [done | ].
  destruct (_ =? 4); [lia | ]. destruct (_ =? 5); [ | lia].
  destruct b; [ | cbn [andb]; lia]. destruct (7 <=? _); cbn [andb]; [ | lia].
  destruct (has _ 0x80) eqn:Eh; cbn [andb]; [ | lia]. destruct (_ =? 3); [ | lia].
  change 0x80 with (2 ^ 7) in Eh. rewrite has_testbit in Eh by done.
  split; [apply ld8_range | ]. split; [done | ]. split; [ | split; [apply ld8_range | done]].
  apply lor_fits; [done | | apply wrap_fits; done].
  pose proof (ld8_range m (phys + (i + 4))). zlia.
Qed.

Lemma parse_loop_total fuel m m' phys len i b :
  agree phys len m m' -> 0 <= i <= len -> len - i < Z.of_nat fuel ->
  parse_loop fuel m phys len i b = parse_loop fuel m' phys len i b /\
  exists r, parse_loop fuel m phys len i b = Some r /\
    match r with
    | Some (addr, maxp, interval) =>
        fits 8 addr /\ Z.testbit addr 7 = true /\ fits 16 maxp /\ fits 8 interval
    | None => True
    end.
Proof.
  intros Ha. revert i b. induction fuel as [ | f IH]; intros i b Hi Hf; [lia | ].
  cbn [parse_loop]. destruct (Z.leb_spec (i + 2) len); [ | split; [done | by exists None]].
  rewrite <- (parse_round_local m m') by (done || lia).
  pose proof (parse_round_spec m phys len i b) as HS.
  destruct (parse_round m phys len i b) as [r | [i' b']].
  - split; [done | ]. exists r. split; [done | ]. destruct r as [[[]] | ]; [ | done]. by destruct HS as (? & ? & ? & ? & _).
  - apply IH; lia.
Qed.

(** [C32] The parser is safe on whatever bytes a device sends: for every memory and every
    total length it terminates with a result, the result depends on no byte outside the
    [total_len] bytes of the descriptor, and an endpoint it returns has the IN bit set
    and fields of the declared widths. *)
Theorem xhci_parse_total_and_local m m' cfg_phys total_len :
  0 <= total_len -> agree cfg_phys total_len m m' ->
  parse_hid_keyboard_endpoint m cfg_phys total_len =
    parse_hid_keyboard_endpoint m' cfg_phys total_len /\
  exists r, parse_hid_keyboard_endpoint m cfg_phys total_len = Some r /\
    match r with
    | Some (addr, maxp, interval) =>
        fits 8 addr /\ Z.testbit addr 7 = true /\ fits 16 maxp /\ fits 8 interval
    | None => True
    end.
Proof. intros Hl Ha. apply parse_loop_total; [done | lia | lia]. Qed.

(** ** The structures of the controller *)

Lemma load_trb_ext (m m' : memory) a :
  (forall x, a <= x < a + 16 -> m !! x = m' !! x) -> load_trb m a = load_trb m' a.
Proof.
  intros H. unfold load_trb. f_equal; apply ld_ext; intros i Hi; apply H; lia.
Qed.

Lemma zero_trbs_spec phys n m :
  0 <= n ->
  (forall k, 0 <= k < n -> load_trb (zero_trbs phys n m) (trb_addr phys k) = Trb_default) /\
  (forall x, x < phys \/ phys + 16 * n <= x -> zero_trbs phys n m !! x = m !! x).
Proof.
  intros Hn. unfold zero_trbs, trb_addr.
  refine (fold_seqZ_ind (fun j m' =>
    (forall k, 0 <= k < j -> load_trb m' (phys + 16 * k) = Trb_default) /\
    (forall x, x < phys \/ phys + 16 * j <= x -> m' !! x = m !! x)) _ 0 n m Hn _ _).
  - split; [lia | done].
  - intros j m' Hj [H1 H2]. split.
    + intros k Hk. destruct (decide (k = j)) as [-> | Hne].
      * by apply load_store_trb.
      * rewrite load_store_trb_other by lia. apply H1. lia.
    + intros x Hx. rewrite store_trb_frame by lia. apply H2. lia.
Qed.

Lemma zero_phys_spec phys n m :
  0 <= n ->
  (forall x, phys <= x < phys + n -> zero_phys phys n m !! x = Some 0) /\
  (forall x, x < phys \/ phys + n <= x -> zero_phys phys n m !! x = m !! x).
Proof.
  intros Hn. unfold zero_phys. split; intros x Hx.
  - replace x with (phys + Z.of_nat (Z.to_nat (x - phys))) by lia.
    apply st_bytes_lookup, lookup_replicate. split; [done | lia].
  - apply st_bytes_frame. rewrite length_replicate. lia.
Qed.

Lemma ld_zero k (m : memory) a : (forall x, a <= x < a + Z.of_nat k -> m !! x = Some 0) -> ld k m a = 0.
Proof.
  revert a. induction k as [ | k IH]; intros a H; [done | ].
  change (ld (S k) m a) with (ld8 m a + 256 * ld k m (a + 1)).
  unfold ld8. rewrite (H a) by lia. rewrite IH; [done | ]. intros x Hx. apply H. lia.
Qed.

Lemma init_link_spec phys n k base m m' :
  n = k + 1 -> 0 <= k -> fits 64 base -> m' = init_link_trb phys n base true m ->
  load_trb m' (trb_addr phys k) = mkTrb base (ld 4 m (trb_addr phys k + 8)) 0x1803 /\
  (forall x, x < trb_addr phys k \/ trb_addr phys k + 16 <= x -> m' !! x = m !! x).
Proof.
  intros -> Hk Hb ->. unfold init_link_trb. replace (k + 1 =? 0) with false by lia.
  replace (k + 1 - 1) with k by lia. set (l := trb_addr phys k). split.
  - unfold load_trb. rewrite !(ld_st_disjoint 4 8), ld_st_same by lia.
    rewrite (ld_st_disjoint 4 4 (l + 12) (l + 8)), (ld_st_disjoint 8 4), ld_st_same by lia.
    by rewrite Z.mod_small by zlia.
  - intros x Hx. by rewrite !st_frame by lia.
Qed.

Lemma store_erst_spec phys base size m m' :
  fits 64 base -> fits 32 size -> m' = store_erst phys base size m ->
  ld 8 m' phys = base /\ ld 4 m' (phys + 8) = size /\ ld 4 m' (phys + 12) = 0 /\
  (forall x, x < phys \/ phys + 16 <= x -> m' !! x = m !! x).
Proof.
  intros Hb Hs ->. unfold store_erst.
  destruct (zero_phys_spec phys 16 m ltac:(done)) as [Hz Hf].
  rewrite (ld_st_disjoint 4 8), !ld_st_same by lia.
  rewrite !Z.mod_small by zlia. split; [done | ]. split; [done | ]. split.
  - rewrite !(ld_st_disjoint) by lia. apply ld_zero. intros x Hx. apply Hz. lia.
  - intros x Hx. rewrite !st_frame by lia. by apply Hf.
Qed.

Section StructureProps.
Context {D : Type} {HW : Hardware D} {CR : Crates D} {CL : CratesLaws D}.
Implicit Types w : World D.

(** Only the allocator and memory move on from [w]. *)
Definition at_ (p : PmmState) (m : memory) w : World D := set_mem m (set_pmm p w).

Lemma wp_upd_mem_at f p m w Q : Q tt (at_ p (f m) w) -> wp (upd_mem f) (at_ p m w) Q.
Proof. done. Qed.

(** The block the allocator has for a request of [size] bytes at 64, with its end; and those of a
    series of requests, up to the first it refuses, with what it manages then. *)
Definition next_block (size : Z) (p : PmmState) : option (Z * Z) :=
  place (adjusted size 64) 64 (NEXT_FREE p) (LIMIT p).

Fixpoint blocks (sizes : list Z) (p : PmmState) : list Z * PmmState :=
  match sizes with
  | [] => ([], p)
  | size :: sizes =>
      match next_block size p with
      | None => ([], p)
      | Some (a, stop) => let '(bs, p') := blocks sizes (mkPmm stop (LIMIT p)) in (a :: bs, p')
      end
  end.

Lemma next_block_run size w :
  alloc_aligned size 64 w =
    match next_block size (w_pmm w) with
    | None => Ret None w
    | Some (a, stop) => Ret (Some a) (set_pmm (mkPmm stop (LIMIT (w_pmm w))) w)
    end.
Proof. by rewrite alloc_aligned_eq, pow2b_good by (by exists 6). Qed.

(** An allocation of the driver: nothing, or a block above all earlier ones. *)
Lemma wp_alloc_at size p m w (Q : option Z -> World D -> Prop) :
  sane_pmm p -> 0 <= size <= 2 ^ 63 ->
  (next_block size p = None -> Q None (at_ p m w)) ->
  (forall a stop, next_block size p = Some (a, stop) -> a mod 64 = 0 -> 0 < NEXT_FREE p <= a -> a + size <= stop ->
     stop <= LIMIT p -> sane_pmm (mkPmm stop (LIMIT p)) -> Q (Some a) (at_ (mkPmm stop (LIMIT p)) m w)) ->
  wp (alloc_aligned size 64) (at_ p m w) Q.
Proof.
  intros Hp Hs Hn Ha. assert (sane_request size 64) as Hr by (split; [done | by exists 6]).
  unfold wp. rewrite next_block_run. change (w_pmm (at_ p m w)) with p.
  destruct (next_block size p) as [[a stop] | ] eqn:E; [ | by apply Hn]. unfold next_block in E.
  destruct (place_spec _ _ _ _ _ Hp (proj2 Hr) E) as (H1 & H2 & H0 & H3).
  destruct (adjusted_spec _ _ Hr) as (H4 & _).
  change (wp (mret (Some a)) (at_ (mkPmm stop (LIMIT p)) m w) Q). apply wp_ret.
  apply Ha; try done; [lia | ]. destruct Hp. split; cbn; lia.
Qed.

(** The memory image of the four structures. *)
Record laid_out (i : XhciInfo) (p p' : PmmState) (m m' : memory) (c d e t : Z) : Prop := mk_laid_out {
  lo_aligned : c mod 64 = 0 /\ d mod 64 = 0 /\ e mod 64 = 0 /\ t mod 64 = 0;
  lo_apart : 0 < NEXT_FREE p <= c /\ c + 4096 <= d /\ d + 8 * (max_slots i + 1) <= e /\
             e + 4096 <= t /\ t + 16 <= NEXT_FREE p' <= LIMIT p /\ LIMIT p' = LIMIT p;
  lo_commands : forall k, 0 <= k < 255 -> load_trb m' (trb_addr c k) = Trb_default;
  lo_link : load_trb m' (trb_addr c 255) = mkTrb c 0 0x1803;
  lo_contexts : forall k, 0 <= k <= max_slots i -> ld 8 m' (d + 8 * k) = 0;
  lo_events : forall k, 0 <= k < 256 -> load_trb m' (trb_addr e k) = Trb_default;
  lo_segment : ld 8 m' t = e /\ ld 4 m' (t + 8) = 256 /\ ld 4 m' (t + 12) = 0;
  lo_frame : forall x, x < c \/ NEXT_FREE p' <= x -> m' !! x = m !! x
}.

Lemma max_slots_range i : 0 <= max_slots i <= 255.
Proof. unfold max_slots. match goal with |- 0 <= wrap _ ?x <= _ => pose proof (wrap_range 8 x ltac:(lia)) end. zlia. Qed.

Lemma layout_memory i p c d e t stop m :
  c mod 64 = 0 -> d mod 64 = 0 -> e mod 64 = 0 -> t mod 64 = 0 ->
  0 < NEXT_FREE p <= c -> c + 4096 <= d -> d + 8 * (max_slots i + 1) <= e -> e + 4096 <= t ->
  t + 16 <= stop <= LIMIT p -> LIMIT p <= 2 ^ 63 ->
  laid_out i p (mkPmm stop (LIMIT p)) m
    (store_erst t e 256 (zero_trbs e 256 (zero_phys d (8 * (max_slots i + 1))
       (init_link_trb c 256 c true (zero_trbs c 256 m))))) c d e t.
Proof.
  intros. pose proof (max_slots_range i).
  assert (fits 64 c /\ fits 64 e /\ fits 32 256) as (Fc & Fe & Fs) by (repeat split; zlia).
  destruct (zero_trbs_spec c 256 m ltac:(done)) as [C1 C2].
  generalize dependent (zero_trbs c 256 m). intros m1 C1 C2.
  remember (init_link_trb c 256 c true m1) as m2 eqn:E.
  apply (init_link_spec c 256 255) in E as [L1 L2]; [ | done | done | done].
  destruct (zero_phys_spec d (8 * (max_slots i + 1)) m2 ltac:(lia)) as [D1 D2].
  generalize dependent (zero_phys d (8 * (max_slots i + 1)) m2). intros m3 D1 D2.
  destruct (zero_trbs_spec e 256 m3 ltac:(done)) as [E1 E2].
  generalize dependent (zero_trbs e 256 m3). intros m4 E1 E2.
  remember (store_erst t e 256 m4) as m5 eqn:E.
  apply store_erst_spec in E as (T1 & T2 & T3 & T4); [ | done | done].
  unfold trb_addr in *.
  constructor; cbn [NEXT_FREE LIMIT].
  - auto.
  - repeat split; lia.
  - intros k Hk. rewrite <- (C1 k) by lia. apply load_trb_ext. intros x Hx.
    rewrite T4, E2, D2, L2 by lia. done.
  - transitivity (load_trb m2 (c + 16 * 255)).
    + apply load_trb_ext. intros x Hx. by rewrite T4, E2, D2 by lia.
    + rewrite L1. f_equal. pose proof (C1 255 ltac:(lia)) as C. by injection C.
  - intros k Hk. apply ld_zero. intros x Hx. rewrite T4, E2 by lia. apply D1. lia.
  - intros k Hk. rewrite <- (E1 k) by lia. apply load_trb_ext. intros x Hx. by rewrite T4 by lia.
  - auto.
  - intros x Hx. by rewrite T4, E2, D2, L2, C2 by lia.
Qed.

(** The four requests of [init_controller]: command ring, device contexts, event ring, segment table. *)
Definition requests (i : XhciInfo) : list Z := [4096; 8 * (max_slots i + 1); 4096; 16].

(** [C22] The controller's structures, on every outcome of the four allocations of [init_controller]
    from a sane allocator.  When the allocator has a block for each,
    the function succeeds with these blocks, in this order: the command ring, the device context
    array, the event ring and the segment table are 64-byte aligned, pairwise disjoint and inside
    the managed region; the rings are empty, the command ring ends in a link back to its start, the
    context array is null, the segment table describes the event ring, and no other byte of memory changed.
    When it refuses one, the later ones are not made and the error names the one refused.
    In each case the allocator is where its blocks end, and besides it only memory changed. *)
Theorem xhci_structures_laid_out i w :
  sane_pmm (w_pmm w) ->
  wp (allocate_structures i) w (fun r w' =>
    let '(bs, p) := blocks (requests i) (w_pmm w) in
    (exists m', w' = set_mem m' (set_pmm p w)) /\
    match bs with
    | [] => r = inr (bytes_of "xhci: no memory for command ring")
    | [_] => r = inr (bytes_of "xhci: no dcbaa")
    | [_; _] => r = inr (bytes_of "xhci: no event ring")
    | [_; _; _] => r = inr (bytes_of "xhci: no erst")
    | [c; d; e; t] => r = inl (c, d, e, t) /\ laid_out i (w_pmm w) p (w_mem w) (w_mem w') c d e t
    | _ => False
    end).
Proof.
  intros Hp. pose proof (max_slots_range i) as Hs. unfold allocate_structures.
  assert (w = at_ (w_pmm w) (w_mem w) w) as Hw by (by destruct w).
  set (Q := fun r w' => _). rewrite Hw.
  assert (forall p m, exists m', at_ p m w = set_mem m' (set_pmm p w)) as Hat by (unfold at_; eauto).
  change (u64 (CMD_RING_TRBS * 16)) with 4096. change (u64 (EVENT_RING_TRBS * 16)) with 4096.
  subst Q. cbn [blocks requests].
  apply wp_bind, wp_alloc_at; [done | lia | intros ->; apply wp_ret; by split | ].
  intros c n1 -> ? ? ? ? ?. apply wp_bind, wp_upd_mem_at, wp_bind, wp_upd_mem_at, wp_bind.
  rewrite (wrap_small 64 ((max_slots i + 1) * 8)) by zlia. rewrite (Z.mul_comm (max_slots i + 1)).
  apply wp_alloc_at; [done | lia | intros ->; apply wp_ret; by split | ].
  intros d n2 -> ? ? ? ? ?. apply wp_bind, wp_upd_mem_at, wp_bind.
  apply wp_alloc_at; [done | lia | intros ->; apply wp_ret; by split | ].
  intros e n3 -> ? ? ? ? ?. apply wp_bind, wp_upd_mem_at, wp_bind.
  apply wp_alloc_at; [done | lia | intros ->; apply wp_ret; by split | ].
  intros t n4 -> ? ? ? ? ?. apply wp_bind, wp_upd_mem_at, wp_ret. split; [apply Hat | ]. split; [done | ].
  cbn [NEXT_FREE LIMIT] in *. apply layout_memory; try done; destruct Hp; cbn in *; lia.
Qed.
End StructureProps.

(** ** Polling *)

Section PollingProps.
Context {D : Type} {HW : Hardware D} {CR : Crates D} {CL : CratesLaws D}.
Implicit Types w : World D.

(** A [bool] computation gave up, or never came back. *)
Definition gave_up (o : outcome (World D) bool) : Prop := exists w', o = Ret false w'.
Definition stuck (o : outcome (World D) bool) : Prop := exists w', o = Deadlock w'.

Lemma with_lock_gave_up l m w :
  locked l w = false -> gave_up (m (set_locks (set_lock l true (w_locks w)) w)) ->
  gave_up (with_lock l m w).
Proof.
  intros Hl [w' E]. unfold with_lock, mbind, K_bind, kbind. rewrite lock_free, E by done. by eexists.
Qed.

Lemma with_lock_stuck l m w :
  locked l w = false -> stuck (m (set_locks (set_lock l true (w_locks w)) w)) ->
  stuck (with_lock l m w).
Proof.
  intros Hl [w' E]. unfold with_lock, mbind, K_bind, kbind. rewrite lock_free, E by done. by eexists.
Qed.

(** Posting a report request with the guard alive. *)
Lemma post_stuck s t slot target w :
  w_xhci w = Some s -> locked CONTROLLER_LOCK w = true ->
  stuck ((put_on intr_ring put_intr_ring t ;; ring_doorbell slot target ;; mret true) w).
Proof.
  intros Hx Hl. unfold put_on, upd_mem, upd_st, modify, mbind, K_bind, kbind, get_st. rewrite Hx.
  rewrite doorbell_deadlock; [by eexists | | by destruct w]. destruct w; cbn in *. by subst.
Qed.

Lemma post_tail s slot_id target maxp w :
  w_xhci w = Some s -> locked CONTROLLER_LOCK w = true -> intr_ring_len s <> 0 ->
  let m := (s ← get_st;
            let t := mkTrb (hid_buf_phys s) maxp
                           (trb_control TRB_TYPE_NORMAL (Z.shiftl 1 5) (bit_of (intr_cycle s))) in
            if sat_sub (intr_ring_len s) 1 =? 0 then mret false
            else put_on intr_ring put_intr_ring t ;; ring_doorbell slot_id target ;; mret true) in
  if intr_ring_len s <=? 1 then gave_up (m w) else stuck (m w).
Proof.
  intros Hx Hl Hr m. subst m. erewrite kbind_eq by (unfold get_st; by rewrite Hx).
  unfold sat_sub. destruct (Z.leb_spec (intr_ring_len s) 1).
  - replace (Z.max (intr_ring_len s - 1) 0 =? 0) with true by lia. by eexists.
  - replace (Z.max (intr_ring_len s - 1) 0 =? 0) with false by lia. by apply (post_stuck s).
Qed.

Definition alloc_fails (size : Z) w : bool :=
  match alloc_aligned size 64 w with Ret None _ => true | _ => false end.

(** The buffer of [start_hid_polling], under the guard. *)
Lemma alloc_buffer size w :
  (alloc_fails size w = true /\ alloc_aligned size 64 w = Ret None w) \/
  (alloc_fails size w = false /\
   exists a p, alloc_aligned size 64 w = Ret (Some a) (set_pmm p w)).
Proof.
  unfold alloc_fails. rewrite alloc_aligned_eq. destruct (bad_align 64); [by left | ].
  destruct (place _ _ _ _) as [[a stop] | ]; [right | by left]. eauto.
Qed.

Lemma alloc_fails_locks size k w : alloc_fails size (set_locks k w) = alloc_fails size w.
Proof.
  unfold alloc_fails. rewrite !alloc_aligned_eq. destruct (bad_align 64); [done | ].
  change (w_pmm (set_locks k w)) with (w_pmm w). by destruct (place _ _ _ _) as [[]|].
Qed.

(** [C39] [start_hid_polling] never succeeds.  On a controller that is set up, with its lock
    free, it either gives up, because the interrupt ring holds no usable TRB or the
    report buffer cannot be allocated, or it deadlocks: it rings the doorbell with the
    guard of [CONTROLLER_STATE] alive, and [ring_doorbell] takes the same lock. *)
Theorem xhci_polling_never_starts slot_id ep_addr maxp s w :
  w_xhci w = Some s -> locked CONTROLLER_LOCK w = false -> 0 <= intr_ring_len s ->
  if (intr_ring_len s <=? 1) ||
     ((hid_buf_phys s =? 0) && alloc_fails maxp w)
  then gave_up (start_hid_polling slot_id ep_addr maxp w)
  else stuck (start_hid_polling slot_id ep_addr maxp w).
Proof.
  intros Hx Hl Hr. unfold start_hid_polling, if_controller.
  erewrite kbind_eq by reflexivity. rewrite Hx.
  rewrite <- (alloc_fails_locks maxp (set_lock CONTROLLER_LOCK true (w_locks w)) w).
  match goal with |- if ?c then gave_up (with_state ?m w) else _ =>
    enough (if c then gave_up (m (set_locks (set_lock CONTROLLER_LOCK true (w_locks w)) w))
            else stuck (m (set_locks (set_lock CONTROLLER_LOCK true (w_locks w)) w))) as H
      by (destruct c; [by apply with_lock_gave_up | by apply with_lock_stuck])
  end.
  set (w0 := set_locks _ w).
  assert (w_xhci w0 = Some s) as Hx0 by (by subst w0).
  assert (locked CONTROLLER_LOCK w0 = true) as Hl0 by (subst w0; apply get_set_lock).
  clearbody w0. erewrite kbind_eq by (unfold get_st; by rewrite Hx0).
  destruct (Z.eqb_spec (intr_ring_len s) 0) as [E0 | E0].
  { replace (intr_ring_len s <=? 1) with true by lia. by eexists. }
  destruct (Z.eqb_spec (hid_buf_phys s) 0) as [Eb | Eb]; cbn [andb].
  - destruct (alloc_buffer maxp w0) as [[-> Ea] | [-> (a & p & Ea)]].
    + rewrite orb_true_r. unfold mbind, K_bind, kbind. rewrite Ea. by eexists.
    + rewrite orb_false_r. set (w1 := set_xhci (Some (set_hid_buf a maxp s))
        (set_mem (zero_phys a maxp (w_mem w0)) (set_pmm p w0))).
      erewrite (kbind_eq _ _ w0 true w1) by
        (erewrite kbind_eq by exact Ea; unfold upd_mem, upd_st, modify, mbind, K_bind, kbind;
         subst w1; destruct w0; cbn in *; by subst).
      replace (intr_ring_len s) with (intr_ring_len (set_hid_buf a maxp s)) in * by (by destruct s).
      apply post_tail; [by subst w1 | by subst w1; destruct w0 | done].
  - rewrite orb_false_r. erewrite kbind_eq by reflexivity. by apply post_tail.
Qed.
End PollingProps.

(** *** Witnesses *)

(** A keyboard's configuration: configuration, interface, HID class and endpoint. *)
Definition demo_config : list Descriptor :=
  [Other 2 [34; 0; 1; 1; 0; 160; 50]; Interface 0 0 1 3 1 1 0 [];
   Other 0x21 [0x11; 1; 0; 1; 0x22; 63; 0]; Endpoint 0x81 3 8 10 []].

Definition demo_config_memory : memory :=
  st_bytes 0x70000 (demo_config ≫= desc_bytes) ∅.

Lemma xhci_parse_finds_keyboard_witness :
  parse_hid_keyboard_endpoint demo_config_memory 0x70000 34 = Some (Some (0x81, 8, 10)).
Proof.
  apply (xhci_parse_finds_keyboard demo_config_memory 0x70000 demo_config).
  - repeat constructor; discriminate || reflexivity.
  - vm_compute. reflexivity.
Defined.

Lemma xhci_parse_total_and_local_witness :
  parse_hid_keyboard_endpoint demo_config_memory 0x70000 34 =
    parse_hid_keyboard_endpoint (<[0x70022 := 7]> demo_config_memory) 0x70000 34 /\
  exists r, parse_hid_keyboard_endpoint demo_config_memory 0x70000 34 = Some r /\
    match r with
    | Some (addr, maxp, interval) =>
        fits 8 addr /\ Z.testbit addr 7 = true /\ fits 16 maxp /\ fits 8 interval
    | None => True
    end.
Proof.
  apply (xhci_parse_total_and_local demo_config_memory).
  - discriminate.
  - intros a Ha. unfold ld8. rewrite lookup_insert_ne; [reflexivity | lia].
Defined.

Lemma xhci_structures_laid_out_witness :
  wp (allocate_structures demo_info) (pmm_at 0x100000 0x110000) (fun r w' =>
    (exists m', w' = set_mem m' (set_pmm (mkPmm 0x104000 0x110000) (pmm_at 0x100000 0x110000))) /\
    r = inl (0x100000, 0x101000, 0x102000, 0x103000) /\
    laid_out demo_info (mkPmm 0x100000 0x110000) (mkPmm 0x104000 0x110000)
      (w_mem (pmm_at 0x100000 0x110000)) (w_mem w') 0x100000 0x101000 0x102000 0x103000).
Proof.
  assert (blocks (requests demo_info) (w_pmm (pmm_at 0x100000 0x110000)) =
            ([0x100000; 0x101000; 0x102000; 0x103000], mkPmm 0x104000 0x110000)) as E by (vm_compute; reflexivity).
  pose proof (xhci_structures_laid_out demo_info (pmm_at 0x100000 0x110000)) as H. rewrite E in H.
  apply H. split; cbn; lia.
Defined.

Definition demo_idle : World Sim := set_xhci (Some demo_controller) sim_ready.

Lemma xhci_polling_never_starts_witness : stuck (start_hid_polling 1 0x81 8 demo_idle).
Proof.
  apply (xhci_polling_never_starts 1 0x81 8 demo_controller demo_idle).
  - reflexivity.
  - reflexivity.
  - discriminate.
Defined.
