(* ===== verification/CmdRing.v ===== *)
(** * The ring types of the xHCI driver that own their buffer (kernel/src/xhci.rs,
    [CommandRing] and [EventRingSegment])

    A ring over a borrowed slice, without a link TRB: the producer index wraps and the cycle state
    flips at every lap. *)

From S2P Require Import Prelude XhciData.
From stdpp Require Import gmap list.
From Stdlib Require Import ZArith Lia.

Open Scope Z_scope.

Abbreviation size l := (Z.of_nat (length l)).

Record CommandRing : Type := mkCommandRing { trbs : list Trb; enqueue : Z; cycle_state : bool }.

Definition CommandRing_new (buffer : list Trb) : CommandRing := mkCommandRing buffer 0 true.

(** [None] is the panic of [% 0] on an empty buffer. *)
Definition enqueue_slot (trb : Trb) (r : CommandRing) : option CommandRing :=
  let n := size (trbs r) in
  if n =? 0 then None
  else
    let index := enqueue r mod n in
    let enqueue' := u64 (enqueue r + 1) mod n in
    Some (mkCommandRing (<[Z.to_nat index := trb]> (trbs r)) enqueue'
            (if enqueue' =? 0 then negb (cycle_state r) else cycle_state r)).

Record EventRingSegment : Type := mkEventRingSegment { segment_trbs : list Trb }.

Definition EventRingSegment_new (trbs : list Trb) : EventRingSegment := mkEventRingSegment trbs.

(** ** The reference: what a sequence of blocks leaves behind *)

Fixpoint enqueue_all (ts : list Trb) (r : CommandRing) : option CommandRing :=
  match ts with
  | [] => Some r
  | t :: ts' => match enqueue_slot t r with Some r' => enqueue_all ts' r' | None => None end
  end.

(** After [k] blocks of [ts] over the buffer [buf]. *)
Record laid (buf ts : list Trb) (k : Z) (r : CommandRing) : Prop := mk_laid {
  ld_length : length (trbs r) = length buf;
  ld_enqueue : enqueue r = k mod size buf;
  ld_cycle : cycle_state r = Z.even (k / size buf);
  ld_last : forall i, 0 <= i -> k - size buf <= i < k -> trbs r !! Z.to_nat (i mod size buf) = ts !! Z.to_nat i;
  ld_rest : forall j, k <= j < size buf -> trbs r !! Z.to_nat j = buf !! Z.to_nat j
}.

Lemma even_succ n : Z.even (n + 1) = negb (Z.even n).
Proof. rewrite Z.even_add. by destruct (Z.even n). Qed.

(** The next index, and whether it starts a new lap. *)
Lemma next_index k n :
  0 < n < 2 ^ 63 -> 0 <= k ->
  u64 (k mod n + 1) mod n = (k + 1) mod n /\
  (k + 1) / n = k / n + (if (k + 1) mod n =? 0 then 1 else 0).
Proof.
  intros Hn Hk. pose proof (Z.mod_pos_bound k n ltac:(lia)). rewrite wrap_small by lia.
  split; [by rewrite Zplus_mod_idemp_l | ].
  pose proof (Z.div_mod k n ltac:(lia)). pose proof (Z.div_mod (k + 1) n ltac:(lia)).
  pose proof (Z.mod_pos_bound (k + 1) n ltac:(lia)).
  destruct (Z.eqb_spec ((k + 1) mod n) 0); nia.
Qed.

(** Two indices less than a lap apart share no slot. *)
Lemma mod_window k i n : 0 < n -> k - n < i <= k -> k mod n = i mod n -> i = k.
Proof.
  intros Hn Hi E. pose proof (Z.div_mod k n ltac:(lia)). pose proof (Z.div_mod i n ltac:(lia)).
  assert ((k / n - i / n) * n = k - i) as Hq by lia.
  destruct (Z.lt_trichotomy (k / n - i / n) 0) as [ | [ | ]]; nia.
Qed.

Lemma enqueue_slot_laid buf ts k t r :
  0 < size buf < 2 ^ 63 -> 0 <= k -> ts !! Z.to_nat k = Some t -> laid buf ts k r ->
  exists r', enqueue_slot t r = Some r' /\ laid buf ts (k + 1) r'.
Proof.
  intros Hn Hk Ht [L E C H R]. destruct (next_index k (size buf) Hn Hk) as [N1 N2].
  assert (size (trbs r) = size buf) as Hz by (by rewrite L).
  pose proof (Z.mod_pos_bound k (size buf) ltac:(lia)) as B.
  unfold enqueue_slot. rewrite Hz, E, (proj2 (Z.eqb_neq (size buf) 0)) by lia. rewrite N1, Zmod_mod.
  eexists. split; [reflexivity | ]. constructor; cbn [trbs enqueue cycle_state].
  - by rewrite length_insert.
  - done.
  - rewrite N2, C. destruct (Z.eqb_spec ((k + 1) mod size buf) 0); [by rewrite even_succ | by rewrite Z.add_0_r].
  - intros i Hi Hr. destruct (decide (i = k)) as [-> | Hne].
    + rewrite Ht. apply list_lookup_insert_eq. lia.
    + pose proof (Z.mod_pos_bound i (size buf) ltac:(lia)).
      rewrite list_lookup_insert_ne; [apply H; lia | ]. intros Em%Z2Nat.inj; [ | lia | lia].
      by apply Hne, (mod_window k i (size buf)); lia.
  - intros j Hj. rewrite list_lookup_insert_ne; [apply R; lia | ].
    rewrite Z.mod_small by lia. lia.
Qed.

Lemma enqueue_all_laid buf ts todo k r :
  0 < size buf < 2 ^ 63 -> 0 <= k -> drop (Z.to_nat k) ts = todo -> laid buf ts k r ->
  exists r', enqueue_all todo r = Some r' /\ laid buf ts (k + size todo) r'.
Proof.
  intros Hn. revert k r. induction todo as [ | t todo IH]; intros k r Hk Hd Hl.
  - exists r. split; [done | ]. cbn. by rewrite Z.add_0_r.
  - assert (ts !! Z.to_nat k = Some t) as Ht.
    { rewrite <- (Nat.add_0_r (Z.to_nat k)), <- lookup_drop, Hd. done. }
    destruct (enqueue_slot_laid buf ts k t r Hn Hk Ht Hl) as (r1 & E1 & L1).
    destruct (IH (k + 1) r1) as (r2 & E2 & L2); [lia | | done | ].
    { replace (Z.to_nat (k + 1)) with (Z.to_nat k + 1)%nat by lia. by rewrite <- drop_drop, Hd. }
    exists r2. cbn [enqueue_all]. rewrite E1. split; [done | ].
    replace (k + size (t :: todo)) with (k + 1 + size todo) by (cbn [length]; lia). done.
Qed.

(** The owned command ring holds the last lap: putting any sequence of blocks into a new ring
    over a non-empty buffer never panics; slot [i mod n] has the [i]-th block for each of
    the last [n], the slots not reached yet are untouched, the producer index is the count
    modulo [n] and the cycle state the parity of the completed laps. *)
Theorem command_ring_laps buf ts :
  0 < size buf < 2 ^ 63 ->
  exists r, enqueue_all ts (CommandRing_new buf) = Some r /\ laid buf ts (size ts) r.
Proof.
  intros Hn. apply (enqueue_all_laid buf ts ts 0); [done | done | done | ].
  constructor; cbn; [done | by rewrite Z.mod_0_l by lia | by rewrite Z.div_0_l by lia | lia | done].
Qed.

(** *** Witness: five blocks in a ring of three *)

Definition block (i : Z) : Trb := mkTrb i 0 0.

Lemma command_ring_laps_witness :
  exists r, enqueue_all (block <$> [1; 2; 3; 4; 5]) (CommandRing_new (replicate 3 Trb_default)) = Some r /\
    trbs r = [block 4; block 5; block 3] /\ enqueue r = 2 /\ cycle_state r = false.
Proof.
  destruct (command_ring_laps (replicate 3 Trb_default) (block <$> [1; 2; 3; 4; 5])) as (r & E & L).
  - split; reflexivity.
  - exists r. split; [exact E | ]. injection E as <-. split; [reflexivity | ]. split; [exact (ld_enqueue _ _ _ _ L) | reflexivity].
Defined.
