(* ===== verification/Reports.v ===== *)
(** * Boot reports (kernel/src/main.rs)

    [log_memory_map] and [log_usb_controllers]: what the kernel prints about memory, and
    the scan that brings up an xHCI controller and the keyboard behind it. *)

From S2P Require Import Prelude XhciData State Sim Fmt BootInfo Serial Pmm Debug Pci.
From S2P Require Import XhciRegs XhciRings XhciCtl.
From stdpp Require Import gmap list strings.
From Stdlib Require Import ZArith Lia.

Open Scope Z_scope.

(** One line of the memory map. *)
Definition region_line (e : MemoryMapEntry) : list Z :=
  bytes_of "[mem] " ++ fmt_xhexw 16 (base_addr e) ++ bytes_of "-" ++
  fmt_xhexw 16 (sat_add64 (base_addr e) (BootInfo.length e)) ++ bytes_of " " ++
  as_str (BootInfo.kind e) ++ bytes_of " (type " ++ fmt_xhex (region_type e) ++
  bytes_of ", attr " ++ fmt_xhex (attributes e) ++ bytes_of ")" ++ [13; 10].

Definition usable_line (usable_bytes regions : Z) : list Z :=
  bytes_of "[mem] usable: " ++ fmt_dec (usable_bytes / 1024) ++ bytes_of " KiB across " ++
  fmt_dec regions ++ bytes_of " entries" ++ [13; 10].

Section Reports.
Context {D : Type} {HW : Hardware D} {CR : Crates D}.
Abbreviation KW := (K (World D)).

(** A round of the loop over the memory map; [(regions, usable_bytes)]. *)
Definition log_region (e : MemoryMapEntry) (acc : Z * Z) : KW (Z * Z) :=
  let '(regions, usable_bytes) := acc in
  let regions := u64 (regions + 1) in
  let usable_bytes := if is_usable e then sat_add64 usable_bytes (BootInfo.length e)
                      else usable_bytes in
  Serial.write_fmt (region_line e) ;;
  mret (regions, usable_bytes).

Definition log_memory_map (boot_info : BootInfo) : KW unit :=
  debug_out (bytes_of "kmain: memmap" ++ [10]) ;;
  m ← gets w_mem;
  '(regions, usable_bytes) ← kfold (BootInfo.entries m boot_info) log_region (0, 0);
  Serial.write_fmt (usable_line usable_bytes regions) ;;
  debug_out (bytes_of "kmain: memmap done" ++ [10]).

(** The budget of one call of [poll_events]. *)
Variable fuel : nat.

(** From a full configuration descriptor to a polled keyboard. *)
Definition bring_up_keyboard (slot cfg_phys total_len cfg_val : Z) : KW unit :=
  set ← set_configuration fuel slot cfg_val;
  if (set : bool) then
    say "[xhci] configuration set" ;;
    m ← gets w_mem;
    match parse_hid_keyboard_endpoint m cfg_phys total_len with
    | None => kfuel
    | Some (Some (ep_addr, maxp, interval)) =>
        Serial.write_fmt (bytes_of "[hid] keyboard ep=" ++ fmt_xhex ep_addr ++
                          bytes_of " maxp=" ++ fmt_dec maxp ++
                          bytes_of " interval=" ++ fmt_dec interval ++ [13; 10]) ;;
        configured ← configure_interrupt_in_endpoint fuel slot ep_addr maxp interval;
        if (configured : bool) then
          say "[hid] interrupt endpoint configured" ;;
          started ← start_hid_polling slot ep_addr maxp;
          if (started : bool) then say "[hid] polling started"
          else say "[hid] failed to start polling"
        else say "[hid] configure endpoint failed"
    | Some None => say "[hid] no keyboard endpoint found"
    end
  else say "[xhci] set configuration failed".

(** The descriptors of the device in an addressed slot. *)
Definition read_descriptors (slot : Z) : KW unit :=
  d ← get_device_descriptor fuel slot;
  match d with
  | None => say "[xhci] failed to read device descriptor"
  | Some dev_desc_phys =>
      Serial.write_fmt (bytes_of "[xhci] device descriptor at " ++ fmt_xhex dev_desc_phys ++
                        [13; 10]) ;;
      h ← get_configuration_descriptor_header fuel slot;
      match h with
      | None => say "[xhci] failed to read config header"
      | Some (hdr_phys, total_len, cfg_val) =>
          Serial.write_fmt (bytes_of "[xhci] config header at " ++ fmt_xhex hdr_phys ++
                            bytes_of " total_len=" ++ fmt_dec total_len ++
                            bytes_of " cfg=" ++ fmt_dec cfg_val ++ [13; 10]) ;;
          c ← get_configuration_descriptor fuel slot total_len;
          match c with
          | None => say "[xhci] failed to read full config descriptor"
          | Some cfg_phys =>
              Serial.write_fmt (bytes_of "[xhci] config descriptor at " ++ fmt_xhex cfg_phys ++
                                [13; 10]) ;;
              bring_up_keyboard slot cfg_phys total_len cfg_val
          end
      end
  end.

Definition bring_up_device : KW unit :=
  s ← enable_slot fuel;
  match s with
  | None => say "[xhci] enable slot failed"
  | Some slot =>
      Serial.write_fmt (bytes_of "[xhci] slot " ++ fmt_dec slot ++ bytes_of " enabled" ++
                        [13; 10]) ;;
      addressed ← address_device fuel slot;
      if (addressed : bool) then
        say "[xhci] device addressed" ;;
        read_descriptors slot
      else say "[xhci] address device failed"
  end.

Definition controller_line (i : XhciInfo) : list Z :=
  bytes_of "[xhci] base=" ++ fmt_xhexw 16 (xi_base i) ++
  bytes_of " caplen=" ++ fmt_dec (xi_cap_length i) ++
  bytes_of " version=" ++ fmt_hexw 4 (xi_hci_version i) ++
  bytes_of " slots=" ++ fmt_dec (max_slots i) ++ bytes_of " ports=" ++ fmt_dec (max_ports i) ++
  bytes_of " ctx=" ++ fmt_dec (context_size i) ++ bytes_of " dboff=" ++ fmt_xhex (xi_dboff i) ++
  bytes_of " rtsoff=" ++ fmt_xhex (xi_rtsoff i) ++ [13; 10].

Definition bring_up_controller (i : XhciInfo) : KW unit :=
  Serial.write_fmt (controller_line i) ;;
  r ← init_controller fuel i;
  match r with
  | inr err => Serial.write_fmt (bytes_of "[xhci] init failed: " ++ err ++ [13; 10])
  | inl _ =>
      say "[xhci] controller initialized" ;;
      report_ports ;;
      poll_events fuel ;;
      enabled ← ensure_first_port_enabled;
      (if (enabled : bool) then mret tt else say "[xhci] no enabled port") ;;
      bring_up_device ;;
      poll_events fuel ;; mret tt
  end.

Definition usb_line (addr : PciAddress) (vendor device class subclass prog_if : Z) : list Z :=
  bytes_of "[pci] usb " ++ fmt_addr addr ++ bytes_of " vendor=" ++ fmt_hexw 4 vendor ++
  bytes_of " device=" ++ fmt_hexw 4 device ++ bytes_of " class=" ++ fmt_hexw 2 class ++
  bytes_of " sub=" ++ fmt_hexw 2 subclass ++ bytes_of " if=" ++ fmt_hexw 2 prog_if ++ [13; 10].

(** The closure of [log_usb_controllers]; it counts in [found]. *)
Definition usb_controller (addr : PciAddress) (found : Z) : KW Z :=
  vendor ← vendor_id addr;
  device ← device_id addr;
  class ← class_code addr;
  sub ← subclass addr;
  prog ← prog_if addr;
  Serial.write_fmt (usb_line addr vendor device class sub prog) ;;
  (if prog =? 0x30 then
     b ← pci_bar addr 0;
     match b with
     | Some bar =>
         if is_memory bar then
           i ← inspect (bar_base bar);
           match i with
           | Some i => bring_up_controller i
           | None => say "[xhci] failed to read capability registers"
           end
         else say "[xhci] bar0 is not memory-mapped"
     | None => say "[xhci] missing bar0"
     end
   else mret tt) ;;
  mret (u64 (found + 1)).

Definition log_usb_controllers : KW unit :=
  debug_out (bytes_of "kmain: pci scan" ++ [10]) ;;
  found ← find_usb_controllers usb_controller 0;
  (if found =? 0 then Serial.write_str (bytes_of "[pci] no usb controllers found" ++ [13; 10])
   else mret tt) ;;
  debug_out (bytes_of "kmain: pci scan done" ++ [10]).

End Reports.

(** ** What the reports say *)

Section ReportProps.
Context {D : Type} {HW : Hardware D} {CR : Crates D} {CL : CratesLaws D}.
Implicit Types w : World D.

(** The line is initialised and nobody holds it. *)
Definition serial_up w : Prop := w_serial_init w = true /\ locked SERIAL w = false.

(** COM1 carried exactly the text [s]; only devices changed. *)
Definition spoken (s : list Z) w w' : Prop := sends (crlf s) w w'.

Lemma serial_up_io w w' : serial_up w -> io_step w w' -> serial_up w'.
Proof.
  intros [Hi Hl] H. destruct (io_step_fields _ _ H) as (_ & _ & Ek & Ei & _).
  split; [by rewrite Ei | by rewrite Ek].
Qed.

Lemma spoken_trans s1 s2 w1 w2 w3 : spoken s1 w1 w2 -> spoken s2 w2 w3 -> spoken (s1 ++ s2) w1 w3.
Proof. unfold spoken. rewrite crlf_app. apply sends_trans. Qed.

Lemma spoken_silent s w1 w2 w3 : spoken [] w1 w2 -> spoken s w2 w3 -> spoken s w1 w3.
Proof. apply (spoken_trans [] s). Qed.

Lemma spoken_then s w1 w2 w3 : spoken s w1 w2 -> spoken [] w2 w3 -> spoken s w1 w3.
Proof. intros H1 H2. rewrite <- (app_nil_r s). by eapply spoken_trans. Qed.

Lemma prints_spoken s w w' : w_serial_init w = true -> prints s w w' -> spoken s w w'.
Proof. intros Hi (H & L & _). split; [done | by apply L]. Qed.

Lemma wp_fmt_spoken s w :
  Forall (fits 8) s -> serial_up w -> wp (Serial.write_fmt s) w (fun _ => spoken s w).
Proof.
  intros Hs [Hi Hl]. eapply wp_mono; [by apply wp_serial_write_fmt | ].
  intros [] w'. by apply prints_spoken.
Qed.

Lemma wp_str_spoken s w :
  Forall (fits 8) s -> serial_up w -> wp (Serial.write_str s) w (fun _ => spoken s w).
Proof.
  intros Hs [Hi Hl]. eapply wp_mono; [by apply wp_serial_write_str | ].
  intros [] w'. by apply prints_spoken.
Qed.

Lemma wp_debug_silent s w : wp (debug_out s) w (fun _ => spoken [] w).
Proof. apply wp_dbg_str. Qed.

Lemma pci_silent w w' : pci_step w w' -> spoken [] w w'.
Proof. intros [H L]. split; [done | ]. rewrite (L data) by done. by rewrite app_nil_r. Qed.

(** *** The memory map *)

Lemma as_str_bytes k : Forall (fits 8) (as_str k).
Proof. destruct k; apply bytes_of_bytes. Qed.

Lemma region_line_bytes e : Forall (fits 8) (region_line e).
Proof.
  unfold region_line. pose proof (as_str_bytes (BootInfo.kind e)) as Hk.
  generalize dependent (as_str (BootInfo.kind e)). intros k Hk. solve_bytes.
Qed.

(** The bytes of the usable regions. *)
Definition usable_total (es : list MemoryMapEntry) : Z :=
  foldr (fun e n => (if is_usable e then BootInfo.length e else 0) + n) 0 es.

Lemma wp_log_regions es n b w :
  serial_up w -> Forall (fun e => 0 <= BootInfo.length e) es ->
  0 <= n -> n + Z.of_nat (length es) < 2 ^ 64 -> 0 <= b ->
  wp (kfold es log_region (n, Z.min b (2 ^ 64 - 1))) w (fun r w' =>
    spoken (es ≫= region_line) w w' /\
    r = (n + Z.of_nat (length es), Z.min (b + usable_total es) (2 ^ 64 - 1))).
Proof.
  intros Hs He. revert n b w Hs. induction He as [ | e es He0 He IH]; intros n b w Hs Hn Hl Hb.
  - apply wp_ret. split; [split; [done | by rewrite app_nil_r] | ]. cbn. by rewrite !Z.add_0_r.
  - cbn [kfold]. apply wp_bind. unfold log_region. apply wp_bind.
    eapply wp_mono; [apply wp_fmt_spoken; [apply region_line_bytes | done] | ].
    intros [] w1 H1. apply wp_ret. cbn [length] in Hl. rewrite wrap_small by zlia.
    replace (if is_usable e then sat_add64 (Z.min b (2 ^ 64 - 1)) (BootInfo.length e)
             else Z.min b (2 ^ 64 - 1))
      with (Z.min (b + if is_usable e then BootInfo.length e else 0) (2 ^ 64 - 1))
      by (unfold sat_add64; destruct (is_usable e); lia).
    eapply wp_mono; [apply IH | ].
    + eapply serial_up_io; [done | apply H1].
    + lia.
    + lia.
    + destruct (is_usable e); lia.
    + intros r w2 [H2 ->]. split; [by eapply spoken_trans | ]. cbn [length usable_total foldr].
      f_equal; [lia | ]. fold (usable_total es). f_equal. lia.
Qed.

Lemma entries_ok m b : Forall (fun e => 0 <= BootInfo.length e) (BootInfo.entries m b).
Proof.
  unfold BootInfo.entries. generalize (memory_map b).
  induction (Z.to_nat _) as [ | r IH]; intros it; cbn [collect]; [constructor | ].
  unfold next. destruct (_ =? 0); constructor; [apply ld_range | apply IH].
Qed.

Lemma entries_length m b : (length (BootInfo.entries m b) <= Z.to_nat (bi_memory_map_len b))%nat.
Proof.
  unfold BootInfo.entries. generalize (memory_map b).
  induction (Z.to_nat _) as [ | r IH]; intros it; cbn [collect]; [done | ].
  unfold next. destruct (_ =? 0); cbn; [lia | ].
  apply le_n_S, IH.
Qed.

(** The memory report is complete and its sum is exact: [log_memory_map] prints one line
    for every entry of the map, in order, then the usable memory in KiB (the sum of the
    lengths of the usable entries, capped at 2^64 - 1 bytes) and the number of entries;
    nothing else reaches COM1 and no static changes. *)
Theorem memory_report_complete boot_info w :
  serial_up w -> fits 64 (bi_memory_map_len boot_info) ->
  let es := BootInfo.entries (w_mem w) boot_info in
  wp (log_memory_map boot_info) w (fun _ w' =>
    spoken ((es ≫= region_line) ++
            usable_line (Z.min (usable_total es) (2 ^ 64 - 1)) (Z.of_nat (length es))) w w').
Proof.
  intros Hs Hf es. unfold log_memory_map. apply wp_bind.
  eapply wp_mono; [apply wp_debug_silent | ]. intros [] w1 H1. apply wp_bind, wp_gets.
  assert (w_mem w1 = w_mem w) as Em by apply (io_step_fields _ _ (proj1 H1)).
  rewrite Em. fold es. apply wp_bind.
  assert (serial_up w1) as Hs1 by (eapply serial_up_io; [done | apply H1]).
  eapply wp_mono; [apply (wp_log_regions es 0 0 w1) | ]; try done.
  - apply entries_ok.
  - pose proof (entries_length (w_mem w) boot_info). fold es in H. zlia.
  - intros [n b] w2 [H2 [= -> ->]]. cbv beta iota.
    assert (serial_up w2) as Hs2 by (eapply serial_up_io; [exact Hs1 | apply H2]).
    apply wp_bind. eapply wp_mono; [apply wp_fmt_spoken; [unfold usable_line; solve_bytes | done] | ].
    intros [] w3 H3. eapply wp_mono; [apply wp_debug_silent | ]. intros [] w4 H4.
    eapply spoken_silent; [exact H1 | ]. eapply spoken_then; [ | exact H4].
    by eapply spoken_trans.
Qed.
End ReportProps.

(** *** The USB controllers *)

Section UsbProps.
Context {D : Type} {HW : Hardware D} {CR : Crates D} {CL : CratesLaws D}.
Context (space : PciAddress -> Z -> Z) {PB : PciBus D space}.
Implicit Types w : World D.

Definition is_usb (a : PciAddress) : bool := (space a 0x0B =? 0x0C) && (space a 0x0A =? 0x03).

(** The USB controllers of a list of functions, and what is printed of each. *)
Definition usb_of (l : list PciAddress) : list PciAddress := filter (fun a => is_usb a) l.

Definition usb_text (a : PciAddress) : list Z :=
  usb_line a (space a 0 + 256 * space a 1) (space a 2 + 256 * space a 3)
           (space a 0x0B) (space a 0x0A) (space a 0x09).

Lemma usb_text_bytes a : Forall (fits 8) (usb_text a).
Proof. unfold usb_text, usb_line, fmt_addr. solve_bytes; repeat constructor; done. Qed.

(** One controller that is not an xHCI: its line, and nothing more. *)
Lemma wp_usb_controller fuel a n w :
  address_ok a -> serial_up w -> space a 0x09 <> 0x30 ->
  wp (usb_controller fuel a n) w (fun r w' => r = u64 (n + 1) /\ spoken (usb_text a) w w').
Proof using PB CL.
  intros Ha Hs Hp. unfold usb_controller, vendor_id, device_id, class_code, subclass, prog_if.
  apply wp_bind. eapply wp_mono; [apply (wp_read_u16 space); [done | zlia] | ]. intros v w1 [-> H1].
  apply wp_bind. eapply wp_mono; [apply (wp_read_u16 space); [done | zlia] | ]. intros v w2 [-> H2].
  apply wp_bind. eapply wp_mono; [apply (wp_read_u8 space); [done | zlia] | ]. intros v w3 [-> H3].
  apply wp_bind. eapply wp_mono; [apply (wp_read_u8 space); [done | zlia] | ]. intros v w4 [-> H4].
  apply wp_bind. eapply wp_mono; [apply (wp_read_u8 space); [done | zlia] | ]. intros v w5 [-> H5].
  assert (pci_step w w5) as H by (do 4 (etransitivity; [eassumption | ]); done).
  clear H1 H2 H3 H4 H5. apply wp_bind.
  eapply wp_mono; [apply wp_fmt_spoken; [apply usb_text_bytes | eapply serial_up_io; [done | apply H]] | ].
  intros [] w6 H6. apply wp_bind. rewrite (proj2 (Z.eqb_neq _ _) Hp). apply wp_ret, wp_ret.
  split; [done | ]. eapply spoken_silent; [by apply pci_silent | done].
Qed.

Lemma usb_of_snoc l a : usb_of (l ++ [a]) = usb_of l ++ if is_usb a then [a] else [].
Proof.
  unfold usb_of. rewrite filter_app, filter_cons, filter_nil. f_equal.
  by destruct (is_usb a); [rewrite decide_True | rewrite decide_False by (by intros [])].
Qed.

(** The state of the report after the functions [l] of the scan. *)
Definition reported w0 (l : list PciAddress) (n : Z) w : Prop :=
  n = u64 (Z.of_nat (length (usb_of l))) /\ spoken (usb_of l ≫= usb_text) w0 w.

(** No function of the bus is an xHCI controller. *)
Definition no_xhci : Prop :=
  forall a, address_ok a -> present space a = true -> is_usb a = true -> space a 0x09 <> 0x30.

Lemma length_bind_le {A B} (f : A -> list B) (n : nat) l :
  (forall x, length (f x) <= n)%nat -> (length (l ≫= f) <= n * length l)%nat.
Proof.
  intros H. induction l as [ | x l IH]; cbn; [lia | ]. rewrite length_app.
  specialize (H x). cbn in IH. lia.
Qed.

Lemma device_functions_length b d : (length (device_functions space b d) <= 8)%nat.
Proof.
  unfold device_functions. destruct (present _ _); cbn; [ | lia]. destruct (has _ _); cbn; [ | lia].
  etransitivity; [apply le_n_S, length_filter | ]. rewrite length_fmap, length_seqZ. lia.
Qed.

Lemma all_functions_length : Z.of_nat (length (all_functions space)) <= 65536.
Proof.
  assert (forall b, length (seqZ 0 32 ≫= fun d => device_functions space b d) <= 256)%nat as H.
  { intros b. pose proof (length_bind_le (fun d => device_functions space b d) 8 (seqZ 0 32)
      (device_functions_length b)) as H. rewrite length_seqZ in H. lia. }
  pose proof (length_bind_le _ 256 (seqZ 0 256) H) as Hl. rewrite length_seqZ in Hl.
  unfold all_functions. lia.
Qed.

(** What is said of the controllers of the bus. *)
Definition usb_report : list Z :=
  match usb_of (all_functions space) with
  | [] => bytes_of "[pci] no usb controllers found" ++ [13; 10]
  | l => l ≫= usb_text
  end.

Lemma wp_scan_usb fuel w :
  serial_up w -> no_xhci ->
  wp (find_usb_controllers (usb_controller fuel) 0) w (reported w (all_functions space)).
Proof using PB CL.
  intros Hs Hx. unfold find_usb_controllers.
  apply (wp_enumerate space _ (reported w)).
  - intros l n w1 w2 [-> H1] H2. split; [done | ].
    eapply spoken_then; [exact H1 | by apply pci_silent].
  - intros l x n w1 Hax Hp [-> H1]. unfold class_code, subclass, reported. rewrite usb_of_snoc.
    apply wp_bind. eapply wp_mono; [apply (wp_read_u8 space); [done | zlia] | ]. intros v w2 [-> H2].
    apply wp_bind. eapply wp_mono; [apply (wp_read_u8 space); [done | zlia] | ]. intros v w3 [-> H3].
    assert (spoken (usb_of l ≫= usb_text) w w3) as H.
    { do 2 (eapply spoken_then; [ | by apply pci_silent]). exact H1. }
    fold (is_usb x). destruct (is_usb x) eqn:Eu.
    + eapply wp_mono; [apply wp_usb_controller; [done | | by apply Hx] | ].
      { eapply serial_up_io; [exact Hs | apply H]. }
      intros r w4 [-> H4]. rewrite length_app, bind_app. cbn [length mbind list_bind]. rewrite app_nil_r.
      split; [ | by eapply spoken_trans].
      rewrite Nat2Z.inj_add. unfold wrap. by rewrite Z.add_mod_idemp_l.
    + apply wp_ret. by rewrite app_nil_r.
  - split; [done | ]. split; [done | by rewrite app_nil_r].
Qed.

(** The scan for USB controllers, on a bus without an xHCI: [log_usb_controllers] ends,
    prints one line for every USB controller of the bus (class 0C, subclass 03) with its
    identification registers, in scan order, or says that there is none; nothing else
    reaches COM1 and no static and no memory changes. *)
Theorem usb_report_complete fuel w :
  serial_up w -> no_xhci ->
  wp (log_usb_controllers fuel) w (fun _ w' => spoken usb_report w w').
Proof using PB CL.
  intros Hs Hx. unfold log_usb_controllers. apply wp_bind.
  eapply wp_mono; [apply wp_debug_silent | ]. intros [] w1 H1.
  assert (serial_up w1) as Hs1 by (eapply serial_up_io; [done | apply H1]).
  apply wp_bind. eapply wp_mono; [by apply wp_scan_usb | ]. intros n w2 [-> H2].
  assert (serial_up w2) as Hs2 by (eapply serial_up_io; [exact Hs1 | apply H2]).
  pose proof all_functions_length as Hl.
  pose proof (length_filter (fun a => is_usb a) (all_functions space)) as Hf. fold (usb_of (all_functions space)) in Hf.
  rewrite wrap_small by zlia. apply wp_bind.
  eapply (wp_mono _ _ (fun _ w' => spoken usb_report w w')).
  2:{ intros [] w3 H3. eapply wp_mono; [apply wp_debug_silent | ]. intros [] w4 H4.
      by eapply spoken_then. }
  unfold usb_report. destruct (usb_of (all_functions space)) as [ | a l] eqn:E.
  - cbn [length Z.of_nat Z.eqb]. eapply wp_mono; [apply wp_str_spoken; [solve_bytes | done] | ].
    intros [] w3 H3. eapply spoken_silent; [exact H1 | ]. by eapply spoken_silent.
  - rewrite (proj2 (Z.eqb_neq _ 0)) by done. apply wp_ret.
    by eapply spoken_silent.
Qed.
End UsbProps.

(** *** Witnesses *)

(** COM1 is up and its transmitter empty. *)
Definition report_world : World Sim := set_mem sample_map (set_serial_init true sim_boot).
Definition usb_world : World (PciSim 0) := set_serial_init true (boot_world (mkPciSim 0) ∅).

Lemma memory_report_complete_witness :
  wp (log_memory_map sample_boot) report_world (fun _ w' =>
    spoken (region_line (mkEntry 0 0x9FC00 1 0) ++ region_line (mkEntry 0x100000 0x7EE0000 1 0) ++
            usable_line 0x7F7FC00 2) report_world w').
Proof.
  apply (memory_report_complete sample_boot report_world).
  - split; reflexivity.
  - split; discriminate || reflexivity.
Defined.

Lemma usb_report_complete_witness :
  wp (log_usb_controllers 0) usb_world (fun _ w' =>
    spoken (usb_report (usb_space 0)) usb_world w') /\
  usb_report (usb_space 0) =
    bytes_of "[pci] usb 00:03.0 vendor=1033 device=0194 class=0c sub=03 if=00" ++ [13; 10].
Proof.
  split; [ | vm_compute; reflexivity].
  apply (usb_report_complete (usb_space 0) 0 usb_world).
  - split; reflexivity.
  - intros [b d f] _ _. unfold is_usb, usb_space. case_bool_decide; discriminate.
Defined.
