(* ===== verification/Shell.v ===== *)
(** * The shell (kernel/src/shell.rs)

    A line editor fed by the keyboard ring, and a dozen commands that answer on COM1 and
    on the console. *)

From S2P Require Import Prelude XhciData State Sim Fmt Serial Vga Pmm Debug Keyboard Pic Idt.
From S2P Require Import Journal ApplyAction AiModel Initrd BootInfo Pci Reports.
From stdpp Require Import gmap list strings.
From Stdlib Require Import ZArith Lia.

Open Scope Z_scope.

(** ** Strings of the standard library

    [LINE] only ever holds ASCII: [trim] removes the ASCII part of White_Space. *)

Definition is_whitespace (b : Z) : bool := ((9 <=? b) && (b <=? 13)) || (b =? 32).

Fixpoint trim_start (s : list Z) : list Z :=
  match s with
  | [] => []
  | b :: s' => if is_whitespace b then trim_start s' else s
  end.

Definition trim (s : list Z) : list Z := rev (trim_start (rev (trim_start s))).

(** [s.find(' ')], as the text before and after the first space. *)
Fixpoint cut_space (s : list Z) : option (list Z * list Z) :=
  match s with
  | [] => None
  | b :: s' => if b =? 32 then Some ([], s')
               else match cut_space s' with
                    | Some (x, y) => Some (b :: x, y)
                    | None => None
                    end
  end.

(** [core::str::from_utf8(..).is_ok()] (Unicode, table 3-7). *)
Definition cont (b : Z) : bool := (0x80 <=? b) && (b <=? 0xBF).
Definition second_of_3 (b c : Z) : bool :=
  if b =? 0xE0 then (0xA0 <=? c) && (c <=? 0xBF)
  else if b =? 0xED then (0x80 <=? c) && (c <=? 0x9F) else cont c.
Definition second_of_4 (b c : Z) : bool :=
  if b =? 0xF0 then (0x90 <=? c) && (c <=? 0xBF)
  else if b =? 0xF4 then (0x80 <=? c) && (c <=? 0x8F) else cont c.

Fixpoint utf8_ok (s : list Z) : bool :=
  match s with
  | [] => true
  | b :: s1 =>
      if b <? 0x80 then utf8_ok s1
      else if (0xC2 <=? b) && (b <=? 0xDF) then
        match s1 with c :: s2 => cont c && utf8_ok s2 | _ => false end
      else if (0xE0 <=? b) && (b <=? 0xEF) then
        match s1 with
        | c :: d :: s3 => second_of_3 b c && cont d && utf8_ok s3
        | _ => false
        end
      else if (0xF0 <=? b) && (b <=? 0xF4) then
        match s1 with
        | c :: d :: e :: s4 => second_of_4 b c && cont d && cont e && utf8_ok s4
        | _ => false
        end
      else false
  end.

(** ** Parsing *)

Definition split1 (s : list Z) : list Z * list Z :=
  let s := trim s in
  match s with
  | [] => ([], [])
  | _ => match cut_space s with
         | Some (cmd, rest) => (cmd, trim rest)
         | None => (s, [])
         end
  end.

Fixpoint parse_digits (s : list Z) (v : Z) : option Z :=
  match s with
  | [] => Some v
  | c :: s' =>
      if (c <? 48) || (c >? 57) then None
      else parse_digits s' (sat_add64 (sat_mul64 v 10) (u8 (c - 48)))
  end.

Definition parse_u64 (s : list Z) : option Z := parse_digits s 0.

Section Shell.
Context {D : Type} {HW : Hardware D} {CR : Crates D} {BL : Build}.
Abbreviation KW := (K (World D)).

(** The budget of one call of [xhci::poll_events], and of a sleep. *)
Variables fuel naps : nat.

(** ** Output *)

Definition write_str (s : list Z) : KW unit := Serial.write_str s ;; Vga.write_str s.

Definition writeln (s : list Z) : KW unit := write_str s ;; write_str [13; 10].

Definition print_num (n : Z) : KW unit :=
  if n =? 0 then Vga.put_char 48
  else match render_u64 n with
       | Some ds => kfor ds Vga.put_char
       | None => kpanic
       end.

Definition writeln_num (prefix : list Z) (n : Z) : KW unit :=
  Serial.write_fmt (prefix ++ fmt_dec n ++ [13; 10]) ;;
  Vga.write_str prefix ;;
  if n =? 0 then Vga.put_char 48 ;; Vga.put_char 10
  else match render_u64 n with
       | Some ds => kfor ds Vga.put_char ;; Vga.put_char 10
       | None => kpanic
       end.

Definition prompt : KW unit := Serial.write_str (bytes_of "$ ") ;; Vga.write_str (bytes_of "$ ").

Definition start : KW unit := prompt.

(** A row of [hex_dump], at offset [off]. *)
Definition hex_row (bytes : list Z) (off : Z) : KW unit :=
  Serial.write_fmt (fmt_hexw 8 off ++ bytes_of "  ") ;;
  kfor (seqZ 0 16) (fun i =>
    match bytes !! Z.to_nat (off + i) with
    | Some b => Serial.write_fmt (fmt_hexw 2 b ++ [32])
    | None => Serial.write_str (bytes_of "   ")
    end) ;;
  Serial.write_str (bytes_of " |") ;;
  kfor (seqZ 0 16) (fun i =>
    match bytes !! Z.to_nat (off + i) with
    | Some ch => Serial.write_fmt [if (32 <=? ch) && (ch <? 127) then ch else 46]
    | None => mret tt
    end) ;;
  Serial.write_str (bytes_of "|" ++ [13; 10]).

(** [while off < bytes.len() { ...; off += 16 }]. *)
Definition hex_dump (bytes : list Z) : KW unit :=
  kfor (seqZ 0 ((zlen bytes + 15) / 16)) (fun r => hex_row bytes (16 * r)).

(** ** Commands *)

(** [hlt] waits for the next interrupts, which [preempt] delivers. *)
Fixpoint sleep_loop (rounds : nat) (target : Z) : KW unit :=
  t ← timer_ticks;
  if t <? target then
    match rounds with
    | O => kfuel
    | S r => preempt ;; sleep_loop r target
    end
  else mret tt.

Definition sleep_ms (ms : Z) : KW unit :=
  start ← timer_ticks;
  sleep_loop naps (sat_add64 start ms).

Definition ls_entry (e : Entry) : KW unit :=
  if utf8_ok (Initrd.name e) then
    Serial.write_fmt (Initrd.name e ++ [32] ++ fmt_dec (Initrd.size e) ++ [13; 10]) ;;
    Vga.write_str (Initrd.name e) ;;
    Vga.put_char 32 ;;
    print_num (Initrd.size e) ;;
    Vga.put_char 10
  else mret tt.

Definition cat (arg : list Z) : KW unit :=
  match arg with
  | [] => writeln (bytes_of "usage: cat <path>")
  | _ =>
      r ← Initrd.find arg;
      match r with
      | Some (ptr, size) =>
          m ← gets w_mem;
          let bytes := ld_bytes m ptr (Z.min size 1024) in
          if utf8_ok bytes then write_str bytes else writeln (bytes_of "(binary)")
      | None => writeln (bytes_of "not found")
      end
  end.

Definition hexdump (arg : list Z) : KW unit :=
  match arg with
  | [] => writeln (bytes_of "usage: hexdump <path> [len]")
  | _ =>
      let '(path, rest) := split1 arg in
      let dump_len := match rest with
                      | [] => 256
                      | _ => match parse_u64 rest with Some v => v | None => 256 end
                      end in
      r ← Initrd.find path;
      match r with
      | Some (ptr, size) =>
          m ← gets w_mem;
          hex_dump (ld_bytes m ptr (Z.min size dump_len))
      | None => writeln (bytes_of "not found")
      end
  end.

Definition ai : KW unit :=
  link ← gets w_link;
  writeln_num (bytes_of "ai_model_addr=") (AI_MODEL_ADDR link) ;;
  writeln_num (bytes_of "ai_model_len=") (AI_MODEL_LEN link) ;;
  ready ← is_system_ready;
  Serial.write_fmt (bytes_of "system_ready=" ++ fmt_bool ready ++ [13; 10]) ;;
  Vga.write_line (if (ready : bool) then bytes_of "system_ready=1" else bytes_of "system_ready=0") ;;
  q ← get_quantum_us;
  writeln_num (bytes_of "quantum_us=") q.

Definition HELP : list Z :=
  bytes_of "Commands: help, ls, cat <path>, hexdump <path> [len], mem, uptime, ai, pci, reboot, sleep <ms>, yield".

(** The match of [execute_line]. *)
Definition run_command (cmd arg : list Z) : KW unit :=
  let typed s := bool_decide (cmd = bytes_of s) in
  if typed ""%string then mret tt
  else if typed "help"%string then writeln HELP
  else if typed "ls"%string then Initrd.for_each ls_entry
  else if typed "cat"%string then cat arg
  else if typed "hexdump"%string then hexdump arg
  else if typed "mem"%string then kib ← free_kib; writeln_num (bytes_of "free_kib=") kib
  else if typed "uptime"%string then t ← timer_ticks; writeln_num (bytes_of "ticks=") t
  else if typed "ai"%string then ai
  else if typed "pci"%string then log_usb_controllers fuel
  else if typed "reboot"%string then exit_qemu 0
  else if typed "sleep"%string then
    match arg with
    | [] => writeln (bytes_of "usage: sleep <ms>")
    | _ => match parse_u64 arg with Some ms => sleep_ms ms | None => mret tt end
    end
  else if typed "yield"%string then preempt
  else writeln (bytes_of "unknown command").

(** [&LINE[..LEN]] panics past the end of the array. *)
Definition execute_line : KW unit :=
  sh ← gets w_shell;
  if LEN sh <=? zlen (LINE sh) then
    let '(cmd, arg) := split1 (take (Z.to_nat (LEN sh)) (LINE sh)) in run_command cmd arg
  else kpanic.

(** ** The line editor *)

Definition set_LEN (n : Z) : KW unit :=
  modify (fun w => set_shell (mkShell (LINE (w_shell w)) n) w).

Definition clear_line : KW unit := set_LEN 0.

(** The arms of the match of [step]; [LINE[LEN]] is checked against the array. *)
Definition on_char (c : Z) : KW unit :=
  if c =? 10 then execute_line ;; clear_line ;; prompt
  else if c =? 8 then
    sh ← gets w_shell;
    if 0 <? LEN sh then set_LEN (LEN sh - 1) else mret tt
  else if (32 <=? c) && (c <? 127) then
    sh ← gets w_shell;
    if LEN sh <? zlen (LINE sh) then
      modify (fun w => set_shell (mkShell (<[Z.to_nat (LEN sh) := c]> (LINE sh)) (LEN sh + 1)) w)
    else mret tt
  else mret tt.

(** [while let Some(c) = poll_char()]: one round per character. *)
Fixpoint step (rounds : nat) : KW unit :=
  match rounds with
  | O => kfuel
  | S r =>
      c ← poll_char;
      match c with
      | Some c => on_char c ;; step r
      | None => mret tt
      end
  end.

End Shell.

(** ** What the commands answer *)

Section ShellProps.
Context {D : Type} {HW : Hardware D} {CR : Crates D} {CL : CratesLaws D} {BL : Build}.
Implicit Types w : World D.

(** COM1 carried the text [s]; only devices, the cursor and the text buffer changed. *)
Record answers (s : list Z) w w' : Prop := mk_answers {
  an_text : port_log Serial.data w' = port_log Serial.data w ++ crlf s;
  an_step : exists w1 c m, io_step w w1 /\ w' = set_console c (set_mem m w1) /\
                           console_ok c /\ same_outside (w_mem w) m
}.

(** Both outputs can be used. *)
Record talk_ok w : Prop := mk_talk {
  tk_serial : serial_up w;
  tk_lock : locked CONSOLE w = false;
  tk_console : console_ok (w_console w)
}.

Lemma answers_fields s w w' :
  answers s w w' ->
  w_locks w' = w_locks w /\ w_serial_init w' = w_serial_init w /\ console_ok (w_console w') /\
  same_outside (w_mem w) (w_mem w') /\ w_pmm w' = w_pmm w /\ w_idt w' = w_idt w /\
  w_link w' = w_link w /\ w_apply w' = w_apply w /\ w_shell w' = w_shell w /\ w_kbd w' = w_kbd w /\
  w_if w' = w_if w /\ w_xhci w' = w_xhci w /\ w_tasks w' = w_tasks w /\ w_agent w' = w_agent w.
Proof.
  intros [_ (w1 & c & m & H & -> & Hc & Hm)].
  destruct (io_step_fields _ _ H) as (? & ? & ? & ? & ? & ? & ? & ? & ? & ? & ? & ? & ? & ?).
  cbn. do 13 (split; [assumption | ]). assumption.
Qed.

Lemma answers_talk s w w' : talk_ok w -> answers s w w' -> talk_ok w'.
Proof.
  intros [[Hi Hs] Hl Hc] H. destruct (answers_fields _ _ _ H) as (Ek & Ei & Hc' & _).
  constructor; [split | | done]; by rewrite ?Ek, ?Ei.
Qed.

Lemma answers_trans s1 s2 w1 w2 w3 :
  answers s1 w1 w2 -> answers s2 w2 w3 -> answers (s1 ++ s2) w1 w3.
Proof.
  intros [L1 (a & c & m & Ha & -> & Hc & Hm)] [L2 (b & c' & m' & Hb & -> & Hc' & Hm')].
  constructor.
  - by rewrite L2, L1, crlf_app, app_assoc.
  - destruct Hb as (d & t & ->). destruct Ha as (d' & t' & ->).
    exists (set_trace (t ++ t' ++ w_trace w1) (set_dev d w1)), c', m'.
    split; [by exists d, (t ++ t'); rewrite app_assoc | ]. split; [done | ]. split; [done | ].
    etransitivity; [exact Hm | exact Hm'].
Qed.

Lemma answers_nil w : console_ok (w_console w) -> answers [] w w.
Proof.
  intros Hc. constructor; [by rewrite app_nil_r | ].
  exists w, (w_console w), (w_mem w). by destruct w.
Qed.

Lemma spoken_answers s w w' : console_ok (w_console w) -> spoken s w w' -> answers s w w'.
Proof.
  intros Hc [H L]. constructor; [done | ].
  exists w', (w_console w'), (w_mem w'). destruct (io_step_fields _ _ H) as (-> & _ & _ & _ & -> & _).
  split; [done | ]. split; [ | done]. destruct H as (d & t & ->). by destruct w.
Qed.

Lemma draws_answers w w' : draws w w' -> answers [] w w'.
Proof.
  intros (c & m & -> & Hc & Hm). constructor.
  - rewrite app_nil_r. by destruct w.
  - by exists w, c, m.
Qed.

(** Sequencing of two answers. *)
Lemma wp_answers {A} (m : K (World D) A) (k : A -> K (World D) unit) s1 s2 w :
  wp m w (fun _ => answers s1 w) ->
  (forall a w', answers s1 w w' -> wp (k a) w' (fun _ => answers s2 w')) ->
  wp (m ≫= k) w (fun _ => answers (s1 ++ s2) w).
Proof.
  intros Hm Hk. apply wp_bind. eapply wp_mono; [exact Hm | ]. intros a w1 H1.
  eapply wp_mono; [by apply Hk | ]. intros [] w2 H2. eapply answers_trans; [exact H1 | exact H2].
Qed.

(** The text comes first; the rest only draws. *)
Lemma wp_answers_first {A} (m : K (World D) A) (k : A -> K (World D) unit) s w :
  wp m w (fun _ => answers s w) ->
  (forall a w', answers s w w' -> wp (k a) w' (fun _ => answers [] w')) ->
  wp (m ≫= k) w (fun _ => answers s w).
Proof.
  intros Hm Hk. pose proof (wp_answers m k s [] w Hm Hk) as H. by rewrite app_nil_r in H.
Qed.

Lemma wp_com1 s w :
  talk_ok w -> Forall (fits 8) s -> wp (Serial.write_fmt s) w (fun _ => answers s w).
Proof.
  intros [Hs Hl Hc] Hb. eapply wp_mono; [by apply wp_fmt_spoken | ]. intros [] w'. by apply spoken_answers.
Qed.

Lemma wp_com1_str s w :
  talk_ok w -> Forall (fits 8) s -> wp (Serial.write_str s) w (fun _ => answers s w).
Proof.
  intros [Hs Hl Hc] Hb. eapply wp_mono; [by apply wp_str_spoken | ]. intros [] w'. by apply spoken_answers.
Qed.

Lemma wp_screen s w :
  talk_ok w -> Forall (fits 8) s -> wp (Vga.write_str s) w (fun _ => answers [] w).
Proof.
  intros [Hs Hl Hc] Hb. eapply wp_mono; [by apply wp_vga_write_str | ].
  intros [] w' [H _]. by apply draws_answers.
Qed.

Lemma wp_screen_char c w :
  talk_ok w -> 0 <= c < 128 -> wp (Vga.put_char c) w (fun _ => answers [] w).
Proof.
  intros [Hs Hl Hc] Hb. eapply wp_mono; [by apply wp_vga_put_char | ].
  intros [] w' [H _]. by apply draws_answers.
Qed.

Lemma wp_screen_chars l w :
  talk_ok w -> Forall (fun c => 0 <= c < 128) l ->
  wp (kfor l Vga.put_char) w (fun _ => answers [] w).
Proof.
  intros Ht Hl. revert w Ht. induction Hl as [ | c l Hc Hl IH]; intros w Ht.
  - apply wp_ret, answers_nil, Ht.
  - apply (wp_answers _ _ [] []); [by apply wp_screen_char | ].
    intros [] w1 H1. apply IH. by eapply answers_talk.
Qed.

Lemma wp_shell_write_str s w :
  talk_ok w -> Forall (fits 8) s -> wp (write_str s) w (fun _ => answers s w).
Proof.
  intros Ht Hb. apply wp_answers_first; [by apply wp_com1_str | ].
  intros [] w1 H1. apply wp_screen; [by eapply answers_talk | done].
Qed.

Lemma wp_writeln s w :
  talk_ok w -> Forall (fits 8) s -> wp (writeln s) w (fun _ => answers (s ++ [13; 10]) w).
Proof.
  intros Ht Hb. apply wp_answers; [by apply wp_shell_write_str | ].
  intros [] w1 H1. apply wp_shell_write_str; [by eapply answers_talk | auto with bytes].
Qed.

(** *** Numbers *)

Lemma fmt_dec_ascii n : Forall (fun c => 0 <= c < 128) (fmt_dec n).
Proof.
  unfold fmt_dec, show. case_match; [repeat constructor; lia | ].
  apply Forall_fmap, Forall_forall. intros d Hd. unfold digits in Hd.
  rewrite list_elem_of_In, <- in_rev, <- list_elem_of_In in Hd.
  apply digits_rev_range in Hd; [ | lia]. cbn. unfold digit_char. case_match; lia.
Qed.

Lemma wp_digits n (k : K (World D) unit) s w :
  talk_ok w -> fits 64 n ->
  (forall w', answers [] w w' -> wp k w' (fun _ => answers s w')) ->
  wp (if n =? 0 then Vga.put_char 48 ;; k
      else match render_u64 n with
           | Some ds => kfor ds Vga.put_char ;; k
           | None => kpanic
           end) w (fun _ => answers s w).
Proof.
  intros Ht Hn Hk. destruct (Z.eqb_spec n 0) as [-> | Hz].
  - apply (wp_answers _ _ [] s); [by apply wp_screen_char | ]. intros []. apply Hk.
  - rewrite render_u64_spec by (done || (destruct Hn; lia)).
    apply (wp_answers _ _ [] s); [apply wp_screen_chars; [done | apply fmt_dec_ascii] | ].
    intros []. apply Hk.
Qed.

Lemma wp_print_num n w :
  talk_ok w -> fits 64 n -> wp (print_num n) w (fun _ => answers [] w).
Proof.
  intros Ht Hn. unfold print_num. destruct (Z.eqb_spec n 0) as [-> | Hz].
  - by apply wp_screen_char.
  - rewrite render_u64_spec by (done || (destruct Hn; lia)).
    apply wp_screen_chars; [done | apply fmt_dec_ascii].
Qed.

Definition num_line (prefix : list Z) (n : Z) : list Z := prefix ++ fmt_dec n ++ [13; 10].

Lemma wp_writeln_num prefix n w :
  talk_ok w -> Forall (fits 8) prefix -> fits 64 n ->
  wp (writeln_num prefix n) w (fun _ => answers (num_line prefix n) w).
Proof.
  intros Ht Hp Hn. apply wp_answers_first.
  { apply wp_com1; [done | ]. unfold num_line. solve_bytes. }
  intros [] w1 H1. assert (talk_ok w1) as T1 by (by eapply answers_talk).
  apply (wp_answers _ _ [] []); [by apply wp_screen | ].
  intros [] w2 H2. assert (talk_ok w2) as T2 by (by eapply answers_talk).
  apply wp_digits; [done | done | ]. intros w3 H3.
  apply wp_screen_char; [by eapply answers_talk | lia].
Qed.

(** *** Dumps *)

(** A loop of outputs on COM1. *)
Lemma wp_com1_loop {A} (l : list A) (f : A -> K (World D) unit) (text : A -> list Z) w :
  talk_ok w -> (forall a w', talk_ok w' -> wp (f a) w' (fun _ => answers (text a) w')) ->
  wp (kfor l f) w (fun _ => answers (l ≫= text) w).
Proof.
  intros Ht Hf. revert w Ht. induction l as [ | a l IH]; intros w Ht.
  - apply wp_ret, answers_nil, Ht.
  - apply wp_answers; [by apply Hf | ]. intros [] w1 H1. apply IH. by eapply answers_talk.
Qed.

Definition hex_cell (b : option Z) : list Z :=
  match b with Some b => fmt_hexw 2 b ++ [32] | None => bytes_of "   " end.
Definition ascii_cell (b : option Z) : list Z :=
  match b with Some b => [if (32 <=? b) && (b <? 127) then b else 46] | None => [] end.

(** A row of the classic dump: offset, sixteen bytes, their printable characters. *)
Definition dump_row (bytes : list Z) (off : Z) : list Z :=
  let cells := (fun i => bytes !! Z.to_nat (off + i)) <$> seqZ 0 16 in
  (fmt_hexw 8 off ++ bytes_of "  ") ++ (cells ≫= hex_cell) ++ bytes_of " |" ++ (cells ≫= ascii_cell) ++
  (bytes_of "|" ++ [13; 10]).

Definition dump_text (bytes : list Z) : list Z :=
  seqZ 0 ((zlen bytes + 15) / 16) ≫= fun r => dump_row bytes (16 * r).

Lemma bind_fmap_list {A B C} (f : A -> B) (g : B -> list C) l : (f <$> l) ≫= g = l ≫= fun a => g (f a).
Proof. induction l as [ | a l IH]; [done | ]. cbn. f_equal. apply IH. Qed.

Lemma wp_hex_row bytes off w :
  talk_ok w -> wp (hex_row bytes off) w (fun _ => answers (dump_row bytes off) w).
Proof.
  intros Ht. unfold dump_row. rewrite !bind_fmap_list.
  apply wp_answers; [apply wp_com1; [done | solve_bytes] | ]. intros [] w1 H1.
  assert (talk_ok w1) as T1 by (by eapply answers_talk).
  apply wp_answers.
  { apply wp_com1_loop; [done | ]. intros i w' T. destruct (bytes !! _).
    - apply wp_com1; [done | ]. apply Forall_app. split; [auto with bytes | ].
      by apply Forall_singleton.
    - apply wp_com1_str; [done | apply bytes_of_bytes]. }
  intros [] w2 H2. assert (talk_ok w2) as T2 by (by eapply answers_talk).
  apply wp_answers; [apply wp_com1_str; [done | auto with bytes] | ]. intros [] w3 H3.
  assert (talk_ok w3) as T3 by (by eapply answers_talk).
  apply wp_answers.
  { apply wp_com1_loop; [done | ]. intros i w' T. destruct (bytes !! _) as [b | ].
    - apply wp_com1; [done | ]. apply Forall_singleton.
      destruct ((32 <=? b) && (b <? 127)) eqn:E; zlia.
    - apply wp_ret, answers_nil, T. }
  intros [] w4 H4. apply wp_com1_str; [by eapply answers_talk | solve_bytes].
Qed.

Lemma wp_hex_dump bytes w :
  talk_ok w -> wp (hex_dump bytes) w (fun _ => answers (dump_text bytes) w).
Proof. intros Ht. apply wp_com1_loop; [done | ]. intros r w'. apply wp_hex_row. Qed.

(** *** The ramdisk *)

(** The image can be parsed without overflow and does not overlap the text buffer. *)
Definition image_ok (base len : Z) : Prop :=
  archive_ok base len /\ forall a, base <= a < base + len -> ~ vga_byte a.

Definition ramdisk_ok w : Prop :=
  INITRD_BASE (w_link w) = 0 \/ image_ok (INITRD_BASE (w_link w)) (INITRD_LEN (w_link w)).

Definition files w : list Entry :=
  default [] (Initrd.entries (w_mem w) (INITRD_BASE (w_link w)) (INITRD_LEN (w_link w))).

Lemma ld_bytes_fits m a n : Forall (fits 8) (ld_bytes m a n).
Proof. apply Forall_fmap, Forall_forall. intros i _. apply ld8_range. Qed.

Lemma ramfs_round_name m base len off e next :
  ramfs_round m base len off = Some (e, next) -> Forall (fits 8) (Initrd.name e).
Proof.
  unfold ramfs_round. repeat case_match; try done; intros [= <- <-]; cbn;
    try apply Forall_take; apply ld_bytes_fits.
Qed.

Lemma same_outside_agree base len m m' :
  image_ok base len -> same_outside m m' -> agree base len m m'.
Proof. intros [_ Hd] Hm a Ha. unfold ld8. by rewrite (Hm a) by (by apply Hd). Qed.

Lemma agree_trans base len m1 m2 m3 :
  agree base len m1 m2 -> agree base len m2 m3 -> agree base len m1 m3.
Proof. intros H1 H2 a Ha. by rewrite (H1 a Ha), (H2 a Ha). Qed.

Definition ls_text (e : Entry) : list Z :=
  if utf8_ok (Initrd.name e)
  then Initrd.name e ++ [32] ++ fmt_dec (Initrd.size e) ++ [13; 10] else [].

Lemma wp_ls_entry e w :
  talk_ok w -> Forall (fits 8) (Initrd.name e) -> fits 64 (Initrd.size e) ->
  wp (ls_entry e) w (fun _ => answers (ls_text e) w).
Proof.
  intros Ht Hn Hs. unfold ls_entry, ls_text. destruct (utf8_ok _); [ | apply wp_ret, answers_nil, Ht].
  apply wp_answers_first.
  { apply wp_com1; [done | ]. solve_bytes; try done. by apply Forall_singleton. }
  intros [] w1 H1. assert (talk_ok w1) as T1 by (by eapply answers_talk).
  apply (wp_answers _ _ [] []); [by apply wp_screen | ].
  intros [] w2 H2. assert (talk_ok w2) as T2 by (by eapply answers_talk).
  apply (wp_answers _ _ [] []); [by apply wp_screen_char | ].
  intros [] w3 H3. assert (talk_ok w3) as T3 by (by eapply answers_talk).
  apply (wp_answers _ _ [] []); [by apply wp_print_num | ].
  intros [] w4 H4. apply wp_screen_char; [by eapply answers_talk | lia].
Qed.

Lemma wp_ls_loop fuel m base len off es w :
  talk_ok w -> image_ok base len -> agree base len m (w_mem w) -> 0 <= off < 2 ^ 63 ->
  entries_loop fuel m base len off = Some es ->
  wp (for_each_loop fuel base len off ls_entry) w (fun _ => answers (es ≫= ls_text) w).
Proof.
  intros Ht Hi. revert off es w Ht. induction fuel as [ | f IH]; intros off es w Ht Hm Ho E; [done | ].
  cbn [entries_loop for_each_loop] in *. rewrite (wrap_small 64 (off + 110)) in * by zlia.
  destruct (Z.leb_spec (off + 110) len) as [Hl | Hl].
  2:{ injection E as <-. apply wp_ret, answers_nil, Ht. }
  apply wp_bind, wp_gets.
  rewrite <- (ramfs_round_local base len m (w_mem w)) by (apply Hi || done || lia).
  destruct (ramfs_round m base len off) as [[e next] | ] eqn:Er.
  2:{ injection E as <-. apply wp_ret, answers_nil, Ht. }
  destruct (entries_loop f m base len next) as [es' | ] eqn:El; [ | done]. injection E as <-.
  destruct (ramfs_round_spec _ _ _ _ _ _ (proj1 Hi) (proj1 Ho) Hl Er) as (Hn & Hd & Hs & H0 & _).
  destruct Hi as [[Hb Hln] Hv].
  cbn [mbind list_bind]. apply wp_answers.
  { apply wp_ls_entry; [done | by eapply ramfs_round_name | zlia]. }
  intros [] w1 H1. apply IH; [by eapply answers_talk | | lia | done].
  eapply agree_trans; [exact Hm | ]. apply same_outside_agree; [split; [by split | exact Hv] | ].
  apply (answers_fields _ _ _ H1).
Qed.

(** The walk over the image ends, and every file it finds lies inside. *)
Lemma files_spec w :
  ramdisk_ok w ->
  Initrd.entries (w_mem w) (INITRD_BASE (w_link w)) (INITRD_LEN (w_link w)) = Some (files w) /\
  Forall (inside (INITRD_BASE (w_link w)) (INITRD_LEN (w_link w))) (files w) /\
  (files w <> [] -> image_ok (INITRD_BASE (w_link w)) (INITRD_LEN (w_link w))).
Proof.
  intros H. unfold files, Initrd.entries.
  destruct (Z.eqb_spec (INITRD_BASE (w_link w)) 0); [done | ]. destruct H as [? | Hi]; [done | ].
  destruct (_ <? 110); [done | ]. cbn [orb].
  destruct (entries_loop_total (rounds (INITRD_LEN (w_link w))) (w_mem w) (INITRD_BASE (w_link w))
              (INITRD_LEN (w_link w)) 0) as (es & -> & He & _); try done.
  - apply Hi.
  - unfold rounds. lia.
  - rewrite Z.sub_0_r. apply rounds_enough, Hi.
  - split; [done | split; [ | done]]. eapply Forall_impl; [exact He | ]. by intros e [].
Qed.

Lemma files_total w :
  ramdisk_ok w ->
  Initrd.entries (w_mem w) (INITRD_BASE (w_link w)) (INITRD_LEN (w_link w)) = Some (files w).
Proof. apply files_spec. Qed.

Lemma wp_ls w :
  talk_ok w -> ramdisk_ok w ->
  wp (for_each ls_entry) w (fun _ => answers (files w ≫= ls_text) w).
Proof.
  intros Ht Hr. pose proof (files_total w Hr) as E. unfold for_each. apply wp_bind, wp_gets.
  unfold Initrd.entries in E. destruct ((INITRD_BASE (w_link w) =? 0) || (INITRD_LEN (w_link w) <? 110)) eqn:Eb.
  - injection E as <-. apply wp_ret, answers_nil, Ht.
  - destruct Hr as [Hz | Hi]; [by rewrite Hz in Eb | ].
    by apply (wp_ls_loop _ (w_mem w)).
Qed.

(** *** All the commands *)

Definition line (s : string) : list Z := bytes_of s ++ [13; 10].

(** The data of the first file of that name. *)
Definition lookup_file w (path : list Z) : option (Z * Z) :=
  (fun p => (Initrd.data (snd p), Initrd.size (snd p))) <$>
    list_find (fun e => bool_decide (Initrd.name e = path)) (files w).

Definition cat_text w (path : list Z) : list Z :=
  match lookup_file w path with
  | Some (ptr, size) =>
      let bytes := ld_bytes (w_mem w) ptr (Z.min size 1024) in
      if utf8_ok bytes then bytes else line "(binary)"
  | None => line "not found"
  end.

Definition hexdump_text w (path : list Z) (dump_len : Z) : list Z :=
  match lookup_file w path with
  | Some (ptr, size) => dump_text (ld_bytes (w_mem w) ptr (Z.min size dump_len))
  | None => line "not found"
  end.

(** The length asked for, or 256 where there is none or it is not a number. *)
Definition dump_len (rest : list Z) : Z :=
  if bool_decide (rest = []) then 256 else default 256 (parse_u64 rest).

(** The free memory in KiB; none before the allocator is set up. *)
Definition free_now w : Z :=
  if NEXT_FREE (w_pmm w) =? 0 then 0
  else Z.max 0 (LIMIT (w_pmm w) - NEXT_FREE (w_pmm w)) / 1024.

Definition ai_text w : list Z :=
  num_line (bytes_of "ai_model_addr=") (AI_MODEL_ADDR (w_link w)) ++
  num_line (bytes_of "ai_model_len=") (AI_MODEL_LEN (w_link w)) ++
  num_line (bytes_of "system_ready=") (if SYSTEM_READY (w_apply w) then 1 else 0) ++
  num_line (bytes_of "quantum_us=") (QUANTUM_US (w_apply w)).

(** The commands that only answer, with their answers. *)
Inductive answer w : list Z -> list Z -> list Z -> Prop :=
| AnsNothing arg : answer w [] arg []
| AnsHelp arg : answer w (bytes_of "help") arg (HELP ++ [13; 10])
| AnsLs arg : answer w (bytes_of "ls") arg (files w ≫= ls_text)
| AnsCat arg : arg <> [] -> answer w (bytes_of "cat") arg (cat_text w arg)
| AnsCatUsage : answer w (bytes_of "cat") [] (line "usage: cat <path>")
| AnsHexdump arg path rest : arg <> [] -> split1 arg = (path, rest) ->
    answer w (bytes_of "hexdump") arg (hexdump_text w path (dump_len rest))
| AnsHexdumpUsage : answer w (bytes_of "hexdump") [] (line "usage: hexdump <path> [len]")
| AnsMem arg : answer w (bytes_of "mem") arg (num_line (bytes_of "free_kib=") (free_now w))
| AnsUptime arg : answer w (bytes_of "uptime") arg (num_line (bytes_of "ticks=") (TIMER_TICKS (w_idt w)))
| AnsAi arg : answer w (bytes_of "ai") arg (ai_text w)
| AnsSleepUsage : answer w (bytes_of "sleep") [] (line "usage: sleep <ms>")
| AnsSleepWord arg : arg <> [] -> parse_u64 arg = None -> answer w (bytes_of "sleep") arg []
| AnsUnknown cmd arg :
    cmd ∉ (bytes_of <$> [""; "help"; "ls"; "cat"; "hexdump"; "mem"; "uptime"; "ai"; "pci";
                         "reboot"; "sleep"; "yield"]%string) ->
    answer w cmd arg (line "unknown command").

(** The numbers the commands print have their widths. *)
Definition statics_fit w : Prop :=
  0 <= NEXT_FREE (w_pmm w) /\ fits 64 (LIMIT (w_pmm w)) /\ fits 64 (TIMER_TICKS (w_idt w)) /\
  fits 64 (AI_MODEL_ADDR (w_link w)) /\ fits 64 (AI_MODEL_LEN (w_link w)) /\
  fits 32 (QUANTUM_US (w_apply w)).

Lemma find_lookup path w : ramdisk_ok w -> Initrd.find path w = Ret (lookup_file w path) w.
Proof.
  intros Hr. unfold Initrd.find, mbind, K_bind, kbind, gets. rewrite (files_total w Hr).
  by rewrite find_closure_first.
Qed.

Lemma wp_cat arg w :
  talk_ok w -> ramdisk_ok w -> arg <> [] -> wp (cat arg) w (fun _ => answers (cat_text w arg) w).
Proof.
  intros Ht Hr Ha. destruct arg as [ | c arg]; [done | ]. unfold cat, cat_text. apply wp_bind.
  eapply wp_eq; [by apply find_lookup | ]. destruct (lookup_file _ _) as [[ptr size] | ].
  - apply wp_bind, wp_gets. destruct (utf8_ok _).
    + apply wp_shell_write_str; [done | apply ld_bytes_fits].
    + apply wp_writeln; [done | auto with bytes].
  - apply wp_writeln; [done | auto with bytes].
Qed.

Lemma wp_hexdump arg path rest w :
  talk_ok w -> ramdisk_ok w -> arg <> [] -> split1 arg = (path, rest) ->
  wp (hexdump arg) w (fun _ => answers (hexdump_text w path (dump_len rest)) w).
Proof.
  intros Ht Hr Ha Es. destruct arg as [ | c arg]; [done | ]. unfold hexdump, hexdump_text.
  rewrite Es. replace (match rest with [] => 256 | _ => _ end) with (dump_len rest)
    by (unfold dump_len; destruct rest as [ | c' rest]; [done | ]; cbn; by destruct (parse_u64 (c' :: rest))).
  apply wp_bind. eapply wp_eq; [by apply find_lookup | ].
  destruct (lookup_file _ _) as [[ptr size] | ].
  - apply wp_bind, wp_gets. by apply wp_hex_dump.
  - apply wp_writeln; [done | auto with bytes].
Qed.

Lemma wp_ai w : talk_ok w -> statics_fit w -> wp ai w (fun _ => answers (ai_text w) w).
Proof.
  intros Ht (_ & _ & _ & Ha & Hl & Hq). unfold ai, ai_text. apply wp_bind, wp_gets.
  apply wp_answers; [apply wp_writeln_num; [done | auto with bytes | done] | ]. intros [] w1 H1.
  assert (talk_ok w1) as T1 by (by eapply answers_talk).
  apply wp_answers; [apply wp_writeln_num; [done | auto with bytes | done] | ]. intros [] w2 H2.
  assert (talk_ok w2) as T2 by (by eapply answers_talk).
  assert (w_apply w2 = w_apply w) as Ea.
  { etransitivity; [apply (answers_fields _ _ _ H2) | apply (answers_fields _ _ _ H1)]. }
  apply wp_bind. unfold is_system_ready. apply wp_gets. rewrite Ea.
  apply wp_answers.
  { apply wp_com1; [done | ]. destruct (SYSTEM_READY _); unfold num_line; cbn [fmt_bool]; solve_bytes. }
  intros [] w3 H3. assert (talk_ok w3) as T3 by (by eapply answers_talk).
  apply (wp_answers _ _ [] _).
  { destruct T3 as [_ Hl3 Hc3]. eapply wp_mono; [apply wp_vga_write_line; [done | done | ] | ].
    - destruct (SYSTEM_READY _); auto with bytes.
    - intros [] w4 [H4 _]. by apply draws_answers. }
  intros [] w4 H4. assert (talk_ok w4) as T4 by (by eapply answers_talk).
  apply wp_bind. unfold get_quantum_us. apply wp_gets.
  replace (w_apply w4) with (w_apply w).
  2:{ rewrite <- Ea. symmetry. etransitivity; [apply (answers_fields _ _ _ H4) | apply (answers_fields _ _ _ H3)]. }
  apply wp_writeln_num; [done | auto with bytes | zlia].
Qed.
(** A word that is none of the commands. *)
Lemma run_unknown (fuel naps : nat) cmd arg :
  cmd ∉ (bytes_of <$> [""; "help"; "ls"; "cat"; "hexdump"; "mem"; "uptime"; "ai"; "pci";
                       "reboot"; "sleep"; "yield"]%string) ->
  run_command fuel naps cmd arg = writeln (bytes_of "unknown command").
Proof.
  intros H. unfold run_command. cbn [fmap list_fmap] in H. rewrite !not_elem_of_cons in H.
  destruct_and! H. by rewrite !bool_decide_eq_false_2 by done.
Qed.

Lemma wp_free_kib w :
  0 <= NEXT_FREE (w_pmm w) -> wp free_kib w (fun k w' => k = free_now w /\ w' = w).
Proof.
  intros Hn. unfold free_kib, free_now. wp_steps.
  split; [ | done]. destruct (Z.eqb_spec (NEXT_FREE (w_pmm w)) 0) as [-> | Hz]; [done | ]. cbn [orb].
  destruct (Z.leb_spec (LIMIT (w_pmm w)) (NEXT_FREE (w_pmm w))).
  - by rewrite Z.max_l by lia.
  - by rewrite Z.max_r by lia.
Qed.

Lemma free_now_fits w : statics_fit w -> fits 64 (free_now w).
Proof.
  intros (Hn & [_ Hl] & _). unfold free_now. destruct (_ =? 0); [done | ].
  split; [apply Z.div_pos; lia | apply Z.div_lt_upper_bound; lia].
Qed.

Lemma wp_run_command fuel naps cmd arg s w :
  talk_ok w -> ramdisk_ok w -> statics_fit w -> answer w cmd arg s ->
  wp (run_command fuel naps cmd arg) w (fun _ => answers s w).
Proof.
  intros Ht Hr Hs H. pose proof Hs as (Hn & _ & Htk & _).
  destruct H as [ arg | arg | arg | arg Ha | | arg path rest Ha Hp | | arg | arg | arg | | arg Ha Hp
                | cmd arg Hc ].
  - apply wp_ret, answers_nil, Ht.
  - apply wp_writeln; [done | apply bytes_of_bytes].
  - by apply wp_ls.
  - by apply wp_cat.
  - apply wp_writeln; [done | apply bytes_of_bytes].
  - by apply wp_hexdump.
  - apply wp_writeln; [done | apply bytes_of_bytes].
  - apply wp_bind. eapply wp_mono; [by apply wp_free_kib | ]. intros k w' [-> ->].
    apply wp_writeln_num; [done | apply bytes_of_bytes | by apply free_now_fits].
  - apply wp_bind, wp_gets, wp_writeln_num; [done | apply bytes_of_bytes | done].
  - by apply wp_ai.
  - apply wp_writeln; [done | apply bytes_of_bytes].
  - change (run_command fuel naps (bytes_of "sleep") arg) with
      (match arg with
       | [] => writeln (bytes_of "usage: sleep <ms>")
       | _ => match parse_u64 arg with Some ms => sleep_ms naps ms | None => mret tt end
       end). rewrite Hp. destruct arg; [done | ]. apply wp_ret, answers_nil, Ht.
  - rewrite run_unknown by done. apply wp_writeln; [done | apply bytes_of_bytes].
Qed.
End ShellProps.

(** ** Numbers on the command line *)

Definition is_digit (c : Z) : bool := (48 <=? c) && (c <=? 57).

(** The value the text denotes. *)
Definition decimal (s : list Z) : Z := undigits 10 ((fun c => c - 48) <$> s).

(** The accumulator is the exact value so far, cut at the largest 64-bit integer. *)
Lemma parse_digits_spec s v :
  0 <= v ->
  parse_digits s (Z.min v (2 ^ 64 - 1)) =
    if forallb is_digit s
    then Some (Z.min (fold_left (fun a d => a * 10 + d) ((fun c => c - 48) <$> s) v) (2 ^ 64 - 1))
    else None.
Proof.
  revert v. induction s as [ | c s IH]; intros v Hv; [done | ]. cbn [parse_digits forallb fmap list_fmap fold_left].
  replace ((c <? 48) || (c >? 57)) with (negb (is_digit c)) by (unfold is_digit; lia).
  destruct (is_digit c) eqn:Ec; [ | done]. cbn [negb andb]. unfold is_digit in Ec.
  rewrite <- IH by lia. f_equal. unfold sat_add64, sat_mul64. rewrite (wrap_small 8) by lia.
  lia.
Qed.

(** [C12] [parse_u64] is the exact decimal value, saturated: on text of digits alone it
    returns the number written, cut at the largest 64-bit integer, on any other text nothing;
    and what [{}] prints is read back unchanged. *)
Theorem parse_u64_exact s :
  parse_u64 s = (if forallb is_digit s then Some (Z.min (decimal s) (2 ^ 64 - 1)) else None) /\
  forall n, fits 64 n -> parse_u64 (fmt_dec n) = Some n.
Proof.
  assert (forall s, parse_u64 s = if forallb is_digit s then Some (Z.min (decimal s) (2 ^ 64 - 1)) else None)
    as E by (intros t; by apply (parse_digits_spec t 0)).
  split; [apply E | ]. intros n Hn. rewrite E. unfold fmt_dec, show.
  destruct (Z.eqb_spec n 0) as [-> | Hz]; [done | ].
  assert (Forall (fun d => 0 <= d < 10) (digits 10 n)) as Hd.
  { apply Forall_forall. intros d. unfold digits. rewrite list_elem_of_In, <- in_rev, <- list_elem_of_In.
    apply digits_rev_range. lia. }
  replace (forallb is_digit _) with true.
  2:{ symmetry. apply Is_true_eq_true, forallb_True, Forall_fmap. eapply Forall_impl; [exact Hd | ].
      intros d Hr. apply Is_true_eq_left. unfold is_digit, digit_char. cbn in Hr |- *.
      replace (d <? 10) with true by lia. lia. }
  unfold decimal. rewrite <- list_fmap_compose.
  replace (_ <$> digits 10 n) with (digits 10 n).
  - rewrite digits_value by done. f_equal. zlia.
  - rewrite <- (list_fmap_id (digits 10 n)) at 1. apply list_fmap_ext. intros i d Hi. cbn.
    apply Forall_lookup_1 with (i := i) (x := d) in Hd; [ | done]. unfold digit_char. cbn in Hi.
    replace (d <? 10) with true by lia. lia.
Qed.

(** ** Words on the command line *)

Definition blank (s : list Z) : Prop := Forall (fun b => is_whitespace b = true) s.

(** Text that neither starts nor ends with white space. *)
Definition solid (s : list Z) : Prop :=
  (exists b, head s = Some b /\ is_whitespace b = false) /\
  (exists b, last s = Some b /\ is_whitespace b = false).

Lemma trim_start_blank s : blank s -> trim_start s = [].
Proof. induction 1 as [ | b s Hb _ IH]; [done | ]. cbn. by rewrite Hb. Qed.

Lemma trim_start_solid pre b s : blank pre -> is_whitespace b = false -> trim_start (pre ++ b :: s) = b :: s.
Proof. intros Hp Hb. induction Hp as [ | c pre Hc _ IH]; cbn; [by rewrite Hb | by rewrite Hc]. Qed.

Lemma blank_rev s : blank s -> blank (rev s).
Proof. apply List.Forall_rev. Qed.

Lemma trim_blank s : blank s -> trim s = [].
Proof. intros H. unfold trim. by rewrite (trim_start_blank s). Qed.

Lemma trim_solid pre s post : blank pre -> solid s -> blank post -> trim (pre ++ s ++ post) = s.
Proof.
  intros Hp [(b & Hb & Nb) (e & He & Ne)] Hq. destruct s as [ | b' s]; [done | ]. injection Hb as ->.
  unfold trim. rewrite <- app_comm_cons, trim_start_solid by done. rewrite app_comm_cons, rev_app_distr.
  apply last_Some in He as (s' & ->). rewrite rev_app_distr. cbn [rev app].
  rewrite trim_start_solid by (done || by apply blank_rev). cbn [rev]. by rewrite rev_involutive.
Qed.

Lemma cut_space_first cmd rest : Forall (fun b => b <> 32) cmd -> cut_space (cmd ++ 32 :: rest) = Some (cmd, rest).
Proof.
  induction 1 as [ | b cmd Hb _ IH]; [done | ]. cbn. rewrite (proj2 (Z.eqb_neq b 32)) by done. by rewrite IH.
Qed.

Lemma cut_space_none cmd : Forall (fun b => b <> 32) cmd -> cut_space cmd = None.
Proof.
  induction 1 as [ | b cmd Hb _ IH]; [done | ]. cbn. rewrite (proj2 (Z.eqb_neq b 32)) by done. by rewrite IH.
Qed.

Lemma word_solid cmd : cmd <> [] -> Forall (fun b => is_whitespace b = false) cmd -> solid cmd.
Proof.
  intros Hn H. rewrite Forall_forall in H. split.
  - destruct cmd as [ | b cmd]; [done | ]. exists b. split; [done | ]. apply H. left.
  - destruct (last cmd) as [b | ] eqn:E; [ | by apply last_None in E]. exists b. split; [done | ].
    apply H. apply last_Some in E as (l & ->). apply elem_of_app. right. by left.
Qed.

Lemma solid_join cmd mid arg : solid cmd -> solid arg -> solid (cmd ++ mid ++ arg).
Proof.
  intros [(b & Hb & Nb) _] [_ (e & He & Ne)]. split.
  - exists b. split; [ | done]. by destruct cmd.
  - exists e. split; [ | done]. apply last_Some in He as (l & ->). by rewrite !app_assoc, last_snoc.
Qed.

(** [C20] A command line is read back as it was put together: a word, spaces and an argument,
    with any white space before and behind, split into the word and the argument without the
    white space around it (inside, the argument is kept as typed); a word alone has the empty
    argument, white space alone the empty word. *)
Theorem split1_reads_command pre cmd mid arg post :
  blank pre -> blank mid -> blank post -> cmd <> [] -> Forall (fun b => is_whitespace b = false) cmd ->
  solid arg ->
  split1 (pre ++ (cmd ++ [32] ++ mid ++ arg) ++ post) = (cmd, arg) /\
  split1 (pre ++ cmd ++ post) = (cmd, []) /\ split1 pre = ([], []).
Proof.
  intros Hp Hm Hq Hn Hc Ha. pose proof (word_solid cmd Hn Hc) as Sc. unfold split1.
  assert (Forall (fun b => b <> 32) cmd) as H32.
  { eapply Forall_impl; [exact Hc | ]. by intros b Hb ->. }
  split; [ | split].
  - rewrite trim_solid; [ | done | rewrite (app_assoc [32]); by apply solid_join | done].
    destruct (cmd ++ _) eqn:E; [by destruct cmd | ]. rewrite <- E. cbn [app]. rewrite cut_space_first by done.
    f_equal. rewrite <- (app_nil_r arg) at 1. by apply trim_solid; [ | | constructor].
  - rewrite trim_solid by done. destruct cmd as [ | b cmd]; [done | ]. by rewrite cut_space_none.
  - by rewrite trim_blank.
Qed.

(** ** Sleeping *)

(** The timer interrupts among the lines raised. *)
Definition timers (ls : list Z) : Z := Z.of_nat (length (filter (fun l => l mod 16 = 0) ls)).

(** At every halt between one and [burst] timer interrupts arrive. *)
Definition ticking {D} {HW : Hardware D} (burst : Z) : Prop :=
  forall d : D, 1 <= timers (fst (hw_irqs d)) <= burst.

Section Sleep.
Context {D : Type} {HW : Hardware D} {CR : Crates D} {CL : CratesLaws D} {BL : Build}.
Implicit Types w : World D.

Abbreviation ticks w := (TIMER_TICKS (w_idt w)).

Lemma timers_cons l ls : timers (l :: ls) = (if l mod 16 =? 0 then 1 else 0) + timers ls.
Proof.
  unfold timers. rewrite filter_cons. destruct (decide (l mod 16 = 0)) as [E | E]; case_match; cbn [length]; lia.
Qed.

Lemma wph_lines_ticks ls w :
  isr_ready w -> 0 <= ticks w -> ticks w + timers ls < 2 ^ 64 ->
  wph (kfor ls deliver_line) w
    (fun _ w' => isr_keeps w w' /\ ticks w' = ticks w + timers ls) powered_off.
Proof.
  revert w. induction ls as [ | l ls IH]; intros w R H0 Hb.
  - apply wph_wp, wp_ret. split; [by split | ]. unfold timers. cbn. lia.
  - rewrite timers_cons in *. assert (0 <= timers ls) by (unfold timers; lia).
    apply wph_bind. eapply wph_mono; [by apply wph_deliver_line | | by intros w2 (_ & _ & H2)].
    intros [] w1 (K1 & _ & T1 & _).
    assert (ticks w1 = ticks w + (if l mod 16 =? 0 then 1 else 0)) as E1.
    { rewrite T1, ticks_counted. unfold ticks_after, line_vector.
      destruct (Z.eqb_spec (l mod 16) 0) as [-> | E]; cbn [Z.add Z.eqb].
      - change (32 + 0 =? 32) with true. cbv iota. rewrite wrap_small; lia.
      - rewrite (proj2 (Z.eqb_neq (32 + l mod 16) 32)) by lia. lia. }
    assert (0 <= if l mod 16 =? 0 then 1 else 0) by (by case_match).
    eapply wph_mono; [apply IH; [apply K1 | lia | lia] | | done].
    intros [] w2 [K2 T2]. split; [by eapply isr_keeps_trans | lia].
Qed.

Lemma wph_halt_ticks burst w :
  ticking (D := D) burst -> isr_ready w -> w_if w = true -> 0 <= ticks w -> ticks w + burst < 2 ^ 64 ->
  wph preempt w
    (fun _ w' => isr_keeps w w' /\ ticks w + 1 <= ticks w' <= ticks w + burst) powered_off.
Proof.
  intros Hk R Hi H0 Hb. unfold preempt, wph. rewrite Hi. pose proof (Hk (w_dev w)) as Ht.
  destruct (hw_irqs (w_dev w)) as [ls d]. cbn [fst] in Ht.
  fold (wph (kfor ls deliver_line) (set_dev d w)
    (fun _ w' => isr_keeps w w' /\ ticks w + 1 <= ticks w' <= ticks w + burst) powered_off).
  assert (isr_keeps w (set_dev d w)) as K by (apply isr_keeps_io; [done | exists d, []; by destruct w]).
  assert (ticks (set_dev d w) = ticks w) as E by (by destruct w).
  eapply wph_mono; [apply wph_lines_ticks; [apply K | rewrite E; lia..] | | done].
  intros [] w' [K' T']. split; [by eapply isr_keeps_trans | lia].
Qed.

Lemma wph_sleep_loop burst rounds target w :
  ticking (D := D) burst -> isr_ready w -> w_if w = true -> 0 <= ticks w ->
  target + burst <= 2 ^ 64 -> target - ticks w <= Z.of_nat rounds ->
  wph (sleep_loop rounds target) w
    (fun _ w' => isr_keeps w w' /\ target <= ticks w' <= Z.max (ticks w) (target + burst - 1)) powered_off.
Proof.
  intros Hk. revert w. induction rounds as [ | n IH]; intros w R Hi H0 Hb Hn; cbn [sleep_loop];
    apply wph_bind, wph_wp, wp_gets; destruct (Z.ltb_spec (ticks w) target) as [Hl | Hl];
    [lia | | | ].
  - apply wph_wp, wp_ret. split; [by split | lia].
  - apply wph_bind. eapply wph_mono; [by apply (wph_halt_ticks burst); [ | | | | lia] | | done].
    intros [] w1 [K1 T1]. eapply wph_mono; [apply IH | | done]; try (apply K1 || lia).
    + destruct K1 as [K1 _]. by rewrite (is_if _ _ K1).
    + intros [] w2 [K2 T2]. split; [by eapply isr_keeps_trans | lia].
  - apply wph_wp, wp_ret. split; [by split | lia].
Qed.

(** [C19] [sleep <ms>] terminates and is accurate: where between one and [burst] timer
    interrupts arrive at every halt, interrupts are on and the tick counter does not
    overflow, the shell wakes up after at most [ms] halts, when at least [ms] and less than
    [ms + burst] ticks have passed, having run nothing but the interrupt handlers; or the
    machine was powered off from the keyboard meanwhile. *)
Theorem sleep_wakes_up burst naps ms w :
  ticking (D := D) burst -> isr_ready w -> w_if w = true -> 0 <= ticks w -> 0 <= ms ->
  ticks w + ms + burst <= 2 ^ 64 -> ms <= Z.of_nat naps ->
  wph (sleep_ms naps ms) w
    (fun _ w' => isr_keeps w w' /\ ms <= ticks w' - ticks w < ms + burst) powered_off.
Proof.
  intros Hk R Hi H0 Hm Hb Hn. pose proof (Hk (w_dev w)). unfold sleep_ms. apply wph_bind, wph_wp, wp_gets.
  unfold sat_add64. rewrite Z.min_l by lia.
  eapply wph_mono; [apply (wph_sleep_loop burst); try done; lia | | done].
  intros [] w' [K T]. split; [done | lia].
Qed.
End Sleep.

(** *** Witnesses: a machine whose timer ticks at every halt *)

#[export] Instance ticker_hardware : Hardware unit := {
  hw_in _ d := (0x60, d);
  hw_out _ _ d := d;
  hw_mmio_read _ d m := (0, d, m);
  hw_mmio_write _ _ d m := (d, m);
  hw_dma d m := (d, m);
  hw_irqs d := ([0], d)
}.
#[export] Instance ticker_crates : Crates unit := plain_crates unit.
#[export] Instance ticker_laws : CratesLaws unit := plain_crates_laws unit.

Definition ticker_world : World unit :=
  set_if true (set_idt (mkIdt (Some tt) 0 0 998) (set_serial_init true (boot_world tt ∅))).

Lemma sleep_wakes_up_witness :
  wph (sleep_ms 5 5) ticker_world
    (fun _ w' => isr_keeps ticker_world w' /\
                 5 <= TIMER_TICKS (w_idt w') - TIMER_TICKS (w_idt ticker_world) < 5 + 1) powered_off.
Proof.
  apply (sleep_wakes_up 1 5 5 ticker_world).
  - intros []. split; discriminate.
  - repeat split; discriminate || reflexivity.
  - reflexivity.
  - discriminate.
  - discriminate.
  - discriminate.
  - discriminate.
Defined.

Lemma split1_reads_command_witness :
  split1 (bytes_of "  hexdump  ai.mod 64 ") = (bytes_of "hexdump", bytes_of "ai.mod 64") /\
  split1 (bytes_of "  hexdump ") = (bytes_of "hexdump", []) /\ split1 (bytes_of "  ") = ([], []).
Proof.
  apply (split1_reads_command (bytes_of "  ") (bytes_of "hexdump") (bytes_of " ") (bytes_of "ai.mod 64")
           (bytes_of " ")).
  - repeat constructor.
  - repeat constructor.
  - repeat constructor.
  - discriminate.
  - repeat constructor.
  - split; eexists; split; reflexivity.
Defined.

Lemma parse_u64_exact_witness :
  parse_u64 (bytes_of "18446744073709551616") = Some (2 ^ 64 - 1) /\
  parse_u64 (bytes_of "12a") = None /\ parse_u64 (fmt_dec 1048576) = Some 1048576.
Proof.
  split; [ | split].
  - rewrite (proj1 (parse_u64_exact (bytes_of "18446744073709551616"))). reflexivity.
  - rewrite (proj1 (parse_u64_exact (bytes_of "12a"))). reflexivity.
  - apply (parse_u64_exact []). split; discriminate || reflexivity.
Defined.
