(* ===== verification/Session.v ===== *)
(** * A session at the prompt (kernel/src/shell.rs, [step] and [execute_line])

    The characters waiting in the keyboard ring are a text; the shell edits its line with
    them and answers at every line feed.  [session] is that behaviour without the buffer,
    its length and the ring; [step] implements it. *)

From S2P Require Import Prelude XhciData State Sim Fmt Serial Vga Pmm Debug Keyboard Pic Idt.
From S2P Require Import Journal ApplyAction AiModel Initrd BootInfo Pci Reports Shell.
From stdpp Require Import gmap list strings.
From Stdlib Require Import ZArith Lia.

Open Scope Z_scope.

(** ** The specification *)

(** One character typed into the line: backspace takes the last one away, a printable one
    is appended while there is room for 256, others are ignored. *)
Definition edit (line : list Z) (c : Z) : list Z :=
  if c =? 8 then take (length line - 1) line
  else if printable c && (zlen line <? 256) then line ++ [c] else line.

(** The commands that do more than answer: they let interrupts in, scan a bus or stop the
    machine. *)
Definition acts (cmd arg : list Z) : Prop :=
  cmd = bytes_of "pci" \/ cmd = bytes_of "reboot" \/ cmd = bytes_of "yield" \/
  (cmd = bytes_of "sleep" /\ arg <> [] /\ parse_u64 arg <> None).

(** [session w line input out line' rest]: from the edited text [line], the characters [input]
    make the shell print [out] and leave [line'].  [rest] is [None] when all the input was
    used; otherwise [line'] is a line that acts, about to be run, and [Some] of what is typed
    behind it. *)
Inductive session {D} (w : World D) :
  list Z -> list Z -> list Z -> list Z -> option (list Z) -> Prop :=
| SessionEnd line : session w line [] [] line None
| SessionAct line cmd arg input :
    split1 line = (cmd, arg) -> acts cmd arg -> session w line (10 :: input) [] line (Some input)
| SessionEdit line c input out line' rest :
    c <> 10 -> session w (edit line c) input out line' rest -> session w line (c :: input) out line' rest
| SessionEnter line cmd arg s input out line' rest :
    split1 line = (cmd, arg) -> answer w cmd arg s -> session w [] input out line' rest ->
    session w line (10 :: input) (s ++ bytes_of "$ " ++ out) line' rest.

(** Every command line is one or the other. *)
Lemma answer_or_acts {D} (w : World D) cmd arg : (exists s, answer w cmd arg s) \/ acts cmd arg.
Proof.
  destruct (decide (cmd ∈ (bytes_of <$> [""; "help"; "ls"; "cat"; "hexdump"; "mem"; "uptime"; "ai"; "pci";
                                          "reboot"; "sleep"; "yield"]%string))) as [H | H].
  2:{ left. eexists. by apply AnsUnknown. }
  unfold acts. cbn [fmap list_fmap] in H.
  repeat (apply elem_of_cons in H as [-> | H]); try by (left; eexists; econstructor).
  - left. destruct arg as [ | b arg]; eexists; [apply AnsCatUsage | by apply AnsCat].
  - left. destruct arg as [ | b arg]; [eexists; apply AnsHexdumpUsage | ].
    destruct (split1 (b :: arg)) as [path rest] eqn:E. eexists. by eapply AnsHexdump.
  - right. by left.
  - right. by right; left.
  - destruct arg as [ | b arg]; [left; eexists; apply AnsSleepUsage | ].
    destruct (parse_u64 (b :: arg)) as [n | ] eqn:E; [ | left; eexists; by apply AnsSleepWord].
    right. do 3 right. done.
  - right. by do 2 right; left.
  - by apply elem_of_nil in H.
Qed.

(** Whatever is typed is a session. *)
Lemma session_total {D} (w : World D) line input :
  exists out line' rest, session w line input out line' rest.
Proof.
  revert line. induction input as [ | c input IH]; intros line; [do 3 eexists; constructor | ].
  destruct (decide (c = 10)) as [-> | Hc].
  - destruct (split1 line) as [cmd arg] eqn:E. destruct (answer_or_acts w cmd arg) as [[s H] | H].
    + destruct (IH []) as (out & line' & rest & S). do 3 eexists. by eapply SessionEnter.
    + do 3 eexists. by eapply SessionAct.
  - destruct (IH (edit line c)) as (out & line' & rest & S). do 3 eexists. by apply SessionEdit.
Qed.

(** What the shell's buffer stands for. *)
Definition shell_ok (sh : ShellState) : Prop := zlen (LINE sh) = 256 /\ 0 <= LEN sh <= 256.

Definition current (sh : ShellState) : list Z := take (Z.to_nat (LEN sh)) (LINE sh).

(** What the answers depend on is as before. *)
Record stable {D} (w w' : World D) : Prop := mk_stable {
  st_pmm : w_pmm w' = w_pmm w;
  st_idt : w_idt w' = w_idt w;
  st_link : w_link w' = w_link w;
  st_apply : w_apply w' = w_apply w;
  st_locks : w_locks w' = w_locks w;
  st_if : w_if w' = w_if w;
  st_xhci : w_xhci w' = w_xhci w;
  st_tasks : w_tasks w' = w_tasks w;
  st_agent : w_agent w' = w_agent w;
  st_mem : same_outside (w_mem w) (w_mem w')
}.

#[export] Instance stable_preorder {D} : PreOrder (@stable D).
Proof.
  split; [by intros w | ]. intros w1 w2 w3 [] []. constructor; try congruence.
  by transitivity (w_mem w2).
Qed.

(** ** The ring *)

Lemma poll_empty {D} {BL : Build} (w : World D) :
  kbd_ok (w_kbd w) -> kqueue (w_kbd w) = [] -> poll_char w = Ret None w.
Proof.
  intros Hk E. apply kqueue_empty in E; [ | done]. unfold poll_char, poll_char_k, poll_char_with, id.
  rewrite (proj2 (Z.eqb_eq _ _)) by done. by destruct w.
Qed.

Lemma poll_front {D} {BL : Build} {BK : BuildKeeps} (w : World D) c q :
  kbd_ok (w_kbd w) -> kqueue (w_kbd w) = c :: q ->
  exists k, poll_char w = Ret (Some c) (set_kbd k w) /\ kbd_ok k /\ kqueue k = q.
Proof.
  intros Hk E. assert (KTAIL (w_kbd w) <> KHEAD (w_kbd w)) as N
    by (rewrite <- kqueue_empty by done; by rewrite E).
  destruct (kqueue_front _ Hk N) as [Hk' F]. rewrite E in F. injection F as -> ->.
  eexists. split; [ | by split]. unfold poll_char, poll_char_k, poll_char_with, id.
  by rewrite (proj2 (Z.eqb_neq _ _)), static_load_stored by done.
Qed.

(** ** The line *)

Lemma take_insert_end (l : list Z) (n : nat) c : (n < length l)%nat -> take (S n) (<[n := c]> l) = take n l ++ [c].
Proof.
  intros H. rewrite (take_S_r _ _ c) by (by apply list_lookup_insert_eq).
  by rewrite take_insert_ge by lia.
Qed.

Section Editor.
Context {D : Type} {HW : Hardware D} {CR : Crates D} {BL : Build}.
Implicit Types w : World D.
Variables fuel naps : nat.

Lemma length_current sh : shell_ok sh -> zlen (current sh) = LEN sh.
Proof. intros [H1 H2]. unfold current, zlen in *. rewrite length_take. lia. Qed.

Lemma wp_on_char_edit c w :
  c <> 10 -> shell_ok (w_shell w) ->
  wp (on_char fuel naps c) w (fun _ w' =>
    exists sh, w' = set_shell sh w /\ shell_ok sh /\ current sh = edit (current (w_shell w)) c).
Proof.
  intros Hc Hs. pose proof (length_current _ Hs) as L. destruct Hs as [H1 H2].
  assert (w = set_shell (w_shell w) w) as Ew by (by destruct w).
  unfold on_char, edit. rewrite (proj2 (Z.eqb_neq c 10)) by done.
  destruct (Z.eqb_spec c 8) as [-> | H8].
  { apply wp_bind, wp_gets. destruct (Z.ltb_spec 0 (LEN (w_shell w))).
    - apply wp_modify. eexists. split; [reflexivity | ]. split; [by split; cbn; [ | lia] | ].
      unfold current at 1. cbn [LEN LINE].
      replace (length (current (w_shell w)) - 1)%nat with (Z.to_nat (LEN (w_shell w) - 1))
        by (unfold zlen in L; lia).
      unfold current. rewrite take_take. f_equal. lia.
    - apply wp_ret. eexists. split; [exact Ew | ]. split; [by split | ].
      assert (current (w_shell w) = []) as -> by (apply length_zero_iff_nil; unfold zlen in L; lia). done. }
  fold (printable c). destruct (printable c); cbn [andb].
  2:{ apply wp_ret. eexists. split; [exact Ew | by split]. }
  apply wp_bind, wp_gets. rewrite H1, L. destruct (Z.ltb_spec (LEN (w_shell w)) 256).
  - apply wp_modify. eexists. split; [reflexivity | ]. split.
    + split; cbn; [by unfold zlen in *; rewrite length_insert | lia].
    + unfold current. cbn [LEN LINE]. replace (Z.to_nat (LEN (w_shell w) + 1)) with (S (Z.to_nat (LEN (w_shell w)))) by lia.
      apply take_insert_end. unfold zlen in H1. lia.
  - apply wp_ret. eexists. split; [exact Ew | by split].
Qed.
End Editor.

(** ** The answers do not change while the shell talks *)

Section Stable.
Context {D : Type} {HW : Hardware D} {CR : Crates D} {CL : CratesLaws D} {BL : Build} {BK : BuildKeeps}.
Implicit Types w : World D.

Lemma answers_stable s w w' : answers s w w' -> stable w w'.
Proof.
  intros H. destruct (answers_fields _ _ _ H) as (? & _ & _ & Hm & Hp & Hi & Hl & Ha & _ & _ & ? & ? & ? & ?).
  by constructor.
Qed.

Lemma stable_ramdisk w w' : stable w w' -> ramdisk_ok w -> ramdisk_ok w'.
Proof. intros H. unfold ramdisk_ok. by rewrite (st_link _ _ H). Qed.

Lemma stable_statics w w' : stable w w' -> statics_fit w -> statics_fit w'.
Proof. intros H. unfold statics_fit. by rewrite (st_pmm _ _ H), (st_idt _ _ H), (st_link _ _ H), (st_apply _ _ H). Qed.

Lemma stable_files w w' : stable w w' -> ramdisk_ok w -> files w' = files w.
Proof.
  intros H Hr. unfold files, Initrd.entries. rewrite (st_link _ _ H).
  destruct (Z.eqb_spec (INITRD_BASE (w_link w)) 0); [done | ]. destruct Hr as [? | Hi]; [done | ].
  destruct (_ <? 110); [done | ]. cbn [orb]. f_equal. symmetry.
  destruct Hi as [Ha Hv]. apply entries_loop_local; [done | | done].
  apply same_outside_agree; [by split | apply H].
Qed.

(** The contents of the file found, up to any length, are the same. *)
Lemma stable_contents w w' path ptr size n :
  stable w w' -> ramdisk_ok w -> lookup_file w path = Some (ptr, size) -> n <= size ->
  ld_bytes (w_mem w') ptr n = ld_bytes (w_mem w) ptr n.
Proof.
  intros H Hr E Hn. destruct (files_spec w Hr) as (_ & Hin & Hi). unfold lookup_file in E.
  destruct (list_find _ _) as [[i e] | ] eqn:F; [ | done]. injection E as <- <-.
  apply list_find_Some in F as (Fi & _). rewrite Forall_lookup in Hin. destruct (Hin _ _ Fi) as (B1 & B2 & B3).
  assert (image_ok (INITRD_BASE (w_link w)) (INITRD_LEN (w_link w))) as Hv
    by (apply Hi; by destruct (files w)).
  symmetry. eapply ld_bytes_agree; [by apply same_outside_agree; [exact Hv | apply H] | cbn | cbn]; lia.
Qed.

Lemma stable_answer w w' cmd arg s :
  stable w w' -> ramdisk_ok w -> answer w cmd arg s -> answer w' cmd arg s.
Proof.
  intros H Hr A.
  assert (forall path, lookup_file w' path = lookup_file w path) as El
    by (intros path; unfold lookup_file; by rewrite (stable_files w w')).
  destruct A as [ arg | arg | arg | arg Ha | | arg path rest Ha Hp | | arg | arg | arg | | arg Ha Hp
                | cmd arg Hc ]; try by econstructor.
  - rewrite <- (stable_files w w') by done. constructor.
  - replace (cat_text w arg) with (cat_text w' arg); [by constructor | ]. unfold cat_text. rewrite El.
    destruct (lookup_file w arg) as [[ptr size] | ] eqn:E; [ | done].
    by rewrite (stable_contents w w' arg ptr size) by (done || lia).
  - replace (hexdump_text w path (dump_len rest)) with (hexdump_text w' path (dump_len rest));
      [by constructor | ]. unfold hexdump_text. rewrite El.
    destruct (lookup_file w path) as [[ptr size] | ] eqn:E; [ | done].
    by rewrite (stable_contents w w' path ptr size) by (done || lia).
  - replace (free_now w) with (free_now w'); [constructor | ]. unfold free_now. by rewrite (st_pmm _ _ H).
  - rewrite <- (st_idt _ _ H). constructor.
  - replace (ai_text w) with (ai_text w'); [constructor | ].
    unfold ai_text. by rewrite (st_link _ _ H), (st_apply _ _ H).
Qed.

End Stable.

(** ** The refinement *)

Section SessionProps.
Context {D : Type} {HW : Hardware D} {CR : Crates D} {CL : CratesLaws D} {BL : Build} {BK : BuildKeeps}.
Implicit Types w : World D.
Variables fuel naps : nat.

(** The shell can be used. *)
Record shell_up w : Prop := mk_shell_up {
  su_talk : talk_ok w;
  su_ramdisk : ramdisk_ok w;
  su_statics : statics_fit w;
  su_line : shell_ok (w_shell w);
  su_kbd : kbd_ok (w_kbd w)
}.

(** From [w] to [w'], COM1 carried [out]; the edited line is now [line], the input [input]. *)
Record said (out line input : list Z) w w' : Prop := mk_said {
  sd_text : port_log Serial.data w' = port_log Serial.data w ++ crlf out;
  sd_line : current (w_shell w') = line;
  sd_input : kqueue (w_kbd w') = input;
  sd_stable : stable w w';
  sd_up : shell_up w'
}.

Lemma said_trans o1 o2 l1 l2 i1 i2 w1 w2 w3 :
  said o1 l1 i1 w1 w2 -> said o2 l2 i2 w2 w3 -> said (o1 ++ o2) l2 i2 w1 w3.
Proof.
  intros [T1 L1 I1 S1 U1] [T2 L2 I2 S2 U2]. constructor; [ | done | done | by transitivity w2 | done].
  by rewrite T2, T1, crlf_app, app_assoc.
Qed.

(** A step on the ring or on the line alone. *)
Lemma said_kbd k w :
  shell_up w -> kbd_ok k -> said [] (current (w_shell w)) (kqueue k) w (set_kbd k w).
Proof. intros [[] ? ? ? ?] Hk. destruct w. constructor; [by rewrite app_nil_r | done.. | by constructor]. Qed.

Lemma said_shell sh w :
  shell_up w -> shell_ok sh -> said [] (current sh) (kqueue (w_kbd w)) w (set_shell sh w).
Proof. intros [[] ? ? ? ?] Hk. destruct w. constructor; [by rewrite app_nil_r | done.. | by constructor]. Qed.

Lemma said_answers s w w' :
  shell_up w -> answers s w w' -> said s (current (w_shell w)) (kqueue (w_kbd w)) w w'.
Proof.
  intros [Ht Hr Hs Hl Hk] H. pose proof (answers_stable _ _ _ H) as S.
  destruct (answers_fields _ _ _ H) as (_ & _ & _ & _ & _ & _ & _ & _ & Es & Ek & _).
  constructor; [apply H | by rewrite Es | by rewrite Ek | done | ].
  constructor; [by eapply answers_talk | by eapply stable_ramdisk | by eapply stable_statics | by rewrite Es | by rewrite Ek].
Qed.

Lemma on_char_enter :
  on_char (D := D) fuel naps 10 = (execute_line fuel naps ;; clear_line ;; write_str (bytes_of "$ ")).
Proof. unfold on_char, write_str, prompt. rewrite Z.eqb_refl. cbv iota. reflexivity. Qed.

(** A line is executed, the buffer emptied and a new prompt printed. *)
Lemma wp_on_char_enter cmd arg s w :
  shell_up w -> split1 (current (w_shell w)) = (cmd, arg) -> answer w cmd arg s ->
  wp (on_char fuel naps 10) w (fun _ => said (s ++ bytes_of "$ ") [] (kqueue (w_kbd w)) w).
Proof.
  intros U Es A. pose proof U as [Ht Hr Hs Hl Hk]. rewrite on_char_enter.
  apply wp_bind. unfold execute_line.
  apply wp_bind, wp_gets. replace (LEN (w_shell w) <=? zlen (LINE (w_shell w))) with true
    by (destruct Hl as [-> ?]; lia).
  fold (current (w_shell w)). rewrite Es.
  eapply wp_mono; [by apply wp_run_command | ]. intros [] w1 H1.
  pose proof (said_answers _ _ _ U H1) as S1. pose proof (sd_up _ _ _ _ _ S1) as U1.
  unfold clear_line, set_LEN. apply wp_bind, wp_modify.
  pose proof (said_shell (mkShell (LINE (w_shell w1)) 0) w1 U1) as S2.
  destruct S2 as [T2 L2 I2 St2 U2]. { split; [apply U1 | cbn; lia]. }
  assert (said (s ++ []) [] (kqueue (w_kbd w)) w (set_shell (mkShell (LINE (w_shell w1)) 0) w1)) as S.
  { eapply said_trans; [exact S1 | ]. constructor; [done | by rewrite L2 | | done | done].
    by rewrite I2, (sd_input _ _ _ _ _ S1). }
  eapply wp_mono; [apply wp_shell_write_str; [apply U2 | apply bytes_of_bytes] | ]. intros [] w3 H3.
  rewrite app_nil_r in S. eapply said_trans; [exact S | ].
  pose proof (said_answers _ _ _ U2 H3) as [T3 L3 I3 St3 U3]. constructor; [done | | | done | done].
  - by rewrite L3, (sd_line _ _ _ _ _ S).
  - by rewrite I3, (sd_input _ _ _ _ _ S).
Qed.

(** From [w], [step] gets to where [session] says: to the end of the input, or to a line that acts. *)
Definition gets_to (r : nat) w (out line' : list Z) (rest : option (list Z)) : Prop :=
  exists w1, match rest with
  | None => step fuel naps r w = Ret tt w1 /\ said out line' [] w w1
  | Some input => said out line' input w w1 /\ exists r', (length input < r')%nat /\
      step fuel naps r w = (on_char fuel naps 10 ;; step fuel naps r') w1
  end.

Lemma gets_to_step r w w2 o l i out line' rest :
  step fuel naps (S r) w = step fuel naps r w2 -> said o l i w w2 -> gets_to r w2 out line' rest ->
  gets_to (S r) w (o ++ out) line' rest.
Proof.
  intros E S (w1 & H). exists w1. destruct rest as [input | ]; rewrite E.
  - destruct H as [S1 H]. split; [by eapply said_trans | done].
  - destruct H as [H S1]. split; [done | by eapply said_trans].
Qed.

(** A round that takes [c] from the ring and runs it. *)
Lemma step_round r c k w w2 :
  poll_char w = Ret (Some c) (set_kbd k w) -> on_char fuel naps c (set_kbd k w) = Ret tt w2 ->
  step fuel naps (S r) w = step fuel naps r w2.
Proof. intros E1 E2. cbn [step]. unfold mbind, K_bind, kbind. by rewrite E1, E2. Qed.

Lemma session_gets_to w0 r line input out line' rest w :
  session w0 line input out line' rest -> stable w0 w -> ramdisk_ok w0 ->
  shell_up w -> current (w_shell w) = line -> kqueue (w_kbd w) = input -> (length input < r)%nat ->
  gets_to r w out line' rest.
Proof.
  intros H St R0. revert r w St.
  induction H as [ line | line cmd arg input Es Ha | line c input out line' rest Hc H IH
                 | line cmd arg s input out line' rest Es A H IH ];
    intros r w St U El Ei Hr; (destruct r as [ | r]; [cbn in Hr; lia | ]).
  - exists w. split; [cbn [step]; unfold mbind, K_bind, kbind; by rewrite poll_empty by (apply U || done) | ].
    constructor; [by rewrite app_nil_r | done | done | done | done].
  - destruct (poll_front w 10 input) as (k & E & Hk & Hq); [apply U | done | ].
    exists (set_kbd k w). pose proof (said_kbd k w U Hk) as S. rewrite Hq in S. subst line. split; [done | ].
    exists r. split; [cbn in Hr; lia | ]. cbn [step]. unfold mbind at 1, K_bind, kbind. by rewrite E.
  - destruct (poll_front w c input) as (k & E & Hk & Hq); [apply U | done | ].
    pose proof (said_kbd k w U Hk) as S1.
    pose proof (wp_on_char_edit fuel naps c (set_kbd k w) Hc (su_line _ (sd_up _ _ _ _ _ S1))) as H2.
    apply wp_iff in H2 as ([] & w2 & E2 & sh & -> & Hsh & Ec).
    pose proof (said_trans _ _ _ _ _ _ _ _ _ S1 (said_shell sh _ (sd_up _ _ _ _ _ S1) Hsh)) as S.
    eapply (gets_to_step r w _ []); [by eapply step_round | exact S | apply IH].
    + transitivity w; [done | apply S].
    + apply S.
    + rewrite (sd_line _ _ _ _ _ S), Ec. by destruct w; cbn in *; subst.
    + rewrite (sd_input _ _ _ _ _ S). by destruct w.
    + cbn in Hr. lia.
  - destruct (poll_front w 10 input) as (k & E & Hk & Hq); [apply U | done | ].
    pose proof (said_kbd k w U Hk) as S1.
    assert (wp (on_char fuel naps 10) (set_kbd k w) (fun _ => said (s ++ bytes_of "$ ") [] (kqueue k) (set_kbd k w))) as H2.
    { eapply wp_mono; [apply (wp_on_char_enter cmd arg s) | by intros [] w2 S2; destruct w]; [apply S1 | | ].
      - by destruct w; cbn in *; subst.
      - apply (stable_answer w0); [transitivity w; [done | apply S1] | done | done]. }
    apply wp_iff in H2 as ([] & w2 & E2 & S2). pose proof (said_trans _ _ _ _ _ _ _ _ _ S1 S2) as S.
    rewrite (app_assoc s). eapply (gets_to_step r w); [by eapply step_round | exact S | apply IH].
    + transitivity w; [done | apply S].
    + apply S.
    + apply S.
    + by rewrite (sd_input _ _ _ _ _ S).
    + cbn in Hr. lia.
Qed.

Lemma session_act w line input out line' rest :
  session w line input out line' (Some rest) ->
  acts (split1 line').1 (split1 line').2.
Proof.
  remember (Some rest) as o eqn:Eo. induction 1 as [ | line cmd arg input Es Ha | | ]; try done; auto.
  by rewrite Es.
Qed.

(** The ring holds at most 255 characters. *)
Lemma ring_rounds w rounds : (256 <= rounds)%nat -> (length (kqueue (w_kbd w)) < rounds)%nat.
Proof. pose proof (length_kqueue (w_kbd w)). pose proof (kcount_range (w_kbd w)). lia. Qed.

(** [reboot] stops the machine. *)
Lemma run_reboot arg w : exists w', run_command fuel naps (bytes_of "reboot") arg w = Halt w' /\ powered_off w'.
Proof.
  change (run_command fuel naps (bytes_of "reboot") arg) with (exit_qemu (D := D) (A := unit) 0).
  pose proof (wph_exit_qemu w (fun (_ : unit) _ => False)) as H. unfold wph in H.
  destruct (exit_qemu 0 w); try done. destruct H. by eexists.
Qed.

Lemma execute_reboot w :
  shell_up w -> (split1 (current (w_shell w))).1 = bytes_of "reboot" ->
  exists w', on_char fuel naps 10 w = Halt w' /\ powered_off w'.
Proof.
  intros U E. destruct (split1 (current (w_shell w))) as [cmd arg] eqn:Es. cbn in E. subst cmd.
  destruct (run_reboot arg w) as (w' & E & H). exists w'. split; [ | done].
  unfold on_char, execute_line, mbind, K_bind, kbind, gets. rewrite Z.eqb_refl.
  replace (LEN (w_shell w) <=? zlen (LINE (w_shell w))) with true by (destruct (su_line _ U) as [-> ?]; lia).
  fold (current (w_shell w)). by rewrite Es, E.
Qed.

(** [C3] The shell is the session it promises, on every input.  Whatever waits in the keyboard
    ring and whatever is in the line buffer there is a session of it, and one call of [step]
    (256 rounds are enough) follows it: it edits the line as [edit] does, answers
    every line ended by a line feed that can be answered, each with the text that belongs to it in the state
    at the start and a new prompt, and goes on to the end of the input - the rest is then
    the line being edited - or to the first line that acts (pci, yield, a sleep with a
    number, reboot), which it is then about to run with the rest of the input in the ring; reboot powers
    the machine off.  Up to there the buffer index stays within the 256 bytes, no static but the
    shell's, the ring and the cursor is changed and no memory outside the text buffer.
    The build performs the loads of the ring, and no interrupt arrives meanwhile. *)
Theorem shell_session_refines rounds w :
  shell_up w -> (256 <= rounds)%nat ->
  (exists out line' rest, session w (current (w_shell w)) (kqueue (w_kbd w)) out line' rest) /\
  forall out line' rest, session w (current (w_shell w)) (kqueue (w_kbd w)) out line' rest ->
  exists w1, match rest with
  | None => step fuel naps rounds w = Ret tt w1 /\ said out line' [] w w1
  | Some input =>
      said out line' input w w1 /\ acts (split1 line').1 (split1 line').2 /\
      (exists r, (length input < r)%nat /\
         step fuel naps rounds w = (on_char fuel naps 10 ;; step fuel naps r) w1) /\
      ((split1 line').1 = bytes_of "reboot" ->
         exists w2, step fuel naps rounds w = Halt w2 /\ powered_off w2)
  end.
Proof.
  intros U Hr. split; [apply session_total | ]. intros out line' rest H.
  destruct (session_gets_to w rounds _ _ _ _ _ w H) as (w1 & H1); [done | apply U | done | done | done | by apply ring_rounds | ].
  exists w1. destruct rest as [input | ]; [ | done]. destruct H1 as (S & r & Hl & E). split; [done | ].
  split; [by eapply session_act | ]. split; [by exists r | ]. intros Eb.
  destruct (execute_reboot w1) as (w2 & E2 & P2); [apply S | by rewrite (sd_line _ _ _ _ _ S) | ].
  exists w2. split; [ | done]. rewrite E. unfold mbind, K_bind, kbind. by rewrite E2.
Qed.

(** [C13] Every command that only answers does so completely: COM1 carries exactly the text
    that belongs to the command, its argument and the state - the directory, the first
    1024 bytes of a file or the notice that it is missing or binary, the hexadecimal dump
    of the length asked for, the free memory, the ticks, the state of the agent, the usage
    of a command without its argument -, nothing else changes but the console, and it
    never panics or hangs. *)
Theorem shell_command_answers cmd arg s w :
  talk_ok w -> ramdisk_ok w -> statics_fit w -> shell_ok (w_shell w) ->
  split1 (current (w_shell w)) = (cmd, arg) -> answer w cmd arg s ->
  wp (execute_line fuel naps) w (fun _ => answers s w).
Proof.
  intros Ht Hr Hs [HL Hn] E A. unfold execute_line. apply wp_bind, wp_gets.
  replace (LEN (w_shell w) <=? zlen (LINE (w_shell w))) with true by lia.
  fold (current (w_shell w)). rewrite E. by apply wp_run_command.
Qed.
End SessionProps.

(** *** Witnesses: a ramdisk with a file, and a few keys in the ring *)

#[local] Existing Instance plain_build.

Definition typed_world (s : list Z) : World Sim :=
  set_kbd (pushes s (w_kbd sim_boot)) (set_serial_init true sample_world).

Lemma sample_image_ok : image_ok sample_base sample_len.
Proof.
  split; [apply sample_archive_ok | ]. intros a Ha. unfold vga_byte, VGA_BUFFER_ADDRESS, BUFFER_WIDTH, BUFFER_HEIGHT.
  unfold sample_base in Ha. lia.
Qed.

Lemma typed_world_up s : shell_up (typed_world s).
Proof.
  constructor.
  - repeat split; discriminate || reflexivity.
  - right. apply sample_image_ok.
  - repeat split; discriminate || reflexivity.
  - repeat split; discriminate || reflexivity.
  - apply pushes_spec. repeat split; discriminate || reflexivity.
Qed.

Definition acting_keys : list Z := bytes_of "cat readme" ++ [10] ++ bytes_of "rebootx" ++ [8; 10] ++ bytes_of "ls".

(** The file is shown, then the machine powered off with [ls] still in the ring. *)
Lemma shell_session_refines_witness :
  exists w1 w2, said (bytes_of "hello$ ") (bytes_of "reboot") (bytes_of "ls") (typed_world acting_keys) w1 /\
    step 0 0 256 (typed_world acting_keys) = Halt w2 /\ powered_off w2.
Proof.
  assert (kqueue (w_kbd (typed_world acting_keys)) = acting_keys) as E by (vm_compute; reflexivity).
  destruct (proj2 (shell_session_refines 0 0 256 (typed_world acting_keys) (typed_world_up _) ltac:(reflexivity))
    (bytes_of "hello$ ") (bytes_of "reboot") (Some (bytes_of "ls"))) as (w1 & S & _ & _ & H).
  - rewrite E. change (current _) with (@nil Z). unfold acting_keys.
    do 10 (apply SessionEdit; [discriminate | ]).
    apply (SessionEnter _ _ (bytes_of "cat") (bytes_of "readme") (bytes_of "hello")); [reflexivity | | ].
    + replace (bytes_of "hello") with (cat_text (typed_world acting_keys) (bytes_of "readme")) by (vm_compute; reflexivity).
      by constructor.
    + do 8 (apply SessionEdit; [discriminate | ]).
      apply (SessionAct _ _ (bytes_of "reboot") []); [reflexivity | exact (or_intror (or_introl eq_refl))].
  - destruct (H eq_refl) as (w2 & E2 & P2). exact (ex_intro _ w1 (ex_intro _ w2 (conj S (conj E2 P2)))).
Defined.

(** [hexdump readme 3] is in the line buffer. *)
Definition entered_world : World Sim :=
  let text := bytes_of "  hexdump readme 3" in
  set_shell (mkShell (text ++ replicate (256 - length text) 0) (zlen text)) (typed_world []).

Lemma shell_command_answers_witness :
  wp (execute_line 0 0) entered_world (fun _ => answers
    (bytes_of "00000000  68 65 6c                                         |hel|" ++ [13; 10]) entered_world).
Proof.
  apply (shell_command_answers 0 0 (bytes_of "hexdump") (bytes_of "readme 3")).
  - repeat split; discriminate || reflexivity.
  - right. apply sample_image_ok.
  - repeat split; discriminate || reflexivity.
  - repeat split; discriminate || reflexivity.
  - vm_compute. reflexivity.
  - replace (_ ++ _) with (hexdump_text entered_world (bytes_of "readme") (dump_len (bytes_of "3")))
      by (vm_compute; reflexivity).
    by constructor; [ | vm_compute; reflexivity].
Defined.
