(* ===== verification/Main.v ===== *)
(** * The kernel's entry, boot sequence, main loop and panic handler (kernel/src/main.rs) *)

From S2P Require Import Prelude XhciData State Sim Fmt Serial Vga Pmm Task Debug Keyboard Pic Idt Gdt.
From S2P Require Import Journal ApplyAction AiModel Initrd AiAgent BootInfo Pci.
From S2P Require Import XhciRegs XhciRings Reports Shell Session.
From stdpp Require Import gmap list strings.
From Stdlib Require Import ZArith Lia.

Open Scope Z_scope.

(** The cargo features the code tests, the configuration of the agent they choose. *)
Record Features : Type := mkFeatures {
  ai_agent : bool; trigger_breakpoint : bool; qemu_exit : bool; ai_cfg : Config
}.

Section Main.
Context {D : Type} {HW : Hardware D} {CR : Crates D} {SG : Segmentation} {BL : Build}.
Abbreviation KW := (K (World D)).
Context (F : Features).

(** The budgets of [poll_events], of a sleep and of the shell's loop; the stack addresses
    of the agent's locals; the frame [int3] pushes. *)
Variables fuel naps rounds : nat.
Variables sa so : Z.
Variable int3_frame : Frame.

(** [|| ai_agent::step()], the only task that is ever registered. *)
Definition AGENT_TASK : Z := 1.
Definition dispatch (f : Z) : KW unit :=
  if f =? AGENT_TASK then AiAgent.step (ai_cfg F) sa so else kpanic.

(** [#[cfg(feature = "ai_agent")] { task::run_once(); }]. *)
Definition agent_turn : KW unit := if ai_agent F then run_once dispatch else mret tt.

Definition early_agent (boot_info : BootInfo) : KW unit :=
  modify (fun w => set_link (mkLink (AI_MODEL_ADDR (w_link w)) (AI_MODEL_LEN (w_link w))
                               (initrd_base boot_info) (initrd_len boot_info)) w) ;;
  link ← gets w_link;
  (if negb (INITRD_BASE link =? 0) && (0 <? INITRD_LEN link)
   then try_set_model_from_initrd else mret tt) ;;
  link ← gets w_link;
  if negb (AI_MODEL_ADDR link =? 0) then
    Serial.write_str (bytes_of "[ai] early scheduling agent task" ++ [13; 10]) ;;
    register AGENT_TASK ;;
    run_once dispatch
  else Serial.write_str (bytes_of "[ai] model addr not set; agent inactive" ++ [13; 10]).

(** *** [kernel_main], up to the first prompt, in four stretches *)

Definition kmain (s : string) : KW unit := debug_out (bytes_of s ++ [10]).

Definition boot_serial (boot_info : BootInfo) : KW unit :=
  kmain "kmain: entry" ;;
  gdt_init ;;
  kmain "kmain: gdt" ;;
  Serial.init ;;
  kmain "kmain: serial" ;;
  (if ai_agent F then early_agent boot_info else mret tt) ;;
  idt_init ;;
  kmain "kmain: idt" ;;
  agent_turn ;;
  syscall_init ;;
  kmain "kmain: syscall" ;;
  agent_turn.

Definition boot_screen : KW unit :=
  Serial.write_str (bytes_of "Hello Kernel" ++ [13; 10]) ;;
  kmain "kmain: wrote serial" ;;
  Vga.init ;;
  Vga.set_style 0x1f ;;
  Vga.write_line (bytes_of "Hello Kernel") ;;
  Vga.set_style 0x0f ;;
  kmain "kmain: wrote vga".

Definition boot_devices (boot_info : BootInfo) : KW unit :=
  pic_init ;;
  kmain "kmain: pic" ;;
  agent_turn ;;
  Pmm.init boot_info ;;
  log_memory_map boot_info ;;
  log_usb_controllers fuel ;;
  agent_turn.

Definition boot_prompt : KW unit :=
  modify (set_if true) ;;
  kmain "kmain: interrupts on" ;;
  (if ai_agent F then set_system_ready else mret tt) ;;
  Shell.start ;;
  (if trigger_breakpoint F then deliver breakpoint int3_frame else mret tt).

Definition kernel_start (boot_info : BootInfo) : KW unit :=
  boot_serial boot_info ;; boot_screen ;; boot_devices boot_info ;; boot_prompt.

(** One round of the main loop.  Interrupts are on all the time: they are taken at [hlt],
    which waits for them, and between the calls.  (One that comes inside a call may find a lock held:
    [Idt.keyboard_irq_deadlocks_on_console].) *)
Definition main_round : KW unit :=
  poll_events fuel ;; preempt ;;
  agent_turn ;; preempt ;;
  Shell.step fuel naps rounds ;;
  preempt.

Fixpoint main_loop (n : nat) : KW unit :=
  match n with
  | O => kfuel
  | S n' => main_round ;; main_loop n'
  end.

Definition kernel_main (n : nat) (boot_info : BootInfo) : KW unit :=
  kernel_start boot_info ;;
  if qemu_exit F then exit_qemu 0 else main_loop n.

(** A null pointer makes [expect] panic. *)
Definition _start (n : nat) (boot_info_ptr : Z) : KW unit :=
  if boot_info_ptr =? 0 then kpanic
  else m ← gets w_mem; kernel_main n (read_boot_info m boot_info_ptr).

(** The panic handler; [info] is the text [PanicInfo] formats to. *)
Definition panic (info : list Z) : KW unit :=
  Serial.panic info ;; Vga.panic info ;; khalt.

End Main.
