(* ===== verification/Boot.v ===== *)
(** * What booting establishes (kernel/src/main.rs, [kernel_main])

    The state of the statics and the transcript on COM1 and on the screen when the kernel
    reaches its prompt, how [kernel_main] goes on from there, the invariant of the main loop, and the
    panic handler. *)

From S2P Require Import Prelude XhciData State Sim Fmt Serial Vga Pmm Task Debug Keyboard Pic Idt Gdt.
From S2P Require Import Journal ApplyAction AiModel Initrd AiAgent BootInfo Pci.
From S2P Require Import XhciRegs XhciRings Reports Shell Session Main.
From stdpp Require Import gmap list strings.
From Stdlib Require Import ZArith Lia.

Open Scope Z_scope.

Section Boot.
Context {D : Type} {HW : Hardware D} {CR : Crates D} {CL : CratesLaws D} {BL : Build} {BK : BuildKeeps}.
Context {SG : Segmentation} {SL : SegmentationLaws}.
Implicit Types w : World D.

(** The setters of the statics that the boot sequence writes. *)
Inductive static_setter : (World D -> World D) -> Prop :=
| SetIf b : static_setter (set_if b)
| SetIdt c : static_setter (set_idt c)
| SetPmm p : static_setter (set_pmm p)
| SetLink l : static_setter (set_link l)
| SetApply a : static_setter (set_apply a).

(** From [w], the serial line was set up, COM1 then carried [txt], the screen shows [scr], the
    events [evs] happened; beyond that only the cursor and the text buffer changed. *)
Record at_boot (evs : list Event) (txt : list Z) (scr : Term) w w' : Prop := mk_at_boot {
  ab_text : port_log Serial.data w' = port_log Serial.data w ++ [3] ++ crlf txt;
  ab_screen : screen_of w' = scr;
  ab_events : forall e, e ∈ evs -> e ∈ w_trace w';
  ab_state : exists w1 c m, io_step (set_serial_init true w) w1 /\ w' = set_console c (set_mem m w1) /\
                            console_ok c /\ same_outside (w_mem w) m
}.

Lemma at_boot_fields evs txt scr w w' :
  at_boot evs txt scr w w' ->
  w_serial_init w' = true /\ w_locks w' = w_locks w /\ console_ok (w_console w') /\
  same_outside (w_mem w) (w_mem w') /\ w_if w' = w_if w /\ w_kbd w' = w_kbd w /\ w_pmm w' = w_pmm w /\
  w_idt w' = w_idt w /\ w_apply w' = w_apply w /\ w_tasks w' = w_tasks w /\ w_link w' = w_link w /\
  w_shell w' = w_shell w /\ w_xhci w' = w_xhci w /\ w_seg w' = w_seg w.
Proof.
  intros [_ _ _ (w1 & c & m & (d & t & ->) & -> & Hc & Hm)]. destruct w; cbn in *.
  do 13 (split; [done | ]). done.
Qed.

Lemma at_boot_setter evs txt scr f w w' :
  static_setter f -> at_boot evs txt scr w w' -> at_boot evs txt scr (f w) (f w').
Proof.
  intros Hf [HT HS HE (w1 & c & m & (d & t & ->) & -> & Hc & Hm)].
  destruct Hf, w; cbn in *; (constructor; [exact HT | exact HS | exact HE | ]);
    do 3 eexists; (split; [by exists d, t | ]); (split; [reflexivity | by split]).
Qed.

Lemma at_boot_spoken evs txt scr s w w1 w2 :
  at_boot evs txt scr w w1 -> spoken s w1 w2 -> at_boot evs (txt ++ s) scr w w2.
Proof.
  intros [HT HS HE (a & c & m & (d & t & ->) & -> & Hc & Hm)] [(d' & t' & ->) L]. constructor.
  - rewrite L, HT, crlf_app. by rewrite <- !app_assoc.
  - rewrite <- HS. by destruct w.
  - intros e He. apply elem_of_app. right. by apply HE.
  - exists (set_trace (t' ++ t ++ w_trace w) (set_dev d' (set_serial_init true w))), c, m.
    split; [exists d', (t' ++ t); rewrite <- app_assoc; by destruct w | ]. by destruct w.
Qed.

Lemma at_boot_draws evs txt scr w w1 w2 :
  at_boot evs txt scr w w1 -> draws w1 w2 -> at_boot evs txt (screen_of w2) w w2.
Proof.
  intros [HT HS HE (a & c & m & (d & t & ->) & -> & Hc & Hm)] (c' & m' & -> & Hc' & Hm'). constructor.
  - rewrite <- HT. by destruct w.
  - done.
  - intros e He. apply HE in He. by destruct w.
  - exists (set_trace (t ++ w_trace w) (set_dev d (set_serial_init true w))), c', m'.
    split; [by exists d, t; destruct w | ]. destruct w; cbn in *. split; [done | ]. split; [done | ].
    by transitivity m.
Qed.

Lemma at_boot_event evs txt scr e w w1 w2 :
  at_boot evs txt scr w w1 -> spoken [] w1 w2 -> e ∈ w_trace w2 -> at_boot (e :: evs) txt scr w w2.
Proof.
  intros H Hs He. pose proof (at_boot_spoken _ _ _ _ _ _ _ H Hs) as [HT HS HE Hw].
  rewrite app_nil_r in HT. constructor; [done | done | | done].
  intros e' [-> | H']%elem_of_cons; [done | by apply HE].
Qed.

(** Silent steps, and steps that speak. *)
Lemma wp_boot_spoken evs txt scr s (m k : K (World D) unit) Q w w1 :
  at_boot evs txt scr w w1 -> wp m w1 (fun _ => spoken s w1) ->
  (forall w2, at_boot evs (txt ++ s) scr w w2 -> wp k w2 Q) -> wp (m ;; k) w1 Q.
Proof.
  intros H Hm Hk. apply wp_bind. eapply wp_mono; [exact Hm | ]. intros [] w2 H2.
  apply Hk. by eapply at_boot_spoken.
Qed.

Lemma wp_kmain evs txt scr s (k : K (World D) unit) Q w w1 :
  at_boot evs txt scr w w1 -> (forall w2, at_boot evs txt scr w w2 -> wp k w2 Q) ->
  wp (kmain s ;; k) w1 Q.
Proof.
  intros H Hk. eapply wp_boot_spoken; [exact H | apply wp_debug_silent | ].
  intros w2 H2. rewrite app_nil_r in H2. by apply Hk.
Qed.

Lemma wp_kmain_last evs txt scr s w w1 :
  at_boot evs txt scr w w1 -> wp (kmain s) w1 (fun _ => at_boot evs txt scr w).
Proof.
  intros H. eapply wp_mono; [apply wp_debug_silent | ]. intros [] w2 H2.
  rewrite <- (app_nil_r txt). by eapply at_boot_spoken.
Qed.

Lemma wp_boot_setter evs txt scr f (k : K (World D) unit) Q w w1 :
  static_setter f -> at_boot evs txt scr w w1 ->
  (at_boot evs txt scr (f w) (f w1) -> wp k (f w1) Q) -> wp (modify f ;; k) w1 Q.
Proof. intros Hf H Hk. apply wp_bind, wp_modify, Hk. by apply at_boot_setter. Qed.

(** *** The stages *)

Context (F : Features) (boot_info : BootInfo).
Variables sa so : Z.

(** The task table as loaded, and the scheduler's locks. *)
Definition idle_tasks w : Prop :=
  w_tasks w = mkTasks (replicate 8 None) 0 /\
  locked NEXT_INDEX_LOCK w = false /\ locked TASKS_LOCK w = false.

Lemma run_once_idle f w : idle_tasks w -> run_once f w = Ret tt w.
Proof using CL.
  intros (Ht & H1 & H2). unfold run_once, mbind, K_bind, kbind.
  rewrite (pick_eq w None 0); [ | done | done | rewrite Ht; reflexivity].
  unfold set_NEXT_INDEX. rewrite Ht. destruct w; cbn in *. by subst.
Qed.

Lemma wp_agent_turn (k : K (World D) unit) w Q :
  idle_tasks w -> wp k w Q -> wp (agent_turn F sa so ;; k) w Q.
Proof using CL.
  intros Hi Hk. apply wp_bind. unfold agent_turn. destruct (ai_agent F); [ | by apply wp_ret].
  eapply wp_eq; [by apply run_once_idle | done].
Qed.

Lemma at_boot_idle evs txt scr w w' : at_boot evs txt scr w w' -> idle_tasks w -> idle_tasks w'.
Proof.
  intros H (Ht & H1 & H2). destruct (at_boot_fields _ _ _ _ _ H) as (_ & Ek & _ & _ & _ & _ & _ & _ & _ & Et & _).
  unfold idle_tasks. by rewrite Et, Ek.
Qed.

Lemma at_boot_serial evs txt scr w w' : at_boot evs txt scr w w' -> locked SERIAL w = false -> serial_up w'.
Proof.
  intros H Hl. destruct (at_boot_fields _ _ _ _ _ H) as (Ei & Ek & _). split; [done | by rewrite Ek].
Qed.

(** The statics after each stage. *)
Definition boot_segments : Segments :=
  mkSegments (Some (kernel_gdt kernel_tss, kernel_selectors)) (Some kernel_tss) (kernel_gdt kernel_tss)
    8 16 16 16 16 16 40.
Definition boot_link : AiLink :=
  mkLink 0 0 0 (if ai_agent F then bi_initrd_len boot_info else 0).

Definition inactive_text : list Z :=
  if ai_agent F then bytes_of "[ai] model addr not set; agent inactive" ++ [13; 10] else [].

Definition statics1 w : World D := set_idt (mkIdt (Some tt) 0 0 0) (set_link boot_link (set_seg boot_segments w)).

Lemma gdt_init_run w :
  GDT (w_seg w) = None -> TSS (w_seg w) = None -> gdt_init w = Ret tt (set_seg boot_segments w).
Proof using CL SL.
  intros EG ET. unfold gdt_init, mbind, K_bind, kbind, gets. rewrite ET, init_tss_spec, call_once_first, EG.
  by rewrite build_gdt_spec, call_once_first.
Qed.

(** The agent stays inactive: it is not compiled in, or there is no ramdisk. *)
Hypothesis Hagent : ai_agent F = true -> bi_initrd_base boot_info = 0.

(** Without a ramdisk the agent is not registered. *)
Lemma wp_early_agent evs txt scr w w1 :
  at_boot evs txt scr w w1 -> locked SERIAL w = false -> w_link w = mkLink 0 0 0 0 ->
  wp (if ai_agent F then early_agent F sa so boot_info else mret tt) w1
     (fun _ => at_boot evs (txt ++ inactive_text) scr (set_link boot_link w)).
Proof using CL Hagent.
  intros H Hl E. unfold inactive_text, boot_link. destruct (ai_agent F) eqn:EF.
  2:{ apply wp_ret. rewrite app_nil_r. replace (set_link _ w) with w by (destruct w; cbn in *; by subst). done. }
  assert (w_link w1 = mkLink 0 0 0 0) as E1.
  { destruct (at_boot_fields _ _ _ _ _ H) as (_&_&_&_&_&_&_&_&_&_&->&_). done. }
  unfold early_agent, initrd_base, initrd_len. rewrite Hagent by done.
  apply wp_bind, wp_modify. rewrite E1. cbn [AI_MODEL_ADDR AI_MODEL_LEN].
  pose proof (at_boot_setter _ _ _ _ _ _ (SetLink (mkLink 0 0 0 (bi_initrd_len boot_info))) H) as H1.
  set (w2 := set_link _ w1) in *. assert (w_link w2 = mkLink 0 0 0 (bi_initrd_len boot_info)) as E2 by (by destruct w1).
  apply wp_bind, wp_gets. rewrite E2. apply wp_bind, wp_ret. apply wp_bind, wp_gets. rewrite E2. cbn [AI_MODEL_ADDR Z.eqb negb].
  eapply wp_mono; [apply wp_str_spoken; [solve_bytes | ] | ].
  - eapply at_boot_serial; [exact H1 | by destruct w].
  - intros [] w3 H3. by eapply at_boot_spoken.
Qed.

(** The image as loaded, on any machine with any memory. *)
Variables (d : D) (m : memory).
Abbreviation w0 := (boot_world d m : World D).

Definition text1 : list Z := inactive_text ++ bytes_of "syscall: ready" ++ [13; 10].

Lemma wp_boot_serial :
  wp (boot_serial F sa so boot_info) w0 (fun _ => at_boot [] text1 (screen_of w0) (statics1 w0)).
Proof using CL SL Hagent.
  unfold boot_serial. apply wp_bind. eapply wp_mono; [apply wp_debug_silent | ]. intros [] w1 [H1 L1].
  apply wp_bind. destruct (io_step_fields _ _ H1) as (_&_&Ek&_&_&_&_&_&_&_&_&_&_&_).
  assert (w_seg w1 = w_seg w0) as Eg by (by destruct H1 as (d1 & t1 & ->)).
  eapply wp_eq; [apply gdt_init_run; by rewrite Eg | ].
  apply wp_bind. eapply wp_mono; [apply wp_debug_silent | ]. intros [] w2 [H2 L2].
  destruct (io_step_fields _ _ H2) as (_&_&Ek2&_).
  apply wp_bind. eapply wp_mono; [apply wp_serial_init; rewrite Ek2; cbn; by rewrite Ek | ]. intros [] w3 [H3 L3].
  assert (port_log Serial.data w3 = port_log Serial.data w0 ++ [3]) as L.
  { rewrite L3, L2. change (port_log Serial.data (set_seg boot_segments w1)) with (port_log Serial.data w1).
    rewrite L1. change (crlf []) with (@nil Z). by rewrite !app_nil_r. }
  assert (at_boot [] [] (screen_of w0) (set_seg boot_segments w0) w3) as H.
  { destruct H1 as (d1 & t1 & ->), H2 as (d2 & t2 & ->), H3 as (d3 & t3 & ->). constructor; [ | done | | ].
    - exact L.
    - by intros e He%elem_of_nil.
    - exists (set_trace (t3 ++ t2 ++ t1 ++ []) (set_dev d3 (set_serial_init true (set_seg boot_segments w0)))),
        (mkConsole 0 0 0x0f), m.
      split; [exists d3, (t3 ++ t2 ++ t1 ++ []); cbn; by rewrite !app_nil_r | ].
      split; [reflexivity | split; [by repeat split | done]]. }
  eapply wp_kmain; [exact H | ]. intros w4 H4. apply wp_bind.
  eapply wp_mono; [by eapply wp_early_agent | ]. intros [] w5 H5. cbn [app] in H5.
  apply wp_bind. unfold idt_init, on_counters. apply wp_modify.
  destruct (at_boot_fields _ _ _ _ _ H5) as (_&_&_&_&_&_&_&Ei&_). rewrite Ei. cbn [w_idt set_link set_seg boot_world IDT].
  rewrite once_call_first. pose proof (at_boot_setter _ _ _ _ _ _ (SetIdt (mkIdt (Some tt) 0 0 0)) H5) as H6.
  fold (statics1 w0) in H6. assert (idle_tasks (statics1 w0)) as Hi by done.
  eapply wp_kmain; [exact H6 | ]. intros w7 H7. apply wp_agent_turn; [by eapply at_boot_idle | ].
  eapply wp_boot_spoken; [exact H7 | | ].
  { apply wp_str_spoken; [solve_bytes | ]. by eapply at_boot_serial. }
  intros w8 H8. eapply wp_kmain; [exact H8 | ]. intros w9 H9.
  unfold agent_turn. destruct (ai_agent F); [ | by apply wp_ret].
  eapply wp_eq; [apply run_once_idle; by eapply at_boot_idle | exact H9].
Qed.

(** A step that draws, from a screen that shows [scr]. *)
Lemma wp_boot_draws evs txt scr (f : Term -> Term) (n k : K (World D) unit) Q w w1 :
  at_boot evs txt scr w w1 -> locked CONSOLE w = false ->
  (locked CONSOLE w1 = false -> console_ok (w_console w1) ->
   wp n w1 (fun _ w' => draws w1 w' /\ screen_of w' = f (screen_of w1))) ->
  (forall w2, at_boot evs txt (f scr) w w2 -> wp k w2 Q) -> wp (n ;; k) w1 Q.
Proof.
  intros H Hl Hn Hk. destruct (at_boot_fields _ _ _ _ _ H) as (_ & Ek & Hc & _). apply wp_bind.
  eapply wp_mono; [apply Hn; [by rewrite Ek | done] | ]. intros [] w2 [D2 S2]. apply Hk.
  rewrite <- (ab_screen _ _ _ _ _ H), <- S2. by eapply at_boot_draws.
Qed.

Definition headline (t : Term) : Term :=
  term_style 0x0f (term_newline (fold_left term_byte (bytes_of "Hello Kernel") (term_style 0x1f (term_clear t)))).

Lemma wp_boot_screen evs txt scr w w1 :
  at_boot evs txt scr w w1 -> locked SERIAL w = false -> locked CONSOLE w = false ->
  wp boot_screen w1 (fun _ => at_boot evs (txt ++ bytes_of "Hello Kernel" ++ [13; 10]) (headline scr) w).
Proof.
  intros H Hl Hc. unfold boot_screen. eapply wp_boot_spoken; [exact H | | ].
  { apply wp_str_spoken; [solve_bytes | by eapply at_boot_serial]. }
  intros w2 H2. eapply wp_kmain; [exact H2 | ]. intros w3 H3.
  eapply (wp_boot_draws _ _ _ term_clear); [exact H3 | done | by apply wp_vga_init | ]. intros w4 H4.
  eapply (wp_boot_draws _ _ _ (term_style 0x1f)); [exact H4 | done | intros; by apply wp_vga_set_style | ]. intros w5 H5.
  eapply (wp_boot_draws _ _ _ (fun t => term_newline (fold_left term_byte (bytes_of "Hello Kernel") t)));
    [exact H5 | done | intros; apply wp_vga_write_line; [done | done | apply bytes_of_bytes] | ]. intros w6 H6.
  eapply (wp_boot_draws _ _ _ (term_style 0x0f)); [exact H6 | done | intros; by apply wp_vga_set_style | ]. intros w7 H7.
  by apply wp_kmain_last.
Qed.

(** *** Devices and memory *)

Context (space : ConfigSpace) {PB : PciBus D space}.

Definition memory_text (es : list MemoryMapEntry) : list Z :=
  (es ≫= region_line) ++ usable_line (Z.min (usable_total es) (2 ^ 64 - 1)) (Z.of_nat (length es)).

Definition pic_events : list Event := [EvPicMasks 252 255; EvPicInit 32 40].

Lemma wp_boot_devices fuel txt scr w w1 :
  at_boot [] txt scr w w1 -> locked SERIAL w = false -> locked PICS w = false -> idle_tasks w ->
  no_xhci space -> fits 64 (bi_memory_map_len boot_info) ->
  let es := BootInfo.entries (w_mem w1) boot_info in
  (forall e, e ∈ es -> sane_entry e) ->
  wp (boot_devices F fuel sa so boot_info) w1 (fun _ w' => exists p s,
    at_boot pic_events (txt ++ s ++ memory_text es ++ usb_report space) scr (set_pmm p w) w' /\
    manages_largest es (w_pmm w) p /\ (s = region_text p \/ s = no_region_text /\ p = w_pmm w)).
Proof using CL PB.
  clear Hagent. intros H Hl Hp Hi Hx Hf es Hs. unfold boot_devices.
  destruct (at_boot_fields _ _ _ _ _ H) as (_ & Ek & _). apply wp_bind.
  eapply wp_mono; [apply wp_pic_init; by rewrite Ek | ]. intros [] w2 (I2 & L2 & E1 & E2).
  assert (spoken [] w1 w2) as S2 by (split; [done | by rewrite L2, app_nil_r]).
  pose proof (at_boot_event _ _ _ _ _ _ _ H S2 E1) as H2.
  assert (spoken [] w2 w2) as S2' by (split; [done | by rewrite app_nil_r]).
  pose proof (at_boot_event _ _ _ _ _ _ _ H2 S2' E2) as H2'. fold pic_events in H2'.
  assert (w_mem w2 = w_mem w1) as Em by apply (io_step_fields _ _ I2).
  unfold kmain. apply wp_bind. eapply wp_mono; [apply wp_debug_silent | ]. intros [] w3 S3.
  pose proof (at_boot_spoken _ _ _ _ _ _ _ H2' S3) as H3. rewrite app_nil_r in H3.
  assert (w_mem w3 = w_mem w1) as Em3 by (rewrite <- Em; apply (io_step_fields _ _ (proj1 S3))).
  apply wp_agent_turn; [by eapply at_boot_idle | ].
  pose proof (at_boot_serial _ _ _ _ _ H3 Hl) as [Hi3 Hl3]. destruct (at_boot_fields _ _ _ _ _ H3) as (_&_&_&_&_&_&Ep&_).
  apply wp_bind. eapply wp_mono; [apply wp_pmm_init; [done | by rewrite Em3] | ].
  intros [] w4 (p & s & P4 & Hm & Ht). rewrite Em3, Ep in *.
  pose proof (at_boot_setter _ _ _ _ _ _ (SetPmm p) H3) as H3'.
  apply prints_spoken in P4; [ | by destruct w3].
  pose proof (at_boot_spoken _ _ _ _ _ _ _ H3' P4) as H4.
  assert (w_mem w4 = w_mem w1) as Em4 by (rewrite <- Em3; apply (io_step_fields _ _ (proj1 P4))).
  assert (locked SERIAL (set_pmm p w) = false) as Hl' by (by destruct w).
  eapply wp_boot_spoken; [exact H4 | | ].
  { apply memory_report_complete; [by eapply at_boot_serial | done]. }
  intros w5 H5. rewrite Em4 in H5. eapply wp_boot_spoken; [exact H5 | | ].
  { apply (usb_report_complete space); [by eapply at_boot_serial | done]. }
  intros w6 H6.
  assert (wp (agent_turn F sa so) w6 (fun _ w' => w' = w6)) as Ha.
  { unfold agent_turn. destruct (ai_agent F); [ | by apply wp_ret].
    eapply wp_eq; [apply run_once_idle; by eapply at_boot_idle | done]. }
  eapply wp_mono; [exact Ha | ]. intros [] w7 ->. exists p, s. split; [ | by split].
  rewrite <- !app_assoc in H6. by unfold memory_text; rewrite <- !app_assoc.
Qed.

(** *** The state at the main loop *)

Record kernel_running w : Prop := mk_running {
  kr_shell : shell_up w;
  kr_isr : isr_ready w;
  kr_if : w_if w = true;
  kr_xhci : w_xhci w = None
}.

Definition kernel_statics (p : PmmState) : World D :=
  set_apply (mkApply 1000 0 (ai_agent F)) (set_if true (set_pmm p (statics1 w0))).

Definition boot_text (pmm_line : list Z) (es : list MemoryMapEntry) : list Z :=
  text1 ++ (bytes_of "Hello Kernel" ++ [13; 10]) ++ pmm_line ++ memory_text es ++ usb_report space ++
  bytes_of "$ ".

Definition boot_terminal : Term :=
  fold_left term_byte (bytes_of "$ ") (headline (screen_of w0)).

(** The memory map does not wrap around and is not in the text buffer. *)
Definition map_ok : Prop :=
  let len := Z.max (bi_memory_map_entry_size boot_info) ENTRY_SIZE * bi_memory_map_len boot_info in
  0 <= bi_memory_map boot_info /\ fits 64 (bi_memory_map_len boot_info) /\
  bi_memory_map boot_info + len < 2 ^ 64 /\
  forall a, bi_memory_map boot_info <= a < bi_memory_map boot_info + len -> ~ vga_byte a.

(** [boot_prompt] up to the prompt, and the breakpoint behind it. *)
Definition to_prompt : K (World D) unit :=
  modify (set_if true) ;; kmain "kmain: interrupts on" ;;
  (if ai_agent F then set_system_ready else mret tt) ;; Shell.start.

Definition at_prompt (int3_frame : Frame) : K (World D) unit :=
  if trigger_breakpoint F then deliver breakpoint int3_frame else mret tt.

Lemma boot_prompt_run int3_frame w w' :
  to_prompt w = Ret tt w' -> boot_prompt F int3_frame w = at_prompt int3_frame w'.
Proof.
  unfold to_prompt, boot_prompt, mbind, K_bind, kbind. destruct (modify _ _) as [[] w1 | | | | ]; try done.
  destruct (kmain _ _) as [[] w2 | | | | ]; try done.
  destruct ((if ai_agent F then set_system_ready else mret tt) w2) as [[] w3 | | | | ]; try done. by intros ->.
Qed.

Lemma wp_to_prompt txt scr w w1 :
  at_boot pic_events txt scr w w1 -> locked SERIAL w = false ->
  locked CONSOLE w = false -> w_apply w = mkApply 1000 0 false ->
  wp to_prompt w1 (fun _ =>
    at_boot pic_events (txt ++ bytes_of "$ ") (fold_left term_byte (bytes_of "$ ") scr)
      (set_apply (mkApply 1000 0 (ai_agent F)) (set_if true w))).
Proof.
  clear Hagent. intros H Hl Hc Ha. unfold to_prompt.
  eapply wp_boot_setter; [apply SetIf | exact H | ]. intros H2.
  eapply wp_kmain; [exact H2 | ]. intros w3 H3. apply wp_bind.
  apply (wp_mono _ _ (fun _ => at_boot pic_events txt scr (set_apply (mkApply 1000 0 (ai_agent F)) (set_if true w)))).
  { destruct (ai_agent F).
    - unfold set_system_ready. apply wp_modify.
      destruct (at_boot_fields _ _ _ _ _ H3) as (_&_&_&_&_&_&_&_&Ea&_). rewrite Ea.
      replace (w_apply (set_if true w)) with (mkApply 1000 0 false) by (by destruct w).
      apply (at_boot_setter _ _ _ _ _ _ (SetApply _) H3).
    - apply wp_ret. replace (set_apply _ (set_if true w)) with (set_if true w); [done | ].
      destruct w. cbn in *. by subst. }
  intros [] w4 H4. unfold Shell.start, prompt.
  eapply wp_boot_spoken; [exact H4 | | ].
  { apply wp_str_spoken; [apply bytes_of_bytes | ]. eapply at_boot_serial; [exact H4 | by destruct w]. }
  intros w5 H5. destruct (at_boot_fields _ _ _ _ _ H5) as (_ & Ek & Hc5 & _).
  eapply wp_mono; [apply wp_vga_write_str; [rewrite Ek; by destruct w | done | apply bytes_of_bytes] | ].
  intros [] w6 [D6 S6]. rewrite <- (ab_screen _ _ _ _ _ H5), <- S6.
  by eapply at_boot_draws.
Qed.

(** [int3] never comes back. *)
Definition breakpoint_text (int3_frame : Frame) : list Z :=
  bytes_of "[EXCEPTION] Breakpoint" ++ [13; 10] ++ f_debug int3_frame ++ [13; 10].

Lemma breakpoint_stops int3_frame w :
  IDT (w_idt w) = Some tt -> serial_up w -> Forall (fits 8) (f_debug int3_frame) ->
  exists w', deliver breakpoint int3_frame w = Halt w' /\ spoken (breakpoint_text int3_frame) (set_if false w) w'.
Proof.
  clear Hagent. intros Hi Hs Hf. assert (serial_up (set_if false w)) as Hs' by (by destruct w).
  assert (wph (deliver breakpoint int3_frame) w (fun _ _ => False) (spoken (breakpoint_text int3_frame) (set_if false w))) as H.
  { unfold deliver. apply wph_bind, wph_wp, wp_gets. rewrite Hi.
    apply wph_bind, wph_wp, wp_gets, wph_bind, wph_wp, wp_modify, wph_bind.
    change (run_handler _ _) with (report (D := D) (A := unit) (bytes_of "Breakpoint") int3_frame None).
    unfold report. apply wph_bind, wph_wp. eapply wp_mono; [apply wp_fmt_spoken; [solve_bytes | done] | ].
    intros [] w1 H1. apply wph_bind, wph_wp, wp_ret, wph_bind, wph_wp.
    eapply wp_mono; [apply wp_fmt_spoken; [solve_bytes | by eapply serial_up_io; [ | apply H1]] | ].
    intros [] w2 H2. exact (spoken_trans _ _ _ _ _ H1 H2). }
  unfold wph in H. destruct (deliver breakpoint int3_frame w) as [ | | | w' | ]; try done. by exists w'.
Qed.

Lemma manages_bounds es p :
  manages_largest es (mkPmm 0 0) p -> (forall e, e ∈ es -> entry_fits e) -> (forall e, e ∈ es -> sane_entry e) ->
  0 <= NEXT_FREE p /\ fits 64 (LIMIT p).
Proof.
  clear Hagent. intros [[(e & He & Hu & _ & _ & H1 & H2) [Hlt _]] | [-> _]] Hf Hs; [ | done].
  destruct (Hf e He) as [B1 B2]. pose proof (Hs e He Hu) as B3. unfold PAGE_SIZE in B3. split; [lia | ]. split; lia.
Qed.

Lemma at_boot_running evs txt scr p w' :
  at_boot evs txt scr (kernel_statics p) w' -> 0 <= NEXT_FREE p -> fits 64 (LIMIT p) -> kernel_running w'.
Proof.
  clear Hagent. intros H Hn Hl.
  destruct (at_boot_fields _ _ _ _ _ H) as (Ei&Ek&Hc&_&Ef&Eb&Ep&Et&Ea&_&El&Es&Ex&_).
  constructor; [ | | by rewrite Ef | by rewrite Ex].
  - constructor.
    + split; [split; [done | by rewrite Ek] | by rewrite Ek | done].
    + left. by rewrite El.
    + unfold statics_fit. rewrite Ep, Et, Ea, El. do 5 (split; [done | ]). done.
    + rewrite Es. repeat split; discriminate || reflexivity.
    + rewrite Eb. repeat split; discriminate || reflexivity.
  - constructor; [by rewrite Et | by rewrite Ek | by rewrite Ek | by rewrite Ek | done | ].
    rewrite Eb. repeat split; discriminate || reflexivity.
Qed.

End Boot.

(** ** The main loop *)

Section Loop.
Context {D : Type} {HW : Hardware D} {CR : Crates D} {CL : CratesLaws D} {BL : Build} {BK : BuildKeeps}.
Context (F : Features).
Implicit Types w : World D.
Variables fuel naps rounds : nat.
Variables sa so : Z.

(** Interrupts keep the tick counter a 64-bit number. *)
Lemma wph_preempt_running w :
  kernel_running w -> wph preempt w (fun _ w' => isr_step w w' /\ kernel_running w') powered_off.
Proof.
  intros [[Ht Hr (N1 & N2 & N3 & N4) Hl Hk] R Hi Hx].
  assert (wph preempt w (fun _ w' => isr_keeps w w' /\ fits 64 (TIMER_TICKS (w_idt w'))) powered_off) as H.
  { unfold preempt, wph. rewrite Hi. destruct (hw_irqs (w_dev w)) as [ls d].
    fold (wph (kfor ls deliver_line) (set_dev d w)
      (fun _ w' => isr_keeps w w' /\ fits 64 (TIMER_TICKS (w_idt w'))) powered_off).
    apply (wph_kfor ls deliver_line (fun w' => isr_keeps w w' /\ fits 64 (TIMER_TICKS (w_idt w')))).
    - split; [ | by destruct w]. apply isr_keeps_io; [done | ]. exists d, []. by destruct w.
    - intros l w' _ [K T]. eapply wph_mono; [apply wph_deliver_line, K | | by intros w2 (_ & _ & H2)].
      intros [] w2 (K2 & _ & T2 & _). split; [by eapply isr_keeps_trans | ]. rewrite T2, ticks_counted. unfold ticks_after.
      destruct (_ =? 32); [by apply wrap_fits | done]. }
  eapply wph_mono; [exact H | | done]. intros [] w' [[S R'] T]. split; [done | ].
  constructor; [ | done | by rewrite (is_if _ _ S) | by rewrite (is_xhci _ _ S)].
  constructor.
  - destruct Ht as [[T1 T2] T3 T4]. split; [split; [by rewrite (is_serial _ _ S) | apply R'] | apply R' | apply R'].
  - unfold ramdisk_ok. by rewrite (is_link _ _ S).
  - unfold statics_fit. by rewrite (is_pmm _ _ S), (is_link _ _ S), (is_apply _ _ S).
  - by rewrite (is_shell _ _ S).
  - apply R'.
Qed.

Lemma said_running out line input w w' :
  said out line input w w' -> kernel_running w -> kernel_running w'.
Proof.
  intros [_ _ _ S U] [_ [] Hi Hx]. destruct S. constructor; [done | | congruence | congruence].
  destruct U as [[] ? ? ? ?]. constructor; congruence || done.
Qed.

(** *** Whatever is typed

    [runs_at m w]: from [w], [m] does not panic and does not deadlock; when it returns, or stands where its
    budget ended, the kernel can run on, and when it stopped the machine that was a power-off. *)
Definition runs_at {A} (m : K (World D) A) w : Prop :=
  match m w with
  | Ret _ w' | OutOfFuel w' => kernel_running w'
  | Halt w' => powered_off w'
  | Panic _ | Deadlock _ => False
  end.
Definition runs {A} (m : K (World D) A) : Prop := forall w, kernel_running w -> runs_at m w.

Lemma runs_at_bind {A B} (m : K (World D) A) (k : A -> K (World D) B) w :
  runs_at m w -> (forall a, runs (k a)) -> runs_at (m ≫= k) w.
Proof.
  unfold runs_at, mbind, K_bind, kbind. intros Hm Hk. destruct (m w) as [a w' | | | | ]; try done. by apply Hk.
Qed.

Lemma runs_bind {A B} (m : K (World D) A) (k : A -> K (World D) B) :
  runs m -> (forall a, runs (k a)) -> runs (m ≫= k).
Proof. intros Hm Hk w H. by apply runs_at_bind; [apply Hm | ]. Qed.

Lemma runs_wph {A} (m : K (World D) A) w : wph m w (fun _ => kernel_running) powered_off -> runs_at m w.
Proof. unfold wph, runs_at. by destruct (m w). Qed.

Lemma runs_wp {A} (m : K (World D) A) w : wp m w (fun _ => kernel_running) -> runs_at m w.
Proof. intros H. by apply runs_wph, wph_wp. Qed.

Lemma runs_ret {A} (a : A) : runs (mret a : K (World D) A).
Proof. by intros w H. Qed.

Lemma runs_preempt : runs preempt.
Proof. intros w H. apply runs_wph. eapply wph_mono; [by apply wph_preempt_running | by intros [] w' [_ K] | done]. Qed.

Lemma runs_answers s (m : K (World D) unit) w : kernel_running w -> wp m w (fun _ => answers s w) -> runs_at m w.
Proof.
  intros H Hm. apply runs_wp. eapply wp_mono; [exact Hm | ]. intros [] w' A.
  eapply said_running; [ | exact H]. apply said_answers; [apply H | exact A].
Qed.

Lemma runs_sleep n target : runs (sleep_loop n target).
Proof.
  induction n as [ | n IH]; intros w H; unfold runs_at; cbn [sleep_loop]; unfold timer_ticks, gets, mbind at 1, K_bind, kbind;
    (destruct (_ <? _); [ | exact H]); [exact H | ]. apply (runs_bind preempt (fun _ => sleep_loop n target) runs_preempt); auto.
Qed.

(** The commands that act. *)
Lemma runs_acts (space : ConfigSpace) {PB : PciBus D space} cmd arg w :
  no_xhci space -> kernel_running w -> acts cmd arg -> runs_at (run_command fuel naps cmd arg) w.
Proof.
  intros Hx H [-> | [-> | [-> | (-> & Ha & Hp)]]].
  - apply (runs_answers (usb_report space)); [done | ]. change (run_command _ _ _ _) with (log_usb_controllers (D := D) fuel).
    eapply wp_mono; [apply (usb_report_complete space); [apply H | done] | ]. intros [] w' S. by apply spoken_answers; [apply H | ].
  - apply runs_wph. destruct (run_reboot fuel naps arg w) as (w' & E & P). unfold wph. by rewrite E.
  - change (run_command _ _ _ _) with (preempt (D := D)). by apply runs_preempt.
  - change (run_command fuel naps (bytes_of "sleep") arg) with
      (match arg with
       | [] => writeln (bytes_of "usage: sleep <ms>")
       | _ => match parse_u64 arg with Some ms => sleep_ms naps ms | None => mret tt end
       end). destruct arg as [ | b arg]; [done | ]. destruct (parse_u64 (b :: arg)) as [ms | ]; [ | done].
    unfold sleep_ms. by apply runs_sleep.
Qed.

Lemma runs_set_shell sh w : kernel_running w -> shell_ok sh -> kernel_running (set_shell sh w).
Proof. intros H Hs. eapply said_running; [apply said_shell; [apply H | exact Hs] | done]. Qed.

Lemma runs_on_char (space : ConfigSpace) {PB : PciBus D space} c :
  no_xhci space -> runs (on_char fuel naps c).
Proof.
  intros Hx w H. destruct (decide (c = 10)) as [-> | Hc].
  2:{ apply runs_wp. eapply wp_mono; [apply wp_on_char_edit; [done | apply H] | ].
      intros [] w' (sh & -> & Hs & _). by apply runs_set_shell. }
  rewrite on_char_enter. apply runs_at_bind.
  - unfold execute_line. unfold runs_at, gets, mbind, K_bind, kbind.
    replace (LEN (w_shell w) <=? zlen (LINE (w_shell w))) with true
      by (destruct (su_line _ (kr_shell _ H)) as [-> ?]; lia).
    fold (current (w_shell w)). destruct (split1 _) as [cmd arg].
    destruct (answer_or_acts w cmd arg) as [[s A] | A]; [ | by apply (runs_acts space)].
    apply (runs_answers s); [done | ]. apply wp_run_command; [apply H | apply H | apply H | done].
  - intros []. apply runs_bind.
    + intros w1 H1. apply runs_wp. unfold clear_line, set_LEN. apply wp_modify, runs_set_shell; [done | ].
      split; [apply H1 | cbn; lia].
    + intros [] w1 H1. apply (runs_answers (bytes_of "$ ")); [done | ].
      apply wp_shell_write_str; [apply H1 | apply bytes_of_bytes].
Qed.

Lemma runs_step (space : ConfigSpace) {PB : PciBus D space} r :
  no_xhci space -> runs (Shell.step fuel naps r).
Proof.
  intros Hx. induction r as [ | r IH]; [by intros w H | ]. cbn [Shell.step]. intros w H.
  unfold runs_at, mbind at 1, K_bind, kbind. destruct (kqueue (w_kbd w)) as [ | c q] eqn:Eq.
  - rewrite poll_empty by (apply H || done). exact H.
  - destruct (poll_front w c q) as (k & E & Hk & _); [apply H | done | ]. rewrite E.
    assert (kernel_running (set_kbd k w)) as H1.
    { eapply said_running; [apply said_kbd; [apply H | exact Hk] | done]. }
    apply (runs_at_bind (on_char fuel naps c) (fun _ => Shell.step fuel naps r)); [by apply (runs_on_char space) | done].
Qed.

Lemma runs_main_round (space : ConfigSpace) {PB : PciBus D space} :
  ai_agent F = false -> no_xhci space -> runs (main_round F fuel naps rounds sa so).
Proof.
  intros Ha Hx. unfold main_round, agent_turn. rewrite Ha. apply runs_bind.
  - intros w H. unfold runs_at, poll_events, if_controller, gets, mbind, K_bind, kbind.
    by rewrite (kr_xhci _ H).
  - intros _. repeat (apply runs_bind; [first [apply runs_preempt | apply runs_ret | by apply (runs_step space)] | intros _]).
    apply runs_preempt.
Qed.

End Loop.

(** ** The panic handler *)

Section Panic.
Context {D : Type} {HW : Hardware D} {CR : Crates D} {CL : CratesLaws D} {BL : Build} {BK : BuildKeeps}.
Implicit Types w : World D.

Definition panic_text (info : list Z) : list Z := bytes_of "panic: " ++ info ++ [10].

(** What the message does to the ports: before [serial::init] it goes to the debug port, then to COM1. *)
Definition message_out (text : list Z) w w1 : Prop :=
  io_step w w1 /\
  if w_serial_init w
  then port_log Serial.data w1 = port_log Serial.data w ++ crlf text
  else port_log Serial.data w1 = port_log Serial.data w /\
       port_log DEBUGCON w1 = port_log DEBUGCON w ++ text.

Lemma wp_serial_panic info w :
  Forall (fits 8) info -> (w_serial_init w = true -> locked SERIAL w = false) ->
  wp (Serial.panic info) w (fun _ => message_out (panic_text info) w).
Proof.
  intros Hi Hl. assert (Forall (fits 8) (panic_text info)) as Hb.
  { apply Forall_app. split; [apply bytes_of_bytes | ]. apply Forall_app. split; [done | by repeat constructor]. }
  destruct (w_serial_init w) eqn:E.
  - eapply wp_mono; [apply (wp_emit_text (panic_text info) w Hb); by apply Hl | ].
    intros [] w1 (S & L & _). split; [done | ]. rewrite E. by apply L.
  - apply wp_bind. unfold is_ready. apply wp_gets. rewrite E. cbn [negb].
    eapply wp_mono; [apply wp_port_write_list | ]. intros [] w1 (S & L & O).
    split; [done | ]. rewrite E. split; [by apply O | exact L].
Qed.

(** [C37] The panic handler, in every state.  When COM1 is up but its lock is held, as in the middle of a
    line, the handler waits for it for ever and reports nothing.  Otherwise the
    message is sent: on COM1 when it is up, and on the debug port before that (a null boot
    information pointer panics there, before [serial::init]).  Then, when the console is locked, as in the middle of drawing,
    the handler waits for that lock for ever; else the message is shown white on red from
    the cursor on, the style is as before, and the machine halts. *)
Theorem panic_reports info w :
  Forall (fits 8) info -> console_ok (w_console w) ->
  if w_serial_init w && locked SERIAL w then panic info w = Deadlock w
  else exists w1, message_out (panic_text info) w w1 /\
    if locked CONSOLE w then panic info w = Deadlock w1
    else exists w', panic info w = Halt w' /\ draws w1 w' /\
         screen_of w' = term_style (t_style (screen_of w))
           (fold_left term_byte (panic_text info) (term_style 0x4f (screen_of w))).
Proof.
  intros Hi Hc. destruct (w_serial_init w && locked SERIAL w) eqn:Es.
  { apply andb_true_iff in Es as [E1 E2]. apply bind_deadlock. unfold Serial.panic.
    rewrite (bind_run is_ready _ w (w_serial_init w) w eq_refl), E1. by apply with_lock_held. }
  assert (w_serial_init w = true -> locked SERIAL w = false) as Hl by (by intros E; rewrite E in Es).
  pose proof (wp_serial_panic info w Hi Hl) as H. apply wp_iff in H as ([] & w1 & E1 & H1).
  exists w1. split; [done | ]. unfold panic. rewrite (bind_run _ _ _ _ _ E1).
  destruct (io_step_fields _ _ (proj1 H1)) as (Em & _ & Ek & _ & Ec & _).
  destruct (locked CONSOLE w) eqn:EL.
  - apply bind_deadlock. unfold Vga.panic. by rewrite with_lock_held by (by rewrite Ek).
  - pose proof (wp_vga_panic info w1) as H. apply wp_iff in H as ([] & w2 & E2 & D2 & S2);
      [ | by rewrite Ek | by rewrite Ec | done]. rewrite (bind_run _ _ _ _ _ E2). exists w2.
    assert (screen_of w1 = screen_of w) as <- by (unfold screen_of, con_state; by rewrite Em, Ec). done.
Qed.
End Panic.

(** *** Witnesses *)

#[local] Existing Instance plain_build.

(** A machine whose only USB controller is not an xHCI, with a memory map of two regions. *)
Definition plain_features : Features := mkFeatures false false false cfg_default.

Lemma usb_no_xhci : no_xhci (usb_space 0).
Proof. intros [b d f] _ _. unfold is_usb, usb_space. case_bool_decide; discriminate. Qed.


(** A running kernel with three lines in the ring, two of which act. *)
Definition running_keys : list Z := bytes_of "uptime" ++ [10] ++ bytes_of "pci" ++ [10] ++ bytes_of "yield" ++ [10].

Definition running_world : World (PciSim 0) :=
  set_kbd (pushes running_keys (w_kbd sim_boot))
    (set_idt (mkIdt (Some tt) 0 0 0) (set_if true (set_serial_init true (boot_world (mkPciSim 0 : PciSim 0) ∅)))).

Lemma running_world_ok : kernel_running running_world.
Proof.
  assert (kbd_ok (w_kbd running_world)) as Hk.
  { apply pushes_spec. repeat split; discriminate || reflexivity. }
  constructor; [constructor | constructor | reflexivity | reflexivity]; try exact Hk;
    try (repeat split; discriminate || reflexivity).
  by left.
Qed.


Lemma panic_reports_witness :
  exists w1, message_out (panic_text (bytes_of "boom")) sim_ready w1 /\
    exists w', panic (bytes_of "boom") sim_ready = Halt w' /\ draws w1 w' /\
    screen_of w' = term_style (t_style (screen_of sim_ready))
      (fold_left term_byte (panic_text (bytes_of "boom")) (term_style 0x4f (screen_of sim_ready))).
Proof.
  apply (panic_reports (bytes_of "boom") sim_ready).
  - apply bytes_of_bytes.
  - repeat split; discriminate || reflexivity.
Defined.
