(* ===== verification/Keystrokes.v ===== *)
(** * From a key press to the answer on the serial line

    The keyboard controller raises request line 1 and gives up a scancode; the handler of
    idt.rs has keyboard.rs decode it, echo its characters and queue them; the main loop wakes up
    and the shell answers.  Here the handlers (Idt.v), the ring (Keyboard.v), the console
    (Vga.v), the shell (Session.v) and the main loop (Boot.v) are put together over any
    controller that promises what [KeyboardPort] says. *)

From S2P Require Import Prelude XhciData State Sim Fmt Serial Vga Pmm Debug Keyboard Pic Idt.
From S2P Require Import Journal ApplyAction AiModel Initrd AiAgent BootInfo Pci XhciRings Reports Shell Session Main Boot.
From stdpp Require Import gmap list strings.
From Stdlib Require Import ZArith Lia.

Open Scope Z_scope.

(** The interrupts of the keyboard among the raised lines. *)
Definition presses (ls : list Z) : nat := length (filter (fun l => l mod 16 = 1) ls).

(** The controller: [pressed] are the scancodes it has yet to give up, one for every read of its data
    port and one interrupt for each at most; nothing else the kernel does changes them. *)
Class KeyboardPort (D : Type) {HW : Hardware D} {CR : Crates D} (pressed : D -> list Z) : Prop := {
  kp_code : forall d, Forall (fits 8) (pressed d);
  kp_read : forall d sc q, pressed d = sc :: q ->
    fst (hw_in 0x60 d) = sc /\ pressed (snd (hw_in 0x60 d)) = q;
  kp_out : forall p v d, p <> 0x60 -> p <> 0x64 -> pressed (hw_out p v d) = pressed d;
  kp_eoi : forall v d, pressed (pic_notify_eoi v d) = pressed d;
  kp_irqs : forall d, pressed (snd (hw_irqs d)) = pressed d /\
    (presses (fst (hw_irqs d)) <= length (pressed d))%nat
}.

(** What a sequence of scancodes types, from a state of the Shift keys. *)
Fixpoint text_of (shift : bool) (scs : list Z) : list Z :=
  match scs with
  | [] => []
  | sc :: scs' => (if sc <? 128 then typed shift sc else []) ++ text_of (shift_after shift sc) scs'
  end.

Lemma text_of_snoc shift scs sc :
  text_of shift (scs ++ [sc]) =
  text_of shift scs ++ (if sc <? 128 then typed (fold_left shift_after scs shift) sc else []).
Proof.
  revert shift. induction scs as [ | s scs IH]; intros shift; cbn; [by rewrite app_nil_r | ].
  by rewrite IH, app_assoc.
Qed.

(** The counters after the handlers of [ls]. *)
Definition counts (ls : list Z) (c : IdtCounters) : IdtCounters :=
  fold_left (fun c l => counted (line_vector l) c) ls c.

Lemma presses_snoc ls l : presses (ls ++ [l]) = (presses ls + (if decide (l mod 16 = 1)%Z then 1 else 0))%nat.
Proof. unfold presses. rewrite filter_app, length_app. by destruct (decide _) as [H | H]; rewrite filter_cons; destruct (decide _). Qed.

Section Keystrokes.
Context {D : Type} {HW : Hardware D} {CR : Crates D} {CL : CratesLaws D} {BL : Build} {BK : BuildKeeps}.
Context (pressed : D -> list Z) {KP : KeyboardPort D pressed}.
Implicit Types w : World D.

(** ** Handlers that are not the keyboard's *)

Definition quiet (k : Keyboard) (scr : Term) (q : list Z) w : Prop :=
  w_kbd w = k /\ screen_of w = scr /\ pressed (w_dev w) = q.

Section Quiet.
Context (k : Keyboard) (scr : Term) (q : list Z).
Abbreviation qkeeps m := (keeps (quiet k scr q) m).

Ltac quiet_setter := apply keeps_modify; intros w (H1 & H2 & H3); by destruct w.

Lemma quiet_lock l : qkeeps (lock l).
Proof. intros w H. unfold lock. destruct (mutex_lock _); [by destruct w | done]. Qed.
Lemma quiet_unlock l : qkeeps (unlock l).
Proof. unfold unlock. quiet_setter. Qed.
Lemma quiet_set_if b : qkeeps (modify (set_if b)).
Proof. quiet_setter. Qed.
Lemma quiet_counters f : qkeeps (on_counters f).
Proof. unfold on_counters. quiet_setter. Qed.
Lemma quiet_notify v : qkeeps (notify_end_of_interrupt v).
Proof using KP.
  unfold notify_end_of_interrupt, with_lock.
  apply keeps_bind; [apply quiet_lock | intros _]. apply keeps_bind.
  - apply keeps_modify. intros w (H1 & H2 & H3). split; [done | split; [done | ]]. cbn. by rewrite kp_eoi.
  - intros []. apply keeps_bind; [apply quiet_unlock | intros _; apply keeps_ret].
Qed.
Lemma quiet_debug_line s : qkeeps (debug_line s).
Proof using KP.
  apply keeps_for. intros b. apply keeps_modify. intros w (H1 & H2 & H3).
  split; [done | split; [done | ]]. cbn. by rewrite kp_out.
Qed.
Hint Resolve quiet_set_if quiet_counters quiet_notify quiet_debug_line : keeps.

Lemma quiet_line l : l mod 16 <> 1 -> qkeeps (deliver_line l).
Proof using KP.
  intros Hl. unfold deliver_line, deliver. destruct (line_gate l) as (g & -> & Hg).
  apply keeps_bind; [keep | intros c]. destruct (IDT c); [ | keep].
  assert (qkeeps (run_handler (g_handler g) no_frame)) as Hh; [ | keep; exact Hh].
  destruct Hg as [[_ ->] | [[E _] | [_ (i & -> & _)]]]; [ | done | ]; cbn [run_handler].
  - unfold timer, TIMER_TICKS_fetch_add, IRQ_COUNT_fetch_add. keep.
  - unfold irq_handler_fn, IRQ_COUNT_fetch_add. keep.
Qed.
End Quiet.

(** ** The interrupts of one halt *)

(** [w] is [w0] after the handlers of [ls]. *)
Record keyed_in w0 (ls : list Z) w : Prop := mk_keyed_in {
  kn_keeps : isr_keeps w0 w;
  kn_queue : kqueue (w_kbd w) = fold_left enqueue
    (text_of (SHIFT_HELD (w_kbd w0)) (take (presses ls) (pressed (w_dev w0)))) (kqueue (w_kbd w0));
  kn_shift : SHIFT_HELD (w_kbd w) =
    fold_left shift_after (take (presses ls) (pressed (w_dev w0))) (SHIFT_HELD (w_kbd w0));
  kn_screen : screen_of w = fold_left echo
    (text_of (SHIFT_HELD (w_kbd w0)) (take (presses ls) (pressed (w_dev w0)))) (screen_of w0);
  kn_pressed : pressed (w_dev w) = drop (presses ls) (pressed (w_dev w0));
  kn_idt : w_idt w = counts ls (w_idt w0)
}.

(** A key press. *)
Lemma wph_press w0 ls l w sc q :
  keyed_in w0 ls w -> l mod 16 = 1 -> pressed (w_dev w) = sc :: q ->
  wph (deliver_line l) w (fun _ => keyed_in w0 (ls ++ [l])) powered_off.
Proof using KP CL.
  intros [K Q S C P I] Hl E. eapply wph_mono; [apply wph_deliver_line, K | | by intros w1 (_ & _ & H1)].
  intros [] w1 (K1 & _ & I1 & Y1 & _). specialize (Y1 Hl). unfold keyed in Y1.
  destruct (kp_read _ _ _ E) as [R1 R2]. pose proof (kp_code (w_dev w)) as F. rewrite E in F.
  apply Forall_cons in F as [F _].
  destruct (hw_in 0x60 (w_dev w)) as [v d]. cbn [fst snd] in R1, R2. subst v.
  rewrite wrap_small in Y1 by exact F. destruct Y1 as (Y1 & Y2 & Y3).
  rewrite P in E. assert (pressed (w_dev w0) !! presses ls = Some sc) as Es.
  { rewrite <- (Nat.add_0_r (presses ls)), <- lookup_drop, E. done. }
  assert (presses (ls ++ [l]) = Datatypes.S (presses ls)) as Ep
    by (rewrite presses_snoc, decide_True by done; lia).
  destruct (pushes_spec (if sc <? 128 then typed (SHIFT_HELD (w_kbd w)) sc else []) (w_kbd w) (ir_kbd _ (proj2 K)))
    as (_ & Pq & _). rewrite S in Pq.
  constructor; rewrite ?Ep, ?(take_S_r _ _ _ Es).
  - by eapply isr_keeps_trans.
  - rewrite text_of_snoc, fold_left_app, <- Q, <- Pq, Y1, S. done.
  - rewrite fold_left_app, <- S, Y1. done.
  - rewrite text_of_snoc, fold_left_app, <- C, Y2, S. done.
  - rewrite Y3, kp_eoi, R2. symmetry. change (Datatypes.S (presses ls)) with (1 + presses ls)%nat.
    by rewrite Nat.add_comm, <- drop_drop, E.
  - rewrite I1, I. unfold counts. by rewrite fold_left_app.
Qed.

(** Any other interrupt. *)
Lemma wph_other w0 ls l w :
  keyed_in w0 ls w -> l mod 16 <> 1 ->
  wph (deliver_line l) w (fun _ => keyed_in w0 (ls ++ [l])) powered_off.
Proof using KP CL.
  intros [K Q S C P I] Hl.
  eapply wph_mono; [apply wph_keeps; [by apply (quiet_line (w_kbd w) (screen_of w) (pressed (w_dev w))) | done | apply wph_deliver_line, K] | | by intros w1 (_ & _ & H1)].
  intros [] w1 [(K1 & _ & I1 & _) (Y1 & Y2 & Y3)].
  assert (presses (ls ++ [l]) = presses ls) as Ep
    by (rewrite presses_snoc, decide_False by done; lia).
  constructor; rewrite ?Ep.
  - by eapply isr_keeps_trans.
  - by rewrite Y1.
  - by rewrite Y1.
  - by rewrite Y2.
  - by rewrite Y3.
  - rewrite I1, I. unfold counts. by rewrite fold_left_app.
Qed.

Lemma presses_cons l ls : presses (l :: ls) = ((if decide (l mod 16 = 1)%Z then 1 else 0) + presses ls)%nat.
Proof. unfold presses. rewrite filter_cons. by destruct (decide _). Qed.

Lemma wph_lines w0 ls2 ls1 w :
  keyed_in w0 ls1 w -> (presses ls2 <= length (pressed (w_dev w)))%nat ->
  wph (kfor ls2 deliver_line) w (fun _ => keyed_in w0 (ls1 ++ ls2)) powered_off.
Proof using KP CL.
  revert ls1 w. induction ls2 as [ | l ls2 IH]; intros ls1 w H Hp.
  { apply wph_wp, wp_ret. by rewrite app_nil_r. }
  rewrite presses_cons in Hp. rewrite (app_assoc ls1 [l] ls2 : ls1 ++ l :: ls2 = _).
  apply wph_bind. apply (wph_mono _ _ (fun _ => keyed_in w0 (ls1 ++ [l])) _ powered_off); [ | | done].
  - destruct (decide (l mod 16 = 1)) as [E | E]; [ | by apply wph_other].
    destruct (pressed (w_dev w)) as [ | sc q] eqn:Eq; [cbn in Hp; lia | by eapply wph_press].
  - intros [] w1 H1. apply IH; [done | ]. rewrite (kn_pressed _ _ _ H) in Hp.
    rewrite (kn_pressed _ _ _ H1), presses_snoc. rewrite length_drop in *. destruct (decide _); lia.
Qed.

(** A point where interrupts come: what was typed is queued and echoed, the ticks are counted. *)
Lemma wph_point w0 ls w :
  keyed_in w0 ls w -> kernel_running w ->
  wph preempt w (fun _ w' => keyed_in w0 (ls ++ fst (hw_irqs (w_dev w))) w' /\ kernel_running w') powered_off.
Proof using KP CL.
  intros H R. apply (wph_mono _ _ (fun _ w' => keyed_in w0 (ls ++ fst (hw_irqs (w_dev w))) w' /\
                                   (isr_step w w' /\ kernel_running w')) _ powered_off);
    [ | by intros [] w' (? & _ & ?) | done].
  apply wph_and with (H' := powered_off); [ | by apply wph_preempt_running].
  unfold preempt, wph. rewrite (kr_if _ R). destruct (kp_irqs (w_dev w)) as [Ed Hp].
  destruct (hw_irqs (w_dev w)) as [l d]. cbn [fst snd] in *.
  fold (wph (kfor l deliver_line) (set_dev d w) (fun _ => keyed_in w0 (ls ++ l)) powered_off).
  apply wph_lines; [ | by destruct w; cbn in *; rewrite Ed]. destruct H as [K Q S C P I].
  assert (isr_keeps w (set_dev d w)) as K'.
  { apply isr_keeps_io; [apply R | ]. exists d, []. by destruct w. }
  constructor; [by eapply isr_keeps_trans | by destruct w | by destruct w | by destruct w | | by destruct w].
  rewrite <- P, <- Ed. by destruct w.
Qed.

Lemma keyed_none w : kernel_running w -> keyed_in w [] w.
Proof. intros R. constructor; try done. by split; [ | apply R]. Qed.

Section Round.
Context (F : Features).
Variables (fuel naps rounds : nat) (sa so : Z).

End Round.
End Keystrokes.

(** *** Witness: a keyboard with [uptime] and Enter in its controller, and a timer *)

#[local] Existing Instance plain_build.

Record KeyDev : Type := mkKeyDev { kd_codes : list Z }.

(** COM1 is ready at all times; every look at the lines finds one tick and the keyboard's. *)
#[export] Instance keydev_hardware : Hardware KeyDev := {
  hw_in p d := if p =? 0x60 then match kd_codes d with sc :: q => (u8 sc, mkKeyDev q) | [] => (0, d) end else (0x60, d);
  hw_out _ _ d := d;
  hw_mmio_read _ d m := (0, d, m);
  hw_mmio_write _ _ d m := (d, m);
  hw_dma d m := (d, m);
  hw_irqs d := (0 :: replicate (length (kd_codes d)) 1, d)
}.
#[export] Instance keydev_crates : Crates KeyDev := plain_crates KeyDev.
#[export] Instance keydev_laws : CratesLaws KeyDev := plain_crates_laws KeyDev.

(** A controller gives up bytes. *)
Definition kd_pressed (d : KeyDev) : list Z := u8 <$> kd_codes d.

Lemma presses_ones n : presses (0 :: replicate n 1) = n.
Proof. unfold presses. rewrite filter_cons_False by done. induction n as [ | n IH]; [done | ]. cbn [replicate]. rewrite filter_cons_True by done. cbn. by rewrite IH. Qed.

#[export] Instance keydev_port : KeyboardPort KeyDev kd_pressed.
Proof.
  split; try done.
  - intros d. apply Forall_fmap, Forall_true. intros sc. by apply wrap_fits.
  - intros [[ | c l]] sc q E; [done | ]. by injection E as <- <-.
  - intros d. split; [done | ]. cbn [hw_irqs keydev_hardware fst]. rewrite presses_ones. unfold kd_pressed. by rewrite length_fmap.
Qed.

(** The keys of [uptime], each pressed and released, and Enter. *)
Definition uptime_codes : list Z :=
  [0x16; 0x96; 0x19; 0x99; 0x14; 0x94; 0x17; 0x97; 0x32; 0xB2; 0x12; 0x92; 0x1C].

Definition keys_world : World KeyDev :=
  set_idt (mkIdt (Some tt) 0 0 41) (set_if true (set_serial_init true (boot_world (mkKeyDev uptime_codes) ∅))).

Lemma keys_world_ok : kernel_running keys_world.
Proof.
  constructor; [constructor | constructor | reflexivity | reflexivity];
    try (repeat split; discriminate || reflexivity). by left.
Qed.

