(* ===== verification/Typed.v ===== *)
(** * The statics keep their types and ranges

    [typed] is what the kernel's code relies on about its own statics: the indices of
    the keyboard ring, of the line buffer and of the task table are in range, the cursor is on the
    screen, counters and sizes have their widths.  Every function of the kernel keeps it,
    on whatever machine and however it ends: [Prelude.keeps] also speaks of the state in which a call
    panics, deadlocks, halts or runs out of budget.  The statics are not part of the
    modelled memory, so stray writes and DMA over the kernel's image are assumed away; see
    [State.World]. *)

From S2P Require Import Prelude XhciData State Sim Fmt Serial Vga Pmm Task Debug Keyboard Pic Idt Gdt.
From S2P Require Import Journal ApplyAction AiModel Initrd AiAgent BootInfo Pci.
From S2P Require Import XhciRegs XhciRings XhciCtl Reports Shell Session Main.
From stdpp Require Import gmap list strings.
From Stdlib Require Import ZArith Lia.

Open Scope Z_scope.

(** ** The types *)

Record typed {D} (w : World D) : Prop := mk_typed {
  ty_kbd : kbd_ok (w_kbd w);
  ty_kbuf : Forall (fits 8) (KBUF (w_kbd w));
  ty_shell : shell_ok (w_shell w);
  ty_line : Forall (fits 8) (LINE (w_shell w));
  ty_console : console_ok (w_console w);
  ty_tasks : tasks_ok (w_tasks w);
  ty_pmm : fits 64 (NEXT_FREE (w_pmm w)) /\ fits 64 (LIMIT (w_pmm w));
  ty_counters : fits 64 (IRQ_COUNT (w_idt w)) /\ fits 64 (PAGE_FAULTS (w_idt w)) /\
                fits 64 (TIMER_TICKS (w_idt w));
  ty_apply : fits 32 (QUANTUM_US (w_apply w)) /\ fits 64 (SEQ (w_apply w))
}.

Lemma boot_typed {D} (d : D) m : typed (boot_world d m).
Proof.
  constructor; try (repeat split; discriminate || reflexivity);
    apply (Forall_replicate (fits 8) 256 0); split; discriminate || reflexivity.
Qed.

(** A setter of a static that [typed] does not mention. *)
Ltac untyped := apply keeps_modify; intros w []; by destruct w; constructor.

Section Typed.
Context {D : Type} {HW : Hardware D} {CR : Crates D}.
Implicit Types w : World D.
Abbreviation tkeeps m := (keeps (typed (D := D)) m).

(** *** Primitive effects *)

Lemma typed_port_write p v : tkeeps (port_write p v).
Proof. untyped. Qed.

Lemma typed_port_read n p : tkeeps (port_read n p).
Proof.
  intros w []. unfold port_read. destruct (hw_in p (w_dev w)). destruct w; cbn. by constructor.
Qed.

Lemma typed_lock l : tkeeps (lock l).
Proof. intros w H. unfold lock. destruct (mutex_lock _); [ | done]. destruct w, H; cbn. by constructor. Qed.

Lemma typed_unlock l : tkeeps (unlock l).
Proof. untyped. Qed.

Lemma typed_with_lock {A} l (m : K (World D) A) : tkeeps m -> tkeeps (with_lock l m).
Proof.
  intros Hm. unfold with_lock. apply keeps_bind; [apply typed_lock | intros _].
  apply keeps_bind; [exact Hm | intros a]. apply keeps_bind; [apply typed_unlock | intros _; apply keeps_ret].
Qed.
End Typed.

#[export] Hint Resolve typed_port_write typed_port_read typed_lock typed_unlock : keeps.

(** *** Devices that change no static: the serial line, the journal, PCI, xHCI registers *)

Section Devices.
Context {D : Type} {HW : Hardware D} {CR : Crates D}.
Implicit Types w : World D.
Abbreviation tkeeps m := (keeps (typed (D := D)) m).

Lemma typed_port_writes l p : tkeeps (kfor l (port_write p)).
Proof. keep. Qed.
Hint Resolve typed_port_writes : keeps.

Lemma typed_dbg_str s : tkeeps (dbg_str s).
Proof. apply typed_port_writes. Qed.
Lemma typed_dbg_fmt s : tkeeps (dbg_fmt s).
Proof. apply typed_port_writes. Qed.
Lemma typed_hex_digit i : tkeeps (hex_digit i).
Proof. unfold hex_digit. keep. Qed.
Hint Resolve typed_dbg_str typed_dbg_fmt typed_hex_digit : keeps.
Lemma typed_dbg_hex s v : tkeeps (dbg_hex s v).
Proof. unfold dbg_hex. keep. Qed.
Hint Resolve typed_dbg_hex : keeps.
Lemma typed_wait_transmit : tkeeps wait_transmit.
Proof. unfold wait_transmit, wait_round. keep. Qed.
Hint Resolve typed_wait_transmit : keeps.
Lemma typed_SerialPort_write_str s : tkeeps (SerialPort_write_str s).
Proof. unfold SerialPort_write_str, Serial.write_byte, send_byte. keep. Qed.
Hint Resolve typed_SerialPort_write_str : keeps.

Lemma typed_emit_text s :
  tkeeps (ready ← is_ready; if negb ready then dbg_fmt s else with_lock SERIAL (SerialPort_write_str s)).
Proof. unfold is_ready. keep. apply typed_with_lock. keep. Qed.

Lemma typed_write_fmt s : tkeeps (Serial.write_fmt s).
Proof. apply typed_emit_text. Qed.
Lemma typed_serial_panic s : tkeeps (Serial.panic s).
Proof. apply typed_emit_text. Qed.
Lemma typed_write_str s : tkeeps (Serial.write_str s).
Proof. unfold Serial.write_str. apply keeps_bind; [keep | intros _; apply typed_emit_text]. Qed.

Lemma typed_serial_init : tkeeps Serial.init.
Proof.
  unfold Serial.init, SerialPort_init. keep; [apply typed_with_lock; keep | untyped].
Qed.
End Devices.

#[export] Hint Resolve typed_port_writes typed_write_fmt typed_write_str typed_serial_panic typed_serial_init : keeps.

Section Devices2.
Context {D : Type} {HW : Hardware D} {CR : Crates D}.
Implicit Types w : World D.
Abbreviation tkeeps m := (keeps (typed (D := D)) m).

Lemma typed_debug_out s : tkeeps (debug_out s).
Proof. apply typed_port_writes. Qed.
Lemma typed_exit_qemu {A} c : tkeeps (exit_qemu (A := A) c).
Proof. unfold exit_qemu. keep. Qed.
Lemma typed_debug_line s : tkeeps (debug_line s).
Proof. apply typed_port_writes. Qed.

Lemma typed_w s : tkeeps (w_ s).
Proof. unfold w_, e9. keep. Qed.
Lemma typed_w_u64 v : tkeeps (w_u64 v).
Proof. unfold w_u64, e9. keep. Qed.
Lemma typed_sp : tkeeps sp.
Proof. unfold sp, e9. keep. Qed.
Lemma typed_nl : tkeeps nl.
Proof. unfold nl, e9. keep. Qed.
Hint Resolve typed_w typed_w_u64 typed_sp typed_nl : keeps.
Lemma typed_journal_intent seq a : tkeeps (journal_intent seq a).
Proof. unfold journal_intent. keep. Qed.
Lemma typed_journal_commit seq a : tkeeps (journal_commit seq a).
Proof. unfold journal_commit. keep. Qed.
Lemma typed_journal_fail seq a e : tkeeps (journal_fail seq a e).
Proof. unfold journal_fail. keep. Qed.
Lemma typed_journal_reject seq a : tkeeps (journal_reject seq a).
Proof. unfold journal_reject. keep. Qed.

Lemma typed_pic_init : tkeeps pic_init.
Proof. unfold pic_init. apply typed_with_lock. keep; untyped. Qed.
Lemma typed_notify v : tkeeps (notify_end_of_interrupt v).
Proof. unfold notify_end_of_interrupt. apply typed_with_lock. untyped. Qed.
End Devices2.

#[export] Hint Resolve typed_debug_out typed_exit_qemu typed_debug_line typed_journal_intent typed_journal_commit
  typed_journal_fail typed_journal_reject typed_pic_init typed_notify : keeps.

(** *** The console *)

(** The cursor stays on the screen whatever bytes are written. *)
Lemma cursor_new_line s : console_ok (fst s) -> console_ok (fst (new_line s)).
Proof.
  destruct s as [c m]. intros (H1 & H2 & H3). unfold new_line.
  unfold BUFFER_WIDTH, BUFFER_HEIGHT in *.
  destruct (Z.ltb_spec (row_position c) (25 - 1)); (split; [ | split]); cbn in *; unfold BUFFER_WIDTH, BUFFER_HEIGHT in *; lia || done.
Qed.

Lemma cursor_write_byte b s : console_ok (fst s) -> console_ok (fst (Vga.write_byte b s)).
Proof.
  intros H. unfold Vga.write_byte.
  set (s1 := if _ >=? _ then new_line s else s).
  assert (console_ok (fst s1) /\ column_position (fst s1) < BUFFER_WIDTH) as [(H1 & H2 & H3) Hlt].
  { subst s1. rewrite Z.geb_leb. destruct (Z.leb_spec BUFFER_WIDTH (column_position (fst s))).
    - split; [by apply cursor_new_line | ]. destruct s as [c m]. unfold new_line. by destruct (_ <? _).
    - done. }
  destruct s1 as [c m]. cbn in *. unfold BUFFER_WIDTH in *.
  split; [ | split; [exact H2 | exact H3]]. cbn. unfold BUFFER_WIDTH. rewrite wrap_small; lia.
Qed.

Lemma cursor_write_str l s : console_ok (fst s) -> console_ok (fst (console_write_str l s)).
Proof.
  unfold console_write_str. revert s. induction l as [ | b l IH]; intros s H; [done | ]. cbn [fold_left]. apply IH.
  unfold write_str_byte. destruct (b =? 10); [by apply cursor_new_line | ].
  destruct (b =? 13); [ | by apply cursor_write_byte].
  destruct H as (H1 & H2 & H3). split; [ | by split]. cbn. unfold BUFFER_WIDTH. lia.
Qed.

Lemma cursor_write_char c s : console_ok (fst s) -> console_ok (fst (write_char c s)).
Proof.
  intros H. unfold write_char. destruct (c =? 10); [by apply cursor_new_line | ].
  revert s H. induction (encode_utf8 c) as [ | b l IH]; intros s H; [done | ]. cbn [fold_left].
  by apply IH, cursor_write_byte.
Qed.

Lemma cursor_backspace s : console_ok (fst s) -> console_ok (fst (console_backspace s)).
Proof.
  destruct s as [c m]. intros (H1 & H2 & H3). cbn in H1, H2, H3. unfold console_backspace.
  rewrite !Z.gtb_ltb. unfold BUFFER_WIDTH, BUFFER_HEIGHT in *.
  destruct (Z.ltb_spec 0 (column_position c)); [ | destruct (Z.ltb_spec 0 (row_position c))];
    (split; [ | split]); cbn; unfold BUFFER_WIDTH, BUFFER_HEIGHT; lia || done.
Qed.

Lemma cursor_with_style sty s : fits 8 sty -> console_ok (fst s) -> console_ok (fst (with_style sty s)).
Proof. destruct s as [c m]. intros Hs (H1 & H2 & H3). by split. Qed.

Lemma cursor_clear s : console_ok (fst s) -> console_ok (fst (clear s)).
Proof. destruct s as [c m]. intros (H1 & H2 & H3). split; [split; discriminate | split; [by split | exact H3]]. Qed.

Section Console.
Context {D : Type} {HW : Hardware D} {CR : Crates D}.
Implicit Types w : World D.
Abbreviation tkeeps m := (keeps (typed (D := D)) m).

Lemma typed_on_console f :
  (forall s, console_ok (fst s) -> console_ok (fst (f s))) -> tkeeps (on_console f).
Proof.
  intros Hf. apply keeps_modify. intros w []. specialize (Hf (w_console w, w_mem w)).
  destruct (f _) as [c m]. destruct w; cbn in *. constructor; auto.
Qed.

Lemma typed_vga_call f :
  (forall s, console_ok (fst s) -> console_ok (fst (f s))) -> tkeeps (with_lock CONSOLE (on_console f)).
Proof. intros Hf. by apply typed_with_lock, typed_on_console. Qed.

Lemma typed_vga_init : tkeeps Vga.init.
Proof. apply typed_vga_call, cursor_clear. Qed.
Lemma typed_vga_write_str s : tkeeps (Vga.write_str s).
Proof. apply typed_vga_call, cursor_write_str. Qed.
Lemma typed_put_char c : tkeeps (Vga.put_char c).
Proof. apply typed_vga_call, cursor_write_char. Qed.
Lemma typed_backspace : tkeeps Vga.backspace.
Proof. apply typed_vga_call, cursor_backspace. Qed.
Lemma typed_set_style sty : fits 8 sty -> tkeeps (set_style sty).
Proof. intros Hs. apply typed_vga_call. intros s. by apply cursor_with_style. Qed.
Lemma typed_write_line s : tkeeps (write_line s).
Proof.
  unfold write_line. apply typed_with_lock, keeps_bind; [ | intros _].
  - apply typed_on_console, cursor_write_str.
  - apply typed_on_console, cursor_new_line.
Qed.
Lemma typed_vga_panic s : tkeeps (Vga.panic s).
Proof.
  unfold Vga.panic. apply typed_with_lock. apply (keeps_read_as _ (fun c => fits 8 (style c))).
  { intros w H. apply (ty_console _ H). }
  intros c Hc. cbv zeta. apply keeps_bind; [ | intros _; apply keeps_bind; [ | intros _]].
  - apply typed_on_console. intros s'. by apply cursor_with_style.
  - apply typed_on_console, cursor_write_str.
  - apply typed_on_console. intros s'. by apply cursor_with_style.
Qed.
End Console.

#[export] Hint Resolve typed_vga_init typed_vga_write_str typed_put_char typed_backspace typed_write_line
  typed_vga_panic : keeps.

(** *** The keyboard and the interrupts *)

Section Interrupts.
Context {D : Type} {HW : Hardware D} {CR : Crates D}.
Implicit Types w : World D.
Abbreviation tkeeps m := (keeps (typed (D := D)) m).

Lemma typed_on_kbd f :
  (forall k, kbd_ok k -> Forall (fits 8) (KBUF k) -> kbd_ok (f k) /\ Forall (fits 8) (KBUF (f k))) ->
  tkeeps (on_kbd f).
Proof.
  intros Hf. apply keeps_modify. intros w []. destruct (Hf (w_kbd w)); [done | done | ].
  destruct w; cbn in *. by constructor.
Qed.

Lemma typed_kbuf_push b : fits 8 b -> tkeeps (kbuf_push b).
Proof.
  intros Hb. apply typed_on_kbd. intros k Hk Hf. split; [by apply kbuf_push_spec | ].
  unfold kbuf_push_k. destruct (negb _); [ | done]. cbn. by apply Forall_insert.
Qed.

Lemma typed_SHIFT_HELD b : tkeeps (store_SHIFT_HELD b).
Proof. by apply typed_on_kbd. Qed.
Lemma typed_CTRL_HELD b : tkeeps (store_CTRL_HELD b).
Proof. by apply typed_on_kbd. Qed.

Lemma typed_poll_char {BL : Build} : tkeeps poll_char.
Proof.
  intros w H. unfold poll_char, poll_char_k, poll_char_with, id. destruct H.
  destruct (Z.eqb_spec (KTAIL (w_kbd w)) (KHEAD (w_kbd w))) as [E | E]; destruct w; cbn in *; constructor; try done.
  by apply kqueue_front.
Qed.

Hint Resolve typed_SHIFT_HELD typed_CTRL_HELD : keeps.
Lemma typed_handle_scancode sc : tkeeps (handle_scancode sc).
Proof. unfold handle_scancode. keep; apply typed_kbuf_push; try done. by apply wrap_fits. Qed.

Lemma typed_shutdown {A} combo : tkeeps (shutdown_via_keyboard (A := A) combo).
Proof. unfold shutdown_via_keyboard. keep. Qed.
Hint Resolve typed_handle_scancode typed_shutdown : keeps.

Lemma typed_on_counters f :
  (forall c, fits 64 (IRQ_COUNT c) /\ fits 64 (PAGE_FAULTS c) /\ fits 64 (TIMER_TICKS c) ->
     fits 64 (IRQ_COUNT (f c)) /\ fits 64 (PAGE_FAULTS (f c)) /\ fits 64 (TIMER_TICKS (f c))) ->
  tkeeps (on_counters f).
Proof.
  intros Hf. apply keeps_modify. intros w []. specialize (Hf (w_idt w) ty_counters0).
  destruct w; cbn in *. by constructor.
Qed.

Lemma typed_irq_count : tkeeps IRQ_COUNT_fetch_add.
Proof. apply typed_on_counters. intros c (H1 & H2 & H3). split; [by apply wrap_fits | done]. Qed.
Lemma typed_page_faults : tkeeps PAGE_FAULTS_fetch_add.
Proof. apply typed_on_counters. intros c (H1 & H2 & H3). split; [done | split; [by apply wrap_fits | done]]. Qed.
Lemma typed_ticks : tkeeps TIMER_TICKS_fetch_add.
Proof.
  unfold TIMER_TICKS_fetch_add. keep. apply typed_on_counters. intros c (H1 & H2 & H3).
  split; [done | split; [done | by apply wrap_fits]].
Qed.
Lemma typed_idt_init : tkeeps idt_init.
Proof. by apply typed_on_counters. Qed.
Hint Resolve typed_irq_count typed_page_faults typed_ticks : keeps.

Lemma typed_report {A} label stack e : tkeeps (report (A := A) label stack e).
Proof. unfold report, halt_loop. keep. Qed.
Hint Resolve @typed_report : keeps.

Lemma typed_run_handler h stack : tkeeps (run_handler h stack).
Proof.
  unfold run_handler, page_fault_fn, timer, keyboard, irq_handler_fn, syscall_entry, halt_loop. keep.
Qed.
Hint Resolve typed_run_handler : keeps.

Lemma typed_set_if b : tkeeps (modify (set_if b)).
Proof. untyped. Qed.
Hint Resolve typed_set_if : keeps.

Lemma typed_deliver s stack : tkeeps (deliver s stack).
Proof. unfold deliver. keep. Qed.
Hint Resolve typed_deliver : keeps.

Lemma typed_preempt : tkeeps preempt.
Proof.
  intros w H. unfold preempt. destruct (w_if w); [ | done]. destruct (hw_irqs (w_dev w)) as [ls d].
  assert (tkeeps (kfor ls deliver_line)) as K by (unfold deliver_line; keep). apply K. destruct w, H; cbn. by constructor.
Qed.

Lemma typed_syscall_init : tkeeps syscall_init.
Proof. unfold syscall_init. keep. Qed.
End Interrupts.

#[export] Hint Resolve typed_poll_char typed_idt_init typed_set_if typed_deliver typed_preempt typed_syscall_init : keeps.

(** *** The allocator, the tasks, the actions, the agent *)

Lemma land_fits x y : fits 64 x -> fits 64 (Z.land x y).
Proof.
  intros [H1 H2]. split; [apply Z.land_nonneg; by left | ].
  rewrite <- (Z.mod_small x (2 ^ 64)) by done. rewrite <- Z.land_ones by done.
  rewrite <- Z.land_assoc, (Z.land_comm (Z.ones 64)), Z.land_assoc, Z.land_ones by done. by apply Z.mod_pos_bound.
Qed.

Lemma align_up_fits v a : fits 64 (align_up v a).
Proof. apply land_fits. by apply wrap_fits. Qed.

Section Kernel.
Context {D : Type} {HW : Hardware D} {CR : Crates D}.
Implicit Types w : World D.
Abbreviation tkeeps m := (keeps (typed (D := D)) m).

Lemma scan_fits es b : fits 64 (fst b) -> fits 64 (fst (fold_left scan_entry es b)).
Proof.
  revert b. induction es as [ | e es IH]; intros b H; [done | ]. cbn [fold_left]. apply IH. unfold scan_entry.
  destruct (negb _); [done | ]. destruct (_ <=? _); [done | ]. destruct (_ >? _); [apply align_up_fits | done].
Qed.

Lemma typed_pmm f :
  (forall p, fits 64 (NEXT_FREE p) /\ fits 64 (LIMIT p) -> fits 64 (NEXT_FREE (f p)) /\ fits 64 (LIMIT (f p))) ->
  tkeeps (modify (fun w => set_pmm (f (w_pmm w)) w)).
Proof.
  intros Hf. apply keeps_modify. intros w []. specialize (Hf (w_pmm w) ty_pmm0). destruct w; cbn in *. by constructor.
Qed.

Lemma typed_pmm_init boot : tkeeps (Pmm.init boot).
Proof.
  unfold Pmm.init. apply keeps_bind; [keep | intros m]. cbv zeta.
  pose proof (scan_fits (BootInfo.entries m boot) (0, 0) ltac:(by split)) as Hs.
  destruct (fold_left scan_entry _ _) as [b n]. cbn in Hs. destruct (_ >=? _); [ | keep].
  apply keeps_bind; [ | intros _; apply keeps_bind; [ | intros _; keep]].
  - apply (typed_pmm (fun p => mkPmm b (LIMIT p))). by intros p [_ H].
  - apply (typed_pmm (fun p => mkPmm (NEXT_FREE p) (u64 (b + n)))). intros p [H _]. split; [done | by apply wrap_fits].
Qed.

Lemma place_fits adj align cur limit a stop :
  0 <= adj -> place adj align cur limit = Some (a, stop) -> fits 64 stop.
Proof.
  intros Ha. unfold place. destruct (_ || _); [done | ]. destruct (_ >=? 2 ^ 64) eqn:E; [done | ].
  destruct (_ >? _); [done | ]. intros [= <- <-]. rewrite Z.geb_leb, Z.leb_gt in E.
  pose proof (align_up_fits cur align). zlia.
Qed.

Lemma typed_alloc_aligned size align : tkeeps (alloc_aligned size align).
Proof.
  unfold alloc_aligned, alloc_round. destruct (bad_align align); [keep | ]. apply keeps_loop.
  apply keeps_bind; [keep | intros cur]. apply keeps_bind; [keep | intros limit].
  destruct (place (adjusted size align) align cur limit) as [[aligned stop] | ] eqn:E; [ | keep].
  apply place_fits in E; [ | apply align_up_fits]. apply keeps_bind; [ | intros; keep].
  intros w H. unfold cas_next_free. destruct (_ =? _); [ | done]. destruct H as [? ? ? ? ? ? [? ?] ? ?].
  destruct w; cbn in *. by constructor.
Qed.
Lemma typed_alloc_page : tkeeps alloc_page.
Proof. apply typed_alloc_aligned. Qed.
Lemma typed_free_kib : tkeeps free_kib.
Proof. unfold free_kib. keep. Qed.
Hint Resolve typed_pmm_init typed_alloc_aligned typed_alloc_page typed_free_kib : keeps.

Lemma fill_length t l l' : fill t l = Some l' -> length l' = length l.
Proof.
  revert l'. induction l as [ | [x | ] l IH]; intros l' E; cbn in E; [done | | by injection E as <-].
  destruct (fill t l) as [r | ]; [ | done]. injection E as <-. cbn. by rewrite (IH r).
Qed.

Lemma scan_range r slots i f i' :
  length slots = 8%nat -> 0 <= i < 8 -> Task.scan r slots i = Some (f, i') -> 0 <= i' < 8.
Proof.
  intros Hl. revert i. induction r as [ | r IH]; intros i Hi E; cbn in E; [by injection E as <- <- | ].
  rewrite Hl in E. assert (0 <= u64 (i + 1) mod Z.of_nat 8 < 8) by (by apply Z.mod_pos_bound).
  destruct (slots !! _) as [[g | ] | ]; [by injection E as <- <- | by eapply IH | done].
Qed.

Lemma typed_register t : tkeeps (register t).
Proof.
  unfold register. apply typed_with_lock. apply keeps_read. intros w H.
  destruct (fill t (TASKS (w_tasks w))) as [l | ] eqn:E; [ | done]. apply fill_length in E.
  destruct H as [? ? ? ? ? [T1 T2] ? ? ?]. destruct w; cbn in *. constructor; try done. split; cbn; [congruence | done].
Qed.

Lemma typed_pick : tkeeps pick.
Proof.
  unfold pick. do 2 apply typed_with_lock. apply keeps_read. intros w H.
  unfold mbind at 1, K_bind, kbind, gets. destruct (Task.scan _ _ _) as [[f i] | ] eqn:E; [ | done].
  destruct H as [? ? ? ? ? [T1 T2] ? ? ?]. apply scan_range in E; [ | done | done].
  destruct w; cbn in *. by constructor.
Qed.
Hint Resolve typed_register typed_pick : keeps.

Lemma typed_run_once f : (forall t, tkeeps (f t)) -> tkeeps (run_once f).
Proof. intros Hf. unfold run_once. apply keeps_bind; [keep | ]. intros [t | ]; [apply Hf | keep]. Qed.

Lemma typed_runqueue_len : tkeeps runqueue_len.
Proof. unfold runqueue_len. apply typed_with_lock. keep. Qed.

Lemma typed_write_quantum us : fits 32 us -> tkeeps (write_quantum us).
Proof.
  intros Hu. unfold write_quantum. keep. apply keeps_modify. intros w [? ? ? ? ? ? ? ? [? ?]].
  destruct w; cbn in *. by constructor.
Qed.

Lemma typed_self_test : tkeeps self_test_ok.
Proof. unfold self_test_ok, timer_ticks, page_faults. keep. Qed.
Hint Resolve typed_runqueue_len typed_self_test : keeps.

Lemma typed_apply_action seq a : tkeeps (apply_action_atomic seq a).
Proof.
  unfold apply_action_atomic, trim_cache. keep. apply typed_with_lock. unfold read_before_state.
  apply (keeps_read_as _ (fits 32)); [intros w H; apply (ty_apply _ H) | ]. intros before Hq. keep.
  - apply typed_write_quantum. by apply wrap_fits.
  - by apply typed_write_quantum.
Qed.
Hint Resolve typed_apply_action : keeps.

Lemma typed_propose action outcome : tkeeps (ai_propose_action action outcome).
Proof.
  unfold ai_propose_action, next_seq. keep; [ | untyped]. apply keeps_modify. intros w [? ? ? ? ? ? ? ? [? ?]].
  destruct w; cbn in *. constructor; try done. split; [done | by apply wrap_fits].
Qed.

Lemma typed_system_ready : tkeeps set_system_ready.
Proof. untyped. Qed.

Lemma typed_ensure_init : tkeeps ensure_init.
Proof. unfold ensure_init, load_model, timer_ticks, page_faults, set_agent_state. keep; untyped. Qed.
Lemma typed_gather t p : tkeeps (gather_telemetry t p).
Proof. unfold gather_telemetry, timer_ticks, page_faults. keep. Qed.
Hint Resolve typed_propose typed_system_ready typed_ensure_init typed_gather : keeps.

Lemma typed_agent_step cfg sa so : tkeeps (AiAgent.step cfg sa so).
Proof. unfold AiAgent.step, set_agent_state. keep; untyped. Qed.

Lemma typed_try_set_model : tkeeps try_set_model_from_initrd.
Proof. unfold try_set_model_from_initrd. keep; untyped. Qed.

Lemma typed_gdt_init {SG : Segmentation} : tkeeps gdt_init.
Proof. unfold gdt_init, set_once, load_segments. keep; untyped. Qed.
End Kernel.

#[export] Hint Resolve typed_pmm_init typed_alloc_aligned typed_alloc_page typed_free_kib typed_register
  typed_agent_step typed_try_set_model typed_gdt_init typed_system_ready : keeps.

(** *** The buses *)

Section Buses.
Context {D : Type} {HW : Hardware D} {CR : Crates D}.
Implicit Types w : World D.
Abbreviation tkeeps m := (keeps (typed (D := D)) m).

Lemma typed_read_u32 a off : tkeeps (Pci.read_u32 a off).
Proof. unfold Pci.read_u32. keep. Qed.
Hint Resolve typed_read_u32 : keeps.
Lemma typed_read_u16 a off : tkeeps (Pci.read_u16 a off).
Proof. unfold Pci.read_u16. keep. Qed.
Lemma typed_read_u8 a off : tkeeps (Pci.read_u8 a off).
Proof. unfold Pci.read_u8. keep. Qed.
Hint Resolve typed_read_u16 typed_read_u8 : keeps.
Lemma typed_vendor_id a : tkeeps (vendor_id a).
Proof. unfold vendor_id. keep. Qed.
Lemma typed_device_id a : tkeeps (device_id a).
Proof. unfold device_id. keep. Qed.
Lemma typed_class_code a : tkeeps (class_code a).
Proof. unfold class_code. keep. Qed.
Lemma typed_subclass a : tkeeps (subclass a).
Proof. unfold subclass. keep. Qed.
Lemma typed_prog_if a : tkeeps (prog_if a).
Proof. unfold prog_if. keep. Qed.
Lemma typed_header_type a : tkeeps (header_type a).
Proof. unfold header_type. keep. Qed.
Lemma typed_pci_bar a i : tkeeps (pci_bar a i).
Proof. unfold pci_bar. keep. Qed.

Lemma typed_find_usb {A} (cb : PciAddress -> A -> K (World D) A) a :
  (forall p a, tkeeps (cb p a)) -> tkeeps (find_usb_controllers cb a).
Proof.
  intros Hc. unfold find_usb_controllers, enumerate, scan_device, scan_function, has_function,
    vendor_id, class_code, subclass, header_type. keep; apply Hc.
Qed.

Lemma typed_read_volatile a : tkeeps (read_volatile a).
Proof.
  intros w []. unfold read_volatile. destruct (hw_mmio_read _ _ _) as [[v d] m]. destruct w; cbn in *. by constructor.
Qed.
Lemma typed_write_volatile a v : tkeeps (write_volatile a v).
Proof.
  intros w []. unfold write_volatile. destruct (hw_mmio_write _ _ _ _) as [d m]. destruct w; cbn in *. by constructor.
Qed.
Hint Resolve typed_read_volatile typed_write_volatile : keeps.
Lemma typed_write_pair a v : tkeeps (write_pair a v).
Proof. unfold write_pair. keep. Qed.
Lemma typed_read_pair a m : tkeeps (read_pair a m).
Proof. unfold read_pair. keep. Qed.
Hint Resolve typed_write_pair typed_read_pair : keeps.

Lemma typed_wait_for p : tkeeps p -> tkeeps (wait_for p).
Proof. intros Hp. unfold wait_for. keep. Qed.

Lemma typed_dma : tkeeps dma.
Proof. intros w []. unfold dma. destruct (hw_dma _ _) as [d m]. destruct w; cbn in *. by constructor. Qed.
Lemma typed_get_st : tkeeps get_st.
Proof. intros w H. unfold get_st. by destruct (w_xhci w). Qed.
Lemma typed_upd_st f : tkeeps (upd_st f).
Proof. untyped. Qed.
Lemma typed_upd_mem f : tkeeps (upd_mem f).
Proof. untyped. Qed.
End Buses.

#[export] Hint Resolve typed_vendor_id typed_device_id typed_class_code typed_subclass typed_prog_if typed_pci_bar
  typed_read_u32 typed_read_u16 typed_read_u8 typed_read_volatile
  typed_write_volatile typed_write_pair typed_read_pair typed_dma typed_get_st typed_upd_st typed_upd_mem : keeps.

(** The lock of the controller, and its registers, under the same automation. *)
Ltac keep_xhci :=
  repeat first
    [ keep_step
    | lazymatch goal with
      | |- keeps _ (with_lock _ _) => apply typed_with_lock
      | |- keeps _ (with_state _) => apply typed_with_lock
      | |- keeps _ (if_controller _ _) => unfold if_controller
      | |- keeps _ (wait_for _) => apply typed_wait_for
      end ].

Section Xhci.
Context {D : Type} {HW : Hardware D} {CR : Crates D}.
Implicit Types w : World D.
Abbreviation tkeeps m := (keeps (typed (D := D)) m).

Lemma typed_ring_doorbell s t : tkeeps (ring_doorbell s t).
Proof. unfold ring_doorbell, ring. keep_xhci. Qed.
Lemma typed_put_on g p t : tkeeps (put_on g p t).
Proof. unfold put_on. keep_xhci. Qed.
Hint Resolve typed_ring_doorbell typed_put_on : keeps.
Lemma typed_enqueue_noop : tkeeps enqueue_noop_command.
Proof. unfold enqueue_noop_command, command_unusable. keep_xhci. Qed.
Lemma typed_enqueue_command ty p s : tkeeps (enqueue_command_trb ty p s).
Proof. unfold enqueue_command_trb, command_unusable. keep_xhci. Qed.
Lemma typed_enqueue_command_slot ty p s slot : tkeeps (enqueue_command_trb_slot ty p s slot).
Proof. unfold enqueue_command_trb_slot, command_unusable. keep_xhci. Qed.
Lemma typed_ep0_enqueue t : tkeeps (ep0_enqueue_trb t).
Proof. unfold ep0_enqueue_trb. keep_xhci. Qed.
Lemma typed_ep0_cycle : tkeeps ep0_cycle_bit.
Proof. unfold ep0_cycle_bit. keep_xhci. Qed.
Lemma typed_intr_enqueue t : tkeeps (intr_enqueue_trb t).
Proof. unfold intr_enqueue_trb. keep_xhci. Qed.
Lemma typed_intr_cycle : tkeeps intr_cycle_bit.
Proof. unfold intr_cycle_bit. keep_xhci. Qed.

Lemma typed_decode p l : tkeeps (decode_hid_report p l).
Proof. unfold decode_hid_report, byte_at, hid_usage_to_ascii. keep_xhci. Qed.
Hint Resolve typed_decode : keeps.
Lemma typed_handle_event ty t : tkeeps (handle_event ty t).
Proof.
  unfold handle_event, on_command_completion, on_transfer_event, on_port_status_change, repost_report, portsc.
  keep_xhci.
Qed.
Hint Resolve typed_handle_event : keeps.
Lemma typed_poll_loop n ir b : tkeeps (poll_loop n ir b).
Proof.
  revert b. induction n as [ | n IH]; intros b; cbn [poll_loop]; [keep | ].
  apply keeps_bind; [unfold poll_round, set_erdp; keep_xhci | ]. intros []; [apply IH | keep].
Qed.
Hint Resolve typed_poll_loop : keeps.
Lemma typed_poll_events n : tkeeps (poll_events n).
Proof. unfold poll_events. keep_xhci. Qed.
Hint Resolve typed_poll_events : keeps.
Lemma typed_wait_command n it : tkeeps (wait_for_command_completion n it).
Proof. unfold wait_for_command_completion, take_completion. keep_xhci. Qed.
End Xhci.

#[export] Hint Resolve typed_ring_doorbell typed_put_on typed_poll_events typed_wait_command
  typed_enqueue_noop typed_enqueue_command typed_enqueue_command_slot typed_ep0_enqueue
  typed_ep0_cycle typed_intr_enqueue typed_intr_cycle : keeps.

Section Controller.
Context {D : Type} {HW : Hardware D} {CR : Crates D}.
Implicit Types w : World D.
Abbreviation tkeeps m := (keeps (typed (D := D)) m).

Lemma typed_say s : tkeeps (say s).
Proof. apply typed_write_str. Qed.
Lemma typed_get_info : tkeeps get_info.
Proof. unfold get_info. keep_xhci. Qed.
Lemma typed_usbcmd op : tkeeps (usbcmd op).
Proof. unfold usbcmd. keep. Qed.
Lemma typed_usbsts op : tkeeps (usbsts op).
Proof. unfold usbsts. keep. Qed.
Lemma typed_crcr op : tkeeps (crcr op).
Proof. unfold crcr. keep. Qed.
Lemma typed_portsc op : tkeeps (portsc op).
Proof. unfold portsc. keep. Qed.
Hint Resolve typed_say typed_get_info typed_usbcmd typed_usbsts typed_crcr typed_portsc : keeps.

Lemma typed_reset_controller op : tkeeps (reset_controller op).
Proof. unfold reset_controller, set_usbcmd. keep_xhci. Qed.
Lemma typed_allocate_structures i : tkeeps (allocate_structures i).
Proof. unfold allocate_structures. keep_xhci. Qed.
Lemma typed_program_registers x c d e s : tkeeps (program_registers x c d e s).
Proof.
  unfold program_registers, set_dcbaap, set_crcr, set_config, set_erstsz, set_erstba, set_erdp, iman, set_iman,
    set_imod, clear_usbsts, set_usbcmd. keep_xhci.
Qed.
Hint Resolve typed_reset_controller typed_allocate_structures typed_program_registers : keeps.
Variable fuel : nat.
Lemma typed_init_controller i : tkeeps (init_controller fuel i).
Proof. unfold init_controller. keep_xhci. untyped. Qed.

Lemma typed_report_ports : tkeeps report_ports.
Proof. unfold report_ports. keep_xhci. Qed.
Lemma typed_connected op l : tkeeps (connected op l).
Proof. induction l as [ | i l IH]; cbn [connected]; keep_xhci. Qed.
Hint Resolve typed_connected : keeps.
Lemma typed_find_port : tkeeps find_first_connected_port.
Proof. unfold find_first_connected_port. keep_xhci. Qed.
Hint Resolve typed_find_port : keeps.
Lemma typed_reset_port i : tkeeps (reset_port i).
Proof. unfold reset_port, write_portsc. keep_xhci. Qed.
Hint Resolve typed_reset_port : keeps.
Lemma typed_ensure_port : tkeeps ensure_first_port_enabled.
Proof. unfold ensure_first_port_enabled. keep_xhci. Qed.
Lemma typed_enable_slot : tkeeps (enable_slot fuel).
Proof. unfold enable_slot. keep_xhci. Qed.
Lemma typed_speed : tkeeps speed_of_first_port.
Proof. unfold speed_of_first_port. keep_xhci. Qed.
Hint Resolve typed_speed : keeps.
Lemma typed_poke p i v : tkeeps (poke p i v).
Proof. apply typed_upd_mem. Qed.
Hint Resolve typed_poke : keeps.
Lemma typed_address_device slot : tkeeps (address_device fuel slot).
Proof. unfold address_device. keep_xhci. Qed.

Lemma typed_wait_transfer b : tkeeps (wait_transfer fuel b).
Proof. unfold wait_transfer, take_transfer. keep_xhci. Qed.
Hint Resolve typed_wait_transfer : keeps.
Lemma typed_control_in s rt r v i l d : tkeeps (control_in fuel s rt r v i l d).
Proof. unfold control_in, ring_ep0. keep_xhci. Qed.
Lemma typed_control_no_data s rt r v i : tkeeps (control_no_data fuel s rt r v i).
Proof. unfold control_no_data, ring_ep0. keep_xhci. Qed.
Hint Resolve typed_control_in typed_control_no_data : keeps.
Lemma typed_device_descriptor s : tkeeps (get_device_descriptor fuel s).
Proof. unfold get_device_descriptor. keep_xhci. Qed.
Lemma typed_config_header s : tkeeps (get_configuration_descriptor_header fuel s).
Proof. unfold get_configuration_descriptor_header. keep_xhci. Qed.
Lemma typed_config_descriptor s n : tkeeps (get_configuration_descriptor fuel s n).
Proof. unfold get_configuration_descriptor. keep_xhci. Qed.
Lemma typed_set_configuration s v : tkeeps (set_configuration fuel s v).
Proof. unfold set_configuration. keep_xhci. Qed.
Lemma typed_configure_endpoint s a m i : tkeeps (configure_interrupt_in_endpoint fuel s a m i).
Proof. unfold configure_interrupt_in_endpoint. keep_xhci. Qed.
Lemma typed_hid_report s a m : tkeeps (request_hid_report_once fuel s a m).
Proof. unfold request_hid_report_once, take_report. keep_xhci. Qed.
Lemma typed_start_polling s a m : tkeeps (start_hid_polling s a m).
Proof. unfold start_hid_polling. keep_xhci. Qed.

Lemma typed_inspect b : tkeeps (inspect b).
Proof. unfold inspect, read_cap. keep. Qed.
End Controller.

#[export] Hint Resolve typed_say typed_init_controller typed_report_ports typed_ensure_port typed_enable_slot
  typed_address_device typed_device_descriptor typed_config_header typed_config_descriptor
  typed_set_configuration typed_configure_endpoint typed_start_polling typed_inspect : keeps.

(** *** The reports, the shell, the main loop *)

Section Top.
Context {D : Type} {HW : Hardware D} {CR : Crates D} {SG : Segmentation} {BL : Build}.
Implicit Types w : World D.
Abbreviation tkeeps m := (keeps (typed (D := D)) m).
Variables fuel naps : nat.

Lemma typed_log_memory_map boot : tkeeps (log_memory_map boot).
Proof. unfold log_memory_map, log_region. keep. Qed.
Lemma typed_bring_up_keyboard slot cfg n v : tkeeps (bring_up_keyboard fuel slot cfg n v).
Proof. unfold bring_up_keyboard. keep. Qed.
Hint Resolve typed_bring_up_keyboard : keeps.
Lemma typed_read_descriptors slot : tkeeps (read_descriptors fuel slot).
Proof. unfold read_descriptors. keep. Qed.
Hint Resolve typed_read_descriptors : keeps.
Lemma typed_bring_up_device : tkeeps (bring_up_device fuel).
Proof. unfold bring_up_device. keep. Qed.
Hint Resolve typed_bring_up_device : keeps.
Lemma typed_bring_up_controller i : tkeeps (bring_up_controller fuel i).
Proof. unfold bring_up_controller. keep. Qed.
Hint Resolve typed_bring_up_controller : keeps.
Lemma typed_log_usb : tkeeps (log_usb_controllers fuel).
Proof.
  unfold log_usb_controllers. keep. apply typed_find_usb. intros ? ?. unfold usb_controller. keep.
Qed.
Hint Resolve typed_log_usb : keeps.

Lemma typed_shell_write_str s : tkeeps (Shell.write_str s).
Proof. unfold Shell.write_str. keep. Qed.
Hint Resolve typed_shell_write_str : keeps.
Lemma typed_writeln s : tkeeps (writeln s).
Proof. unfold writeln. keep. Qed.
Lemma typed_print_num n : tkeeps (print_num n).
Proof. unfold print_num. keep. Qed.
Lemma typed_writeln_num s n : tkeeps (writeln_num s n).
Proof. unfold writeln_num. keep. Qed.
Lemma typed_prompt : tkeeps prompt.
Proof. unfold prompt. keep. Qed.
Lemma typed_hex_dump l : tkeeps (hex_dump l).
Proof. unfold hex_dump, hex_row. keep. Qed.
Lemma typed_sleep n t : tkeeps (sleep_loop n t).
Proof. induction n as [ | n IH]; cbn [sleep_loop]; unfold timer_ticks; keep. Qed.
Lemma typed_ls_entry e : tkeeps (ls_entry e).
Proof. unfold ls_entry. keep; apply typed_print_num. Qed.
Lemma typed_for_each n b l o f : (forall e, tkeeps (f e)) -> tkeeps (for_each_loop n b l o f).
Proof. intros Hf. revert o. induction n as [ | n IH]; intros o; cbn [for_each_loop]; keep; apply Hf. Qed.
Lemma typed_find p : tkeeps (Initrd.find p).
Proof. unfold Initrd.find. keep. Qed.
Hint Resolve typed_writeln typed_writeln_num typed_prompt typed_hex_dump typed_sleep typed_ls_entry typed_find : keeps.
Lemma typed_ls : tkeeps (for_each ls_entry).
Proof. unfold for_each. keep. by apply typed_for_each, typed_ls_entry. Qed.
Hint Resolve typed_ls : keeps.

Lemma typed_run_command cmd arg : tkeeps (run_command fuel naps cmd arg).
Proof.
  unfold run_command, cat, hexdump, ai, sleep_ms, is_system_ready, get_quantum_us, timer_ticks. keep.
Qed.
Hint Resolve typed_run_command : keeps.
Lemma typed_execute_line : tkeeps (execute_line fuel naps).
Proof. unfold execute_line. keep. Qed.
Hint Resolve typed_execute_line : keeps.

Definition line_ok (sh : ShellState) : Prop := shell_ok sh /\ Forall (fits 8) (LINE sh).

Lemma typed_set_shell f :
  (forall sh, line_ok sh -> line_ok (f sh)) -> tkeeps (modify (fun w => set_shell (f (w_shell w)) w)).
Proof.
  intros Hf. apply keeps_modify. intros w []. destruct (Hf (w_shell w)); [done | ].
  destruct w; cbn in *. by constructor.
Qed.

Lemma typed_set_LEN n : 0 <= n <= 256 -> tkeeps (set_LEN n).
Proof. intros Hn. apply (typed_set_shell (fun sh => mkShell (LINE sh) n)). intros sh [[H1 H2] H3]. by split. Qed.

Lemma typed_on_char c : tkeeps (on_char fuel naps c).
Proof.
  assert (forall w, typed w -> line_ok (w_shell w)) as L by (intros w []; by split).
  unfold on_char. destruct (c =? 10).
  { keep. by apply typed_set_LEN. }
  destruct (c =? 8).
  { apply (keeps_read_as _ line_ok); [exact L | ]. intros sh [[_ H] _].
    destruct (Z.ltb_spec 0 (LEN sh)); [apply typed_set_LEN; lia | keep]. }
  destruct (_ && _) eqn:E; [ | keep]. rewrite andb_true_iff, Z.leb_le, Z.ltb_lt in E.
  apply (keeps_read_as _ line_ok); [exact L | ]. intros sh [[H1 H2] H3].
  destruct (Z.ltb_spec (LEN sh) (zlen (LINE sh))); [ | keep].
  apply (typed_set_shell (fun _ => mkShell (<[Z.to_nat (LEN sh) := c]> (LINE sh)) (LEN sh + 1))). intros _ _.
  split; [split; cbn | cbn; by apply Forall_insert; [ | zlia]]; unfold zlen in *; rewrite ?length_insert; lia.
Qed.
Hint Resolve typed_on_char : keeps.

Lemma typed_shell_step n : tkeeps (Shell.step fuel naps n).
Proof. induction n as [ | n IH]; cbn [Shell.step]; keep. Qed.
Hint Resolve typed_shell_step : keeps.

Context (F : Features).
Variables (rounds : nat) (sa so : Z) (int3_frame : Frame).

Lemma typed_dispatch t : tkeeps (dispatch F sa so t).
Proof. unfold dispatch. keep. Qed.
Lemma typed_agent_turn : tkeeps (agent_turn F sa so).
Proof. unfold agent_turn. keep. apply typed_run_once, typed_dispatch. Qed.
Lemma typed_early_agent boot : tkeeps (early_agent F sa so boot).
Proof. unfold early_agent. keep; [untyped | apply typed_run_once, typed_dispatch]. Qed.
Hint Resolve typed_agent_turn typed_early_agent : keeps.

Lemma typed_kernel_start boot : tkeeps (kernel_start F fuel sa so int3_frame boot).
Proof.
  unfold kernel_start, boot_serial, boot_screen, boot_devices, boot_prompt, Shell.start, kmain. keep;
    try (apply typed_set_style; split; [discriminate | reflexivity]). apply typed_log_memory_map.
Qed.
Hint Resolve typed_kernel_start : keeps.
Lemma typed_main_round : tkeeps (main_round F fuel naps rounds sa so).
Proof. unfold main_round. keep. Qed.
Hint Resolve typed_main_round : keeps.
Lemma typed_main_loop n : tkeeps (main_loop F fuel naps rounds sa so n).
Proof. induction n as [ | n IH]; cbn [main_loop]; keep. Qed.
Hint Resolve typed_main_loop : keeps.

End Top.
